(* ===== verification/_CoqProject ===== *)
-Q . S2P
Prelude.v
Http.v
Memory.v
Messages.v
IpcMessages.v
Buffers.v
Channel.v
Application.v
Functions.v
Mailbox.v
WorkQueue.v
Controller.v
Remote.v
CpProcess.v
CpApplication.v
CpServer.v
CpInvariant.v
CpProtocol.v
Threads.v
CpThreads.v
CpRaces.v
CpPool.v
RemoteThreads.v
Invoker.v
Context.v
Requests.v
Objects.v
WorkerMain.v
Serving.v
Backend.v
Config.v
Sdk.v
Startup.v
Launch.v
Lifecycle.v
Rounds.v
Service.v
RoundTrip.v
MessageTrip.v
StateTrip.v
CallTrip.v
Gateway.v
Creation.v
LegacyServing.v
Servers.v
Assembly.v
