(* ===== verification/Prelude.v ===== *)
(** * PraaS: a verification development

    PraaS runs serverless functions inside long-lived _processes_.  A process
    is one machine or container with a controller, a set of worker processes
    that run the functions, a mailbox for messages and state, and TCP
    connections to the data plane, to the control plane and to the other
    processes of its application.  The _control plane_ creates applications and
    processes on request over HTTP, swaps them out, and forwards invocations to
    them.  This library models the core of a process - everything between the
    bytes of its sockets and the bytes of its message queues - with the worker
    processes at the other end of the queues, the control plane between its HTTP
    handlers and the bytes of its connections, the serving program that starts
    processes as Docker containers, and the client library, and proves what
    makes them correct.

    ** How the parts fit together

<<
     peers, data plane, control plane         remote.cpp          Remote.v
        |  70-byte headers + payload          messages.hpp        Messages.v
        |  its lock and the two threads                           RemoteThreads.v
        v
     TCPServer  --CallRemote, ...-->  Controller   controller.cpp  Controller.v
                <--results, puts----   |   |   |
                                       |   |   +-- MessageStore, PendingMessages
                                       |   |         messages.cpp   Mailbox.v
                                       |   +------ WorkQueue, Workers
                                       |             workers.cpp    WorkQueue.v
                                       |             functions.cpp  Functions.v
                                       +---------- Application
                                                   application.hpp Application.v
     Workers --IPC messages--> worker processes
                128-byte headers + payload  ipc.cpp               Channel.v
                                            internal/messages.cpp IpcMessages.v
                                            buffer.hpp            Buffers.v
     worker process:  main loop, library of functions
                                   invoker/cpp/cli.cpp, functions.cpp WorkerMain.v
        Invoker                             internal/invoker.cpp  Invoker.v
        Context, what a function sees       context.cpp           Context.v
        its requests to the controller                            Requests.v
        C++ objects in its buffers      buffer.hpp, state.hpp     Objects.v
     start-up: configuration, environment   controller/config.cpp Startup.v
        the workers and their queues        workers.cpp, opts.cpp Launch.v
        signals, destructors, the end       cli.cpp, controller.cpp Lifecycle.v
     client --TCP--> process, --HTTP--> control plane
                                sdk/process.cpp, sdk/praas.cpp    Sdk.v
        requests, routes and replies        praas.cpp, http.hpp   Gateway.v

     control plane:  HTTP handlers --> Workers --> Resources --> Application
                        http.cpp      worker.cpp  resources.cpp  application.cpp
                                                                  CpApplication.v
                        Process, with its invocations and callbacks
                                                   process.cpp    CpProcess.v
                        TCPServer                  tcpserver.cpp  CpServer.v
     what holds of all its states                                 CpInvariant.v
     what it does for clients and processes                       CpProtocol.v
     its threads and locks, operations that overlap    Threads.v, CpThreads.v,
                                                                  CpRaces.v
        the pool of its workers                    worker.hpp     CpPool.v
     back ends                                     backend.cpp    Backend.v
     configuration                                 config.cpp     Config.v
     control plane --HTTP--> serving --HTTP--> Docker daemon
                                            serving/server.cpp    Serving.v
     HTTP answers, JSON                            http.cpp       Http.v
     older servers over sockets             serving/docker        LegacyServing.v
     command lines, HTTP client, ends       opts.cpp, http.cpp    Servers.v
     constructors, epoll, the serving's routes                    Assembly.v

     several programs together: rounds of the controller          Rounds.v
        an invocation in a process                                Service.v
        from the control plane and back                           RoundTrip.v
        from the client library and back                          Gateway.v
        to a function of another process and back                 CallTrip.v
        a message between two processes                           MessageTrip.v
        an object in the state of a process                       StateTrip.v
        the birth of a process                                    Startup.v
        its creation, from the client's request                   Creation.v
>>

    ** Conventions

    - A C++ function is a Rocq function with the same name where the name is
      free, otherwise with the name of its class or message in it
      ([set_put_name] is [PutMessage::name(std::string)]).  Overloads that set a
      field are [set_...].
    - [outcome] is how a call ends: a value, an exception ([exn], the classes of
      [common/exceptions.hpp]), or undefined behaviour.  A method that changes
      its object is a computation [M S A] over the state [S] of the object; it
      keeps the state reached when it throws.  [zoom] runs the method of a
      member.
    - Machine integers are [Z] with [wrap_i32], [wrap_u64]; bytes are lists, and
      records over a buffer read and write it at the offsets of the code
      (Memory.v).  [cview n v]: the string view [v] fits a field of [n] bytes
      and has no NUL.
    - Pointers to shared objects are keys: a pointer into the table of
      invocations is its key (WorkQueue.v), a [shared_ptr<Connection>] is a
      location of a heap (Remote.v), as is a [ProcessPtr] of the control plane
      (CpProcess.v); a [FunctionWorker&] is its index.  A stored callback is the
      data it captures.
    - What the code takes from elsewhere is a class: [Allocator] (the contents
      of fresh memory), [PosixMQ] and [PosixMQLaws] (the message queues of the
      kernel), [RapidJson] and its laws, [EqualRange] (the order of equal keys in a hash
      table), [UuidGenerator], [StdStod] ([std::stod]), [CpConfig], [JsonCpp] and
      [JSONInputArchive] (JSON in the control plane) and their laws, [Drogon] (the
      routing of HTTP requests and the text of JSON) and its laws,
      [DynamicLoader] ([dlopen]), [ThreadPool] (what a pool does with an exception),
      [Cereal] and its laws and [KeysArchive] (cereal), [Sockpp] and its laws
      (the client's socket), [Containers] (the environment of a container),
      [MqNamespace] (the names of message queues), [Epoll] (the kernel's table of
      descriptors) and its laws, [Cxxopts] and [CxxoptsValues] (command lines),
      [ProcessRequests] (a header the repository does not have); the answers of the Docker daemon and of the AWS
      services are arguments.  Each class has an instance, used by the
      witnesses.
    - Between components: [IpcChannel] with [IpcChannelLaws] is what the workers
      need of a channel, implemented by the POSIX queues of Channel.v and by a
      log; [RemoteServer] is what the controller needs of the TCP server,
      implemented by Remote.v and by a log.

    ** The files

    - Prelude.v: exceptions, outcomes, the monad, integers, automation.
    - Memory.v: bytes, little-endian fields, C strings and string views.
    - Messages.v ([common/include/praas/common/messages.hpp]): the nine TCP
      messages.  Encoding then parsing is the identity ([wire_roundtrip]), the
      setters accept exactly what fits ([setters_validate]), the parser is total
      ([parse_classifies]) and its views stay inside the buffer
      ([parsed_views_fit]).
    - IpcMessages.v ([process/runtime/.../ipc/messages.hpp],
      [src/internal/messages.cpp]): the same for the messages between controller
      and workers, and the bounds of the list of payload lengths
      ([set_buffers_bounds]).
    - Buffers.v ([internal/buffer.hpp]): payload buffers and their pool; when
      the pool returns a buffer that is large enough
      ([retrieve_buffer_large_enough]).
    - Channel.v ([internal/ipc/ipc.hpp], [src/internal/ipc.cpp]): messages over
      a queue with bounded pieces.  The channel refines a first-in first-out
      queue of messages under every interleaving of sender, receiver and empty
      reads ([channel_fifo]); each call is specified on every branch.
    - Application.v ([common/application.hpp]): the membership of the
      application.
    - Functions.v ([internal/functions.hpp], [src/internal/functions.cpp]): the
      table of functions read from JSON.
    - Mailbox.v ([process/controller/messages.hpp, messages.cpp]): stored
      messages refine a map of variables ([store_refines_variables]); waiting
      requests are taken one at a time ([find_get_takes_one]).
    - WorkQueue.v ([process/controller/workers.hpp, workers.cpp]): invocations
      from their first payload to their end.  The table and the queue stay
      consistent ([work_queue_invariant]), start in order ([next_is_fifo]), and
      a submitted one reaches one idle worker ([submit_reaches_idle_worker]).
    - Controller.v ([process/controller/controller.hpp, controller.cpp]): every
      message handler and one round of the event loop.  A result reaches
      whoever asked ([result_reaches_source]), an external request is queued or
      answered with an error ([external_request_accounted]), a put and a get
      meet in either order ([get_and_put_meet]), the scheduler uses every idle
      worker ([schedule_starts_all]), the round keeps the invariant
      ([poll_round_invariant]), and no signal of the network thread is lost
      ([no_wakeup_lost], over the interleavings of the two threads).
    - Remote.v ([process/controller/remote.hpp, remote.cpp]): the TCP server.
      The reassembly of messages from arbitrary reads refines a decoder of the
      whole stream ([reassembly_refines_stream]); puts to a peer that is not
      connected arrive in order once it is ([puts_reach_peer_in_order], sender
      and receiver together).
    - RemoteThreads.v ([remote.cpp]): the operations of Remote.v as programs that
      take [_conn_mutex] where the code takes it, on the thread of the controller
      and on that of the network.  Run by themselves they are the operations of
      Remote.v ([remote_alone]); no run deadlocks ([remote_runs_complete]); a put
      that overlaps with a new connection is lost ([put_lost]), or torn apart by
      the answer to a registration ([put_torn]).

    - CpProcess.v, CpApplication.v, CpServer.v ([control-plane/src/process.cpp],
      [application.cpp], [resources.cpp], [worker.cpp], [http.cpp],
      [tcpserver.cpp], the Docker part of [backend.cpp]): one state, [World],
      for the shared processes, the tables of the applications and of the TCP
      server, the outstanding requests to the back end, and what clients and
      processes were sent; an operation is a computation over it.  The table
      [_processes], which is only written, is [w_processes].  CpServer.v ends
      with the control plane as a transition system ([cp_event], [cp_step]).
    - CpInvariant.v: in every reachable state the tables are consistent and no
      event has undefined behaviour but one ([control_plane_invariant]), and
      every process follows its state machine ([process_life_cycle]).
    - CpProtocol.v: invocations queued for a process that starts reach it
      ([queued_invocations_reach_process], with the decoder of Remote.v at the
      other end) and its results reach the HTTP client
      ([result_answers_client]).

    - Http.v ([common/src/http.cpp]): JSON values, responses, [std::stoi].
    - Serving.v ([serving/src/server.cpp, containers.cpp]): the handlers of the
      serving program and the callbacks of its requests to the Docker daemon, as
      steps over one state.  No client is answered twice under any order of
      events ([clients_answered_once]); the lines of a reply ([split_lines]).
    - Threads.v: programs that take [std::shared_mutex]es and release them when
      they end, and their interleavings; threads that respect a ranking of the
      locks never get stuck ([runs_complete]).
    - CpThreads.v ([application.cpp], [worker.cpp], [tcpserver.cpp],
      [process.cpp], [application.hpp], [process.hpp]): the operations of the
      control plane with their locks; run by themselves they are the operations
      of CpApplication.v and CpServer.v ([call_prog_alone]).  Which of them run
      together without a deadlock ([calls_complete]), and the two that block
      each other ([swap_and_close_deadlock]); the move operations
      ([application_moves]).
    - CpRaces.v: operations that overlap because a lock is released at once: an
      invocation is lost ([invocation_lost]), a client is answered twice
      ([creation_answered_twice]).
    - CpPool.v ([worker.hpp], the closures of [http.cpp]): requests leave tasks to
      a pool of threads, where they wait.  The invariant of the control plane
      holds however they wait and run ([pool_invariant]); no task is lost, run
      twice or left behind ([pool_drains]); the events of CpServer.v are the case
      of an idle pool ([request_at_once]); an exception that a task lets out
      ([taken_name_in_the_pool]).
    - Backend.v ([control-plane/src/backend.cpp]): the back ends of the control
      plane.  A created container reaches the control plane, through the code of
      both programs ([created_container_reaches_backend]); a Fargate task is
      connected exactly once ([fargate_connects_once]).
    - Config.v ([control-plane/src/config.cpp], [cereal_load_optional]): which
      parts of a configuration can be left out ([config_sections_optional]).

    - Invoker.v ([internal/invoker.cpp, invoker.hpp]): the worker's end of the
      message queues.  An invocation that the controller submits is polled by
      the worker it was submitted to, with its payloads byte for byte
      ([submitted_invocation_is_polled], from WorkQueue.v through Channel.v).
    - Context.v ([process/runtime/src/context.cpp]): the buffers of a function
      over a heap of arrays, and its requests.  Every operation keeps every
      array owned once and alive ([context_memory_invariant]).
    - Requests.v: what the requests of a function mean to the controller and
      what it gets back ([context_get_returns_reply], [context_put_sends],
      [context_invoke_requests]).
    - Objects.v ([runtime/buffer.hpp], [internal/state.hpp]): C++ objects in the
      buffers of a function.  An object that fits is read back
      ([object_roundtrip]); one that does not is not reported
      ([object_too_large]).
    - WorkerMain.v ([process/invoker/cpp/cli.cpp, functions.cpp]): the library
      of functions ([library_resolves_table]) and the main loop of a worker,
      which answers every invocation it can run ([worker_answers_invocation]).
    - Sdk.v ([sdk/src/process.cpp, praas.cpp]): the client, against the server
      of Remote.v: registration ([sdk_connect_registers]), a call and its result
      ([sdk_invoke_roundtrip]), two clients ([sdk_clients_merge]).
    - Startup.v ([process/controller/src/config.cpp, cli.cpp], the address in
      [remote.cpp]): the configuration of a process and its connection to the
      control plane.  A process that the control plane asked for registers under
      its name and gets the invocations that wait for it, through the code of
      the control plane, the serving and the process ([process_is_born]).
    - Launch.v ([workers.cpp], [internal/ipc.cpp], [invoker/cpp/opts.cpp]): the
      queues and command lines of the workers ([workers_get_their_queues],
      [queues_are_released]).
    - Lifecycle.v ([invoker/cpp/cli.cpp], [controller/src/cli.cpp],
      [controller.cpp], [workers.cpp], [remote.cpp]): signals, destructors and
      the ends of [main].  Which ends of a controller release the queues of its
      workers ([ends_release_queues]), and what a worker does that is told to
      end ([worker_told_to_end]).
    - Rounds.v: whole rounds of the controller's loop, as the other programs see
      them: a request is taken and given to a worker ([round_starts]), the answer
      of the worker goes out ([round_answers]), a put and a get are served
      ([round_put_answers], [round_get_answers], [round_get_waits]).  [takes] and
      [awaits] say what a controller needs when its turn comes, so that other
      events may happen in between.
    - Service.v: an invocation in a process, from the call that brings it to the
      bytes of its result ([process_serves]); the theorems on several programs
      share it.
    - RoundTrip.v: one invocation from the control plane through the controller
      and a worker and back ([invocation_round_trip]).
    - MessageTrip.v: what a function puts to another process is what a function
      there gets, byte for byte, whichever of the two comes first
      ([message_trip]).
    - StateTrip.v: an object that a function stores in the state of its process is
      what a function that asks for it reads, on any worker and however often
      ([state_trip]); the list of keys ([state_keys_trip]); a key that is not there
      ([absent_state]).
    - CallTrip.v: a function that invokes a function of another process gets its
      code and its output ([call_trip]), through two controllers and two
      workers.
    - Gateway.v ([sdk/src/praas.cpp], [METHOD_LIST] of [control-plane/http.hpp],
      the JSON of [http.cpp] and [process.cpp]): what a client asks for is the
      event that the control plane handles, and what is answered is what the
      client reads: an invocation, from the client library to the function and
      back through four programs ([client_invocation_round_trip]), and the
      creation of an application ([sdk_creates_application]).
    - Creation.v: the creation of a process, from the request of the client
      through the control plane and the serving to the address the client reads,
      in either order of the reply of the serving and the registration of the
      process ([process_creation_round_trip]).
    - LegacyServing.v ([serving/docker]): two servers over plain sockets that the
      build does not compile: their slots and replies ([local_worker_slots]), and
      what goes wrong when they end or start a process
      ([local_worker_interrupted], [forked_before_started]).

    - Servers.v ([opts.cpp] and [cli.cpp] of the servers, [common/src/http.cpp],
      [server.cpp]): what the programs make of their command lines
      ([servers_take_options], [configurations_are_read]), the HTTP client and its
      pool ([clients_need_the_pool]), and the ends of the control plane and of the
      serving ([servers_end]).
    - Assembly.v ([controller.cpp], [control-plane/src/server.cpp], [backend.cpp],
      [deployment.cpp], [serving/src/server.cpp]): the constructors.  The events of
      the controller's loop are those that its constructor registered
      ([controller_watches]); a configuration file becomes a control plane
      ([control_plane_starts]) whose requests are the events of the serving
      ([requests_reach_serving]), which starts with a file of its own
      ([serving_starts]).

    Theorems that state what the code does where this is not what it means to do
    (for instance [read_delivers], [acknowledgements_merge_peers],
    [duplicate_key_steals_reply], [payloads_overflow_request],
    [closing_forgets_swapped_process], [controlplane_names_collide],
    [failed_allocation_blocks_name], [update_breaks_pending_get],
    [output_view_dangles], [object_too_large], [kill_unknown_undefined],
    [image_pull_reported_as_error], [sdk_clients_merge], [worker_told_to_end],
    [ends_release_queues], [unknown_application_unanswered],
    [refused_process_read], [swap_and_close_deadlock], [invocation_lost],
    [creation_answered_twice], [put_lost], [put_torn], [taken_name_in_the_pool],
    [application_moves],
    [configurations_are_read], [clients_need_the_pool], [servers_end],
    [control_plane_starts]) say so in their comment.

    ** Fuel

    [decode_fuel], [handle_message] (Remote.v): one more than the bytes there
    are, since every message consumes a header.  [schedule]: the number of idle
    workers, since every step takes one; enough fuel is part of
    [schedule_starts_all].  [send_loop]: the length of the data, since every
    piece is at least one byte; [recv_loop]: one more than the memory read into,
    for the same reason.  [cp_handle_message]: one more than the bytes there are
    ([cp_receive]); that it is enough is part of [control_plane_invariant], since
    running out is undefined behaviour.  [poll] (Invoker.v): one more than the
    messages ahead of the invocation, since every round takes a message; enough
    fuel is part of [submitted_invocation_is_polled].  [split] (Serving.v): one
    more than the length of the text, since every round moves on behind a
    delimiter; enough, by [split_lines].

    ** Not modelled

    Logging; [fork] and [exec] themselves; signals other than through the events
    of Lifecycle.v and Servers.v; threads of the network library other than
    through the steps above; the fairness of locks, the effects of a data race on
    memory (an access is one step in CpThreads.v and RemoteThreads.v; a step of
    Serving.v uses the table of the containers once); the calls of the HTTP library and of the AWS SDK other than by their
    arguments; the blocking overload of [Application::add_process], which only
    tests use; the binary format of cereal; the Python invoker;
    benchmarks and examples. *)

From stdpp Require Export base tactics list gmap strings numbers option.
From Stdlib Require Export ZArith Lia.

(** ** Exceptions: common/include/praas/common/exceptions.hpp

    Every class of the header is a constructor; the argument is the text the
    code passes to the constructor, without the numbers [fmt::format] prints
    into it.  [StdException] stands for the exceptions of the C++ standard
    library the code can raise ([std::bad_optional_access],
    [std::invalid_argument] from [std::stod], ...). *)
Inductive exn : Type :=
  | PraaSException (msg : string)
  | NotImplementedError
  | InvalidConfigurationError (msg : string)
  | ObjectExists (name : string)
  | ObjectDoesNotExist (name : string)
  | FailedAllocationError (msg : string)
  | InvalidProcessState (msg : string)
  | InvalidMessage (msg : string)
  | InvalidJSON (msg : string)
  | InvalidArgument (msg : string)
  | FunctionGetFailure (msg : string)
  | StdException (what : string).

(** [e] is caught by [catch (PraaSException&)]. *)
Definition is_praas_exception (e : exn) : bool :=
  match e with StdException _ => false | _ => true end.

(** [e.what()] *)
Definition what (e : exn) : string :=
  match e with
  | PraaSException msg => msg
  | NotImplementedError => "Function is not implemented!"
  | InvalidConfigurationError msg => msg
  | ObjectExists name => name
  | ObjectDoesNotExist name => "Object does not exist: " +:+ name
  | FailedAllocationError name => name
  | InvalidProcessState name => name
  | InvalidMessage name => name
  | InvalidJSON name => name
  | InvalidArgument name => name
  | FunctionGetFailure name => name
  | StdException w => w
  end.

(** ** Outcomes and the state/exception monad

    A C++ function returns, throws, or has undefined behaviour (an access out
    of the bounds of an array, the dereference of a past-the-end iterator). *)
Inductive outcome (A : Type) : Type :=
  | Ret (a : A)
  | Throw (e : exn)
  | Undef.
Arguments Ret {A} a.
Arguments Throw {A} e.
Arguments Undef {A}.

#[export] Instance outcome_ret : MRet outcome := fun A a => Ret a.
#[export] Instance outcome_bind : MBind outcome := fun A B f m =>
  match m with Ret a => f a | Throw e => Throw e | Undef => Undef end.
#[export] Instance outcome_fmap : FMap outcome := fun A B f m =>
  match m with Ret a => Ret (f a) | Throw e => Throw e | Undef => Undef end.

(** [true] when the outcome is a value *)
Definition is_ret {A} (m : outcome A) : bool :=
  match m with Ret _ => true | _ => false end.

(** A computation that changes a state and can fail half-way: the state at the
    point of the failure is kept, as it is in C++. *)
Definition M (S A : Type) : Type := S -> outcome A * S.

#[export] Instance M_ret {S} : MRet (M S) := fun A a s => (Ret a, s).
#[export] Instance M_bind {S} : MBind (M S) := fun A B f m s =>
  match m s with
  | (Ret a, s') => f a s'
  | (Throw e, s') => (Throw e, s')
  | (Undef, s') => (Undef, s')
  end.

Definition get {S} : M S S := fun s => (Ret s, s).
Definition put {S} (s : S) : M S unit := fun _ => (Ret tt, s).
Definition modify {S} (f : S -> S) : M S unit := fun s => (Ret tt, f s).
Definition gets {S A} (f : S -> A) : M S A := fun s => (Ret (f s), s).
Definition throw {S A} (e : exn) : M S A := fun s => (Throw e, s).
Definition undef {S A} : M S A := fun s => (Undef, s).
Definition lift {S A} (m : outcome A) : M S A := fun s => (m, s).

(** a computation on a part of the state *)
Definition zoom {S T A} (view : S -> T) (set : T -> S -> S) (m : M T A) : M S A :=
  fun s => let '(r, t) := m (view s) in (r, set t s).

(** [for (x : l) f(x)] *)
Fixpoint for_each {S A} (f : A -> M S unit) (l : list A) : M S unit :=
  match l with
  | [] => mret tt
  | x :: l' => f x ≫= fun _ => for_each f l'
  end.

(** ** Transition sequences *)
Section star.
Context {A : Type} (R : A -> A -> Prop).
Inductive star : A -> A -> Prop :=
  | star_refl a : star a a
  | star_step a b c : R a b -> star b c -> star a c.
End star.

(** ** Machine integers *)

(** the value of a [w]-bit two's complement integer with unsigned value [z] *)
Definition to_signed (w : Z) (z : Z) : Z := if (z <? 2 ^ (w - 1))%Z then z else (z - 2 ^ w)%Z.
(** conversion to [int32_t], [int16_t], [uint64_t] / [size_t] *)
Definition wrap_i32 (z : Z) : Z := to_signed 32 (z mod 2 ^ 32).
Definition wrap_i16 (z : Z) : Z := to_signed 16 (z mod 2 ^ 16).
Definition wrap_u64 (z : Z) : Z := (z mod 2 ^ 64)%Z.

Definition i32_range (z : Z) : Prop := (- 2 ^ 31 <= z < 2 ^ 31)%Z.
Definition u64_range (z : Z) : Prop := (0 <= z < 2 ^ 64)%Z.

(** ** Automation *)

(** split the outcome-valued scrutinees of a goal or hypothesis *)
Ltac case_outcome :=
  match goal with
  | H : context [match ?x with Ret _ => _ | Throw _ => _ | Undef => _ end] |- _ =>
      let E := fresh "E" in destruct x eqn:E
  | |- context [match ?x with Ret _ => _ | Throw _ => _ | Undef => _ end] =>
      let E := fresh "E" in destruct x eqn:E
  end.

(** unfold the monads of this file *)
Ltac unfold_monad :=
  unfold mret, mbind, fmap, outcome_ret, outcome_bind, outcome_fmap, M_ret, M_bind,
    get, put, modify, gets, throw, undef, lift in *.

(** ** Generic lemmas *)

Lemma wrap_i32_id z : i32_range z -> wrap_i32 z = z.
Proof.
  unfold i32_range, wrap_i32, to_signed. intros H.
  destruct (Z.ltb_spec (z mod 2 ^ 32) (2 ^ (32 - 1))) as [Hl|Hl].
  - assert (0 <= z \/ z < 0)%Z as [Hz|Hz] by lia.
    + apply Z.mod_small. lia.
    + rewrite <-(Z.mod_add z 1 (2 ^ 32)) in Hl by lia. rewrite Z.mod_small in Hl by lia. lia.
  - assert (0 <= z \/ z < 0)%Z as [Hz|Hz] by lia.
    + rewrite Z.mod_small in Hl by lia. lia.
    + rewrite <-(Z.mod_add z 1 (2 ^ 32)) by lia. rewrite Z.mod_small by lia. lia.
Qed.

Lemma wrap_i32_range z : i32_range (wrap_i32 z).
Proof.
  unfold wrap_i32, to_signed, i32_range.
  pose proof (Z.mod_pos_bound z (2 ^ 32) ltac:(lia)).
  destruct (Z.ltb_spec (z mod 2 ^ 32) (2 ^ (32 - 1))); lia.
Qed.

Lemma wrap_u64_id z : u64_range z -> wrap_u64 z = z.
Proof. unfold u64_range, wrap_u64. intros. apply Z.mod_small. lia. Qed.

Lemma star_trans {A} (R : A -> A -> Prop) a b c : star R a b -> star R b c -> star R a c.
Proof. induction 1; eauto using star. Qed.

Lemma star_one {A} (R : A -> A -> Prop) a b : R a b -> star R a b.
Proof. eauto using star. Qed.

(** an invariant of the steps is an invariant of the reachable states *)
Lemma star_invariant {A} (R : A -> A -> Prop) (I : A -> Prop) :
  (forall a b, I a -> R a b -> I b) -> forall a b, star R a b -> I a -> I b.
Proof. intros HI a b Hs. induction Hs; eauto. Qed.

Lemma for_each_app {S A} (f : A -> M S unit) l1 l2 s :
  for_each f (l1 ++ l2) s = (for_each f l1 ≫= fun _ => for_each f l2) s.
Proof.
  revert s. induction l1 as [|x l1 IH]; intros s; [done|].
  cbn. unfold mbind, M_bind in *. destruct (f x s) as [[] s']; auto.
Qed.

Lemma bind_ret_inv {A B} (m : outcome A) (f : A -> outcome B) b :
  m ≫= f = Ret b -> exists a, m = Ret a /\ f a = Ret b.
Proof. destruct m; cbn; naive_solver. Qed.

(** *** Reasoning about computations *)

Lemma M_bind_ret {S A B} (m : M S A) (f : A -> M S B) s b s' :
  (m ≫= f) s = (Ret b, s') -> exists a s1, m s = (Ret a, s1) /\ f a s1 = (Ret b, s').
Proof. unfold mbind, M_bind. destruct (m s) as [[a| |] s1]; naive_solver. Qed.

Lemma M_bind_eq {S A B} (m : M S A) (f : A -> M S B) s a s1 :
  m s = (Ret a, s1) -> (m ≫= f) s = f a s1.
Proof. unfold mbind, M_bind. now intros ->. Qed.

Lemma M_bind_assoc {S A B C} (m : M S A) (f : A -> M S B) (g : B -> M S C) s :
  ((m ≫= f) ≫= g) s = (m ≫= fun a => f a ≫= g) s.
Proof. unfold mbind, M_bind. destruct (m s) as [[a| |] s']; reflexivity. Qed.
Lemma M_bind_ext {S A B} (m : M S A) (f g : A -> M S B) s :
  (forall a s', f a s' = g a s') -> (m ≫= f) s = (m ≫= g) s.
Proof. intros Hfg. unfold mbind, M_bind. destruct (m s) as [[a| |] s']; auto. Qed.
Lemma M_bind_congr {S A B} (m m' : M S A) (f : A -> M S B) s : m s = m' s -> (m ≫= f) s = (m' ≫= f) s.
Proof. unfold mbind, M_bind. now intros ->. Qed.
(** the next statement is the same on both sides *)
Tactic Notation "ext_bind" ident(x) ident(w) := rewrite ?M_bind_assoc; apply M_bind_ext; intros x w.

(** [finish_prog] after a computation without a result *)
Lemma M_bind_tt {S} (m : M S unit) s : (m ≫= fun _ => (fun s1 => (Ret tt, s1)) : M S unit) s = m s.
Proof. unfold mbind, M_bind. destruct (m s) as [[[]| |] s']; reflexivity. Qed.

(** computations that do not look at the state *)
Lemma lift_eq {S A} (x : outcome A) a (s : S) : x = Ret a -> lift x s = (Ret a, s).
Proof. now intros ->. Qed.
Lemma lift_bind {S A B} (x : outcome A) (f : A -> outcome B) (s : S) :
  lift (x ≫= f) s = (lift x ≫= fun a => lift (f a)) s.
Proof. destruct x; reflexivity. Qed.

(** [m] preserves [P], whatever its outcome *)
Definition keeps {S A} (P : S -> Prop) (m : M S A) : Prop :=
  forall s r s', P s -> m s = (r, s') -> P s'.

Lemma keeps_ret {S A} (P : S -> Prop) (a : A) : keeps P (mret a).
Proof. intros s r s' Hs [= <- <-]. done. Qed.

Lemma keeps_lift {S A} (P : S -> Prop) (o : outcome A) : keeps P (lift o).
Proof. intros s r s' Hs [= <- <-]. done. Qed.

Lemma keeps_get {S} (P : S -> Prop) : keeps P get.
Proof. intros s r s' Hs [= <- <-]. done. Qed.

Lemma keeps_gets {S A} (P : S -> Prop) (f : S -> A) : keeps P (gets f).
Proof. intros s r s' Hs [= <- <-]. done. Qed.

Lemma keeps_modify {S} (P : S -> Prop) (f : S -> S) : (forall s, P s -> P (f s)) -> keeps P (modify f).
Proof. intros Hf s r s' Hs [= <- <-]. auto. Qed.

Lemma keeps_bind {S A B} (P : S -> Prop) (m : M S A) (f : A -> M S B) :
  keeps P m -> (forall a, keeps P (f a)) -> keeps P (m ≫= f).
Proof.
  intros Hm Hf s r s' Hs. unfold mbind, M_bind. destruct (m s) as [[a| |] s1] eqn:E.
  - intros H. eapply Hf; [|exact H]. eapply Hm; eauto.
  - intros [= <- <-]. eapply Hm; eauto.
  - intros [= <- <-]. eapply Hm; eauto.
Qed.

Lemma keeps_bind_lift {S A B} (P : S -> Prop) (o : outcome A) (f : A -> M S B) :
  (forall a, o = Ret a -> keeps P (f a)) -> keeps P (lift o ≫= f).
Proof.
  intros Hf s r s' Hs. unfold mbind, M_bind, lift.
  destruct o as [a| |]; [|intros [= <- <-]; done|intros [= <- <-]; done]. now apply Hf.
Qed.

Lemma keeps_for_each {S A} (P : S -> Prop) (f : A -> M S unit) l :
  (forall a, a ∈ l -> keeps P (f a)) -> keeps P (for_each f l).
Proof.
  induction l as [|a l IH]; intros Hf; cbn; [apply keeps_ret|].
  apply keeps_bind; [apply Hf; now left|]. intros _. apply IH. intros x Hx. apply Hf. now right.
Qed.

Lemma keeps_zoom {S T A} (P : S -> Prop) (view : S -> T) (set : T -> S -> S) (m : M T A) :
  (forall s r t, P s -> m (view s) = (r, t) -> P (set t s)) -> keeps P (zoom view set m).
Proof.
  intros Hm s r s' Hs. unfold zoom. destruct (m (view s)) as [r0 t] eqn:E. intros [= <- <-]. eauto.
Qed.

Create HintDb praas.
#[export] Hint Resolve wrap_i32_range star_trans : praas.
#[export] Hint Resolve keeps_ret keeps_lift keeps_get keeps_gets keeps_modify keeps_bind
  keeps_for_each : praas.

#[global] Arguments Nat.ltb : simpl never.
#[global] Arguments Nat.leb : simpl never.
#[global] Arguments Z.ltb : simpl never.
#[global] Arguments Z.leb : simpl never.
