(* ===== verification/Http.v ===== *)
(** * Http: JSON values, HTTP replies and text

    What the HTTP parts of the program share: [common/http.cpp] builds the
    replies; the JSON library (jsoncpp) is class [JsonCpp] with the documented
    behaviour of the operations the code uses; and the functions of the C++
    standard library on strings that the code calls ([find], [stoi]). *)

From S2P Require Import Prelude.
From stdpp Require Import pretty.
From Stdlib Require Import Ascii.

(** ** JSON *)

(** [Json::Value]: [None] is an exception of the library *)
Class JsonCpp : Type := {
  jvalue : Type;
  jnull : jvalue;
  jstring : string -> jvalue;
  jint : Z -> jvalue;
  jbool : bool -> jvalue;
  (** an object with these members, and an array *)
  jobject : list (string * jvalue) -> jvalue;
  jarray : list jvalue -> jvalue;
  (** [v[key]] and [v[i]] *)
  jget : jvalue -> string -> option jvalue;
  jat : jvalue -> nat -> option jvalue;
  (** [v.isNull()], [v.asString()], [v.asInt()] *)
  is_null : jvalue -> bool;
  as_string : jvalue -> option string;
  as_int : jvalue -> option Z;
  (** [Json::Reader::parse] *)
  jparse : string -> option jvalue;
}.

Class JsonCppLaws `(JsonCpp) : Prop := {
  jget_object l k : jget (jobject l) k = Some (default jnull ((list_to_map l : gmap string jvalue) !! k));
  jget_null k : jget jnull k = Some jnull;
  jat_array l i : jat (jarray l) i = Some (default jnull (l !! i));
  jat_null i : jat jnull i = Some jnull;
  as_string_string s : as_string (jstring s) = Some s;
  as_string_null : as_string jnull = Some EmptyString;
  as_int_int z : i32_range z -> as_int (jint z) = Some z;
  as_int_null : as_int jnull = Some 0%Z;
  is_null_null : is_null jnull = true;
  is_null_string s : is_null (jstring s) = false;
}.

(** an exception of the JSON library *)
Definition json_error : exn := StdException "Json::LogicError".
Definition json_lift {A} (x : option A) : outcome A :=
  match x with Some a => Ret a | None => Throw json_error end.

(** ** Replies *)

(** [drogon::ReqResult], as far as it matters *)
Inductive ReqResult : Type := ReqOk | ReqFailed.
#[export] Instance ReqResult_eq_dec : EqDecision ReqResult.
Proof. solve_decision. Defined.

Section replies.
Context `{JsonCpp}.

(** status, body, and [getJsonObject()]: null for a body that is not JSON *)
Record HttpResponse : Type := MkResponse { hr_status : Z; hr_body : string; hr_json : option jvalue }.

(** a reply made from a JSON value; its text is not looked at by the program *)
Definition newHttpJsonResponse (v : jvalue) : HttpResponse :=
  {| hr_status := 200; hr_body := EmptyString; hr_json := Some v |}.
Definition setStatusCode (code : Z) (r : HttpResponse) : HttpResponse :=
  {| hr_status := code; hr_body := hr_body r; hr_json := hr_json r |}.

(** [HTTPClient::correct_response] and [failed_response] *)
Definition correct_response_value (response : jvalue) : HttpResponse :=
  setStatusCode 200 (newHttpJsonResponse response).
Definition correct_response (reason : string) : HttpResponse :=
  setStatusCode 200 (newHttpJsonResponse (jobject [("status", jstring reason)])).
Definition failed_response (reason : string) : HttpResponse :=
  setStatusCode 500 (newHttpJsonResponse (jobject [("reason", jstring reason)])).

(** [( *response->getJsonObject())]: the pointer is null without a JSON body *)
Definition json_object (r : HttpResponse) : outcome jvalue :=
  match hr_json r with Some v => Ret v | None => Undef end.

(** [HTTPClientFactory::create_client]: the address of the client *)
Definition create_client (initialized : bool) (address : string) (port : Z) : outcome string :=
  if initialized then
    Ret (if (port =? -1)%Z then address else address +:+ ":" +:+ pretty port)
  else Throw (PraaSException "Uninitialized HTTPClientFactory!").
End replies.
Arguments HttpResponse {_}.

(** ** Text *)

(** [s.find(t) != npos] *)
Definition contains (t s : string) : bool :=
  match String.index 0 t s with Some _ => true | None => false end.

(** [isspace] in the "C" locale *)
Definition isspace (c : ascii) : bool :=
  let n := N_of_ascii c in (n =? 32)%N || ((9 <=? n)%N && (n <=? 13)%N).

Fixpoint skip_spaces (s : string) : string :=
  match s with
  | String c s' => if isspace c then skip_spaces s' else s
  | EmptyString => s
  end.

Definition digit_value (c : ascii) : option Z :=
  let n := Z.of_N (N_of_ascii c) in
  if (48 <=? n)%Z && (n <=? 57)%Z then Some (n - 48)%Z else None.

(** the digits at the front of [s]: their value and whether there is one *)
Fixpoint read_digits (acc : Z) (some : bool) (s : string) : option Z :=
  match s with
  | String c s' =>
      match digit_value c with
      | Some d => read_digits (acc * 10 + d)%Z true s'
      | None => if some then Some acc else None
      end
  | EmptyString => if some then Some acc else None
  end.

(** [std::stoi] *)
Definition stoi (s : string) : outcome Z :=
  let '(sign, t) :=
    match skip_spaces s with
    | String "-" t => ((-1)%Z, t)
    | String "+" t => (1%Z, t)
    | t => (1%Z, t)
    end in
  match read_digits 0 false t with
  | None => Throw (StdException "stoi: invalid_argument")
  | Some n =>
      if bool_decide (- 2 ^ 31 <= sign * n < 2 ^ 31)%Z then Ret (sign * n)%Z
      else Throw (StdException "stoi: out_of_range")
  end.

(** a reference JSON library: objects are lists of members *)
Inductive json : Type :=
  | JNull | JString (s : string) | JInt (z : Z) | JBool (b : bool)
  | JObject (l : list (string * json)) | JArray (l : list json).

#[export] Instance plain_json : JsonCpp | 10 := {|
  jvalue := json; jnull := JNull; jstring := JString; jint := JInt; jbool := JBool;
  jobject := JObject; jarray := JArray;
  jget v k := match v with
    | JNull => Some JNull
    | JObject l => Some (default JNull ((list_to_map l : gmap string json) !! k))
    | _ => None end;
  jat v i := match v with
    | JNull => Some JNull
    | JArray l => Some (default JNull (l !! i))
    | _ => None end;
  is_null v := match v with JNull => true | _ => false end;
  as_string v := match v with
    | JNull => Some EmptyString | JString s => Some s | JInt z => Some (pretty z)
    | JBool b => Some (if b then "true" else "false") | _ => None end;
  as_int v := match v with
    | JNull => Some 0%Z | JInt z => if decide (- 2 ^ 31 <= z < 2 ^ 31)%Z then Some z else None
    | JBool b => Some (if b then 1 else 0)%Z | _ => None end;
  jparse s := match s with EmptyString => None | _ => Some (JObject [("status", JString s)]) end;
|}.

#[export] Instance plain_json_laws : JsonCppLaws plain_json.
Proof.
  split; cbn; try done. intros z Hz. unfold i32_range in Hz. now rewrite decide_True.
Qed.

(** *** What [stoi] makes of a printed number *)
Lemma digit_value_pretty x : (x < 10)%N -> digit_value (pretty_N_char x) = Some (Z.of_N x).
Proof.
  intros Hx. assert (x = 0 \/ x = 1 \/ x = 2 \/ x = 3 \/ x = 4 \/ x = 5 \/ x = 6 \/ x = 7 \/ x = 8 \/ x = 9)%N as Hc by lia.
  destruct Hc as [->|[->|[->|[->|[->|[->|[->|[->|[->| ->]]]]]]]]]; reflexivity.
Qed.

Lemma read_digits_pretty x : forall acc s b,
  (0 < x)%N -> exists k, (0 <= k)%Z /\
  read_digits acc b (pretty_N_go x s) = read_digits (acc * 10 ^ k + Z.of_N x) true s.
Proof.
  induction x as [x IH] using (well_founded_induction N.lt_wf_0). intros acc s b Hx.
  rewrite pretty_N_go_step by done.
  assert (x = 10 * (x `div` 10) + x `mod` 10)%N as Hdm by (apply N.div_mod; done).
  pose proof (N.mod_lt x 10 ltac:(done)) as Hm.
  destruct (decide (0 < x `div` 10)%N) as [Hd|Hd].
  - destruct (IH (x `div` 10)%N ltac:(apply N.div_lt; lia) acc (String (pretty_N_char (x `mod` 10)) s) b Hd)
      as (k&Hk&E).
    exists (k + 1)%Z. split; [lia|]. rewrite E. cbn [read_digits]. rewrite digit_value_pretty by done.
    rewrite Z.pow_add_r, Z.pow_1_r by lia. f_equal. rewrite Hdm at 3. rewrite N2Z.inj_add, N2Z.inj_mul. lia.
  - assert (x `div` 10 = 0)%N as Hz by lia. rewrite Hz. rewrite pretty_N_go_0.
    exists 1%Z. split; [lia|]. cbn [read_digits]. rewrite digit_value_pretty by done.
    rewrite Hz in Hdm. rewrite N.mul_0_r, N.add_0_l in Hdm. rewrite Z.pow_1_r, <-Hdm. reflexivity.
Qed.

Lemma pretty_N_go_digit x : forall s,
  (0 < x)%N -> exists d t, (d < 10)%N /\ pretty_N_go x s = String (pretty_N_char d) t.
Proof.
  induction x as [x IH] using (well_founded_induction N.lt_wf_0). intros s Hx. rewrite pretty_N_go_step by done.
  destruct (decide (0 < x `div` 10)%N) as [Hd|Hd].
  - apply IH; [apply N.div_lt; lia|done].
  - assert (x `div` 10 = 0)%N as -> by (apply N.le_0_r, N.nlt_ge; done). rewrite pretty_N_go_0.
    exists (x `mod` 10)%N, s. split; [apply N.mod_lt; done|done].
Qed.

Lemma stoi_digits s d t :
  s = String (pretty_N_char d) t -> (d < 10)%N ->
  stoi s = match read_digits 0 false s with
           | None => Throw (StdException "stoi: invalid_argument")
           | Some n => if bool_decide (- 2 ^ 31 <= n < 2 ^ 31)%Z then Ret n else Throw (StdException "stoi: out_of_range")
           end.
Proof.
  intros -> Hd. unfold stoi.
  assert (d = 0 \/ d = 1 \/ d = 2 \/ d = 3 \/ d = 4 \/ d = 5 \/ d = 6 \/ d = 7 \/ d = 8 \/ d = 9)%N as Hc by lia.

  destruct Hc as [->|[->|[->|[->|[->|[->|[->|[->|[->| ->]]]]]]]]]; cbn [skip_spaces pretty_N_char];
    match goal with |- context [isspace ?c] => change (isspace c) with false end; cbv beta iota zeta;
    match goal with |- context [read_digits ?a ?b ?c] => destruct (read_digits a b c) as [[]|] end; reflexivity.
Qed.

(** every number of an [int] that [std::to_string] prints is read back *)
Lemma stoi_pretty (n : N) : (Z.of_N n < 2 ^ 31)%Z -> stoi (pretty n) = Ret (Z.of_N n).
Proof.
  intros Hn. unfold pretty, pretty_N. destruct (decide (n = 0)%N) as [->|Hz]; [reflexivity|].
  destruct (pretty_N_go_digit n "" ltac:(lia)) as (d&t&Hd&E).
  rewrite (stoi_digits _ d t E Hd).
  destruct (read_digits_pretty n 0 "" false ltac:(lia)) as (k&_&E'). rewrite E'. cbn [read_digits].
  rewrite bool_decide_true by lia. f_equal.
Qed.
