(* ===== verification/Memory.v ===== *)
(** * Memory: bytes, little-endian integers, C strings and string views

    The message classes of [common/messages.hpp] and
    [runtime/internal/ipc/messages.hpp] store their fields in a fixed byte
    array through [reinterpret_cast], [std::strncpy] and [strnlen].  This file
    models those primitives of the C++ language and its standard library on
    lists of bytes; integers are little-endian, as on the platforms the code
    targets. *)

From Stdlib Require Export Strings.Byte.
From Stdlib Require Import Strings.String.
From S2P Require Import Prelude.

(** ** Definitions *)

Definition mem : Type := list byte.

#[export] Instance byte_eq_decision : EqDecision byte := Byte.byte_eq_dec.

Definition NUL : byte := x00.

Definition Z_of_byte (b : byte) : Z := Z.of_N (Byte.to_N b).
Definition byte_of_Z (z : Z) : byte := default NUL (Byte.of_N (Z.to_N z)).

(** the [n] low-order bytes of [z], least significant first *)
Fixpoint le_bytes (n : nat) (z : Z) : list byte :=
  match n with
  | O => []
  | S n' => byte_of_Z (z mod 256) :: le_bytes n' (z / 256)
  end.

Fixpoint le_Z (bs : list byte) : Z :=
  match bs with
  | [] => 0
  | b :: bs' => (Z_of_byte b + 256 * le_Z bs')%Z
  end.

(** the [n] bytes at offset [off] *)
Definition bytes_at (off n : nat) (m : mem) : list byte := take n (drop off m).

(** [std::copy] of [bs] to offset [off]; all uses are inside the array *)
Definition write_at (off : nat) (bs : list byte) (m : mem) : mem :=
  take off m ++ bs ++ drop (off + length bs) m.

(** an access outside the array is undefined behaviour *)
Definition checked_write (off : nat) (bs : list byte) (m : mem) : outcome mem :=
  if decide (off + length bs <= length m) then Ret (write_at off bs m) else Undef.

(** [*reinterpret_cast<const int32_t*>(m + off)] and its siblings *)
Definition read_i16 (off : nat) (m : mem) : Z := to_signed 16 (le_Z (bytes_at off 2 m)).
Definition read_i32 (off : nat) (m : mem) : Z := to_signed 32 (le_Z (bytes_at off 4 m)).
Definition read_u64 (off : nat) (m : mem) : Z := le_Z (bytes_at off 8 m).
Definition write_i16 (off : nat) (z : Z) (m : mem) : mem := write_at off (le_bytes 2 z) m.
Definition write_i32 (off : nat) (z : Z) (m : mem) : mem := write_at off (le_bytes 4 z) m.
Definition write_u64 (off : nat) (z : Z) (m : mem) : mem := write_at off (le_bytes 8 z) m.

(** [strnlen(m, max)] *)
Fixpoint strnlen (m : mem) (max : nat) : nat :=
  match max, m with
  | S max', b :: m' => if decide (b = NUL) then O else S (strnlen m' max')
  | _, _ => O
  end.

(** What [std::strncpy(dst, src, n)] writes to [dst]: at most [n] bytes of
    [src] up to its first NUL, padded with NULs to [n] bytes.  [None]: the
    source array ends before [n] bytes were read and before a NUL. *)
Fixpoint strncpy (n : nat) (src : mem) : option (list byte) :=
  match n with
  | O => Some []
  | S n' =>
      match src with
      | [] => None
      | b :: src' =>
          if decide (b = NUL) then Some (replicate n NUL)
          else (cons b) <$> strncpy n' src'
      end
  end.

(** A [std::string_view]: the memory readable from its pointer on, and its
    length.  [std::strncpy] ignores the length and reads the memory. *)
Record string_view : Type := StringView { sv_mem : mem; sv_len : nat }.

(** [std::string{v}] *)
Definition sv_str (v : string_view) : string :=
  String.string_of_list_byte (take (sv_len v) (sv_mem v)).

(** a [const std::string&] passed as a view: its characters and the NUL [c_str()] ends with *)
Definition sv_of_string (s : string) : string_view :=
  {| sv_mem := String.list_byte_of_string s ++ [NUL]; sv_len := String.length s |}.

(** [std::string_view{reinterpret_cast<const char*>(m + off), len}] *)
Definition sv_at (off len : nat) (m : mem) : string_view :=
  {| sv_mem := drop off m; sv_len := len |}.

(** The setter pattern of every string field: a length check against [max]
    and [std::strncpy(m + off, v.data(), max)]. *)
Definition set_string_field (max off : nat) (e : exn) (v : string_view) (m : mem) : outcome mem :=
  if max <? sv_len v then Throw e
  else match strncpy max (sv_mem v) with
       | Some bs => Ret (write_at off bs m)
       | None => Undef
       end.

(** ** Specification vocabulary *)

(** the characters before the first NUL *)
Definition cstr (bs : list byte) : list byte := take (strnlen bs (length bs)) bs.

(** the text a receiver reads from a field of [max] bytes at [off] *)
Definition field_text (off max : nat) (m : mem) : string :=
  String.string_of_list_byte (cstr (bytes_at off max m)).

(** [v] is a text of at most [max] characters that [strncpy] copies exactly *)
Definition cview (max : nat) (v : string_view) : Prop :=
  sv_len v <= max /\
  (NUL ∉ take (sv_len v) (sv_mem v)) /\
  length (take (sv_len v) (sv_mem v)) = sv_len v /\
  strncpy max (sv_mem v) = Some (take (sv_len v) (sv_mem v) ++ replicate (max - sv_len v) NUL).

(** a text without NUL characters *)
Definition no_nul (s : string) : Prop := NUL ∉ String.list_byte_of_string s.

#[export] Instance no_nul_dec s : Decision (no_nul s).
Proof. unfold no_nul. apply _. Defined.

(** ** Bytes and integers *)

Lemma Z_of_byte_range b : (0 <= Z_of_byte b < 256)%Z.
Proof. unfold Z_of_byte. pose proof (Byte.to_N_bounded b). lia. Qed.

Lemma Z_of_byte_of_Z z : (0 <= z < 256)%Z -> Z_of_byte (byte_of_Z z) = z.
Proof.
  intros Hz. unfold Z_of_byte, byte_of_Z.
  destruct (Byte.of_N (Z.to_N z)) as [b|] eqn:E; cbn.
  - apply Byte.to_of_N in E. lia.
  - apply Byte.of_N_None_iff in E. lia.
Qed.

Lemma length_le_bytes n z : length (le_bytes n z) = n.
Proof. revert z. induction n; intros; cbn [le_bytes length]; auto. Qed.

Lemma le_Z_le_bytes n z : le_Z (le_bytes n z) = (z mod 256 ^ Z.of_nat n)%Z.
Proof.
  revert z. induction n as [|n IH]; intros z; cbn [le_bytes le_Z].
  - now rewrite Z.mod_1_r.
  - rewrite IH, Z_of_byte_of_Z by (apply Z.mod_pos_bound; lia).
    rewrite Nat2Z.inj_succ, Z.pow_succ_r by lia.
    rewrite Z.rem_mul_r by lia. lia.
Qed.

Lemma le_Z_range bs : (0 <= le_Z bs < 256 ^ Z.of_nat (length bs))%Z.
Proof.
  induction bs as [|b bs IH]; [cbn [le_Z length]; lia|].
  cbn [le_Z length]. rewrite Nat2Z.inj_succ, Z.pow_succ_r by lia.
  pose proof (Z_of_byte_range b). nia.
Qed.

(** ** Reads and writes at offsets *)

Lemma length_bytes_at off n m : off + n <= length m -> length (bytes_at off n m) = n.
Proof. intros. unfold bytes_at. rewrite length_take, length_drop. lia. Qed.

Lemma length_write_at off bs m : off + length bs <= length m -> length (write_at off bs m) = length m.
Proof. intros. unfold write_at. rewrite !length_app, length_take, length_drop. lia. Qed.

Lemma bytes_at_write_at_same off n bs m :
  n = length bs -> off + n <= length m -> bytes_at off n (write_at off bs m) = bs.
Proof.
  intros -> H. unfold bytes_at, write_at.
  rewrite drop_app_length' by (rewrite length_take; lia).
  now rewrite take_app_length.
Qed.

Lemma bytes_at_write_at_disj off n off' bs m :
  (off + n <= off' \/ off' + length bs <= off) -> off' + length bs <= length m ->
  bytes_at off n (write_at off' bs m) = bytes_at off n m.
Proof.
  intros Hd Hb. unfold bytes_at, write_at. destruct Hd as [Hd|Hd].
  - rewrite drop_app_le by (rewrite length_take; lia).
    rewrite take_app_le by (rewrite length_drop, length_take; lia).
    rewrite skipn_firstn_comm, take_take. f_equal. lia.
  - rewrite drop_app_ge by (rewrite length_take; lia).
    rewrite drop_app_ge by (rewrite length_take; lia).
    rewrite drop_drop, length_take. do 2 f_equal. lia.
Qed.

Lemma checked_write_inv off bs m m' :
  checked_write off bs m = Ret m' ->
  off + length bs <= length m /\ m' = write_at off bs m.
Proof. unfold checked_write. case_decide; naive_solver. Qed.

Lemma read_write_i32_same off z m :
  off + 4 <= length m -> read_i32 off (write_i32 off z m) = wrap_i32 z.
Proof.
  intros. unfold read_i32, write_i32.
  rewrite bytes_at_write_at_same by (rewrite ?length_le_bytes; auto).
  now rewrite le_Z_le_bytes.
Qed.

Lemma read_write_i16_same off z m :
  off + 2 <= length m -> read_i16 off (write_i16 off z m) = wrap_i16 z.
Proof.
  intros. unfold read_i16, write_i16.
  rewrite bytes_at_write_at_same by (rewrite ?length_le_bytes; auto).
  now rewrite le_Z_le_bytes.
Qed.

Lemma read_write_u64_same off z m :
  off + 8 <= length m -> read_u64 off (write_u64 off z m) = wrap_u64 z.
Proof.
  intros. unfold read_u64, write_u64.
  rewrite bytes_at_write_at_same by (rewrite ?length_le_bytes; auto).
  now rewrite le_Z_le_bytes.
Qed.

Lemma read_i32_range off m : off + 4 <= length m -> i32_range (read_i32 off m).
Proof.
  intros H. unfold read_i32, to_signed, i32_range.
  pose proof (le_Z_range (bytes_at off 4 m)) as Hr.
  rewrite length_bytes_at in Hr by auto.
  destruct (Z.ltb_spec (le_Z (bytes_at off 4 m)) (2 ^ (32 - 1))); lia.
Qed.

Lemma read_u64_range off m : off + 8 <= length m -> u64_range (read_u64 off m).
Proof.
  intros H. unfold read_u64, u64_range.
  pose proof (le_Z_range (bytes_at off 8 m)) as Hr.
  rewrite length_bytes_at in Hr by auto. lia.
Qed.

(** ** C strings *)

Lemma strnlen_le_max m max : strnlen m max <= max.
Proof. revert m. induction max; intros [|b m]; cbn [strnlen length]; try case_decide; try lia. specialize (IHmax m). lia. Qed.

Lemma strnlen_le_length m max : strnlen m max <= length m.
Proof. revert m. induction max; intros [|b m]; cbn [strnlen length]; try case_decide; try lia. specialize (IHmax m). lia. Qed.

Lemma strnlen_take m max : strnlen (take max m) max = strnlen m max.
Proof. revert m. induction max; intros [|b m]; cbn [strnlen take length Nat.min]; auto. case_decide; auto. Qed.

Lemma strnlen_min m max : strnlen m (Nat.min max (length m)) = strnlen m max.
Proof. revert m. induction max; intros [|b m]; cbn [strnlen take length Nat.min]; auto. case_decide; auto. Qed.

Lemma strnlen_no_nul m max : NUL ∉ take (strnlen m max) m.
Proof.
  revert m. induction max as [|max IH]; intros [|b m]; cbn [strnlen take]; try apply not_elem_of_nil.
  case_decide; cbn [take]; [apply not_elem_of_nil|]. apply not_elem_of_cons. auto.
Qed.

Lemma strnlen_app_no_nul l r max :
  NUL ∉ l -> length l <= max ->
  strnlen (l ++ r) max = length l + strnlen r (max - length l).
Proof.
  revert max. induction l as [|b l IH]; intros max Hn Hl; cbn [app length].
  - now rewrite Nat.sub_0_r.
  - apply not_elem_of_cons in Hn as [Hb Hn]. destruct max as [|max]; cbn [length strnlen Nat.sub] in *; [lia|].
    rewrite decide_False by congruence. rewrite IH by (auto; lia). lia.
Qed.

Lemma strnlen_zeros n max : strnlen (replicate n NUL) max = 0.
Proof. destruct n, max; cbn; auto. Qed.

Lemma strncpy_length n src bs : strncpy n src = Some bs -> length bs = n.
Proof.
  revert src bs. induction n as [|n IH]; intros [|b src] bs H; cbn in H; simplify_eq; auto.
  case_decide; simplify_eq; cbn.
  - now rewrite length_replicate.
  - apply fmap_Some in H as (bs' & H & ->). cbn. f_equal. eauto.
Qed.

Lemma strncpy_in_bounds n src :
  n <= length src ->
  strncpy n src = Some (take (strnlen src n) src ++ replicate (n - strnlen src n) NUL).
Proof.
  revert src. induction n as [|n IH]; intros [|b src] H; cbn [length strnlen strncpy] in *; auto; [lia|].
  case_decide; cbn; auto. rewrite IH by lia. done.
Qed.

Lemma strncpy_of_text n l r :
  NUL ∉ l -> length l <= n -> strncpy n (l ++ NUL :: r) = Some (l ++ replicate (n - length l) NUL).
Proof.
  revert n. induction l as [|b l IH]; intros n Hn Hl; cbn.
  - destruct n; cbn; auto.
  - apply not_elem_of_cons in Hn as [Hb Hn]. destruct n as [|n]; cbn in *; [lia|].
    rewrite decide_False by congruence. rewrite IH by (auto; lia). done.
Qed.

Lemma length_list_byte_of_string s : length (String.list_byte_of_string s) = String.length s.
Proof.
  unfold String.list_byte_of_string. rewrite length_map.
  induction s; cbn; auto.
Qed.

Lemma sv_str_of_string s : sv_str (sv_of_string s) = s.
Proof.
  unfold sv_str, sv_of_string; cbn.
  rewrite take_app_length' by (symmetry; apply length_list_byte_of_string).
  apply String.string_of_list_byte_of_string.
Qed.

Lemma cview_of_string max s : no_nul s -> String.length s <= max -> cview max (sv_of_string s).
Proof.
  intros Hn Hl. unfold cview, sv_of_string; cbn.
  rewrite take_app_length' by (symmetry; apply length_list_byte_of_string).
  rewrite length_list_byte_of_string. repeat split; auto.
  rewrite strncpy_of_text; rewrite ?length_list_byte_of_string; auto.
Qed.

(** a view with a length computed by [strnlen] is copied exactly *)
Lemma cview_sv_at off max m :
  off + max <= length m -> cview max (sv_at off (strnlen (drop off m) max) m).
Proof.
  intros H. unfold cview, sv_at; cbn. repeat split.
  - apply strnlen_le_max.
  - apply strnlen_no_nul.
  - rewrite length_take. pose proof (strnlen_le_length (drop off m) max). lia.
  - apply strncpy_in_bounds. rewrite length_drop. lia.
Qed.

Lemma sv_str_sv_at off max m :
  sv_str (sv_at off (strnlen (drop off m) max) m) = field_text off max m.
Proof.
  unfold sv_str, sv_at, field_text, cstr, bytes_at. cbn [sv_mem sv_len].
  set (l := drop off m).
  assert (strnlen (take max l) (length (take max l)) = strnlen l max) as ->.
  { rewrite <-(strnlen_take l max), <-(strnlen_min (take max l) max).
    f_equal. rewrite length_take. clearbody l. lia. }
  rewrite take_take. do 2 f_equal. pose proof (strnlen_le_max l max). lia.
Qed.

(** ** The string setters *)

(** the bytes a string setter stores *)
Definition pad (max : nat) (v : string_view) : list byte :=
  take (sv_len v) (sv_mem v) ++ replicate (max - sv_len v) NUL.

Lemma length_pad max v : cview max v -> length (pad max v) = max.
Proof. intros (?&?&Hl&?). unfold pad. rewrite length_app, length_replicate, Hl. lia. Qed.

Lemma set_string_field_ok max off e v m :
  cview max v -> set_string_field max off e v m = Ret (write_at off (pad max v) m).
Proof.
  intros (Hl&_&_&Hc). unfold set_string_field.
  destruct (Nat.ltb_spec max (sv_len v)); [lia|]. now rewrite Hc.
Qed.

Lemma set_string_field_too_long max off e v m :
  max < sv_len v -> set_string_field max off e v m = Throw e.
Proof. intros H. unfold set_string_field. now rewrite (proj2 (Nat.ltb_lt _ _) H). Qed.

Lemma cstr_pad max v : cview max v -> cstr (pad max v) = take (sv_len v) (sv_mem v).
Proof.
  intros Hv. pose proof (length_pad _ _ Hv) as Hp. destruct Hv as (Hl&Hn&Ht&_).
  unfold cstr. rewrite Hp. unfold pad.
  rewrite strnlen_app_no_nul by (auto; lia).
  rewrite strnlen_zeros, Nat.add_0_r. now rewrite take_app_length.
Qed.

Lemma field_text_pad max off v m :
  cview max v -> off + max <= length m ->
  field_text off max (write_at off (pad max v) m) = sv_str v.
Proof.
  intros Hv Hb. unfold field_text, sv_str.
  rewrite bytes_at_write_at_same by (rewrite ?length_pad; auto). f_equal. now apply cstr_pad.
Qed.

(** the getter of the object the setter was called on, which keeps the length it was given *)
Lemma sv_str_after_set max off v m :
  cview max v -> off + max <= length m ->
  sv_str (sv_at off (sv_len v) (write_at off (pad max v) m)) = sv_str v.
Proof.
  intros Hv Hb. unfold sv_str, sv_at; cbn. f_equal.
  pose proof (length_pad _ _ Hv) as Hp. destruct Hv as (Hl&Hn&Ht&_).
  unfold write_at. rewrite drop_app_length' by (rewrite length_take; lia).
  unfold pad. rewrite <-app_assoc. now rewrite take_app_length'.
Qed.

(** ** Automation

    [mem_simpl] computes the reads of a buffer after a sequence of writes:
    each write is either the one read or disjoint from it, which [lia]
    decides once the lengths are known. *)

Ltac len_simpl :=
  repeat match goal with
  | |- context [length (write_at ?o ?b ?m)] => rewrite (length_write_at o b m) by len_simpl
  | |- context [length (write_i32 ?o ?z ?m)] => unfold write_i32
  | |- context [length (write_i16 ?o ?z ?m)] => unfold write_i16
  | |- context [length (write_u64 ?o ?z ?m)] => unfold write_u64
  | |- context [length (le_bytes _ _)] => rewrite length_le_bytes
  | H : cview ?x ?v |- context [length (pad ?x ?v)] => rewrite (length_pad x v H)
  | |- context [length (replicate _ _)] => rewrite length_replicate
  end; try lia.

Ltac mem_simpl :=
  unfold read_i16, read_i32, read_u64, field_text, write_i16, write_i32, write_u64 in *;
  repeat match goal with
  | |- context [bytes_at ?o ?n (write_at ?o ?b ?m)] =>
      rewrite (bytes_at_write_at_same o n b m) by len_simpl
  | |- context [bytes_at ?o ?n (write_at ?o' ?b ?m)] =>
      rewrite (bytes_at_write_at_disj o n o' b m) by len_simpl
  | |- context [cstr (pad ?x ?v)] => rewrite (cstr_pad x v) by assumption
  | |- context [le_Z (le_bytes ?n ?z)] => rewrite (le_Z_le_bytes n z)
  end.

#[export] Hint Resolve cview_sv_at cview_of_string length_pad strnlen_le_max : praas.

#[global] Arguments bytes_at : simpl never.
#[global] Arguments write_at : simpl never.
#[global] Arguments checked_write : simpl never.
#[global] Arguments read_i16 : simpl never.
#[global] Arguments read_i32 : simpl never.
#[global] Arguments read_u64 : simpl never.
#[global] Arguments write_i16 : simpl never.
#[global] Arguments write_i32 : simpl never.
#[global] Arguments write_u64 : simpl never.
#[global] Arguments le_bytes : simpl never.
#[global] Arguments le_Z : simpl never.
#[global] Arguments strnlen : simpl never.
#[global] Arguments set_string_field : simpl never.
#[global] Arguments sv_str : simpl never.
#[global] Arguments field_text : simpl never.
#[global] Arguments cstr : simpl never.
#[global] Arguments pad : simpl never.
#[global] Arguments sv_of_string : simpl never.
