(* ===== verification/Messages.v ===== *)
(** * Messages: the TCP wire format, common/include/praas/common/messages.hpp

    Every message is one 70-byte buffer: a two-byte type, a four-byte total
    length and the fields of the message at fixed offsets.  The classes of the
    header derive from [Message<Data, CRTP>]; [Data = MessageData] owns the
    buffer and is writable, [Data = MessagePtr] points into one.  Here both
    are records over the bytes, with the lengths the constructors cache;
    [X_ctor] is the constructor over existing bytes (what [XPtr] does) and
    [XData] the constructor of a fresh message. *)

From S2P Require Import Prelude Memory.

(** ** MessageConfig *)
Definition BUF_SIZE : nat := 70.
Definition HEADER_OFFSET : nat := 6.
Definition NAME_LENGTH : nat := 32.
Definition ID_LENGTH : nat := 16.

(** [MessageData{}]: a zero-initialised buffer *)
Definition MessageData : mem := replicate BUF_SIZE NUL.

Inductive MessageType : Type :=
  | GENERIC_HEADER | PROCESS_CONNECTION | SWAP_REQUEST | SWAP_CONFIRMATION
  | INVOCATION_REQUEST | INVOCATION_RESULT | DATAPLANE_METRICS | PROCESS_CLOSURE
  | APPLICATION_UPDATE | PUT_MESSAGE | END_FLAG.

#[export] Instance MessageType_eq_dec : EqDecision MessageType.
Proof. solve_decision. Defined.

(** [static_cast<int16_t>(type)] *)
Definition MessageType_to_Z (t : MessageType) : Z :=
  match t with
  | GENERIC_HEADER => 0 | PROCESS_CONNECTION => 1 | SWAP_REQUEST => 2
  | SWAP_CONFIRMATION => 3 | INVOCATION_REQUEST => 4 | INVOCATION_RESULT => 5
  | DATAPLANE_METRICS => 6 | PROCESS_CLOSURE => 7 | APPLICATION_UPDATE => 8
  | PUT_MESSAGE => 9 | END_FLAG => 10
  end.

(** [static_cast<MessageType>(z)], for the values of the enumeration *)
Definition MessageType_of_Z (z : Z) : MessageType :=
  match z with
  | 0 => GENERIC_HEADER | 1 => PROCESS_CONNECTION | 2 => SWAP_REQUEST
  | 3 => SWAP_CONFIRMATION | 4 => INVOCATION_REQUEST | 5 => INVOCATION_RESULT
  | 6 => DATAPLANE_METRICS | 7 => PROCESS_CLOSURE | 8 => APPLICATION_UPDATE
  | 9 => PUT_MESSAGE | _ => END_FLAG
  end%Z.

(** [Message(Data&& data, MessageType type)] for [Data = MessageData]: the
    type is written to the first two bytes *)
Definition Message_ctor (d : mem) (type : MessageType) : mem :=
  write_i16 0 (MessageType_to_Z type) d.

(** [MessageType Message::type() const] *)
Definition Message_type (m : mem) : outcome MessageType :=
  let type := read_i16 0 m in
  if ((MessageType_to_Z END_FLAG <=? type) || (type <? MessageType_to_Z GENERIC_HEADER))%Z
  then Throw (InvalidMessage "Invalid type value for Message: {}")
  else Ret (MessageType_of_Z type).

(** What every message class inherits from [Message]: access to the bytes *)
Class MessageLike (T : Type) : Type := {
  bytes : T -> mem;
  with_bytes : T -> mem -> T
}.

(** [int32_t total_length() const] and [void total_length(int32_t len)] *)
Definition total_length {T} `{MessageLike T} (x : T) : Z := read_i32 2 (bytes x).
Definition set_total_length {T} `{MessageLike T} (len : Z) (x : T) : T :=
  with_bytes x (write_i32 2 len (bytes x)).

(** ** ProcessConnection *)
Record ProcessConnection : Type := MkProcessConnection { pc_msg : mem; process_name_len : nat }.

Definition ProcessConnection_ctor (d : mem) : ProcessConnection :=
  {| pc_msg := d; process_name_len := strnlen (drop HEADER_OFFSET d) NAME_LENGTH |}.
Definition ProcessConnectionData : ProcessConnection :=
  ProcessConnection_ctor (Message_ctor MessageData PROCESS_CONNECTION).

Definition process_name (x : ProcessConnection) : string_view :=
  sv_at HEADER_OFFSET (process_name_len x) (pc_msg x).
Definition set_process_name (name : string_view) (x : ProcessConnection) : outcome ProcessConnection :=
  d ← set_string_field NAME_LENGTH HEADER_OFFSET
        (InvalidArgument "Process name too long: {} > {}") name (pc_msg x);
  Ret {| pc_msg := d; process_name_len := sv_len name |}.

#[export] Instance ProcessConnection_message : MessageLike ProcessConnection :=
  {| bytes := pc_msg;
     with_bytes x d := {| pc_msg := d; process_name_len := process_name_len x |} |}.

(** ** SwapRequest *)
Record SwapRequest : Type := MkSwapRequest { sr_msg : mem; path_len : nat }.

Definition SwapRequest_ctor (d : mem) : SwapRequest :=
  {| sr_msg := d; path_len := strnlen (drop HEADER_OFFSET d) NAME_LENGTH |}.
Definition SwapRequestData : SwapRequest :=
  SwapRequest_ctor (Message_ctor MessageData SWAP_REQUEST).

Definition swap_path (x : SwapRequest) : string_view :=
  sv_at HEADER_OFFSET (path_len x) (sr_msg x).
Definition set_swap_path (path : string_view) (x : SwapRequest) : outcome SwapRequest :=
  d ← set_string_field ID_LENGTH HEADER_OFFSET
        (InvalidArgument "Swap location ID too long: {} > {}") path (sr_msg x);
  Ret {| sr_msg := d; path_len := sv_len path |}.

#[export] Instance SwapRequest_message : MessageLike SwapRequest :=
  {| bytes := sr_msg; with_bytes x d := {| sr_msg := d; path_len := path_len x |} |}.

(** ** SwapConfirmation *)
Record SwapConfirmation : Type := MkSwapConfirmation { sc_msg : mem }.

Definition SwapConfirmationData : SwapConfirmation :=
  {| sc_msg := Message_ctor MessageData SWAP_CONFIRMATION |}.
Definition swap_size (x : SwapConfirmation) : Z := read_i32 HEADER_OFFSET (sc_msg x).
Definition set_swap_size (size : Z) (x : SwapConfirmation) : SwapConfirmation :=
  {| sc_msg := write_i32 HEADER_OFFSET size (sc_msg x) |}.

#[export] Instance SwapConfirmation_message : MessageLike SwapConfirmation :=
  {| bytes := sc_msg; with_bytes x d := {| sc_msg := d |} |}.

(** ** InvocationRequest *)
Record InvocationRequest : Type := MkInvocationRequest {
  ireq_msg : mem; fname_len : nat; ireq_invocation_id_len : nat
}.

Definition InvocationRequest_ctor (d : mem) : InvocationRequest :=
  {| ireq_msg := d;
     fname_len := strnlen (drop (HEADER_OFFSET + 4) d) NAME_LENGTH;
     ireq_invocation_id_len := strnlen (drop (HEADER_OFFSET + NAME_LENGTH + 4) d) ID_LENGTH |}.
Definition InvocationRequestData : InvocationRequest :=
  InvocationRequest_ctor (Message_ctor MessageData INVOCATION_REQUEST).

Definition set_invocation_id (name : string_view) (x : InvocationRequest) : outcome InvocationRequest :=
  d ← set_string_field ID_LENGTH (HEADER_OFFSET + NAME_LENGTH + 4)
        (InvalidArgument "Invocation ID too long: {} > {}") name (ireq_msg x);
  Ret {| ireq_msg := d; fname_len := fname_len x; ireq_invocation_id_len := sv_len name |}.
Definition invocation_id (x : InvocationRequest) : string_view :=
  sv_at (HEADER_OFFSET + NAME_LENGTH + 4) (ireq_invocation_id_len x) (ireq_msg x).
Definition function_name (x : InvocationRequest) : string_view :=
  sv_at (HEADER_OFFSET + 4) (fname_len x) (ireq_msg x).
Definition set_function_name (name : string_view) (x : InvocationRequest) : outcome InvocationRequest :=
  d ← set_string_field NAME_LENGTH (HEADER_OFFSET + 4)
        (InvalidArgument "Function name too long: {} > {}") name (ireq_msg x);
  Ret {| ireq_msg := d; fname_len := sv_len name;
         ireq_invocation_id_len := ireq_invocation_id_len x |}.
Definition payload_size (x : InvocationRequest) : Z := read_i32 HEADER_OFFSET (ireq_msg x).
Definition set_payload_size (size : Z) (x : InvocationRequest) : outcome InvocationRequest :=
  if (size <? 0)%Z then Throw (InvalidArgument "Payload size too small: {}")
  else Ret {| ireq_msg := write_i32 HEADER_OFFSET size (ireq_msg x); fname_len := fname_len x;
              ireq_invocation_id_len := ireq_invocation_id_len x |}.

#[export] Instance InvocationRequest_message : MessageLike InvocationRequest :=
  {| bytes := ireq_msg;
     with_bytes x d := {| ireq_msg := d; fname_len := fname_len x;
                          ireq_invocation_id_len := ireq_invocation_id_len x |} |}.

(** ** InvocationResult *)
Record InvocationResult : Type := MkInvocationResult {
  ires_msg : mem; ires_invocation_id_len : nat
}.

Definition InvocationResult_ctor (d : mem) : InvocationResult :=
  {| ires_msg := d; ires_invocation_id_len := strnlen (drop (HEADER_OFFSET + 4) d) ID_LENGTH |}.
Definition InvocationResultData : InvocationResult :=
  InvocationResult_ctor (Message_ctor MessageData INVOCATION_RESULT).

Definition set_result_invocation_id (name : string_view) (x : InvocationResult) : outcome InvocationResult :=
  d ← set_string_field ID_LENGTH (HEADER_OFFSET + 4)
        (InvalidArgument "Invocation ID too long: {} > {}") name (ires_msg x);
  Ret {| ires_msg := d; ires_invocation_id_len := sv_len name |}.
Definition result_invocation_id (x : InvocationResult) : string_view :=
  sv_at (HEADER_OFFSET + 4) (ires_invocation_id_len x) (ires_msg x).
Definition return_code (x : InvocationResult) : Z := read_i32 HEADER_OFFSET (ires_msg x).
Definition set_return_code (code : Z) (x : InvocationResult) : InvocationResult :=
  {| ires_msg := write_i32 HEADER_OFFSET code (ires_msg x);
     ires_invocation_id_len := ires_invocation_id_len x |}.

#[export] Instance InvocationResult_message : MessageLike InvocationResult :=
  {| bytes := ires_msg;
     with_bytes x d := {| ires_msg := d; ires_invocation_id_len := ires_invocation_id_len x |} |}.

(** ** DataPlaneMetrics *)
Record DataPlaneMetricsMsg : Type := MkDataPlaneMetrics { dpm_msg : mem }.

Definition DataPlaneMetricsData : DataPlaneMetricsMsg :=
  {| dpm_msg := Message_ctor MessageData DATAPLANE_METRICS |}.
Definition invocations (x : DataPlaneMetricsMsg) : Z := read_i32 HEADER_OFFSET (dpm_msg x).
Definition set_invocations (n : Z) (x : DataPlaneMetricsMsg) : outcome DataPlaneMetricsMsg :=
  if (n <? 0)%Z then Throw (InvalidArgument "Incorrect number of invocations {}")
  else Ret {| dpm_msg := write_i32 HEADER_OFFSET n (dpm_msg x) |}.
Definition last_invocation_timestamp (x : DataPlaneMetricsMsg) : Z :=
  read_u64 (HEADER_OFFSET + 8) (dpm_msg x).
Definition set_last_invocation_timestamp (t : Z) (x : DataPlaneMetricsMsg) : DataPlaneMetricsMsg :=
  {| dpm_msg := write_u64 (HEADER_OFFSET + 8) t (dpm_msg x) |}.
Definition computation_time (x : DataPlaneMetricsMsg) : Z := read_i32 (HEADER_OFFSET + 4) (dpm_msg x).
Definition set_computation_time (time : Z) (x : DataPlaneMetricsMsg) : outcome DataPlaneMetricsMsg :=
  if (time <? 0)%Z then Throw (InvalidArgument "Incorrect computation time {}")
  else Ret {| dpm_msg := write_i32 (HEADER_OFFSET + 4) time (dpm_msg x) |}.

#[export] Instance DataPlaneMetrics_message : MessageLike DataPlaneMetricsMsg :=
  {| bytes := dpm_msg; with_bytes x d := {| dpm_msg := d |} |}.

(** ** ProcessClosure *)
Record ProcessClosure : Type := MkProcessClosure { pcl_msg : mem }.

Definition ProcessClosureData : ProcessClosure :=
  {| pcl_msg := Message_ctor MessageData PROCESS_CLOSURE |}.

(** ** ApplicationUpdate *)
Record ApplicationUpdateMsg : Type := MkApplicationUpdate {
  au_msg : mem; au_id_len : nat; au_ip_len : nat
}.

Definition ApplicationUpdate_ctor (d : mem) : ApplicationUpdateMsg :=
  {| au_msg := d;
     au_id_len := strnlen (drop HEADER_OFFSET d) NAME_LENGTH;
     au_ip_len := strnlen (drop (HEADER_OFFSET + NAME_LENGTH) d) ID_LENGTH |}.
Definition ApplicationUpdateData : ApplicationUpdateMsg :=
  ApplicationUpdate_ctor (Message_ctor MessageData APPLICATION_UPDATE).

Definition update_process_id (x : ApplicationUpdateMsg) : string_view :=
  sv_at HEADER_OFFSET (au_id_len x) (au_msg x).
Definition set_update_process_id (id : string_view) (x : ApplicationUpdateMsg) : outcome ApplicationUpdateMsg :=
  d ← set_string_field NAME_LENGTH HEADER_OFFSET
        (InvalidArgument "Process ID too long: {} > {}") id (au_msg x);
  Ret {| au_msg := d; au_id_len := sv_len id; au_ip_len := au_ip_len x |}.
Definition set_ip_address (ip_addr : string_view) (x : ApplicationUpdateMsg) : outcome ApplicationUpdateMsg :=
  d ← set_string_field ID_LENGTH (HEADER_OFFSET + NAME_LENGTH)
        (InvalidArgument "Process ID too long: {} > {}") ip_addr (au_msg x);
  Ret {| au_msg := d; au_id_len := au_id_len x; au_ip_len := sv_len ip_addr |}.
Definition ip_address (x : ApplicationUpdateMsg) : string_view :=
  sv_at (HEADER_OFFSET + NAME_LENGTH) (au_ip_len x) (au_msg x).
Definition status_change (x : ApplicationUpdateMsg) : Z :=
  read_i32 (HEADER_OFFSET + NAME_LENGTH + ID_LENGTH) (au_msg x).
Definition set_status_change (status : Z) (x : ApplicationUpdateMsg) : ApplicationUpdateMsg :=
  {| au_msg := write_i32 (HEADER_OFFSET + NAME_LENGTH + ID_LENGTH) status (au_msg x);
     au_id_len := au_id_len x; au_ip_len := au_ip_len x |}.
Definition update_port (x : ApplicationUpdateMsg) : Z :=
  read_i32 (HEADER_OFFSET + NAME_LENGTH + ID_LENGTH + 4) (au_msg x).
Definition set_update_port (port : Z) (x : ApplicationUpdateMsg) : ApplicationUpdateMsg :=
  {| au_msg := write_i32 (HEADER_OFFSET + NAME_LENGTH + ID_LENGTH + 4) port (au_msg x);
     au_id_len := au_id_len x; au_ip_len := au_ip_len x |}.

#[export] Instance ApplicationUpdate_message : MessageLike ApplicationUpdateMsg :=
  {| bytes := au_msg;
     with_bytes x d := {| au_msg := d; au_id_len := au_id_len x; au_ip_len := au_ip_len x |} |}.

(** ** PutMessage *)
Record PutMessage : Type := MkPutMessage { pm_msg : mem; pm_name_len : nat; pm_id_len : nat }.

Definition PutMessage_ctor (d : mem) : PutMessage :=
  {| pm_msg := d;
     pm_name_len := strnlen (drop HEADER_OFFSET d) NAME_LENGTH;
     pm_id_len := strnlen (drop (HEADER_OFFSET + NAME_LENGTH) d) NAME_LENGTH |}.
Definition PutMessageData : PutMessage :=
  PutMessage_ctor (Message_ctor MessageData PUT_MESSAGE).

Definition set_put_name (name : string_view) (x : PutMessage) : outcome PutMessage :=
  d ← set_string_field NAME_LENGTH HEADER_OFFSET
        (InvalidArgument "Message name too long: {} > {}") name (pm_msg x);
  Ret {| pm_msg := d; pm_name_len := sv_len name; pm_id_len := pm_id_len x |}.
Definition put_name (x : PutMessage) : string_view :=
  sv_at HEADER_OFFSET (pm_name_len x) (pm_msg x).
Definition set_put_process_id (name : string_view) (x : PutMessage) : outcome PutMessage :=
  d ← set_string_field NAME_LENGTH (HEADER_OFFSET + NAME_LENGTH)
        (InvalidArgument "Invocation ID too long: {} > {}") name (pm_msg x);
  Ret {| pm_msg := d; pm_name_len := pm_name_len x; pm_id_len := sv_len name |}.
Definition put_process_id (x : PutMessage) : string_view :=
  sv_at (HEADER_OFFSET + NAME_LENGTH) (pm_id_len x) (pm_msg x).

#[export] Instance PutMessage_message : MessageLike PutMessage :=
  {| bytes := pm_msg;
     with_bytes x d := {| pm_msg := d; pm_name_len := pm_name_len x; pm_id_len := pm_id_len x |} |}.

(** ** MessageParser *)
Inductive MessageVariants : Type :=
  | Monostate
  | VProcessConnection (x : ProcessConnection)
  | VSwapRequest (x : SwapRequest)
  | VSwapConfirmation (x : SwapConfirmation)
  | VInvocationRequest (x : InvocationRequest)
  | VInvocationResult (x : InvocationResult)
  | VDataPlaneMetrics (x : DataPlaneMetricsMsg)
  | VProcessClosure (x : ProcessClosure)
  | VApplicationUpdate (x : ApplicationUpdateMsg)
  | VPutMessage (x : PutMessage).

(** [MessageVariants MessageParser::parse(MessagePtr data)] *)
Definition parse (data : mem) : outcome MessageVariants :=
  let type_val := read_i16 0 data in
  if ((MessageType_to_Z END_FLAG <=? type_val) || (type_val <? MessageType_to_Z GENERIC_HEADER))%Z
  then Throw (InvalidMessage "Invalid type value for Message: {}")
  else
    match MessageType_of_Z type_val with
    | PROCESS_CONNECTION => Ret (VProcessConnection (ProcessConnection_ctor data))
    | SWAP_REQUEST => Ret (VSwapRequest (SwapRequest_ctor data))
    | SWAP_CONFIRMATION => Ret (VSwapConfirmation {| sc_msg := data |})
    | INVOCATION_REQUEST => Ret (VInvocationRequest (InvocationRequest_ctor data))
    | INVOCATION_RESULT => Ret (VInvocationResult (InvocationResult_ctor data))
    | DATAPLANE_METRICS => Ret (VDataPlaneMetrics {| dpm_msg := data |})
    | PROCESS_CLOSURE => Ret (VProcessClosure {| pcl_msg := data |})
    | APPLICATION_UPDATE => Ret (VApplicationUpdate (ApplicationUpdate_ctor data))
    | PUT_MESSAGE => Ret (VPutMessage (PutMessage_ctor data))
    | _ => Throw NotImplementedError
    end.

(** the static [type()] of the class held by the variant *)
Definition variant_type (v : MessageVariants) : option MessageType :=
  match v with
  | Monostate => None
  | VProcessConnection _ => Some PROCESS_CONNECTION
  | VSwapRequest _ => Some SWAP_REQUEST
  | VSwapConfirmation _ => Some SWAP_CONFIRMATION
  | VInvocationRequest _ => Some INVOCATION_REQUEST
  | VInvocationResult _ => Some INVOCATION_RESULT
  | VDataPlaneMetrics _ => Some DATAPLANE_METRICS
  | VProcessClosure _ => Some PROCESS_CLOSURE
  | VApplicationUpdate _ => Some APPLICATION_UPDATE
  | VPutMessage _ => Some PUT_MESSAGE
  end.

(** the string fields of a parsed message, each with the width of its field *)
Definition variant_views (v : MessageVariants) : list (nat * string_view) :=
  match v with
  | VProcessConnection x => [(NAME_LENGTH, process_name x)]
  | VSwapRequest x => [(NAME_LENGTH, swap_path x)]
  | VInvocationRequest x => [(NAME_LENGTH, function_name x); (ID_LENGTH, invocation_id x)]
  | VInvocationResult x => [(ID_LENGTH, result_invocation_id x)]
  | VApplicationUpdate x => [(NAME_LENGTH, update_process_id x); (ID_LENGTH, ip_address x)]
  | VPutMessage x => [(NAME_LENGTH, put_name x); (NAME_LENGTH, put_process_id x)]
  | _ => []
  end.

(** ** The abstract messages

    What a message says, as texts and integers, independent of the layout:
    [encode] writes it with the constructors and setters above, [decode] reads
    a buffer with the parser and the getters. *)
Inductive wire : Type :=
  | WProcessConnection (name : string)
  | WSwapRequest (path : string)
  | WSwapConfirmation (size : Z)
  | WInvocationRequest (fname id : string) (payload total : Z)
  | WInvocationResult (id : string) (code total : Z)
  | WDataPlaneMetrics (invocations time timestamp : Z)
  | WProcessClosure
  | WApplicationUpdate (process ip : string) (status port : Z)
  | WPutMessage (name process : string) (total : Z).

Definition encode (w : wire) : outcome mem :=
  match w with
  | WProcessConnection n =>
      bytes <$> set_process_name (sv_of_string n) ProcessConnectionData
  | WSwapRequest p => bytes <$> set_swap_path (sv_of_string p) SwapRequestData
  | WSwapConfirmation z => Ret (bytes (set_swap_size z SwapConfirmationData))
  | WInvocationRequest f id n t =>
      r ← set_invocation_id (sv_of_string id) InvocationRequestData;
      r ← set_function_name (sv_of_string f) r;
      r ← set_payload_size n r;
      Ret (bytes (set_total_length t r))
  | WInvocationResult id c t =>
      r ← set_result_invocation_id (sv_of_string id) InvocationResultData;
      Ret (bytes (set_total_length t (set_return_code c r)))
  | WDataPlaneMetrics n c t =>
      r ← set_invocations n DataPlaneMetricsData;
      r ← set_computation_time c r;
      Ret (bytes (set_last_invocation_timestamp t r))
  | WProcessClosure => Ret (pcl_msg ProcessClosureData)
  | WApplicationUpdate p ip st port =>
      r ← set_update_process_id (sv_of_string p) ApplicationUpdateData;
      r ← set_ip_address (sv_of_string ip) r;
      Ret (bytes (set_update_port port (set_status_change st r)))
  | WPutMessage n p t =>
      r ← set_put_name (sv_of_string n) PutMessageData;
      r ← set_put_process_id (sv_of_string p) r;
      Ret (bytes (set_total_length t r))
  end.

Definition decode (d : mem) : outcome wire :=
  v ← parse d;
  match v with
  | Monostate => Undef
  | VProcessConnection x => Ret (WProcessConnection (sv_str (process_name x)))
  | VSwapRequest x => Ret (WSwapRequest (sv_str (swap_path x)))
  | VSwapConfirmation x => Ret (WSwapConfirmation (swap_size x))
  | VInvocationRequest x =>
      Ret (WInvocationRequest (sv_str (function_name x)) (sv_str (invocation_id x))
             (payload_size x) (total_length x))
  | VInvocationResult x =>
      Ret (WInvocationResult (sv_str (result_invocation_id x)) (return_code x) (total_length x))
  | VDataPlaneMetrics x =>
      Ret (WDataPlaneMetrics (invocations x) (computation_time x) (last_invocation_timestamp x))
  | VProcessClosure _ => Ret WProcessClosure
  | VApplicationUpdate x =>
      Ret (WApplicationUpdate (sv_str (update_process_id x)) (sv_str (ip_address x))
             (status_change x) (update_port x))
  | VPutMessage x =>
      Ret (WPutMessage (sv_str (put_name x)) (sv_str (put_process_id x)) (total_length x))
  end.

(** [s] fits a field of [max] characters *)
Definition fits (max : nat) (s : string) : Prop := no_nul s /\ String.length s <= max.

(** the messages the format can carry *)
Definition wire_ok (w : wire) : Prop :=
  match w with
  | WProcessConnection n => fits NAME_LENGTH n
  | WSwapRequest p => fits ID_LENGTH p
  | WSwapConfirmation z => i32_range z
  | WInvocationRequest f id n t =>
      fits NAME_LENGTH f /\ fits ID_LENGTH id /\ (0 <= n)%Z /\ i32_range n /\ i32_range t
  | WInvocationResult id c t => fits ID_LENGTH id /\ i32_range c /\ i32_range t
  | WDataPlaneMetrics n c t =>
      (0 <= n)%Z /\ i32_range n /\ (0 <= c)%Z /\ i32_range c /\ u64_range t
  | WProcessClosure => True
  | WApplicationUpdate p ip st port =>
      fits NAME_LENGTH p /\ fits ID_LENGTH ip /\ i32_range st /\ i32_range port
  | WPutMessage n p t => fits NAME_LENGTH n /\ fits NAME_LENGTH p /\ i32_range t
  end.

(** what the setters check: the length of every text, the sign of every count *)
Definition setters_accept (w : wire) : bool :=
  match w with
  | WProcessConnection n => String.length n <=? NAME_LENGTH
  | WSwapRequest p => String.length p <=? ID_LENGTH
  | WSwapConfirmation _ | WProcessClosure => true
  | WInvocationRequest f id n _ =>
      (String.length id <=? ID_LENGTH) && (String.length f <=? NAME_LENGTH) && (0 <=? n)%Z
  | WInvocationResult id _ _ => String.length id <=? ID_LENGTH
  | WDataPlaneMetrics n c _ => (0 <=? n)%Z && (0 <=? c)%Z
  | WApplicationUpdate p ip _ _ =>
      (String.length p <=? NAME_LENGTH) && (String.length ip <=? ID_LENGTH)
  | WPutMessage n p _ => (String.length n <=? NAME_LENGTH) && (String.length p <=? NAME_LENGTH)
  end.

(** ** Theorems *)

#[global] Arguments HEADER_OFFSET : simpl never.
#[global] Arguments NAME_LENGTH : simpl never.
#[global] Arguments ID_LENGTH : simpl never.
#[global] Arguments BUF_SIZE : simpl never.
#[global] Arguments MessageData : simpl never.
#[global] Arguments Message_ctor : simpl never.
#[global] Arguments parse : simpl never.

Ltac unfold_layout := unfold HEADER_OFFSET, NAME_LENGTH, ID_LENGTH in *; cbn [Nat.add] in *.

Lemma length_MessageData : length MessageData = 70.
Proof. reflexivity. Qed.

Lemma length_Message_ctor t : length (Message_ctor MessageData t) = 70.
Proof. reflexivity. Qed.

Lemma parse_typed d t :
  read_i16 0 d = MessageType_to_Z t -> t <> END_FLAG ->
  parse d =
    match t with
    | PROCESS_CONNECTION => Ret (VProcessConnection (ProcessConnection_ctor d))
    | SWAP_REQUEST => Ret (VSwapRequest (SwapRequest_ctor d))
    | SWAP_CONFIRMATION => Ret (VSwapConfirmation {| sc_msg := d |})
    | INVOCATION_REQUEST => Ret (VInvocationRequest (InvocationRequest_ctor d))
    | INVOCATION_RESULT => Ret (VInvocationResult (InvocationResult_ctor d))
    | DATAPLANE_METRICS => Ret (VDataPlaneMetrics {| dpm_msg := d |})
    | PROCESS_CLOSURE => Ret (VProcessClosure {| pcl_msg := d |})
    | APPLICATION_UPDATE => Ret (VApplicationUpdate (ApplicationUpdate_ctor d))
    | PUT_MESSAGE => Ret (VPutMessage (PutMessage_ctor d))
    | _ => Throw NotImplementedError
    end.
Proof. intros Ht Hn. unfold parse. rewrite Ht. destruct t; try reflexivity. done. Qed.

Lemma parse_not_undef d : parse d <> Undef.
Proof. unfold parse. destruct (_ || _)%bool; [discriminate|]. destruct (MessageType_of_Z _); discriminate. Qed.

Lemma Message_ctor_eq t :
  Message_ctor MessageData t = le_bytes 2 (MessageType_to_Z t) ++ replicate 68 NUL.
Proof. destruct t; reflexivity. Qed.

(** The type written by a constructor survives writes behind the type field *)
Lemma read_type_Message_ctor t : read_i16 0 (Message_ctor MessageData t) = MessageType_to_Z t.
Proof. destruct t; reflexivity. Qed.

Lemma read_type_write_at off bs m :
  2 <= off -> off + length bs <= length m ->
  read_i16 0 (write_at off bs m) = read_i16 0 m.
Proof. intros. unfold read_i16. rewrite bytes_at_write_at_disj by lia. done. Qed.

Lemma length_ctor_write t off bs :
  off + length bs <= 70 -> length (write_at off bs (Message_ctor MessageData t)) = 70.
Proof. intros. rewrite length_write_at; rewrite length_Message_ctor; lia. Qed.

(** rewrite the lengths and the reads of a freshly built message *)
Ltac msg_len :=
  unfold_layout; unfold write_i32, write_u64;
  repeat match goal with
  | H : cview ?x ?v |- context [length (pad ?x ?v)] => rewrite (length_pad x v H)
  | |- context [length (Message_ctor MessageData ?t)] => rewrite (length_Message_ctor t)
  | |- context [length (le_bytes ?n ?z)] => rewrite (length_le_bytes n z)
  | |- context [length (write_at ?o ?b ?m)] => rewrite (length_write_at o b m) by msg_len
  end; try reflexivity; try lia.

Ltac msg_read :=
  unfold read_i32, read_u64, field_text, write_i32, write_u64;
  repeat match goal with
  | |- context [bytes_at ?o ?n (write_at ?o ?b ?m)] =>
      rewrite (bytes_at_write_at_same o n b m) by msg_len
  | |- context [bytes_at ?o ?n (write_at ?o' ?b ?m)] =>
      rewrite (bytes_at_write_at_disj o n o' b m) by msg_len
  | |- context [cstr (pad ?x ?v)] => rewrite (cstr_pad x v) by assumption
  end.

Ltac msg_type :=
  unfold write_i32, write_u64;
  repeat (rewrite read_type_write_at by msg_len); apply read_type_Message_ctor.

(** run the string setters of the goal *)
Ltac msg_build :=
  cbn; repeat (rewrite set_string_field_ok by assumption; cbn).

(** parse the message built in the goal, a message of type [t] *)
Ltac msg_parse t :=
  rewrite (parse_typed _ t); [ eexists; split; [reflexivity|]; cbn | msg_type | done ].

Lemma signed_le_bytes z : i32_range z -> to_signed 32 (le_Z (le_bytes 4 z)) = z.
Proof. intros. rewrite le_Z_le_bytes. now apply wrap_i32_id. Qed.

Lemma unsigned_le_bytes z : u64_range z -> le_Z (le_bytes 8 z) = z.
Proof. intros. rewrite le_Z_le_bytes. now apply wrap_u64_id. Qed.

(** The layouts: what a receiver reads from a message built with the setters,
    for any views that fit their fields. *)

Lemma ProcessConnection_parse n :
  cview NAME_LENGTH n ->
  exists r, set_process_name n ProcessConnectionData = Ret r /\ length (bytes r) = BUF_SIZE /\
    exists p, parse (bytes r) = Ret (VProcessConnection p) /\ sv_str (process_name p) = sv_str n.
Proof.
  intros Hn. unfold set_process_name. msg_build.
  eexists. split; [reflexivity|]. cbn. split; [msg_len|].
  msg_parse PROCESS_CONNECTION. unfold process_name; cbn. rewrite !sv_str_sv_at.
  now msg_read.
Qed.

Lemma cview_pad_weaken max max' off v t :
  cview max v -> max <= max' -> off + max' <= 70 -> 2 <= off ->
  field_text off max' (write_at off (pad max v) (Message_ctor MessageData t)) = sv_str v.
Proof.
  intros Hv Hm Ho H2. unfold field_text, sv_str. f_equal.
  pose proof (length_pad _ _ Hv) as Hp.
  assert (bytes_at off max' (write_at off (pad max v) (Message_ctor MessageData t))
          = pad max v ++ replicate (max' - max) NUL) as ->.
  { unfold bytes_at, write_at.
    rewrite drop_app_length' by (rewrite length_take, length_Message_ctor; lia).
    rewrite take_app_ge by lia. rewrite Hp. f_equal.
    assert (drop (off + max) (Message_ctor MessageData t) = replicate (70 - (off + max)) NUL) as ->.
    { rewrite Message_ctor_eq, drop_app_ge by (rewrite length_le_bytes; lia).
      rewrite length_le_bytes, drop_replicate. f_equal. lia. }
    rewrite take_replicate. f_equal. lia. }
  unfold pad. rewrite <-app_assoc, <-replicate_add.
  destruct Hv as (Hl&Hn&Ht&_). unfold cstr.
  rewrite strnlen_app_no_nul by (rewrite ?length_app, ?Ht; auto; lia).
  now rewrite strnlen_zeros, Nat.add_0_r, take_app_length.
Qed.

Lemma SwapRequest_parse n :
  cview ID_LENGTH n ->
  exists r, set_swap_path n SwapRequestData = Ret r /\ length (bytes r) = BUF_SIZE /\
    exists p, parse (bytes r) = Ret (VSwapRequest p) /\ sv_str (swap_path p) = sv_str n.
Proof.
  intros Hn. unfold set_swap_path. msg_build.
  eexists. split; [reflexivity|]. cbn. split; [msg_len|].
  msg_parse SWAP_REQUEST. unfold swap_path; cbn. rewrite !sv_str_sv_at.
  apply cview_pad_weaken; unfold_layout; auto; lia.
Qed.

Lemma InvocationRequest_parse f id n t :
  cview NAME_LENGTH f -> cview ID_LENGTH id -> (0 <= n)%Z -> i32_range n -> i32_range t ->
  exists r,
    (r ← set_invocation_id id InvocationRequestData;
     r ← set_function_name f r;
     set_payload_size n r) = Ret r /\ length (bytes r) = BUF_SIZE /\
    length (bytes (set_total_length t r)) = BUF_SIZE /\
    exists p, parse (bytes (set_total_length t r)) = Ret (VInvocationRequest p) /\
      sv_str (function_name p) = sv_str f /\ sv_str (invocation_id p) = sv_str id /\
      payload_size p = n /\ total_length p = t.
Proof.
  intros Hf Hid Hn Hn' Ht. unfold set_invocation_id, set_function_name, set_payload_size.
  msg_build. rewrite (proj2 (Z.ltb_ge n 0)) by lia.
  eexists. split; [reflexivity|]. cbn. split; [msg_len|]. split; [msg_len|].
  msg_parse INVOCATION_REQUEST.
  unfold function_name, invocation_id, payload_size, total_length; cbn. rewrite !sv_str_sv_at.
  msg_read. now rewrite !signed_le_bytes.
Qed.

(** the same, with the texts set in the other order *)
Lemma InvocationRequest_parse' f id n t :
  cview NAME_LENGTH f -> cview ID_LENGTH id -> (0 <= n)%Z -> i32_range n -> i32_range t ->
  exists r,
    (r ← set_function_name f InvocationRequestData;
     r ← set_invocation_id id r;
     set_payload_size n r) = Ret r /\
    length (bytes (set_total_length t r)) = BUF_SIZE /\
    exists p, parse (bytes (set_total_length t r)) = Ret (VInvocationRequest p) /\
      sv_str (function_name p) = sv_str f /\ sv_str (invocation_id p) = sv_str id /\
      payload_size p = n /\ total_length p = t.
Proof.
  intros Hf Hid Hn Hn' Ht. unfold set_invocation_id, set_function_name, set_payload_size.
  msg_build. rewrite (proj2 (Z.ltb_ge n 0)) by lia.
  eexists. split; [reflexivity|]. cbn. split; [msg_len|].
  msg_parse INVOCATION_REQUEST.
  unfold function_name, invocation_id, payload_size, total_length; cbn. rewrite !sv_str_sv_at.
  msg_read. now rewrite !signed_le_bytes.
Qed.

Lemma InvocationResult_parse id c t :
  cview ID_LENGTH id -> i32_range c -> i32_range t ->
  exists r, set_result_invocation_id id InvocationResultData = Ret r /\
    length (bytes (set_total_length t (set_return_code c r))) = BUF_SIZE /\
    exists p, parse (bytes (set_total_length t (set_return_code c r))) = Ret (VInvocationResult p) /\
      sv_str (result_invocation_id p) = sv_str id /\ return_code p = c /\ total_length p = t.
Proof.
  intros Hid Hc Ht. unfold set_result_invocation_id. msg_build.
  eexists. split; [reflexivity|]. cbn. split; [msg_len|].
  msg_parse INVOCATION_RESULT.
  unfold result_invocation_id, return_code, total_length; cbn. rewrite !sv_str_sv_at.
  msg_read. now rewrite !signed_le_bytes.
Qed.

Lemma PutMessage_parse n id t :
  cview NAME_LENGTH n -> cview NAME_LENGTH id -> i32_range t ->
  exists r, (r ← set_put_name n PutMessageData; set_put_process_id id r) = Ret r /\
    length (bytes (set_total_length t r)) = BUF_SIZE /\
    exists p, parse (bytes (set_total_length t r)) = Ret (VPutMessage p) /\
      sv_str (put_name p) = sv_str n /\ sv_str (put_process_id p) = sv_str id /\ total_length p = t.
Proof.
  intros Hn Hid Ht. unfold set_put_name, set_put_process_id. msg_build.
  eexists. split; [reflexivity|]. cbn. split; [msg_len|].
  msg_parse PUT_MESSAGE.
  unfold put_name, put_process_id, total_length; cbn. rewrite !sv_str_sv_at.
  msg_read. now rewrite !signed_le_bytes.
Qed.

Lemma ApplicationUpdate_parse id ip st port :
  cview NAME_LENGTH id -> cview ID_LENGTH ip -> i32_range st -> i32_range port ->
  exists r, (r ← set_update_process_id id ApplicationUpdateData; set_ip_address ip r) = Ret r /\
    length (bytes (set_update_port port (set_status_change st r))) = BUF_SIZE /\
    exists p, parse (bytes (set_update_port port (set_status_change st r)))
              = Ret (VApplicationUpdate p) /\
      sv_str (update_process_id p) = sv_str id /\ sv_str (ip_address p) = sv_str ip /\
      status_change p = st /\ update_port p = port.
Proof.
  intros Hn Hid Hs Hp. unfold set_update_process_id, set_ip_address. msg_build.
  eexists. split; [reflexivity|]. cbn. split; [msg_len|].
  msg_parse APPLICATION_UPDATE.
  unfold update_process_id, ip_address, status_change, update_port; cbn. rewrite !sv_str_sv_at.
  msg_read. now rewrite !signed_le_bytes.
Qed.

Lemma SwapConfirmation_parse z :
  i32_range z ->
  length (bytes (set_swap_size z SwapConfirmationData)) = BUF_SIZE /\
  exists p, parse (bytes (set_swap_size z SwapConfirmationData)) = Ret (VSwapConfirmation p) /\
    swap_size p = z.
Proof.
  intros Hz. cbn. split; [msg_len|]. msg_parse SWAP_CONFIRMATION.
  unfold swap_size; cbn. msg_read. now rewrite !signed_le_bytes.
Qed.

Lemma DataPlaneMetrics_parse n c t :
  (0 <= n)%Z -> i32_range n -> (0 <= c)%Z -> i32_range c -> u64_range t ->
  exists r, (r ← set_invocations n DataPlaneMetricsData; set_computation_time c r) = Ret r /\
    length (bytes (set_last_invocation_timestamp t r)) = BUF_SIZE /\
    exists p, parse (bytes (set_last_invocation_timestamp t r)) = Ret (VDataPlaneMetrics p) /\
      invocations p = n /\ computation_time p = c /\ last_invocation_timestamp p = t.
Proof.
  intros H1 H2 H3 H4 H5. unfold set_invocations, set_computation_time.
  rewrite (proj2 (Z.ltb_ge n 0)) by lia. cbn. rewrite (proj2 (Z.ltb_ge c 0)) by lia.
  eexists. split; [reflexivity|]. cbn. split; [msg_len|].
  msg_parse DATAPLANE_METRICS.
  unfold invocations, computation_time, last_invocation_timestamp; cbn.
  msg_read. now rewrite !signed_le_bytes, unsigned_le_bytes.
Qed.

Lemma cview_fits max s : fits max s -> cview max (sv_of_string s).
Proof. intros [??]. now apply cview_of_string. Qed.

(** a setter given a [std::string] throws exactly when the string is too long *)
Lemma set_string_field_string max off e s m :
  (max < String.length s -> set_string_field max off e (sv_of_string s) m = Throw e) /\
  (String.length s <= max -> exists m', set_string_field max off e (sv_of_string s) m = Ret m').
Proof.
  split; intros H.
  - now apply set_string_field_too_long.
  - unfold set_string_field, sv_of_string; cbn [sv_len sv_mem].
    rewrite (proj2 (Nat.ltb_ge max (String.length s))) by lia.
    rewrite <-length_list_byte_of_string in H.
    generalize dependent (String.list_byte_of_string s). intros l Hl.
    assert (exists bs, strncpy max (l ++ [NUL]) = Some bs) as [bs ->]; [|eauto].
    revert max Hl. induction l as [|b l IH]; intros [|max] Hl; cbn in *; eauto.
    destruct (decide (b = NUL)) as [->|]; eauto.
    destruct (IH max) as [bs ->]; [lia|]. cbn. eauto.
Qed.

(** C9: every message the wire format can carry survives the trip: the bytes
    the sender writes with the constructors and setters of the message class
    form one 70-byte buffer, and the parser and getters of the receiver read
    the same message back, field by field, for all nine message types. *)
Theorem wire_roundtrip (w : wire) :
  wire_ok w -> exists d, encode w = Ret d /\ length d = BUF_SIZE /\ decode d = Ret w.
Proof.
  unfold decode. destruct w; cbn [wire_ok encode]; intros Hok;
    repeat match goal with H : _ /\ _ |- _ => destruct H end;
    repeat match goal with H : fits _ _ |- _ => apply cview_fits in H end.
  - destruct (ProcessConnection_parse (sv_of_string name)) as (r&->&?&p&Hp&?); auto.
    eexists. split; [reflexivity|]. split; [done|]. rewrite Hp. cbn.
    rewrite sv_str_of_string in *. congruence.
  - destruct (SwapRequest_parse (sv_of_string path)) as (r&->&?&p&Hp&?); auto.
    eexists. split; [reflexivity|]. split; [done|]. rewrite Hp. cbn.
    rewrite sv_str_of_string in *. congruence.
  - destruct (SwapConfirmation_parse size) as (?&p&Hp&?); auto.
    eexists. split; [reflexivity|]. split; [done|]. rewrite Hp. cbn. congruence.
  - destruct (InvocationRequest_parse (sv_of_string fname) (sv_of_string id) payload total)
      as (r&Hr&?&?&p&Hp&?&?&?&?); auto. cbn in Hr |- *.
    destruct (set_invocation_id _ _) as [r1| |]; [|done|done]. cbn in Hr |- *.
    destruct (set_function_name _ _) as [r2| |]; [|done|done]. cbn in Hr |- *.
    rewrite Hr. eexists. split; [reflexivity|]. split; [done|]. unfold bytes in Hp; cbn in Hp. rewrite Hp.
    cbn. rewrite sv_str_of_string in *. congruence.
  - destruct (InvocationResult_parse (sv_of_string id) code total) as (r&->&?&p&Hp&?&?&?); auto.
    eexists. split; [reflexivity|]. split; [done|]. unfold bytes in Hp; cbn in Hp |- *. rewrite Hp.
    cbn. rewrite sv_str_of_string in *. congruence.
  - destruct (DataPlaneMetrics_parse invocations0 time timestamp) as (r&Hr&?&p&Hp&?&?&?); auto.
    cbn in Hr |- *. destruct (set_invocations _ _) as [r1| |]; [|done|done]. cbn in Hr |- *.
    rewrite Hr. eexists. split; [reflexivity|]. split; [done|]. unfold bytes in Hp; cbn in Hp. rewrite Hp.
    cbn. congruence.
  - eexists. split; [reflexivity|]. split; reflexivity.
  - destruct (ApplicationUpdate_parse (sv_of_string process) (sv_of_string ip) status port)
      as (r&Hr&?&p&Hp&?&?&?&?); auto. cbn in Hr |- *.
    destruct (set_update_process_id _ _) as [r1| |]; [|done|done]. cbn in Hr |- *.
    rewrite Hr. eexists. split; [reflexivity|]. split; [done|]. unfold bytes in Hp; cbn in Hp. rewrite Hp.
    cbn. rewrite !sv_str_of_string in *. congruence.
  - destruct (PutMessage_parse (sv_of_string name) (sv_of_string process) total)
      as (r&Hr&?&p&Hp&?&?&?); auto. cbn in Hr |- *.
    destruct (set_put_name _ _) as [r1| |]; [|done|done]. cbn in Hr |- *.
    rewrite Hr. eexists. split; [reflexivity|]. split; [done|]. unfold bytes in Hp; cbn in Hp. rewrite Hp.
    cbn. rewrite !sv_str_of_string in *. congruence.
Qed.

(** The setters validate their argument and nothing else: building a
    message throws [InvalidArgument] when a text is longer than its field or a
    count is negative, and otherwise succeeds; it never has undefined
    behaviour, even for texts with NUL characters. *)
Theorem setters_validate (w : wire) :
  (setters_accept w = true -> exists d, encode w = Ret d) /\
  (setters_accept w = false -> exists msg, encode w = Throw (InvalidArgument msg)).
Proof.
  destruct w; cbn [setters_accept encode]; split; intros H;
  unfold set_process_name, set_swap_path, set_invocation_id, set_function_name, set_payload_size,
    set_result_invocation_id, set_invocations, set_computation_time, set_update_process_id,
    set_ip_address, set_put_name, set_put_process_id;
  rewrite ?andb_true_iff, ?andb_false_iff, ?Nat.leb_le, ?Nat.leb_gt, ?Z.leb_le, ?Z.leb_gt in H;
  try discriminate; try (eexists; reflexivity);
  repeat (match goal with
  | |- context [set_string_field ?max ?off ?e (sv_of_string ?s) ?m] =>
      let Hlong := fresh in let Hshort := fresh in let Hs := fresh in
      destruct (set_string_field_string max off e s m) as [Hlong Hshort];
      destruct (decide (String.length s <= max)) as [Hs|Hs];
      [ destruct (Hshort Hs) as [? ->] | rewrite Hlong by lia ]; clear Hlong Hshort
  | |- context [(?x <? 0)%Z] => destruct (Z.ltb_spec x 0)
  end; cbn); first [ by eauto | lia ].
Qed.

(** the parser is total and classifies by the type field alone: types 1 to
    9 give the variant of that type, the generic header is not implemented,
    and every other value is rejected as an invalid message. *)
Theorem parse_classifies (d : mem) :
  match parse d with
  | Ret v => exists t, variant_type v = Some t /\ read_i16 0 d = MessageType_to_Z t /\
               (1 <= read_i16 0 d <= 9)%Z
  | Throw NotImplementedError => read_i16 0 d = MessageType_to_Z GENERIC_HEADER
  | Throw (InvalidMessage _) => (read_i16 0 d < 0 \/ MessageType_to_Z END_FLAG <= read_i16 0 d)%Z
  | _ => False
  end.
Proof.
  unfold parse. set (z := read_i16 0 d). clearbody z. cbn [MessageType_to_Z].
  destruct (Z.leb_spec 10 z); [cbn; lia|]. destruct (Z.ltb_spec z 0); [cbn; lia|]. cbn [orb].
  assert (z = 0 \/ z = 1 \/ z = 2 \/ z = 3 \/ z = 4 \/ z = 5 \/ z = 6 \/ z = 7 \/ z = 8 \/ z = 9)%Z
    as Hz by lia.
  destruct Hz as [->|[->|[->|[->|[->|[->|[->|[->|[->| ->]]]]]]]]];
    cbn; try reflexivity; eexists; (split; [reflexivity|]); cbn; lia.
Qed.

(** No field of a received buffer, whatever its bytes, makes a string
    getter read outside the field or return a NUL, and copying the text into
    another message with a field of the same width neither throws nor reads
    out of bounds. *)
Theorem parsed_views_fit (d : mem) (v : MessageVariants) :
  length d = BUF_SIZE -> parse d = Ret v ->
  Forall (fun '(max, s) => cview max s /\
    forall off e m, set_string_field max off e s m = Ret (write_at off (pad max s) m))
    (variant_views v).
Proof.
  intros Hd Hp. unfold parse in Hp.
  destruct (_ || _)%bool; [done|].
  assert (forall off max, off + max <= length d ->
    cview max (sv_at off (strnlen (drop off d) max) d)) as Hv.
  { intros. now apply cview_sv_at. }
  rewrite Hd in Hv. unfold BUF_SIZE in Hv.
  destruct (MessageType_of_Z (read_i16 0 d)); simplify_eq; cbn [variant_views];
    repeat (apply List.Forall_cons || apply List.Forall_nil);
    (split; [|intros; apply set_string_field_ok]); apply Hv; unfold_layout; lia.
Qed.

Lemma wire_roundtrip_witness :
  let w := WInvocationRequest "no-op" "first-id" 42 42 in
  wire_ok w /\ exists d, encode w = Ret d /\ length d = BUF_SIZE /\ decode d = Ret w.
Proof.
  intros w. assert (wire_ok w) as H.
  { repeat split; first [apply (bool_decide_unpack _); vm_compute; exact I | cbn; lia]. }
  split; [exact H|]. exact (wire_roundtrip w H).
Defined.

Lemma setters_validate_witness :
  exists msg, encode (WProcessConnection "a-process-name-that-is-far-too-long-for-its-field")
              = Throw (InvalidArgument msg).
Proof.
  exact (proj2 (setters_validate (WProcessConnection "a-process-name-that-is-far-too-long-for-its-field"))
    eq_refl).
Defined.

Lemma parsed_views_fit_witness :
  let d := bytes PutMessageData in
  length d = BUF_SIZE /\
  Forall (fun '(max, s) => cview max s /\
    forall off e m, set_string_field max off e s m = Ret (write_at off (pad max s) m))
    (variant_views (VPutMessage (PutMessage_ctor d))).
Proof. intros d. split; [reflexivity|]. exact (parsed_views_fit d _ eq_refl eq_refl). Defined.
