(* ===== verification/IpcMessages.v ===== *)
(** * IpcMessages: the messages between controller and workers

    [runtime/internal/ipc/messages.hpp] and [runtime/src/internal/messages.cpp]:
    a 128-byte buffer with a two-byte type, a four-byte total length and the
    fields behind them.  [XParsed] points into a received buffer, [X] owns one
    and is writable; both are one record here, over the whole buffer (the
    [buf] pointer of the code is the buffer plus [HEADER_OFFSET]). *)

From S2P Require Import Prelude Memory.

(** ** Layout constants *)
Definition IPC_HEADER_OFFSET : nat := 6.
Definition IPC_NAME_LENGTH : nat := 32.
Definition IPC_ID_LENGTH : nat := 16.
Definition IPC_BUF_SIZE : nat := 128.
(** [InvocationRequest::MAX_BUFFERS] *)
Definition MAX_BUFFERS : nat := 16.

Inductive IpcType : Type :=
  | IPC_GENERIC_HEADER | IPC_GET_REQUEST | IPC_PUT_REQUEST | IPC_INVOCATION_REQUEST
  | IPC_INVOCATION_RESULT | IPC_APPLICATION_UPDATE | IPC_STATE_KEYS_REQUEST
  | IPC_STATE_KEYS_RESULT | IPC_END_FLAG.

Definition IpcType_to_Z (t : IpcType) : Z :=
  match t with
  | IPC_GENERIC_HEADER => 0 | IPC_GET_REQUEST => 1 | IPC_PUT_REQUEST => 2
  | IPC_INVOCATION_REQUEST => 3 | IPC_INVOCATION_RESULT => 4 | IPC_APPLICATION_UPDATE => 5
  | IPC_STATE_KEYS_REQUEST => 6 | IPC_STATE_KEYS_RESULT => 7 | IPC_END_FLAG => 8
  end.

Definition IpcType_of_Z (z : Z) : IpcType :=
  match z with
  | 0 => IPC_GENERIC_HEADER | 1 => IPC_GET_REQUEST | 2 => IPC_PUT_REQUEST
  | 3 => IPC_INVOCATION_REQUEST | 4 => IPC_INVOCATION_RESULT | 5 => IPC_APPLICATION_UPDATE
  | 6 => IPC_STATE_KEYS_REQUEST | 7 => IPC_STATE_KEYS_RESULT | _ => IPC_END_FLAG
  end%Z.

(** [Message(Type type)]: a zeroed buffer with the type *)
Definition IpcMessage_ctor (type : IpcType) : mem :=
  write_i16 0 (IpcType_to_Z type) (replicate IPC_BUF_SIZE NUL).

Definition IpcMessage_type (m : mem) : outcome IpcType :=
  let type := read_i16 0 m in
  if ((IpcType_to_Z IPC_END_FLAG <=? type) || (type <? IpcType_to_Z IPC_GENERIC_HEADER))%Z
  then Throw (InvalidMessage "Invalid type value for Message: {}")
  else Ret (IpcType_of_Z type).

Definition ipc_total_length (m : mem) : Z := read_i32 2 m.
Definition set_ipc_total_length (len : Z) (m : mem) : mem := write_i32 2 len m.

(** ** GenericRequestParsed / GenericRequest: get and put requests *)
Record GenericRequest : Type := MkGenericRequest {
  gr_msg : mem; gr_id_len : nat; gr_name_len : nat
}.

Definition GenericRequestParsed (d : mem) : GenericRequest :=
  {| gr_msg := d;
     gr_id_len := strnlen (drop (IPC_HEADER_OFFSET + 4) d) IPC_NAME_LENGTH;
     gr_name_len := strnlen (drop (IPC_HEADER_OFFSET + 4 + IPC_NAME_LENGTH) d) IPC_NAME_LENGTH |}.

Definition data_len (x : GenericRequest) : Z := read_i32 IPC_HEADER_OFFSET (gr_msg x).
Definition generic_state (x : GenericRequest) : bool :=
  bool_decide (bytes_at (IPC_HEADER_OFFSET + IPC_NAME_LENGTH * 2 + 4) 1 (gr_msg x) <> [NUL]).
Definition generic_process_id (x : GenericRequest) : string_view :=
  sv_at (IPC_HEADER_OFFSET + 4) (gr_id_len x) (gr_msg x).
Definition generic_name (x : GenericRequest) : string_view :=
  sv_at (IPC_HEADER_OFFSET + IPC_NAME_LENGTH + 4) (gr_name_len x) (gr_msg x).

Definition set_data_len (len : Z) (x : GenericRequest) : GenericRequest :=
  {| gr_msg := write_i32 IPC_HEADER_OFFSET len (gr_msg x);
     gr_id_len := gr_id_len x; gr_name_len := gr_name_len x |}.
Definition set_generic_state (val : bool) (x : GenericRequest) : GenericRequest :=
  {| gr_msg := write_at (IPC_HEADER_OFFSET + IPC_NAME_LENGTH * 2 + 4)
                 [if val then x01 else x00] (gr_msg x);
     gr_id_len := gr_id_len x; gr_name_len := gr_name_len x |}.
Definition set_generic_process_id (process_id : string_view) (x : GenericRequest) : outcome GenericRequest :=
  d ← set_string_field IPC_NAME_LENGTH (IPC_HEADER_OFFSET + 4)
        (InvalidArgument "Process name too long: {} > {}") process_id (gr_msg x);
  Ret {| gr_msg := d; gr_id_len := sv_len process_id; gr_name_len := gr_name_len x |}.
Definition set_generic_name (name : string_view) (x : GenericRequest) : outcome GenericRequest :=
  d ← set_string_field IPC_NAME_LENGTH (IPC_HEADER_OFFSET + 4 + IPC_NAME_LENGTH)
        (InvalidArgument "Process name too long: {} > {}") name (gr_msg x);
  Ret {| gr_msg := d; gr_id_len := gr_id_len x; gr_name_len := sv_len name |}.

(** [GenericRequest(Type msg_type)]; the constructor clears the state flag *)
Definition GenericRequest_ctor (type : IpcType) : GenericRequest :=
  set_generic_state false (GenericRequestParsed (IpcMessage_ctor type)).
Definition GetRequest : GenericRequest := GenericRequest_ctor IPC_GET_REQUEST.
Definition PutRequest : GenericRequest := GenericRequest_ctor IPC_PUT_REQUEST.

(** ** InvocationRequestParsed / InvocationRequest *)
Record IpcInvocationRequest : Type := MkIpcInvocationRequest {
  iir_msg : mem; iir_process_id_len : nat; iir_id_len : nat; iir_name_len : nat
}.

Definition InvocationRequestParsed (d : mem) : IpcInvocationRequest :=
  {| iir_msg := d;
     iir_process_id_len :=
       strnlen (drop (IPC_HEADER_OFFSET + IPC_ID_LENGTH + IPC_NAME_LENGTH) d) IPC_ID_LENGTH;
     iir_id_len := strnlen (drop IPC_HEADER_OFFSET d) IPC_ID_LENGTH;
     iir_name_len := strnlen (drop (IPC_HEADER_OFFSET + IPC_ID_LENGTH) d) IPC_NAME_LENGTH |}.
Definition IpcInvocationRequest_ctor : IpcInvocationRequest :=
  InvocationRequestParsed (IpcMessage_ctor IPC_INVOCATION_REQUEST).

(** the offset of the number of buffers; their lengths follow *)
Definition BUFFERS_OFFSET : nat := IPC_HEADER_OFFSET + IPC_NAME_LENGTH + 2 * IPC_ID_LENGTH.

Definition buffers (x : IpcInvocationRequest) : Z := read_i32 BUFFERS_OFFSET (iir_msg x).
(** [buffers_lengths()[i]]; reading past the message is undefined *)
Definition buffers_length (i : nat) (x : IpcInvocationRequest) : outcome Z :=
  if decide (BUFFERS_OFFSET + 4 + 4 * i + 4 <= length (iir_msg x))
  then Ret (read_i32 (BUFFERS_OFFSET + 4 + 4 * i) (iir_msg x)) else Undef.
Definition ipc_process_id (x : IpcInvocationRequest) : string_view :=
  sv_at (IPC_HEADER_OFFSET + IPC_ID_LENGTH + IPC_NAME_LENGTH) (iir_process_id_len x) (iir_msg x).
Definition ipc_invocation_id (x : IpcInvocationRequest) : string_view :=
  sv_at IPC_HEADER_OFFSET (iir_id_len x) (iir_msg x).
Definition ipc_function_name (x : IpcInvocationRequest) : string_view :=
  sv_at (IPC_HEADER_OFFSET + IPC_ID_LENGTH) (iir_name_len x) (iir_msg x).

Definition with_iir_msg (x : IpcInvocationRequest) (d : mem) : IpcInvocationRequest :=
  {| iir_msg := d; iir_process_id_len := iir_process_id_len x; iir_id_len := iir_id_len x;
     iir_name_len := iir_name_len x |}.

Definition set_ipc_process_id (id : string_view) (x : IpcInvocationRequest) : outcome IpcInvocationRequest :=
  d ← set_string_field IPC_ID_LENGTH (IPC_HEADER_OFFSET + IPC_ID_LENGTH + IPC_NAME_LENGTH)
        (InvalidArgument "Process ID too long: {} > {}") id (iir_msg x);
  Ret {| iir_msg := d; iir_process_id_len := sv_len id; iir_id_len := iir_id_len x;
         iir_name_len := iir_name_len x |}.
Definition set_ipc_invocation_id (id : string_view) (x : IpcInvocationRequest) : outcome IpcInvocationRequest :=
  d ← set_string_field IPC_ID_LENGTH IPC_HEADER_OFFSET
        (InvalidArgument "Invocation ID too long: {} > {}") id (iir_msg x);
  Ret {| iir_msg := d; iir_process_id_len := iir_process_id_len x; iir_id_len := sv_len id;
         iir_name_len := iir_name_len x |}.
Definition set_ipc_function_name (name : string_view) (x : IpcInvocationRequest) : outcome IpcInvocationRequest :=
  d ← set_string_field IPC_NAME_LENGTH (IPC_HEADER_OFFSET + IPC_ID_LENGTH)
        (InvalidArgument "Function name too long: {} > {}") name (iir_msg x);
  Ret {| iir_msg := d; iir_process_id_len := iir_process_id_len x; iir_id_len := iir_id_len x;
         iir_name_len := sv_len name |}.

(** [*ptr++ = v] for every [v], from offset [off] on *)
Fixpoint store_i32s (off : nat) (vs : list Z) (d : mem) : outcome mem :=
  match vs with
  | [] => Ret d
  | v :: vs' => d' ← checked_write off (le_bytes 4 v) d; store_i32s (off + 4) vs' d'
  end.

(** [void buffers(Iter begin, Iter end)]: the number of buffers and their
    lengths, unless there are more than [MAX_BUFFERS] *)
Definition set_buffers (lens : list Z) (x : IpcInvocationRequest) : outcome IpcInvocationRequest :=
  if MAX_BUFFERS <? length lens
  then Throw (InvalidArgument "Number of buffers too large: {} > {}")
  else d ← store_i32s BUFFERS_OFFSET (Z.of_nat (length lens) :: lens) (iir_msg x);
       Ret (with_iir_msg x d).
(** [void buffers(int32_t buffer_len)] *)
Definition set_buffer (buffer_len : Z) (x : IpcInvocationRequest) : IpcInvocationRequest :=
  with_iir_msg x (write_i32 (BUFFERS_OFFSET + 4) buffer_len (write_i32 BUFFERS_OFFSET 1 (iir_msg x))).

(** ** InvocationResultParsed / InvocationResult *)
Record IpcInvocationResult : Type := MkIpcInvocationResult { irs_msg : mem; irs_id_len : nat }.

Definition InvocationResultParsed (d : mem) : IpcInvocationResult :=
  {| irs_msg := d; irs_id_len := strnlen (drop IPC_HEADER_OFFSET d) IPC_ID_LENGTH |}.
Definition IpcInvocationResult_ctor : IpcInvocationResult :=
  InvocationResultParsed (IpcMessage_ctor IPC_INVOCATION_RESULT).

Definition ipc_result_id (x : IpcInvocationResult) : string_view :=
  sv_at IPC_HEADER_OFFSET (irs_id_len x) (irs_msg x).
Definition ipc_buffer_length (x : IpcInvocationResult) : Z :=
  read_i32 (IPC_HEADER_OFFSET + IPC_ID_LENGTH) (irs_msg x).
Definition ipc_return_code (x : IpcInvocationResult) : Z :=
  read_i32 (IPC_HEADER_OFFSET + IPC_ID_LENGTH + 4) (irs_msg x).
Definition set_ipc_result_id (id : string_view) (x : IpcInvocationResult) : outcome IpcInvocationResult :=
  d ← set_string_field IPC_ID_LENGTH IPC_HEADER_OFFSET
        (InvalidArgument "Invocation ID too long: {} > {}") id (irs_msg x);
  Ret {| irs_msg := d; irs_id_len := sv_len id |}.
Definition set_ipc_return_code (code : Z) (x : IpcInvocationResult) : IpcInvocationResult :=
  {| irs_msg := write_i32 (IPC_HEADER_OFFSET + IPC_ID_LENGTH + 4) code (irs_msg x);
     irs_id_len := irs_id_len x |}.
Definition set_ipc_buffer_length (len : Z) (x : IpcInvocationResult) : IpcInvocationResult :=
  {| irs_msg := write_i32 (IPC_HEADER_OFFSET + IPC_ID_LENGTH) len (irs_msg x);
     irs_id_len := irs_id_len x |}.

(** ** StateKeysRequest, StateKeysResult *)
Definition StateKeysRequest : mem := IpcMessage_ctor IPC_STATE_KEYS_REQUEST.
Definition StateKeysResult : mem := IpcMessage_ctor IPC_STATE_KEYS_RESULT.
Definition state_keys_buffer_length (m : mem) : Z := read_i32 IPC_HEADER_OFFSET m.
Definition set_state_keys_buffer_length (len : Z) (m : mem) : mem := write_i32 IPC_HEADER_OFFSET len m.

(** ** ApplicationUpdateParsed / ApplicationUpdate *)
Record IpcApplicationUpdate : Type := MkIpcApplicationUpdate { iau_msg : mem; iau_id_len : nat }.

Definition ApplicationUpdateParsed (d : mem) : IpcApplicationUpdate :=
  {| iau_msg := d; iau_id_len := strnlen (drop IPC_HEADER_OFFSET d) IPC_NAME_LENGTH |}.
Definition IpcApplicationUpdate_ctor : IpcApplicationUpdate :=
  ApplicationUpdateParsed (IpcMessage_ctor IPC_APPLICATION_UPDATE).

Definition ipc_status_change (x : IpcApplicationUpdate) : Z :=
  read_i32 (IPC_HEADER_OFFSET + IPC_NAME_LENGTH) (iau_msg x).
Definition ipc_update_process_id (x : IpcApplicationUpdate) : string_view :=
  sv_at IPC_HEADER_OFFSET (iau_id_len x) (iau_msg x).
Definition set_ipc_update_process_id (id : string_view) (x : IpcApplicationUpdate) : outcome IpcApplicationUpdate :=
  d ← set_string_field IPC_NAME_LENGTH IPC_HEADER_OFFSET
        (InvalidArgument "Process ID too long: {} > {}") id (iau_msg x);
  Ret {| iau_msg := d; iau_id_len := sv_len id |}.
Definition set_ipc_status_change (code : Z) (x : IpcApplicationUpdate) : IpcApplicationUpdate :=
  {| iau_msg := write_i32 (IPC_HEADER_OFFSET + IPC_NAME_LENGTH) code (iau_msg x);
     iau_id_len := iau_id_len x |}.

(** ** Message::parse *)
Inductive IpcVariants : Type :=
  | VGetRequestParsed (x : GenericRequest)
  | VPutRequestParsed (x : GenericRequest)
  | VInvocationRequestParsed (x : IpcInvocationRequest)
  | VInvocationResultParsed (x : IpcInvocationResult)
  | VApplicationUpdateParsed (x : IpcApplicationUpdate)
  | VStateKeysResultParsed (x : mem)
  | VStateKeysRequestParsed (x : mem).

Definition parse_message (data : mem) : outcome IpcVariants :=
  let type_val := read_i16 0 data in
  if ((IpcType_to_Z IPC_END_FLAG <=? type_val) || (type_val <? IpcType_to_Z IPC_GENERIC_HEADER))%Z
  then Throw (InvalidMessage "Invalid type value for Message: {}")
  else
    match IpcType_of_Z type_val with
    | IPC_GET_REQUEST => Ret (VGetRequestParsed (GenericRequestParsed data))
    | IPC_PUT_REQUEST => Ret (VPutRequestParsed (GenericRequestParsed data))
    | IPC_INVOCATION_REQUEST => Ret (VInvocationRequestParsed (InvocationRequestParsed data))
    | IPC_INVOCATION_RESULT => Ret (VInvocationResultParsed (InvocationResultParsed data))
    | IPC_APPLICATION_UPDATE => Ret (VApplicationUpdateParsed (ApplicationUpdateParsed data))
    | IPC_STATE_KEYS_RESULT => Ret (VStateKeysResultParsed data)
    | IPC_STATE_KEYS_REQUEST => Ret (VStateKeysRequestParsed data)
    | _ => Throw (PraaSException "Unknown message with type number {}")
    end.

(** ** The abstract IPC messages *)
Inductive ipc_wire : Type :=
  | IGet (process name : string) (state : bool) (len : Z)
  | IPut (process name : string) (state : bool) (len : Z)
  | IInvocation (id fname process : string) (lens : list Z)
  | IResult (id : string) (len code : Z)
  | IUpdate (process : string) (status : Z)
  | IStateKeysRequest
  | IStateKeysResult (len : Z).

Definition encode_generic (base : GenericRequest) (p n : string) (st : bool) (len : Z) : outcome mem :=
  r ← set_generic_process_id (sv_of_string p) base;
  r ← set_generic_name (sv_of_string n) r;
  Ret (gr_msg (set_generic_state st (set_data_len len r))).

Definition ipc_encode (w : ipc_wire) : outcome mem :=
  match w with
  | IGet p n st len => encode_generic GetRequest p n st len
  | IPut p n st len => encode_generic PutRequest p n st len
  | IInvocation id f p lens =>
      r ← set_ipc_function_name (sv_of_string f) IpcInvocationRequest_ctor;
      r ← set_ipc_invocation_id (sv_of_string id) r;
      r ← set_ipc_process_id (sv_of_string p) r;
      iir_msg <$> set_buffers lens r
  | IResult id len code =>
      r ← set_ipc_result_id (sv_of_string id) IpcInvocationResult_ctor;
      Ret (irs_msg (set_ipc_buffer_length len (set_ipc_return_code code r)))
  | IUpdate p st =>
      r ← set_ipc_update_process_id (sv_of_string p) IpcApplicationUpdate_ctor;
      Ret (iau_msg (set_ipc_status_change st r))
  | IStateKeysRequest => Ret StateKeysRequest
  | IStateKeysResult len => Ret (set_state_keys_buffer_length len StateKeysResult)
  end.

(** the lengths [0 .. n-1] of an invocation request *)
Fixpoint read_lengths (i n : nat) (x : IpcInvocationRequest) : outcome (list Z) :=
  match n with
  | O => Ret []
  | S n' => v ← buffers_length i x; vs ← read_lengths (S i) n' x; Ret (v :: vs)
  end.

Definition ipc_decode (d : mem) : outcome ipc_wire :=
  v ← parse_message d;
  match v with
  | VGetRequestParsed x =>
      Ret (IGet (sv_str (generic_process_id x)) (sv_str (generic_name x)) (generic_state x) (data_len x))
  | VPutRequestParsed x =>
      Ret (IPut (sv_str (generic_process_id x)) (sv_str (generic_name x)) (generic_state x) (data_len x))
  | VInvocationRequestParsed x =>
      lens ← read_lengths 0 (Z.to_nat (buffers x)) x;
      Ret (IInvocation (sv_str (ipc_invocation_id x)) (sv_str (ipc_function_name x))
             (sv_str (ipc_process_id x)) lens)
  | VInvocationResultParsed x =>
      Ret (IResult (sv_str (ipc_result_id x)) (ipc_buffer_length x) (ipc_return_code x))
  | VApplicationUpdateParsed x =>
      Ret (IUpdate (sv_str (ipc_update_process_id x)) (ipc_status_change x))
  | VStateKeysRequestParsed _ => Ret IStateKeysRequest
  | VStateKeysResultParsed m => Ret (IStateKeysResult (state_keys_buffer_length m))
  end.

(** [s] fits a field of [max] characters *)
Definition ipc_fits (max : nat) (s : string) : Prop := no_nul s /\ String.length s <= max.

(** the number of buffer lengths that fit behind the fields of an invocation request *)
Definition BUFFERS_CAPACITY : nat := (IPC_BUF_SIZE - BUFFERS_OFFSET - 4) / 4.

Definition ipc_wire_ok (w : ipc_wire) : Prop :=
  match w with
  | IGet p n _ len | IPut p n _ len =>
      ipc_fits IPC_NAME_LENGTH p /\ ipc_fits IPC_NAME_LENGTH n /\ i32_range len
  | IInvocation id f p lens =>
      ipc_fits IPC_ID_LENGTH id /\ ipc_fits IPC_NAME_LENGTH f /\ ipc_fits IPC_ID_LENGTH p /\
      length lens <= BUFFERS_CAPACITY /\ Forall i32_range lens
  | IResult id len code => ipc_fits IPC_ID_LENGTH id /\ i32_range len /\ i32_range code
  | IUpdate p st => ipc_fits IPC_NAME_LENGTH p /\ i32_range st
  | IStateKeysRequest => True
  | IStateKeysResult len => i32_range len
  end.

(** ** Theorems *)

#[global] Arguments IPC_HEADER_OFFSET : simpl never.
#[global] Arguments IPC_NAME_LENGTH : simpl never.
#[global] Arguments IPC_ID_LENGTH : simpl never.
#[global] Arguments IPC_BUF_SIZE : simpl never.
#[global] Arguments BUFFERS_OFFSET : simpl never.
#[global] Arguments IpcMessage_ctor : simpl never.
#[global] Arguments parse_message : simpl never.

Ltac unfold_ipc_layout :=
  unfold BUFFERS_OFFSET, IPC_HEADER_OFFSET, IPC_NAME_LENGTH, IPC_ID_LENGTH in *;
  cbn [Nat.add Nat.mul] in *.

Lemma length_IpcMessage_ctor t : length (IpcMessage_ctor t) = 128.
Proof. reflexivity. Qed.

Lemma read_type_IpcMessage_ctor t : read_i16 0 (IpcMessage_ctor t) = IpcType_to_Z t.
Proof. destruct t; reflexivity. Qed.

Lemma ipc_read_type_write_at off bs m :
  2 <= off -> off + length bs <= length m -> read_i16 0 (write_at off bs m) = read_i16 0 m.
Proof. intros. unfold read_i16. rewrite bytes_at_write_at_disj by lia. done. Qed.

Lemma parse_message_typed d t :
  read_i16 0 d = IpcType_to_Z t -> t <> IPC_END_FLAG ->
  parse_message d =
    match t with
    | IPC_GET_REQUEST => Ret (VGetRequestParsed (GenericRequestParsed d))
    | IPC_PUT_REQUEST => Ret (VPutRequestParsed (GenericRequestParsed d))
    | IPC_INVOCATION_REQUEST => Ret (VInvocationRequestParsed (InvocationRequestParsed d))
    | IPC_INVOCATION_RESULT => Ret (VInvocationResultParsed (InvocationResultParsed d))
    | IPC_APPLICATION_UPDATE => Ret (VApplicationUpdateParsed (ApplicationUpdateParsed d))
    | IPC_STATE_KEYS_RESULT => Ret (VStateKeysResultParsed d)
    | IPC_STATE_KEYS_REQUEST => Ret (VStateKeysRequestParsed d)
    | _ => Throw (PraaSException "Unknown message with type number {}")
    end.
Proof. intros Ht Hn. unfold parse_message. rewrite Ht. destruct t; try reflexivity. done. Qed.

Ltac ipc_len :=
  unfold_ipc_layout; unfold write_i32;
  repeat match goal with
  | H : cview ?x ?v |- context [length (pad ?x ?v)] => rewrite (length_pad x v H)
  | |- context [length (IpcMessage_ctor ?t)] => rewrite (length_IpcMessage_ctor t)
  | |- context [length (le_bytes ?n ?z)] => rewrite (length_le_bytes n z)
  | |- context [length [_]] => change (length [_]) with 1
  | |- context [length (write_at ?o ?b ?m)] => rewrite (length_write_at o b m) by ipc_len
  end; try reflexivity; try lia.

Ltac ipc_read :=
  unfold read_i32, field_text, write_i32;
  repeat match goal with
  | |- context [bytes_at ?o ?n (write_at ?o ?b ?m)] =>
      rewrite (bytes_at_write_at_same o n b m) by ipc_len
  | |- context [bytes_at ?o ?n (write_at ?o' ?b ?m)] =>
      rewrite (bytes_at_write_at_disj o n o' b m) by ipc_len
  | |- context [cstr (pad ?x ?v)] => rewrite (cstr_pad x v) by assumption
  end.

Ltac ipc_type :=
  unfold write_i32;
  repeat (rewrite ipc_read_type_write_at by ipc_len); apply read_type_IpcMessage_ctor.

Ltac ipc_build :=
  cbn; repeat (rewrite set_string_field_ok by assumption; cbn).

Ltac ipc_parse t :=
  rewrite (parse_message_typed _ t); [ eexists; split; [reflexivity|]; cbn | ipc_type | done ].

Lemma ipc_signed_le_bytes z : i32_range z -> to_signed 32 (le_Z (le_bytes 4 z)) = z.
Proof. intros. rewrite le_Z_le_bytes. now apply wrap_i32_id. Qed.

Lemma GenericRequest_parse t p n st len :
  (t = IPC_GET_REQUEST \/ t = IPC_PUT_REQUEST) ->
  cview IPC_NAME_LENGTH p -> cview IPC_NAME_LENGTH n -> i32_range len ->
  exists r r',
    (r ← set_generic_process_id p (GenericRequest_ctor t); set_generic_name n r) = Ret r /\
    r' = set_generic_state st (set_data_len len r) /\
    length (gr_msg r') = IPC_BUF_SIZE /\ read_i16 0 (gr_msg r') = IpcType_to_Z t /\
    sv_str (generic_process_id (GenericRequestParsed (gr_msg r'))) = sv_str p /\
    sv_str (generic_name (GenericRequestParsed (gr_msg r'))) = sv_str n /\
    generic_state (GenericRequestParsed (gr_msg r')) = st /\
    data_len (GenericRequestParsed (gr_msg r')) = len.
Proof.
  intros Ht Hp Hn Hl. unfold set_generic_process_id, set_generic_name. ipc_build.
  eexists _, _. split; [reflexivity|]. split; [reflexivity|]. cbn. split; [ipc_len|].
  split; [ipc_type|].
  unfold generic_process_id, generic_name, generic_state, data_len; cbn.
  rewrite (sv_str_sv_at (IPC_HEADER_OFFSET + 4)).
  replace (IPC_HEADER_OFFSET + 4 + IPC_NAME_LENGTH)
    with (IPC_HEADER_OFFSET + IPC_NAME_LENGTH + 4) by (unfold_ipc_layout; lia).
  rewrite sv_str_sv_at.
  ipc_read. rewrite ipc_signed_le_bytes by done. destruct st; auto.
Qed.

(** stores in bounds *)
Lemma store_i32s_ok vs : forall off d,
  off + 4 * length vs <= length d ->
  exists d', store_i32s off vs d = Ret d' /\ length d' = length d /\
    (forall o n, o + n <= off -> bytes_at o n d' = bytes_at o n d) /\
    (forall i v, vs !! i = Some v -> bytes_at (off + 4 * i) 4 d' = le_bytes 4 v).
Proof.
  induction vs as [|v vs IH]; intros off d H; cbn [store_i32s length] in *.
  - exists d. repeat split; auto. intros [|]; cbn; done.
  - unfold checked_write. rewrite decide_True by (rewrite length_le_bytes; lia).
    destruct (IH (off + 4) (write_at off (le_bytes 4 v) d)) as (d'&Hd&Hlen&Hfr&Hrd).
    { rewrite length_write_at by (rewrite length_le_bytes; lia). lia. }
    rewrite length_write_at in Hlen by (rewrite length_le_bytes; lia).
    exists d'. repeat split; auto.
    + intros o n Ho. rewrite Hfr by lia.
      rewrite bytes_at_write_at_disj by (rewrite ?length_le_bytes; lia). done.
    + intros [|i] v' Hv; cbn in Hv; simplify_eq.
      * rewrite Nat.mul_0_r, Nat.add_0_r, Hfr by lia.
        rewrite bytes_at_write_at_same by (rewrite ?length_le_bytes; lia). done.
      * rewrite <-(Hrd i v' Hv). f_equal. lia.
Qed.

(** the first store past the end is undefined behaviour *)
Lemma store_i32s_overflow vs : forall off d,
  vs <> [] -> length d < off + 4 * length vs -> store_i32s off vs d = Undef.
Proof.
  induction vs as [|v vs IH]; intros off d Hn H; cbn [store_i32s length] in *; [done|].
  unfold checked_write. case_decide as Hc; [|done]. rewrite length_le_bytes in Hc. cbn.
  apply IH.
  - intros ->. cbn in H. lia.
  - rewrite length_write_at by (rewrite length_le_bytes; lia). lia.
Qed.

Lemma set_buffers_ok lens x :
  length (iir_msg x) = IPC_BUF_SIZE -> length lens <= BUFFERS_CAPACITY ->
  exists d, set_buffers lens x = Ret (with_iir_msg x d) /\ length d = IPC_BUF_SIZE /\
    (forall o n, o + n <= BUFFERS_OFFSET -> bytes_at o n d = bytes_at o n (iir_msg x)) /\
    bytes_at BUFFERS_OFFSET 4 d = le_bytes 4 (Z.of_nat (length lens)) /\
    (forall i v, lens !! i = Some v -> bytes_at (BUFFERS_OFFSET + 4 + 4 * i) 4 d = le_bytes 4 v).
Proof.
  intros Hx Hl. assert (length lens <= 13) as Hl' by exact Hl. unfold set_buffers.
  rewrite (proj2 (Nat.ltb_ge MAX_BUFFERS (length lens))) by (unfold MAX_BUFFERS; lia).
  destruct (store_i32s_ok (Z.of_nat (length lens) :: lens) BUFFERS_OFFSET (iir_msg x))
    as (d&Hd&Hlen&Hfr&Hrd).
  { rewrite Hx. cbn [length]. unfold IPC_BUF_SIZE. unfold_ipc_layout. lia. }
  rewrite Hd. cbn. exists d. repeat split; auto; try congruence.
  - rewrite <-(Hrd 0 _ eq_refl). f_equal; lia.
  - intros i v Hv. rewrite <-(Hrd (S i) v Hv). f_equal. lia.
Qed.

Lemma read_lengths_ok lens x i :
  length (iir_msg x) = IPC_BUF_SIZE -> i + length lens <= BUFFERS_CAPACITY -> Forall i32_range lens ->
  (forall j v, lens !! j = Some v ->
    bytes_at (BUFFERS_OFFSET + 4 + 4 * (i + j)) 4 (iir_msg x) = le_bytes 4 v) ->
  read_lengths i (length lens) x = Ret lens.
Proof.
  intros Hx. revert i. induction lens as [|v lens IH]; intros i Hl Hr Hb; cbn [read_lengths length]; auto.
  apply List.Forall_cons_iff in Hr as [Hv Hr].
  assert (i + length (v :: lens) <= 13) as Hl' by exact Hl. cbn in Hl'.
  unfold buffers_length. rewrite decide_True.
  2:{ rewrite Hx. unfold IPC_BUF_SIZE. unfold_ipc_layout. lia. }
  unfold mbind, outcome_bind. rewrite IH; auto.
  - unfold mret, outcome_ret. specialize (Hb 0 v eq_refl). rewrite Nat.add_0_r in Hb. unfold read_i32. rewrite Hb, ipc_signed_le_bytes by done. done.
  - unfold BUFFERS_CAPACITY in *. cbn [length] in Hl. lia.
  - intros j w Hw. rewrite <-(Hb (S j) w Hw). f_equal. lia.
Qed.

Lemma ipc_cview_fits max s : ipc_fits max s -> cview max (sv_of_string s).
Proof. intros [??]. now apply cview_of_string. Qed.

Lemma generic_roundtrip t p n st len :
  (t = IPC_GET_REQUEST \/ t = IPC_PUT_REQUEST) ->
  ipc_fits IPC_NAME_LENGTH p -> ipc_fits IPC_NAME_LENGTH n -> i32_range len ->
  exists d, encode_generic (GenericRequest_ctor t) p n st len = Ret d /\
    length d = IPC_BUF_SIZE /\ read_i16 0 d = IpcType_to_Z t /\
    sv_str (generic_process_id (GenericRequestParsed d)) = p /\
    sv_str (generic_name (GenericRequestParsed d)) = n /\
    generic_state (GenericRequestParsed d) = st /\ data_len (GenericRequestParsed d) = len.
Proof.
  intros Ht Hp%ipc_cview_fits Hn%ipc_cview_fits Hl.
  destruct (GenericRequest_parse t _ _ st len Ht Hp Hn Hl)
    as (r&r'&Hr&->&Hlen&Hty&H1&H2&H3&H4).
  rewrite !sv_str_of_string in *.
  unfold encode_generic. cbn in Hr |- *.
  destruct (set_generic_process_id _ _) as [r1| |]; [|done|done]. cbn in Hr |- *. rewrite Hr.
  eexists. split; [reflexivity|]. auto 10.
Qed.

Lemma invocation_roundtrip id f p lens :
  ipc_wire_ok (IInvocation id f p lens) ->
  exists d, ipc_encode (IInvocation id f p lens) = Ret d /\ length d = IPC_BUF_SIZE /\
    ipc_decode d = Ret (IInvocation id f p lens).
Proof.
  intros (Hid%ipc_cview_fits&Hf%ipc_cview_fits&Hp%ipc_cview_fits&Hlens&Hr). cbn.
  unfold set_ipc_function_name, set_ipc_invocation_id, set_ipc_process_id. ipc_build.
  match goal with |- context [set_buffers lens ?y] => set (x := y) end.
  assert (length (iir_msg x) = IPC_BUF_SIZE) as Hx by (subst x; cbn; ipc_len).
  destruct (set_buffers_ok lens x Hx Hlens) as (d&->&Hlen&Hfr&Hn&Hv).
  exists d. split; [reflexivity|]. split; [done|].
  unfold ipc_decode. rewrite (parse_message_typed _ IPC_INVOCATION_REQUEST); [|..|done].
  2:{ unfold read_i16. rewrite Hfr by (unfold_ipc_layout; lia). fold (read_i16 0 (iir_msg x)).
      subst x; cbn. ipc_type. }
  assert (length lens <= 13) as Hl13 by exact Hlens.
  assert (buffers (InvocationRequestParsed d) = Z.of_nat (length lens)) as Hb.
  { unfold buffers, read_i32; cbn. rewrite Hn. apply ipc_signed_le_bytes. unfold i32_range. lia. }
  cbn. rewrite Hb, Nat2Z.id, (read_lengths_ok lens) by (cbn; auto with lia).
  cbn. unfold ipc_invocation_id, ipc_function_name, ipc_process_id; cbn.
  rewrite !sv_str_sv_at. unfold field_text. rewrite !Hfr by (unfold_ipc_layout; lia).
  fold (field_text IPC_HEADER_OFFSET IPC_ID_LENGTH (iir_msg x)).
  fold (field_text (IPC_HEADER_OFFSET + IPC_ID_LENGTH) IPC_NAME_LENGTH (iir_msg x)).
  fold (field_text (IPC_HEADER_OFFSET + IPC_ID_LENGTH + IPC_NAME_LENGTH) IPC_ID_LENGTH (iir_msg x)).
  subst x; cbn. ipc_read.
  fold (sv_str (sv_of_string id)) (sv_str (sv_of_string f)) (sv_str (sv_of_string p)).
  now rewrite !sv_str_of_string.
Qed.

Lemma ipc_wire_decodes (w : ipc_wire) :
  ipc_wire_ok w -> exists d, ipc_encode w = Ret d /\ length d = IPC_BUF_SIZE /\ ipc_decode d = Ret w.
Proof.
  destruct w as [process name st len|process name st len|id f p lens|id len code|process status| |len]; cbn [ipc_wire_ok]; intros Hok.
  - destruct Hok as (?&?&?).
    destruct (generic_roundtrip IPC_GET_REQUEST process name st len) as (d&Hd&?&Hty&?&?&?&?); auto.
    exists d. split; [done|]. split; [done|].
    unfold ipc_decode. rewrite (parse_message_typed _ _ Hty) by done. cbn. congruence.
  - destruct Hok as (?&?&?).
    destruct (generic_roundtrip IPC_PUT_REQUEST process name st len) as (d&Hd&?&Hty&?&?&?&?); auto.
    exists d. split; [done|]. split; [done|].
    unfold ipc_decode. rewrite (parse_message_typed _ _ Hty) by done. cbn. congruence.
  - now apply invocation_roundtrip.
  - destruct Hok as (Hid%ipc_cview_fits&?&?). cbn. unfold set_ipc_result_id. ipc_build.
    eexists. split; [reflexivity|]. cbn. split; [ipc_len|].
    unfold ipc_decode. rewrite (parse_message_typed _ IPC_INVOCATION_RESULT); [cbn|ipc_type|done].
    unfold ipc_result_id, ipc_buffer_length, ipc_return_code; cbn. rewrite sv_str_sv_at. ipc_read.
    rewrite !ipc_signed_le_bytes by done. fold (sv_str (sv_of_string id)). now rewrite sv_str_of_string.
  - destruct Hok as (Hid%ipc_cview_fits&?). cbn. unfold set_ipc_update_process_id. ipc_build.
    eexists. split; [reflexivity|]. cbn. split; [ipc_len|].
    unfold ipc_decode. rewrite (parse_message_typed _ IPC_APPLICATION_UPDATE); [cbn|ipc_type|done].
    unfold ipc_update_process_id, ipc_status_change; cbn. rewrite sv_str_sv_at. ipc_read.
    rewrite !ipc_signed_le_bytes by done. fold (sv_str (sv_of_string process)).
    now rewrite sv_str_of_string.
  - eexists. split; [reflexivity|]. split; reflexivity.
  - eexists. split; [reflexivity|]. cbn. unfold set_state_keys_buffer_length, StateKeysResult.
    split; [ipc_len|].
    unfold ipc_decode. rewrite (parse_message_typed _ IPC_STATE_KEYS_RESULT); [cbn|ipc_type|done].
    unfold state_keys_buffer_length. ipc_read. now rewrite ipc_signed_le_bytes.
Qed.

(** C10: every message of the controller/worker protocol that the format can
    carry survives the trip: constructors and setters build a 128-byte buffer
    from which [Message::parse] and the getters of the parsed class read the
    same message, including the lengths of up to [BUFFERS_CAPACITY] = 13 input
    buffers of an invocation. *)
Theorem ipc_wire_roundtrip (w : ipc_wire) :
  ipc_wire_ok w -> exists d, ipc_encode w = Ret d /\ length d = IPC_BUF_SIZE /\ ipc_decode d = Ret w.
Proof. apply ipc_wire_decodes. Qed.

(** C39: [InvocationRequest::buffers] accepts up to [MAX_BUFFERS] = 16 input
    buffers, but the 128-byte message has room for the lengths of 13: with 14
    to 16 buffers it writes past the end of the message, which is undefined
    behaviour; with more it throws [InvalidArgument]; with 13 or fewer it
    stores their number and every length and leaves the other fields alone. *)
Theorem set_buffers_bounds (lens : list Z) (x : IpcInvocationRequest) :
  length (iir_msg x) = IPC_BUF_SIZE ->
  (length lens <= 13 -> Forall i32_range lens ->
    exists y, set_buffers lens x = Ret y /\ buffers y = Z.of_nat (length lens) /\
      (forall i v, lens !! i = Some v -> buffers_length i y = Ret v) /\
      (forall off n, off + n <= BUFFERS_OFFSET ->
        bytes_at off n (iir_msg y) = bytes_at off n (iir_msg x))) /\
  (14 <= length lens <= MAX_BUFFERS -> set_buffers lens x = Undef) /\
  (MAX_BUFFERS < length lens -> exists msg, set_buffers lens x = Throw (InvalidArgument msg)).
Proof.
  intros Hx. split; [|split].
  - intros Hl Hr. destruct (set_buffers_ok lens x Hx Hl) as (d&->&Hlen&Hfr&Hn&Hv).
    eexists. split; [reflexivity|]. split; [|split; [|exact Hfr]].
    + unfold buffers, read_i32; cbn. rewrite Hn. apply ipc_signed_le_bytes. unfold i32_range. lia.
    + intros i v Hi. pose proof (lookup_lt_Some _ _ _ Hi). unfold buffers_length; cbn [iir_msg with_iir_msg].
      rewrite decide_True by (rewrite Hlen; unfold IPC_BUF_SIZE; unfold_ipc_layout; lia).
      f_equal. unfold read_i32. rewrite (Hv i v Hi). apply ipc_signed_le_bytes.
      eapply Forall_lookup_1; eauto.
  - intros Hl. unfold set_buffers. rewrite (proj2 (Nat.ltb_ge _ _)) by lia.
    rewrite store_i32s_overflow; [done|done|].
    rewrite Hx. cbn [length]. unfold IPC_BUF_SIZE. unfold_ipc_layout. lia.
  - intros Hl. unfold set_buffers. rewrite (proj2 (Nat.ltb_lt _ _)) by lia. eauto.
Qed.

(** C40: [Message::parse] is total and classifies by the type field alone; a
    generic header is an unknown message and any other value outside 1 to 7 is
    invalid.  The texts of a parsed message always fit their fields. *)
Theorem parse_message_classifies (d : mem) :
  length d = IPC_BUF_SIZE ->
  match parse_message d with
  | Ret v => (1 <= read_i16 0 d <= 7)%Z /\
      match v with
      | VGetRequestParsed x => read_i16 0 d = 1%Z /\
          cview IPC_NAME_LENGTH (generic_process_id x) /\ cview IPC_NAME_LENGTH (generic_name x)
      | VPutRequestParsed x => read_i16 0 d = 2%Z /\
          cview IPC_NAME_LENGTH (generic_process_id x) /\ cview IPC_NAME_LENGTH (generic_name x)
      | VInvocationRequestParsed x => read_i16 0 d = 3%Z /\
          cview IPC_ID_LENGTH (ipc_invocation_id x) /\ cview IPC_NAME_LENGTH (ipc_function_name x) /\
          cview IPC_ID_LENGTH (ipc_process_id x)
      | VInvocationResultParsed x => read_i16 0 d = 4%Z /\ cview IPC_ID_LENGTH (ipc_result_id x)
      | VApplicationUpdateParsed x =>
          read_i16 0 d = 5%Z /\ cview IPC_NAME_LENGTH (ipc_update_process_id x)
      | VStateKeysRequestParsed _ => read_i16 0 d = 6%Z
      | VStateKeysResultParsed _ => read_i16 0 d = 7%Z
      end
  | Throw (PraaSException _) => read_i16 0 d = 0%Z
  | Throw (InvalidMessage _) => (read_i16 0 d < 0 \/ 8 <= read_i16 0 d)%Z
  | _ => False
  end.
Proof.
  intros Hd. unfold parse_message. set (z := read_i16 0 d). clearbody z. cbn [IpcType_to_Z].
  assert (forall off max, off + max <= length d ->
    cview max (sv_at off (strnlen (drop off d) max) d)) as Hv by (intros; now apply cview_sv_at).
  rewrite Hd in Hv. unfold IPC_BUF_SIZE in Hv.
  destruct (Z.leb_spec 8 z); [cbn; lia|]. destruct (Z.ltb_spec z 0); [cbn; lia|]. cbn [orb].
  assert (z = 0 \/ z = 1 \/ z = 2 \/ z = 3 \/ z = 4 \/ z = 5 \/ z = 6 \/ z = 7)%Z as Hz by lia.
  unfold generic_process_id, generic_name, ipc_invocation_id, ipc_function_name, ipc_process_id,
    ipc_result_id, ipc_update_process_id.
  destruct Hz as [->|[->|[->|[->|[->|[->|[->| ->]]]]]]]; cbn;
    repeat split; try lia; try (apply Hv; unfold_ipc_layout; lia).
  all: replace (IPC_HEADER_OFFSET + IPC_NAME_LENGTH + 4) with (IPC_HEADER_OFFSET + 4 + IPC_NAME_LENGTH)
    by (unfold_ipc_layout; lia).
  all: apply Hv; unfold_ipc_layout; lia.
Qed.

Lemma ipc_wire_roundtrip_witness :
  let w := IInvocation "id-1" "fun" "SELF" [5%Z; 7%Z] in
  ipc_wire_ok w /\ exists d, ipc_encode w = Ret d /\ length d = IPC_BUF_SIZE /\ ipc_decode d = Ret w.
Proof.
  intros w. assert (ipc_wire_ok w) as H.
  { unfold w, ipc_wire_ok, ipc_fits, i32_range.
    repeat split; try (apply (bool_decide_unpack _); vm_compute; exact I). }
  split; [exact H|]. exact (ipc_wire_roundtrip w H).
Defined.

Lemma set_buffers_bounds_witness :
  length (iir_msg IpcInvocationRequest_ctor) = IPC_BUF_SIZE /\
  set_buffers (replicate 14 0%Z) IpcInvocationRequest_ctor = Undef.
Proof.
  split; [reflexivity|].
  refine (proj1 (proj2 (set_buffers_bounds (replicate 14 0%Z) IpcInvocationRequest_ctor eq_refl)) _).
  vm_compute. lia.
Defined.

Lemma parse_message_classifies_witness :
  length StateKeysRequest = IPC_BUF_SIZE /\
  exists m, parse_message StateKeysRequest = Ret (VStateKeysRequestParsed m) /\ read_i16 0 m = 6%Z.
Proof.
  split; [reflexivity|]. exists StateKeysRequest. split; [reflexivity|].
  exact (proj2 (parse_message_classifies StateKeysRequest eq_refl)).
Defined.
