(* ===== verification/Buffers.v ===== *)
(** * Buffers: the payload buffers of the runtime

    [runtime/internal/buffer.hpp]: [Buffer], an owned array with a capacity and
    a fill length, [BufferAccessor], a view of one, and [BufferQueue], a pool.
    Arrays are byte lists; the contents of an array fresh from [new T[n]] are
    not determined by the code and come from the class [Allocator]. *)

From S2P Require Import Prelude Memory.

(** what [new T[n]] returns: [n] bytes of any contents *)
Class Allocator : Type := {
  fresh : nat -> list byte;
  length_fresh : forall n, length (fresh n) = n;
}.

(** an allocator that zeroes its memory *)
#[export] Program Instance zero_allocator : Allocator | 10 := {| fresh := fun n => replicate n NUL |}.
Next Obligation. intros. cbn. apply length_replicate. Qed.

(** ** BufferAccessor *)
Record BufferAccessor : Type := MkAccessor { acc_ptr : option (list byte); acc_len : nat }.
Definition accessor_empty (b : BufferAccessor) : bool := acc_len b =? 0.
Definition accessor_null (b : BufferAccessor) : bool :=
  match acc_ptr b with None => true | Some _ => false end.

(** ** Buffer: the array [ptr], its capacity [size] and the bytes in use, [len] *)
Record Buffer : Type := MkBuffer { buf_ptr : option (list byte); buf_size : nat; buf_len : nat }.

Definition buffer_null_value : Buffer := {| buf_ptr := None; buf_size := 0; buf_len := 0 |}.
Definition buffer_empty (b : Buffer) : bool := buf_len b =? 0.
Definition buffer_null (b : Buffer) : bool :=
  match buf_ptr b with None => true | Some _ => false end.

(** a move: the moved-to value and what is left of the source *)
Definition move_buffer (obj : Buffer) : Buffer * Buffer :=
  ({| buf_ptr := buf_ptr obj; buf_size := buf_size obj; buf_len := buf_len obj |},
   {| buf_ptr := None; buf_size := 0; buf_len := 0 |}).

(** the conversion to an accessor *)
Definition accessor_of (b : Buffer) : BufferAccessor :=
  {| acc_ptr := buf_ptr b; acc_len := buf_len b |}.

(** a buffer with the contents an accessor shows *)
Definition buffer_of_accessor (a : BufferAccessor) : Buffer :=
  {| buf_ptr := acc_ptr a; buf_size := acc_len a; buf_len := acc_len a |}.

(** [Buffer{s}] holding the bytes [bs] *)
Definition buffer_of_bytes (bs : list byte) : Buffer :=
  {| buf_ptr := Some bs; buf_size := length bs; buf_len := length bs |}.

(** the bytes in use *)
Definition buffer_data (b : Buffer) : list byte :=
  match buf_ptr b with Some bs => take (buf_len b) bs | None => [] end.
Definition accessor_data (b : BufferAccessor) : list byte :=
  match acc_ptr b with Some bs => take (acc_len b) bs | None => [] end.

(** [copy()]: reading past the end of the array is undefined *)
Definition accessor_copy (b : BufferAccessor) : outcome Buffer :=
  match acc_ptr b with
  | None => Ret buffer_null_value
  | Some bs =>
      if acc_len b <=? length bs
      then Ret {| buf_ptr := Some (take (acc_len b) bs); buf_size := acc_len b; buf_len := acc_len b |}
      else Undef
  end.

(** [buf]'s array has the capacity it claims, and is not overfull *)
Definition buffer_ok (b : Buffer) : Prop :=
  match buf_ptr b with
  | Some bs => length bs = buf_size b /\ buf_len b <= buf_size b
  | None => buf_size b = 0 /\ buf_len b = 0
  end.

(** ** BufferQueue *)
Section queue.
Context `{Allocator}.

Definition resize_buffer (size : nat) (b : Buffer) : Buffer :=
  {| buf_ptr := Some (fresh size); buf_size := size; buf_len := 0 |}.

Definition BufferQueue : Type := list Buffer.

Definition allocate_buffer (size : nat) : Buffer :=
  {| buf_ptr := Some (fresh size); buf_size := size; buf_len := 0 |}.

Fixpoint BufferQueue_ctor (elements elem_size : nat) : BufferQueue :=
  match elements with
  | O => []
  | S n => BufferQueue_ctor n elem_size ++
           [{| buf_ptr := Some (fresh elem_size); buf_size := elem_size; buf_len := 0 |}]
  end.

(** The first buffer of the pool, enlarged when the pool - not the buffer - is
    smaller than the request. *)
Definition retrieve_buffer (size : nat) (q : BufferQueue) : Buffer * BufferQueue :=
  match q with
  | [] => (allocate_buffer size, [])
  | buf :: q' => (if length q' <? size then resize_buffer size buf else buf, q')
  end.

Definition return_buffer (buf : Buffer) (q : BufferQueue) : BufferQueue :=
  q ++ [{| buf_ptr := buf_ptr buf; buf_size := buf_size buf; buf_len := 0 |}].

(** What a client of the pool expects: buffers ready to be filled. *)
Definition pool_ok (q : BufferQueue) : Prop :=
  Forall (fun b => buffer_ok b /\ buf_len b = 0 /\ buf_ptr b <> None) q.
(** The condition under which [retrieve_buffer] never hands out a buffer that
    is too small: no buffer of the pool is smaller than the pool. *)
Definition pool_large (q : BufferQueue) : Prop := Forall (fun b => length q <= S (buf_size b)) q.

(** ** Theorems *)

Lemma allocate_buffer_ok size : buffer_ok (allocate_buffer size).
Proof. unfold buffer_ok; cbn. rewrite length_fresh. lia. Qed.

Lemma resize_buffer_ok size b : buffer_ok (resize_buffer size b).
Proof. unfold buffer_ok; cbn. rewrite length_fresh. lia. Qed.

Lemma BufferQueue_ctor_repeat n size :
  BufferQueue_ctor n size = replicate n {| buf_ptr := Some (fresh size); buf_size := size; buf_len := 0 |}.
Proof.
  induction n as [|n IH]; cbn; [done|]. rewrite IH. now rewrite <-replicate_cons_app.
Qed.

Lemma pool_ok_ctor n size : pool_ok (BufferQueue_ctor n size).
Proof.
  unfold pool_ok. rewrite BufferQueue_ctor_repeat. apply Forall_replicate.
  unfold buffer_ok; cbn. rewrite length_fresh. auto with lia.
Qed.

Lemma pool_large_ctor n size : n <= S size -> pool_large (BufferQueue_ctor n size).
Proof.
  intros. unfold pool_large. rewrite BufferQueue_ctor_repeat, length_replicate.
  apply Forall_replicate. done.
Qed.

Lemma pool_large_tail b q : pool_large (b :: q) -> pool_large q.
Proof.
  unfold pool_large. cbn [length]. intros Hq. apply List.Forall_cons_iff in Hq as [_ Hq].
  eapply Forall_impl; [|exact Hq]. cbn. lia.
Qed.

(** what every caller of [retrieve_buffer] relies on *)
Lemma retrieve_buffer_spec size q b q' :
  pool_ok q -> pool_large q -> retrieve_buffer size q = (b, q') ->
  buffer_ok b /\ buf_len b = 0 /\ size <= buf_size b /\ buf_ptr b <> None /\
  pool_ok q' /\ pool_large q'.
Proof.
  intros Hok Hl. destruct q as [|b0 q]; cbn; intros Heq; simplify_eq.
  - cbn. split; [apply allocate_buffer_ok|]. repeat split; auto; try lia; constructor.
  - pose proof (pool_large_tail _ _ Hl) as Ht.
    apply List.Forall_cons_iff in Hok as [(Hb&Hb0&Hp) Hok].
    apply List.Forall_cons_iff in Hl as [Hl _]. cbn in Hl.
    destruct (Nat.ltb_spec (length q') size).
    + split; [apply (resize_buffer_ok size b0)|]. repeat split; auto.
    + repeat split; auto. lia.
Qed.

(** A buffer taken from the pool is empty, owns an array of its declared
    capacity and has room for the request - a fresh allocation when the pool
    is empty, a pooled buffer (enlarged if need be) otherwise - and the pool
    keeps these properties, provided that no pooled buffer is smaller than the
    number of buffers in the pool. *)
Theorem retrieve_buffer_large_enough size q b q' :
  pool_ok q -> pool_large q -> retrieve_buffer size q = (b, q') ->
  buffer_ok b /\ buf_len b = 0 /\ size <= buf_size b /\ buf_ptr b <> None /\
  pool_ok q' /\ pool_large q'.
Proof. apply retrieve_buffer_spec. Qed.

(** the size test of [retrieve_buffer] compares the request with the
    number of pooled buffers instead of the capacity of the buffer it hands
    out: for every request and every pool with at least that many further
    buffers, the first buffer comes back as it is, however small. *)
Theorem retrieve_buffer_too_small size b q :
  buf_size b < size <= length q ->
  retrieve_buffer size (b :: q) = (b, q) /\ buf_size (retrieve_buffer size (b :: q)).1 < size.
Proof.
  intros [H1 H2]. cbn. rewrite (proj2 (Nat.ltb_ge _ _)) by lia. cbn. auto.
Qed.

End queue.

Lemma move_buffer_fst b : (move_buffer b).1 = b.
Proof. now destruct b. Qed.

Lemma accessor_copy_buffer b :
  buffer_ok b -> exists c, accessor_copy (accessor_of b) = Ret c /\ buffer_ok c /\
    buffer_data c = buffer_data b.
Proof.
  unfold buffer_ok, accessor_copy, accessor_of, buffer_data. destruct b as [[bs|] size len]; cbn.
  - intros [Hl Hs]. rewrite (proj2 (Nat.leb_le _ _)) by lia.
    eexists. split; [done|]. cbn. rewrite length_take, take_take. split; [lia|].
    f_equal. lia.
  - intros. eexists. split; [done|]. cbn. auto.
Qed.

Lemma retrieve_buffer_large_enough_witness :
  pool_ok (BufferQueue_ctor 5 8) /\ pool_large (BufferQueue_ctor 5 8) /\
  16 <= buf_size (retrieve_buffer 16 (BufferQueue_ctor 5 8)).1.
Proof.
  assert (pool_ok (BufferQueue_ctor 5 8)) as H1 by apply pool_ok_ctor.
  assert (pool_large (BufferQueue_ctor 5 8)) as H2 by (apply pool_large_ctor; lia).
  pose proof (retrieve_buffer_large_enough 16 (BufferQueue_ctor 5 8) _ _ H1 H2 eq_refl) as H.
  split; [exact H1|]. split; [exact H2|]. exact (proj1 (proj2 (proj2 H))).
Defined.

Lemma retrieve_buffer_too_small_witness :
  buf_size (retrieve_buffer 3 (BufferQueue_ctor 5 1)).1 < 3.
Proof.
  exact (proj2 (retrieve_buffer_too_small 3 (allocate_buffer 1) (BufferQueue_ctor 4 1)
    ltac:(vm_compute; lia))).
Defined.

#[export] Hint Resolve allocate_buffer_ok resize_buffer_ok pool_ok_ctor : praas.
