(* ===== verification/Channel.v ===== *)
(** * Channel: messages over a POSIX message queue

    [POSIXMQChannel] of [runtime/internal/ipc/ipc.hpp] and
    [runtime/src/internal/ipc.cpp]: a message is its 128-byte header followed by
    the payload, both cut into pieces no longer than the queue's message size;
    the receiver reassembles them, over several calls when the queue runs empty.
    The queue itself is the kernel's: class [PosixMQ] has its two calls and
    class [PosixMQLaws] what [mq_overview(7)] documents of them. *)

From S2P Require Import Prelude Memory IpcMessages Buffers.

(** what [mq_receive] returns: a message, or -1 with [EAGAIN] or another [errno] *)
Inductive mq_result : Type := MqMessage (m : list byte) | MqAgain | MqError.

Class PosixMQ : Type := {
  mqd : Type;
  (** [false] is the return value -1 *)
  mq_send : mqd -> list byte -> bool * mqd;
  mq_receive : mqd -> mq_result * mqd;
}.

(** [mq_messages q]: what will come out of the queue, in order.  A receiver may
    find the queue empty ([MqAgain]) at any time: the sender runs in parallel. *)
Class PosixMQLaws `(PosixMQ) : Type := {
  mq_messages : mqd -> list (list byte);
  mq_send_sent q m q' : mq_send q m = (true, q') -> mq_messages q' = mq_messages q ++ [m];
  mq_send_failed q m q' : mq_send q m = (false, q') -> mq_messages q' = mq_messages q;
  mq_receive_message q m q' : mq_receive q = (MqMessage m, q') -> mq_messages q = m :: mq_messages q';
  mq_receive_again q q' : mq_receive q = (MqAgain, q') -> mq_messages q' = mq_messages q;
}.
Arguments mq_messages {_ _} _.

(** ** Definitions *)
Section channel.
Context `{Allocator} `{PosixMQ}.

Definition MAX_MSGS : Z := 5.
Definition MAX_MSG_SIZE : Z := 1024.
Definition BUFFER_ELEMS : nat := 5.
Definition BUFFER_SIZE : nat := Z.to_nat (1024 * 1024).

Record POSIXMQChannel : Type := MkChannel {
  ch_queue : mqd;
  ch_msg_size : Z;
  ch_buffers : BufferQueue;
  ch_msg_buffer : list byte;
  ch_msg_read : bool;
  ch_msg : mem;
  ch_msg_payload : Buffer;
}.

Definition set_ch_queue (q : mqd) (c : POSIXMQChannel) : POSIXMQChannel :=
  {| ch_queue := q; ch_msg_size := ch_msg_size c; ch_buffers := ch_buffers c;
     ch_msg_buffer := ch_msg_buffer c; ch_msg_read := ch_msg_read c; ch_msg := ch_msg c;
     ch_msg_payload := ch_msg_payload c |}.
Definition set_ch_msg_buffer (b : list byte) (c : POSIXMQChannel) : POSIXMQChannel :=
  {| ch_queue := ch_queue c; ch_msg_size := ch_msg_size c; ch_buffers := ch_buffers c;
     ch_msg_buffer := b; ch_msg_read := ch_msg_read c; ch_msg := ch_msg c;
     ch_msg_payload := ch_msg_payload c |}.
Definition set_ch_msg_read (b : bool) (c : POSIXMQChannel) : POSIXMQChannel :=
  {| ch_queue := ch_queue c; ch_msg_size := ch_msg_size c; ch_buffers := ch_buffers c;
     ch_msg_buffer := ch_msg_buffer c; ch_msg_read := b; ch_msg := ch_msg c;
     ch_msg_payload := ch_msg_payload c |}.
Definition set_ch_msg (m : mem) (c : POSIXMQChannel) : POSIXMQChannel :=
  {| ch_queue := ch_queue c; ch_msg_size := ch_msg_size c; ch_buffers := ch_buffers c;
     ch_msg_buffer := ch_msg_buffer c; ch_msg_read := ch_msg_read c; ch_msg := m;
     ch_msg_payload := ch_msg_payload c |}.
Definition set_ch_payload (b : Buffer) (c : POSIXMQChannel) : POSIXMQChannel :=
  {| ch_queue := ch_queue c; ch_msg_size := ch_msg_size c; ch_buffers := ch_buffers c;
     ch_msg_buffer := ch_msg_buffer c; ch_msg_read := ch_msg_read c; ch_msg := ch_msg c;
     ch_msg_payload := b |}.
Definition set_ch_buffers (q : BufferQueue) (c : POSIXMQChannel) : POSIXMQChannel :=
  {| ch_queue := ch_queue c; ch_msg_size := ch_msg_size c; ch_buffers := q;
     ch_msg_buffer := ch_msg_buffer c; ch_msg_read := ch_msg_read c; ch_msg := ch_msg c;
     ch_msg_payload := ch_msg_payload c |}.

(** The constructor, after [mq_open] returned the queue [q] whose messages
    have at most [msg_size] bytes; [_msg] is a [Message] of the default type. *)
Definition POSIXMQChannel_ctor (q : mqd) (msg_size : Z) : POSIXMQChannel :=
  {| ch_queue := q; ch_msg_size := msg_size; ch_buffers := BufferQueue_ctor BUFFER_ELEMS BUFFER_SIZE;
     ch_msg_buffer := fresh (Z.to_nat msg_size); ch_msg_read := false;
     ch_msg := IpcMessage_ctor IPC_GENERIC_HEADER; ch_msg_payload := buffer_null_value |}.

(** [_send(data, len)]: the loop from position [pos] on.  Fuel: the loop
    advances by at least one byte when [_msg_size > 0]; the position is an
    [int].  Reading past the data is undefined. *)
Fixpoint send_loop (fuel : nat) (msg_size : Z) (data : list byte) (pos len : Z) : M mqd unit :=
  if (pos <? len)%Z then
    match fuel with
    | O => undef
    | S fuel' =>
        let size := if (len - pos <? msg_size)%Z then (len - pos)%Z else msg_size in
        if (Z.to_nat (pos + size) <=? length data) then
          fun q =>
            match mq_send q (bytes_at (Z.to_nat pos) (Z.to_nat size) data) with
            | (false, q') =>
                (Throw (PraaSException "Failed sending with error {}, strerror {}"), q')
            | (true, q') => send_loop fuel' msg_size data (pos + size) len q'
            end
        else undef
    end
  else mret tt.

Definition chan_send (data : list byte) (len : Z) : M POSIXMQChannel unit := fun c =>
  let '(r, q) := send_loop (Z.to_nat len) (ch_msg_size c) data 0 len (ch_queue c) in
  (r, set_ch_queue q c).

(** [send(Message& msg)]: the message with its length set *)
Definition send_msg (msg : mem) : M POSIXMQChannel mem :=
  let msg := set_ipc_total_length 0 msg in
  chan_send msg (Z.of_nat IPC_BUF_SIZE) ≫= fun _ => mret msg.

(** [send(Message& msg, BufferAccessor<const char> buf)] and its [std::byte] sibling *)
Definition send_accessor (msg : mem) (buf : BufferAccessor) : M POSIXMQChannel mem :=
  let msg := set_ipc_total_length (Z.of_nat (acc_len buf)) msg in
  chan_send msg (Z.of_nat IPC_BUF_SIZE) ≫= fun _ =>
  (if 0 <? acc_len buf
   then chan_send (default [] (acc_ptr buf)) (wrap_i32 (Z.of_nat (acc_len buf)))
   else mret tt) ≫= fun _ => mret msg.

(** [send(Message& msg, const std::vector<Buffer<char>>& data)] *)
Definition total_len (data : list Buffer) : nat := foldr (fun buf len => buf_len buf + len) 0 data.

Definition send_buffers (msg : mem) (data : list Buffer) : M POSIXMQChannel mem :=
  let msg := set_ipc_total_length (Z.of_nat (total_len data)) msg in
  chan_send msg (Z.of_nat IPC_BUF_SIZE) ≫= fun _ =>
  for_each (fun buf =>
    if 0 <? buf_len buf
    then chan_send (default [] (buf_ptr buf)) (wrap_i32 (Z.of_nat (buf_len buf)))
    else mret tt) data ≫= fun _ => mret msg.

(** [_recv(data, len)]: [data] is the memory from the pointer on; a piece that
    does not fit behind the bytes already read is written past its end.  Fuel:
    every piece is at least one byte long, so [S (length data)] is enough. *)
Fixpoint recv_loop (fuel : nat) (pos : nat) (len : Z) : M (mqd * list byte) nat := fun '(q, data) =>
  if (Z.of_nat pos <? len)%Z then
    match fuel with
    | O => (Undef, (q, data))
    | S fuel' =>
        match mq_receive q with
        | (MqAgain, q') => (Ret pos, (q', data))
        | (MqError, q') =>
            (Throw (PraaSException "Failed receiving with error {}, strerror {}"), (q', data))
        | (MqMessage m, q') =>
            match checked_write pos m data with
            | Ret data' => recv_loop fuel' (pos + length m) len (q', data')
            | _ => (Undef, (q', data))
            end
        end
    end
  else (Ret pos, (q, data)).

(** read into [_msg_buffer] *)
Definition recv_header : M POSIXMQChannel nat := fun c =>
  let '(r, (q, b)) := recv_loop (S (length (ch_msg_buffer c))) 0 (Z.of_nat IPC_BUF_SIZE)
                       (ch_queue c, ch_msg_buffer c) in
  (r, set_ch_msg_buffer b (set_ch_queue q c)).

(** [std::copy_n(_msg_buffer.get(), BUF_SIZE, _msg.data.data())] *)
Definition copy_header : M POSIXMQChannel unit := fun c =>
  if IPC_BUF_SIZE <=? length (ch_msg_buffer c)
  then (Ret tt, set_ch_msg (take IPC_BUF_SIZE (ch_msg_buffer c)) c) else (Undef, c).

(** read [len] bytes behind the [buf_len] bytes of the payload *)
Definition recv_payload (len : Z) : M POSIXMQChannel nat := fun c =>
  let p := ch_msg_payload c in
  match buf_ptr p with
  | None => (Undef, c)
  | Some bs =>
      let '(r, (q, rest)) :=
        recv_loop (S (length bs)) 0 len (ch_queue c, drop (buf_len p) bs) in
      (r, set_ch_payload {| buf_ptr := Some (take (buf_len p) bs ++ rest);
                            buf_size := buf_size p; buf_len := buf_len p |} (set_ch_queue q c))
  end.

(** [receive()], the part after the header was read *)
Definition receive_payload : M POSIXMQChannel (bool * Buffer) :=
  c ← get;
  if (0 <? ipc_total_length (ch_msg c))%Z then
    let total := Z.to_nat (ipc_total_length (ch_msg c)) in
    (if buffer_null (ch_msg_payload c) then
       let size := Nat.max total (Z.to_nat (ch_msg_size c)) in
       let '(buf, q) := retrieve_buffer size (ch_buffers c) in
       modify (fun c => set_ch_payload buf (set_ch_buffers q c))
     else mret tt) ≫= fun _ =>
    p ← gets ch_msg_payload;
    let data_to_read := wrap_u64 (Z.of_nat total - Z.of_nat (buf_len p)) in
    read_data ← recv_payload data_to_read;
    modify (fun c =>
      let p := ch_msg_payload c in
      set_ch_payload {| buf_ptr := buf_ptr p; buf_size := buf_size p;
                        buf_len := buf_len p + read_data |} c) ≫= fun _ =>
    if (Z.of_nat read_data =? data_to_read)%Z then
      modify (set_ch_msg_read false) ≫= fun _ =>
      p ← gets ch_msg_payload;
      let '(buf, _) := move_buffer p in
      modify (set_ch_payload buffer_null_value) ≫= fun _ =>
      mret (true, buf)
    else mret (false, buffer_null_value)
  else
    modify (set_ch_msg_read false) ≫= fun _ =>
    mret (true, buffer_null_value).

(** [receive()]: whether a message is complete, and its payload; the header is
    in [ch_msg] *)
Definition receive : M POSIXMQChannel (bool * Buffer) :=
  c ← get;
  if negb (ch_msg_read c) then
    read_data ← recv_header;
    if decide (read_data = 0) then mret (false, buffer_null_value)
    else if read_data <? IPC_BUF_SIZE then throw NotImplementedError
    else
      copy_header ≫= fun _ =>
      modify (set_ch_msg_read true) ≫= fun _ =>
      receive_payload
  else receive_payload.

(** [blocking_receive(buf)]: whether the whole payload was read, and [buf].
    A negative length becomes a huge [size_t]: the allocation throws. *)
Definition blocking_receive (buf : Buffer) : M POSIXMQChannel (bool * Buffer) :=
  read_data ← recv_header;
  if read_data <? IPC_BUF_SIZE then throw NotImplementedError
  else
    copy_header ≫= fun _ =>
    c ← get;
    if (ipc_total_length (ch_msg c) <? 0)%Z then throw (StdException "std::bad_alloc")
    else
      let data_to_read := Z.to_nat (ipc_total_length (ch_msg c)) in
      let buf := if buf_size buf <? data_to_read then resize_buffer data_to_read buf else buf in
      match buf_ptr buf with
      | None => if decide (data_to_read = 0) then mret (true, buf) else undef
      | Some bs => fun c =>
          match recv_loop (S (length bs)) 0 (Z.of_nat data_to_read) (ch_queue c, bs) with
          | (Ret read_data, (q, bs')) =>
              (Ret (data_to_read <=? read_data,
                    {| buf_ptr := Some bs'; buf_size := buf_size buf; buf_len := read_data |}),
               set_ch_queue q c)
          | (Throw e, (q, _)) => (Throw e, set_ch_queue q c)
          | (Undef, (q, _)) => (Undef, set_ch_queue q c)
          end
      end.

(** ** Specification vocabulary *)

(** the pieces [_send] cuts [data] into *)
Fixpoint chunks (fuel : nat) (size : nat) (data : list byte) : list (list byte) :=
  match fuel, data with
  | O, _ | _, [] => []
  | S fuel', _ => take size data :: chunks fuel' size (drop size data)
  end.

(** A message as it crosses the queue: its header and its payload in pieces. *)
Record frame : Type := Frame { f_header : mem; f_pieces : list (list byte) }.

Definition f_payload (f : frame) : list byte := concat (f_pieces f).
Definition frame_wire (f : frame) : list (list byte) := f_header f :: f_pieces f.
Definition frames_wire (fs : list frame) : list (list byte) := fs ≫= frame_wire.

(** a frame as the senders of this file make them *)
Definition frame_ok (f : frame) : Prop :=
  length (f_header f) = IPC_BUF_SIZE /\
  Forall (fun m => m <> []) (f_pieces f) /\
  ipc_total_length (f_header f) = Z.of_nat (length (f_payload f)).

Definition frame_of (msg_size : Z) (msg : mem) (payloads : list (list byte)) : frame :=
  {| f_header := set_ipc_total_length (Z.of_nat (length (concat payloads))) msg;
     f_pieces := payloads ≫= fun p => chunks (length p) (Z.to_nat msg_size) p |}.

(** what one [receive] call delivered *)
Definition delivered (r : bool * Buffer) (msg : mem) : list (mem * list byte) :=
  if r.1 then [(msg, buffer_data r.2)] else [].

(** [n] calls of [receive]: the messages they delivered *)
Fixpoint receive_n (n : nat) : M POSIXMQChannel (list (mem * list byte)) :=
  match n with
  | O => mret []
  | S n' =>
      r ← receive;
      msg ← gets ch_msg;
      rs ← receive_n n';
      mret (delivered r msg ++ rs)
  end.

(** send every message with its payload buffers *)
Fixpoint send_all (ms : list (mem * list Buffer)) : M POSIXMQChannel unit :=
  match ms with
  | [] => mret tt
  | (msg, data) :: ms' => send_buffers msg data ≫= fun _ => send_all ms'
  end.

End channel.

(** ** The sender *)

Lemma chunks_fuel size data : forall f1 f2,
  0 < size -> length data <= f1 -> length data <= f2 -> chunks f1 size data = chunks f2 size data.
Proof.
  intros f1. revert data. induction f1 as [|f1 IH]; intros data f2 Hs H1 H2.
  - destruct data; cbn in H1; [|lia]. destruct f2; done.
  - destruct data as [|b data]; [destruct f2; done|].
    destruct f2 as [|f2]; cbn [length] in H2; [lia|]. cbn [chunks]. f_equal.
    apply IH; auto; rewrite length_drop; cbn [length] in *; lia.
Qed.

Lemma chunks_step fuel size data :
  0 < size -> data <> [] -> length data <= fuel ->
  chunks fuel size data = take size data :: chunks fuel size (drop size data).
Proof.
  intros Hs Hd Hf. destruct fuel as [|fuel]; [destruct data; cbn in *; done || lia|].
  destruct data as [|b data]; [done|]. cbn [chunks]. f_equal.
  apply (chunks_fuel size (drop size (b :: data)) fuel (S fuel)); auto;
    rewrite length_drop; cbn [length] in *; lia.
Qed.

Lemma concat_chunks fuel size data :
  0 < size -> length data <= fuel -> concat (chunks fuel size data) = data.
Proof.
  intros Hs. revert data. induction fuel as [|fuel IH]; intros [|b data] Hf; cbn [chunks concat length] in *;
    auto; [lia|].
  rewrite IH; [apply take_drop|]. rewrite length_drop. cbn [length]. lia.
Qed.

Lemma chunks_nonempty fuel size data : 0 < size -> Forall (fun m => m <> []) (chunks fuel size data).
Proof.
  intros Hs. revert data. induction fuel as [|fuel IH]; intros [|b data]; cbn [chunks]; auto.
  constructor; auto. destruct size; [lia|]. done.
Qed.

Lemma chunks_short fuel size data :
  data <> [] -> length data <= size -> chunks (S fuel) size data = [data].
Proof.
  intros Hd Hl. destruct data as [|b data]; [done|]. cbn [chunks].
  rewrite take_ge, drop_ge by lia. destruct fuel; done.
Qed.

Section sender.
Context `{Allocator} `{PosixMQLaws}.

(** the outcome of sending [pieces]: all of them, or an exception after some *)
Definition sent (pieces : list (list byte)) (r : outcome unit) (q q' : mqd) : Prop :=
  (r = Ret tt /\ mq_messages q' = mq_messages q ++ pieces) \/
  ((exists s, r = Throw (PraaSException s)) /\
   exists k, k < length pieces /\ mq_messages q' = mq_messages q ++ take k pieces).

Lemma sent_cons m pieces q q1 q' r :
  mq_messages q1 = mq_messages q ++ [m] -> sent pieces r q1 q' -> sent (m :: pieces) r q q'.
Proof.
  intros Hm [[-> Hs]|[Hr (k&Hk&Hs)]]; rewrite Hm, <-app_assoc in Hs; [left; auto|right].
  split; [done|]. exists (S k). cbn. split; [lia|done].
Qed.

Lemma sent_app p1 p2 q q1 q' r :
  mq_messages q1 = mq_messages q ++ p1 -> sent p2 r q1 q' -> sent (p1 ++ p2) r q q'.
Proof.
  intros Hq [[-> Hs]|[Hr (k&Hk&Hs)]]; rewrite Hq, <-app_assoc in Hs; [left; auto|right].
  split; [done|]. exists (length p1 + k). rewrite length_app, take_app_add. split; [lia|done].
Qed.

Lemma sent_app_throw p1 p2 q q' r s :
  sent p1 r q q' -> r = Throw s -> sent (p1 ++ p2) r q q'.
Proof.
  intros [[-> _]|[Hr (k&Hk&Hs)]] He; [done|]. right. split; [done|].
  exists k. rewrite length_app, take_app_le by lia. split; [lia|done].
Qed.

Lemma send_loop_sent fuel ms data len : (0 < ms)%Z -> forall pos q r q',
  (0 <= pos <= len)%Z -> (len <= Z.of_nat (length data))%Z -> (len - pos <= Z.of_nat fuel)%Z ->
  send_loop fuel ms data pos len q = (r, q') ->
  sent (chunks (Z.to_nat (len - pos)) (Z.to_nat ms)
          (bytes_at (Z.to_nat pos) (Z.to_nat (len - pos)) data)) r q q'.
Proof.
  intros Hms. induction fuel as [|fuel IH]; intros pos q r q' Hpos Hlen Hf;
    cbn [send_loop]; destruct (Z.ltb_spec pos len) as [Hlt|Hge].
  - lia.
  - replace (len - pos)%Z with 0%Z by lia. intros [= <- <-]. left. cbn. now rewrite app_nil_r.
  - set (size := if (len - pos <? ms)%Z then (len - pos)%Z else ms).
    assert (0 < size <= ms /\ size <= len - pos /\ (size = ms \/ size = len - pos))%Z as (Hsz1&Hsz2&Hsz3).
    { subst size. destruct (Z.ltb_spec (len - pos) ms); lia. }
    clearbody size.
    rewrite (proj2 (Nat.leb_le _ _)) by lia.
    set (n := Z.to_nat (len - pos)). set (bs := bytes_at (Z.to_nat pos) n data).
    assert (length bs = n) as Hbs by (apply length_bytes_at; lia).
    assert (bytes_at (Z.to_nat pos) (Z.to_nat size) data = take (Z.to_nat ms) bs) as ->.
    { unfold bs, bytes_at. rewrite take_take. destruct Hsz3 as [->| ->]; f_equal; lia. }
    assert (drop (Z.to_nat ms) bs
      = bytes_at (Z.to_nat (pos + size)) (Z.to_nat (len - (pos + size))) data) as Hd.
    { unfold bs, bytes_at. rewrite skipn_firstn_comm, drop_drop. destruct Hsz3 as [->| ->].
      - f_equal; [lia|]. f_equal. lia.
      - replace (n - Z.to_nat ms) with 0 by lia.
        replace (Z.to_nat (len - (pos + (len - pos)))) with 0 by lia. done. }
    rewrite chunks_step; [|lia| |lia].
    2:{ intros Hn. rewrite Hn in Hbs. cbn in Hbs. lia. }
    rewrite Hd.
    destruct (mq_send q (take (Z.to_nat ms) bs)) as [[] q1] eqn:Es.
    + intros Hs. apply mq_send_sent in Es. apply (sent_cons _ _ q q1); auto.
      erewrite (chunks_fuel _ _ n (Z.to_nat (len - (pos + size)))); [|lia| |].
      * eapply IH; eauto; lia.
      * rewrite length_bytes_at by lia. lia.
      * rewrite length_bytes_at by lia. lia.
    + intros [= <- <-]. apply mq_send_failed in Es. right. split; [eauto|].
      exists 0. cbn. rewrite app_nil_r. split; [lia|done].
  - replace (len - pos)%Z with 0%Z by lia. intros [= <- <-]. left. cbn. now rewrite app_nil_r.
Qed.

Lemma chan_send_sent data len c r c' :
  (0 < ch_msg_size c)%Z -> (0 <= len <= Z.of_nat (length data))%Z ->
  chan_send data len c = (r, c') ->
  sent (chunks (Z.to_nat len) (Z.to_nat (ch_msg_size c)) (take (Z.to_nat len) data)) r
    (ch_queue c) (ch_queue c') /\
  c' = set_ch_queue (ch_queue c') c.
Proof.
  intros Hms Hl. unfold chan_send. destruct (send_loop _ _ _ _ _ _) as [r0 q] eqn:E.
  intros [= <- <-]. split; [|done]. cbn.
  eapply send_loop_sent in E; [|lia..]. now rewrite Z.sub_0_r in E.
Qed.

(** the pieces of one payload buffer *)
Definition piece_list (ms : Z) (p : list byte) : list (list byte) :=
  chunks (length p) (Z.to_nat ms) p.

Lemma length_buffer_data b : buffer_ok b -> length (buffer_data b) = buf_len b.
Proof.
  unfold buffer_ok, buffer_data. destruct (buf_ptr b); cbn; [|lia].
  intros. rewrite length_take. lia.
Qed.

Lemma send_each_sent data : forall c r c',
  (0 < ch_msg_size c)%Z -> Forall buffer_ok data -> Forall (fun b => i32_range (Z.of_nat (buf_len b))) data ->
  for_each (fun buf =>
    if 0 <? buf_len buf
    then chan_send (default [] (buf_ptr buf)) (wrap_i32 (Z.of_nat (buf_len buf)))
    else mret tt) data c = (r, c') ->
  sent (data ≫= fun b => piece_list (ch_msg_size c) (buffer_data b)) r (ch_queue c) (ch_queue c') /\
  c' = set_ch_queue (ch_queue c') c.
Proof.
  induction data as [|b data IH]; intros c r c' Hms Hok Hr; cbn [for_each].
  { intros [= <- <-]. split; [left; cbn; now rewrite app_nil_r|]. now destruct c. }
  apply List.Forall_cons_iff in Hok as [Hb Hok]. apply List.Forall_cons_iff in Hr as [Hbr Hr].
  cbn [list_bind mbind]. unfold mbind, M_bind.
  destruct (Nat.ltb_spec 0 (buf_len b)) as [Hlt|Hz].
  - destruct (chan_send _ _ c) as [r1 c1] eqn:E. rewrite wrap_i32_id in E by done.
    assert (buf_len b <= length (default [] (buf_ptr b))) as Hl.
    { unfold buffer_ok in Hb. destruct (buf_ptr b); cbn; lia. }
    apply chan_send_sent in E as [Hs Hc1]; [|done|lia]. rewrite Nat2Z.id in Hs.
    assert (chunks (buf_len b) (Z.to_nat (ch_msg_size c)) (take (buf_len b) (default [] (buf_ptr b)))
      = piece_list (ch_msg_size c) (buffer_data b)) as Hp.
    { unfold piece_list. rewrite length_buffer_data by done. f_equal. unfold buffer_data.
      destruct (buf_ptr b); cbn; [done|]. now rewrite take_nil. }
    rewrite Hp in Hs. destruct Hs as [[-> Hs]|[[s ->] Hk]].
    + intros E. apply IH in E as [Hs' Hc']; [| |done..]; [|rewrite Hc1; cbn; done].
      rewrite Hc1 in Hs'; cbn [ch_msg_size set_ch_queue] in Hs'. cbn [ch_queue set_ch_queue] in Hs'.
      split; [eapply sent_app; eauto|]. rewrite Hc', Hc1. done.
    + intros [= <- <-]. split; [|done].
      eapply sent_app_throw; [right; split; [eauto|exact Hk]|done].
  - cbn. intros E. apply IH in E; auto.
    assert (buffer_data b = []) as ->.
    { apply length_zero_iff_nil. rewrite length_buffer_data by done. lia. }
    done.
Qed.

Lemma total_len_concat data :
  Forall buffer_ok data -> total_len data = length (concat (map buffer_data data)).
Proof.
  induction 1 as [|b data Hb _ IH]; cbn; [done|].
  rewrite length_app, length_buffer_data by done. unfold total_len in IH. lia.
Qed.

Lemma frame_of_wire ms msg data :
  frame_wire (frame_of ms msg (map buffer_data data)) =
  set_ipc_total_length (Z.of_nat (length (concat (map buffer_data data)))) msg ::
  (data ≫= fun b => piece_list ms (buffer_data b)).
Proof.
  unfold frame_wire, frame_of; cbn [f_header f_pieces]. f_equal.
  induction data as [|b data IH]; cbn; [done|]. now rewrite IH.
Qed.

Lemma send_buffers_sent msg data c r c' :
  (Z.of_nat IPC_BUF_SIZE <= ch_msg_size c)%Z -> length msg = IPC_BUF_SIZE ->
  Forall buffer_ok data -> i32_range (Z.of_nat (total_len data)) ->
  send_buffers msg data c = (r, c') ->
  let f := frame_of (ch_msg_size c) msg (map buffer_data data) in
  exists r', sent (frame_wire f) r' (ch_queue c) (ch_queue c') /\
    r = (r' ≫= fun _ => Ret (f_header f)) /\ c' = set_ch_queue (ch_queue c') c.
Proof.
  intros Hms Hm Hok Hr. unfold send_buffers. cbn zeta. unfold mbind, M_bind.
  rewrite total_len_concat in * by done.
  set (msg' := set_ipc_total_length (Z.of_nat (length (concat (map buffer_data data)))) msg).
  assert (length msg' = IPC_BUF_SIZE) as Hm'.
  { unfold msg', set_ipc_total_length, write_i32. rewrite length_write_at; [done|].
    rewrite length_le_bytes, Hm. unfold IPC_BUF_SIZE. lia. }
  destruct (chan_send msg' (Z.of_nat IPC_BUF_SIZE) c) as [r1 c1] eqn:E.
  unfold IPC_BUF_SIZE in Hms.
  apply chan_send_sent in E as [Hs Hc1]; [|lia|lia]. rewrite Nat2Z.id, take_ge in Hs by lia.
  rewrite frame_of_wire. fold msg'.
  unfold IPC_BUF_SIZE in Hs. rewrite chunks_short in Hs.
  2:{ intros He. rewrite He in Hm'. done. } 2:{ rewrite Hm'. unfold IPC_BUF_SIZE. lia. }
  destruct Hs as [[-> Hs]|[[s ->] (k&Hk&Hs)]].
  - destruct (for_each _ data c1) as [r2 c2] eqn:E2. intros Heq.
    apply send_each_sent in E2 as [Hs2 Hc2]; [|rewrite Hc1; cbn; lia|done|].
    2:{ clear -Hr Hok. revert Hr. induction Hok as [|b data Hb _ IH]; intros Hr; constructor.
        - cbn in Hr. rewrite length_app, length_buffer_data in Hr by done. unfold i32_range in *. lia.
        - apply IH. cbn in Hr. rewrite length_app in Hr. unfold i32_range in *. lia. }
    rewrite Hc1 in Hs2; cbn [ch_msg_size ch_queue set_ch_queue] in Hs2.
    exists r2. unfold mret, M_ret in Heq. destruct r2; simplify_eq; (split; [eapply sent_cons; eauto|split; [done|]]);
      rewrite Hc2, Hc1; done.
  - intros [= <- <-]. exists (Throw (PraaSException s)). split; [|done].
    right. split; [eauto|]. exists 0. cbn in Hk. split; [cbn; lia|].
    assert (k = 0) as -> by lia. rewrite Hs. done.
Qed.

Lemma frame_of_ok ms msg payloads :
  (0 < ms)%Z -> length msg = IPC_BUF_SIZE -> i32_range (Z.of_nat (length (concat payloads))) ->
  frame_ok (frame_of ms msg payloads) /\ f_payload (frame_of ms msg payloads) = concat payloads.
Proof.
  intros Hms Hm Hr.
  assert (f_payload (frame_of ms msg payloads) = concat payloads) as Hp.
  { unfold f_payload, frame_of; cbn [f_pieces]. clear Hr.
    induction payloads as [|p ps IH]; cbn; [done|].
    rewrite concat_app, IH. f_equal. apply concat_chunks; lia. }
  split; [|done]. unfold frame_ok. rewrite Hp. cbn [frame_of f_header f_pieces].
  unfold set_ipc_total_length, ipc_total_length. split; [|split].
  - unfold write_i32. rewrite length_write_at; [done|]. rewrite length_le_bytes, Hm. unfold IPC_BUF_SIZE. lia.
  - clear -Hms. induction payloads as [|p ps IH]; cbn; [constructor|]. apply Forall_app; split; [|done].
    apply chunks_nonempty; lia.
  - rewrite read_write_i32_same; [now apply wrap_i32_id|]. rewrite Hm. unfold IPC_BUF_SIZE. lia.
Qed.
End sender.

(** ** The receiver *)

Section receiver.
Context `{Allocator} `{PosixMQLaws}.
(** the descriptor is valid and the buffer handed to [mq_receive] has the
    size of the queue's messages, so [EAGAIN] is its only error *)
Hypothesis mq_receive_reliable : forall q q', mq_receive q <> (MqError, q').

(** a receive call found the queue empty before the messages sent so far had arrived *)
Definition ran_empty : Prop :=
  exists q q', mq_receive q = (MqAgain, q') /\ mq_messages q <> [].

Lemma recv_loop_spec tail fuel : forall ps pos len data q r q' data',
  Forall (fun m => m <> []) ps -> mq_messages q = ps ++ tail ->
  len = Z.of_nat (pos + length (concat ps)) -> (len <= Z.of_nat (length data))%Z ->
  length data - pos < fuel ->
  recv_loop fuel pos len (q, data) = (r, (q', data')) ->
  exists got rest, ps = got ++ rest /\ mq_messages q' = rest ++ tail /\
    r = Ret (pos + length (concat got)) /\ length data' = length data /\
    take (pos + length (concat got)) data' = take pos data ++ concat got /\
    (rest = [] \/ ran_empty).
Proof.
  induction fuel as [|fuel IH]; intros ps pos len data q r q' data' Hne Hq -> Hd Hf; [lia|].
  cbn [recv_loop]. destruct (Z.ltb_spec (Z.of_nat pos) (Z.of_nat (pos + length (concat ps)))) as [Hlt|Hge].
  - destruct ps as [|m ps]; [cbn in Hlt; lia|].
    destruct (mq_receive q) as [[m'| |] q1] eqn:Er.
    + apply mq_receive_message in Er. rewrite Hq in Er. cbn in Er. injection Er as <- Hq1.
      apply List.Forall_cons_iff in Hne as [Hm Hne]. cbn [concat] in *. rewrite length_app in *.
      unfold checked_write. rewrite decide_True by lia.
      assert (0 < length m) by (destruct m; [done|cbn; lia]).
      assert (length (write_at pos m data) = length data) as Hw by (apply length_write_at; lia).
      intros E. apply (IH ps) in E as (got&rest&->&Hq'&->&Hl&Ht&Hr);
        [|done|done|lia|rewrite Hw; lia|rewrite Hw; lia].
      exists (m :: got), rest. cbn [concat app]. rewrite length_app.
      split; [done|]. split; [done|]. split; [f_equal; lia|]. split; [congruence|]. split; [|done].
      rewrite Nat.add_assoc, Ht. rewrite app_assoc. f_equal.
      unfold write_at. rewrite app_assoc, take_app_le by (rewrite length_app, length_take; lia).
      rewrite take_ge by (rewrite length_app, length_take; lia). done.
    + intros [= <- <- <-]. exists [], (m :: ps). cbn. rewrite Nat.add_0_r, app_nil_r.
      pose proof (mq_receive_again _ _ Er) as Hq1.
      repeat split; auto; [rewrite Hq1; exact Hq|]. right. exists q, q1. rewrite Hq. done.
    + exfalso. exact (mq_receive_reliable _ _ Er).
  - intros [= <- <- <-]. assert (ps = []) as ->.
    { destruct ps as [|m ps]; [done|]. apply List.Forall_cons_iff in Hne as [Hm _].
      cbn in Hge. rewrite length_app in Hge. destruct m; [done|cbn in Hge; lia]. }
    exists [], []. cbn. rewrite Nat.add_0_r, app_nil_r. repeat split; auto.
Qed.

(** The receiver of a channel on which the messages [fs] are still to be
    delivered: between messages, behind a header, or within a payload. *)
Definition rx_payload (c : POSIXMQChannel) (fs : list frame) : Prop :=
  if ch_msg_read c then
    exists f fs' got rest, fs = f :: fs' /\ ch_msg c = f_header f /\ f_pieces f = got ++ rest /\
      mq_messages (ch_queue c) = rest ++ frames_wire fs' /\
      match buf_ptr (ch_msg_payload c) with
      | None => got = [] /\ ch_msg_payload c = buffer_null_value
      | Some bs => f_payload f <> [] /\ buffer_ok (ch_msg_payload c) /\ length (f_payload f) <= buf_size (ch_msg_payload c) /\
          buffer_data (ch_msg_payload c) = concat got
      end
  else ch_msg_payload c = buffer_null_value /\ mq_messages (ch_queue c) = frames_wire fs.

Definition receiver_inv (fs : list frame) (c : POSIXMQChannel) : Prop :=
  (Z.of_nat IPC_BUF_SIZE <= ch_msg_size c)%Z /\
  length (ch_msg_buffer c) = Z.to_nat (ch_msg_size c) /\
  pool_ok (ch_buffers c) /\ pool_large (ch_buffers c) /\ Forall frame_ok fs /\ rx_payload c fs.

(** what one call of [receive] achieves *)
Definition receive_post (fs : list frame) (r : outcome (bool * Buffer)) (c' : POSIXMQChannel) : Prop :=
  (exists f fs' b, fs = f :: fs' /\ r = Ret (true, b) /\ buffer_ok b /\ buffer_data b = f_payload f /\
     ch_msg c' = f_header f /\ receiver_inv fs' c') \/
  (r = Ret (false, buffer_null_value) /\ receiver_inv fs c' /\ (fs = [] \/ ran_empty)).

Lemma frame_ok_no_payload f : frame_ok f -> ipc_total_length (f_header f) = 0%Z -> f_pieces f = [].
Proof.
  intros (_&Hne&Hl) Hz. destruct (f_pieces f) as [|m ps] eqn:E; [done|].
  apply List.Forall_cons_iff in Hne as [Hm _]. unfold f_payload in Hl. rewrite E, Hz in Hl.
  cbn in Hl. rewrite length_app in Hl. destruct m; [done|cbn in Hl; lia].
Qed.

(** the payload phase, once a payload buffer is there *)
Lemma receive_payload_loaded f fs' got rest bs c r c' :
  (Z.of_nat IPC_BUF_SIZE <= ch_msg_size c)%Z -> length (ch_msg_buffer c) = Z.to_nat (ch_msg_size c) ->
  pool_ok (ch_buffers c) -> pool_large (ch_buffers c) -> Forall frame_ok (f :: fs') ->
  ch_msg_read c = true -> ch_msg c = f_header f -> f_pieces f = got ++ rest ->
  mq_messages (ch_queue c) = rest ++ frames_wire fs' ->
  buf_ptr (ch_msg_payload c) = Some bs -> buffer_ok (ch_msg_payload c) ->
  length (f_payload f) <= buf_size (ch_msg_payload c) ->
  buffer_data (ch_msg_payload c) = concat got ->
  (0 < ipc_total_length (f_header f))%Z ->
  receive_payload c = (r, c') -> receive_post (f :: fs') r c'.
Proof.
  intros Hms Hmb Hpo Hpl Hfs Hrd Hmsg Hpc Hq Hbs Hok Hcap Hgot Htot.
  assert (Forall frame_ok fs' /\ frame_ok f) as [Hfs' (Hf1&Hf2&Hf3)]
    by (apply List.Forall_cons_iff in Hfs; tauto).
  pose proof Hok as Hok'. unfold buffer_ok in Hok'. rewrite Hbs in Hok'. destruct Hok' as [Hlen Hle].
  assert (length (concat got) = buf_len (ch_msg_payload c)) as Hg.
  { rewrite <-Hgot. now apply length_buffer_data. }
  assert (length (f_payload f) = length (concat got) + length (concat rest)) as Hpay.
  { unfold f_payload. rewrite Hpc, concat_app, length_app. done. }
  rewrite Hpc in Hf2. apply Forall_app in Hf2 as [_ Hne].
  assert (i32_range (ipc_total_length (f_header f))) as Hi.
  { apply read_i32_range. rewrite Hf1. unfold IPC_BUF_SIZE. lia. }
  unfold i32_range in Hi.
  unfold receive_payload. unfold_monad. rewrite Hmsg.
  rewrite (proj2 (Z.ltb_lt 0 _)) by done. unfold buffer_null. rewrite Hbs. cbn zeta.
  assert (wrap_u64 (Z.of_nat (Z.to_nat (ipc_total_length (f_header f))) -
            Z.of_nat (buf_len (ch_msg_payload c))) = Z.of_nat (length (concat rest))) as ->.
  { rewrite wrap_u64_id; unfold u64_range; lia. }
  unfold recv_payload. rewrite Hbs.
  destruct (recv_loop _ _ _ _) as [r1 [q1 rest1]] eqn:E.
  assert (length (drop (buf_len (ch_msg_payload c)) bs) = buf_size (ch_msg_payload c) - buf_len (ch_msg_payload c))
    as Hld by (rewrite length_drop; lia).
  apply (recv_loop_spec (frames_wire fs') _ rest) in E as (g&t&->&Hq1&->&Hl1&Ht1&Hr1);
    [|done|done|lia|rewrite Hld; lia|lia].
  cbn [ch_msg_payload set_ch_payload set_ch_queue buf_ptr buf_len buf_size].
  rewrite Nat.add_0_l in *. cbn [take app] in Ht1.
  rewrite concat_app, length_app in Hpay |- *.
  assert (buffer_data {| buf_ptr := Some (take (buf_len (ch_msg_payload c)) bs ++ rest1);
      buf_size := buf_size (ch_msg_payload c);
      buf_len := buf_len (ch_msg_payload c) + length (concat g) |} = concat (got ++ g)) as Hdata.
  { unfold buffer_data; cbn [buf_ptr buf_len]. unfold buffer_data in Hgot. rewrite Hbs in Hgot.
    rewrite Hgot, <-Hg, take_app_add, Ht1, concat_app. done. }
  assert (buffer_ok {| buf_ptr := Some (take (buf_len (ch_msg_payload c)) bs ++ rest1);
      buf_size := buf_size (ch_msg_payload c);
      buf_len := buf_len (ch_msg_payload c) + length (concat g) |}) as Hbok.
  { unfold buffer_ok; cbn. rewrite length_app, length_take, Hl1, Hld. lia. }
  destruct (Z.eqb_spec (Z.of_nat (length (concat g))) (Z.of_nat (length (concat g) + length (concat t))))
    as [He|He]; intros [= <- <-].
  - left. assert (t = []) as ->.
    { destruct t as [|m t]; [done|]. apply Forall_app in Hne as [_ Hne].
      apply List.Forall_cons_iff in Hne as [Hm _]. cbn in He. rewrite length_app in He.
      destruct m; [done|cbn in He; lia]. }
    exists f, fs'. eexists. split; [done|]. split; [reflexivity|]. split; [exact Hbok|].
    split; [etrans; [exact Hdata|]; unfold f_payload; rewrite Hpc, app_nil_r; done|].
    split; [done|]. repeat split; auto.
  - right. split; [done|]. destruct Hr1 as [->|Hr1]; [exfalso; cbn in He; lia|].
    split; [|by right]. unfold receiver_inv. split_and!; auto. unfold rx_payload; cbn. rewrite Hrd.
    exists f, fs', (got ++ g), t. rewrite <-app_assoc. split_and!; auto; [|exact (proj1 Hbok)|exact (proj2 Hbok)].
    intros Hn. rewrite Hn in Hf3. cbn in Hf3. lia.
Qed.

Lemma receive_payload_spec f fs' c r c' :
  receiver_inv (f :: fs') c -> ch_msg_read c = true ->
  receive_payload c = (r, c') -> receive_post (f :: fs') r c'.
Proof.
  intros (Hms&Hmb&Hpo&Hpl&Hfs&Hrx) Hrd. unfold rx_payload in Hrx. rewrite Hrd in Hrx.
  destruct Hrx as (f0&fs0&got&rest&[= <- <-]&Hmsg&Hpc&Hq&Hpay).
  destruct (Z_lt_le_dec 0 (ipc_total_length (f_header f))) as [Htot|Htot].
  - destruct (buf_ptr (ch_msg_payload c)) as [bs|] eqn:Hbs.
    + destruct Hpay as (_&Hok&Hcap&Hgot). now apply (receive_payload_loaded _ _ got rest bs).
    + destruct Hpay as [-> Hnull]. cbn in Hpc.
      set (size := Nat.max (Z.to_nat (ipc_total_length (f_header f))) (Z.to_nat (ch_msg_size c))).
      destruct (retrieve_buffer size (ch_buffers c)) as [b q] eqn:Eb.
      pose proof (retrieve_buffer_spec _ _ _ _ Hpo Hpl Eb) as (Hbok&Hb0&Hbs1&Hbp&Hpo'&Hpl').
      destruct (buf_ptr b) as [bs|] eqn:Ebp; [|done].
      assert (receive_payload c = receive_payload (set_ch_payload b (set_ch_buffers q c))) as ->.
      { unfold receive_payload. unfold_monad. cbn [ch_msg ch_msg_payload set_ch_payload set_ch_buffers].
        rewrite Hmsg, (proj2 (Z.ltb_lt 0 _)) by done. unfold buffer_null at 1. rewrite Hbs.
        unfold buffer_null. rewrite Ebp. fold size. rewrite Eb. done. }
      intros E. apply List.Forall_cons_iff in Hfs as [Hf Hfs'].
      apply (receive_payload_loaded f fs' [] rest bs) in E; cbn; auto.
      * destruct Hf as (_&_&Hf). lia.
      * unfold buffer_data. rewrite Ebp, Hb0. done.
  - apply List.Forall_cons_iff in Hfs as [Hf Hfs'].
    assert (ipc_total_length (f_header f) = 0%Z) as Hz.
    { destruct Hf as (_&_&Hf). lia. }
    pose proof (frame_ok_no_payload _ Hf Hz) as Hnil. rewrite Hnil in Hpc.
    symmetry in Hpc. apply app_eq_nil in Hpc as [-> ->].
    unfold receive_payload. unfold_monad. rewrite Hmsg, Hz. cbn. intros [= <- <-].
    left. exists f, fs', buffer_null_value. repeat split; auto.
    + unfold f_payload. rewrite Hnil. done.
    + cbn. destruct (buf_ptr (ch_msg_payload c)) as [bs|] eqn:Hbs; [|tauto].
      destruct Hpay as [Hp _]. unfold f_payload in Hp. now rewrite Hnil in Hp.
Qed.
Lemma receive_spec fs c r c' :
  receiver_inv fs c -> receive c = (r, c') -> receive_post fs r c'.
Proof.
  intros Hinv. pose proof Hinv as (Hms&Hmb&Hpo&Hpl&Hfs&Hrx). unfold rx_payload in Hrx.
  unfold receive. unfold mbind, M_bind at 1, get. destruct (ch_msg_read c) eqn:Hrd; cbn [negb].
  { intros E. destruct Hrx as (f&fs'&_&_&->&_). now apply (receive_payload_spec f fs' c). }
  destruct Hrx as [Hnull Hq]. unfold recv_header, M_bind. cbv beta. unfold IPC_BUF_SIZE in Hms.
  match goal with |- context [recv_loop ?a ?b ?d ?e] => destruct (recv_loop a b d e) as [r1 [q1 b1]] eqn:E end.
  destruct fs as [|f fs'].
  - cbn [recv_loop] in E. change (Z.of_nat 0 <? Z.of_nat IPC_BUF_SIZE)%Z with true in E. cbv iota in E.
    destruct (mq_receive (ch_queue c)) as [[m| |] q] eqn:Er.
    + apply mq_receive_message in Er. rewrite Hq in Er. done.
    + injection E as <- <- <-. apply mq_receive_again in Er. cbn. intros [= <- <-]. right.
      split; [done|]. split; [|by left]. unfold receiver_inv. split_and!; auto.
      unfold rx_payload; cbn. rewrite Hrd. split; [done|]. exact (eq_trans Er Hq).
    + exfalso. exact (mq_receive_reliable _ _ Er).
  - pose proof Hfs as Hfs0. apply List.Forall_cons_iff in Hfs0 as [(Hf1&Hf2&Hf3) Hfs'].
    assert (f_header f <> []) as Hne by (intros Hn; rewrite Hn in Hf1; done).
    apply (recv_loop_spec (f_pieces f ++ frames_wire fs') _ [f_header f]) in E
      as (got&rest&Hgot&Hq1&->&Hl1&Ht1&Hr1);
      [|auto|rewrite Hq; done|cbn; rewrite app_nil_r, Hf1; done|rewrite Hmb; unfold IPC_BUF_SIZE; lia|lia].
    rewrite Nat.add_0_l in *. cbn [take app] in Ht1.
    destruct got as [|m [|]]; cbn in Hgot; simplify_eq.
    + cbn. intros [= <- <-]. right. split; [done|]. destruct Hr1 as [Hr1|Hr1]; [done|].
      split; [|by right]. unfold receiver_inv. split_and!; auto; [cbn; congruence|].
      unfold rx_payload; cbn. rewrite Hrd. split; [done|]. exact Hq1.
    + cbn [concat] in *. rewrite app_nil_r in *. rewrite Hf1 in *.
      rewrite decide_False by done. change (IPC_BUF_SIZE <? IPC_BUF_SIZE) with false. cbv iota.
      unfold copy_header. cbn [ch_msg_buffer set_ch_msg_buffer].
      rewrite (proj2 (Nat.leb_le _ _)) by (rewrite Hl1, Hmb; unfold IPC_BUF_SIZE; lia).
      rewrite Ht1. unfold modify. apply receive_payload_spec; [|done].
      unfold receiver_inv. split_and!; auto; [cbn; congruence|]. unfold rx_payload.
      cbn [ch_msg_read set_ch_msg_read]. exists f, fs', [], (f_pieces f). cbn. rewrite Hnull. cbn.
      split_and!; auto.
Qed.

(** the deliveries of a sequence of calls *)
Lemma receive_n_spec n : forall fs c r c',
  receiver_inv fs c -> receive_n n c = (r, c') ->
  exists k, r = Ret (map (fun f => (f_header f, f_payload f)) (take k fs)) /\
    receiver_inv (drop k fs) c' /\ (k = Nat.min n (length fs) \/ ran_empty).
Proof.
  induction n as [|n IH]; intros fs c r c' Hinv; cbn [receive_n].
  - intros [= <- <-]. exists 0. cbn. auto.
  - unfold mbind, M_bind, gets. destruct (receive c) as [r1 c1] eqn:E1.
    apply (receive_spec fs) in E1; [|done].
    destruct (receive_n n c1) as [r2 c2] eqn:E2.
    destruct E1 as [(f&fs'&b&->&->&_&Hb&Hm&Hinv1)|(->&Hinv1&He)].
    + apply (IH fs') in E2 as (k&->&Hinv2&Hk); [|done]. intros [= <- <-].
      exists (S k). cbn. unfold delivered; cbn. rewrite Hb, Hm. split; [done|]. split; [done|].
      destruct Hk as [->|Hk]; auto.
    + apply (IH fs) in E2 as (k&->&Hinv2&Hk); [|done]. intros [= <- <-].
      exists k. split; [done|]. split; [done|].
      destruct He as [->|He]; [|by right]. destruct Hk as [->|Hk]; [|by right].
      left. cbn. lia.
Qed.

(** a frame sent meanwhile queues up behind the pending ones *)
Lemma receiver_inv_extend fs f c q :
  receiver_inv fs c -> frame_ok f ->
  mq_messages q = mq_messages (ch_queue c) ++ frame_wire f ->
  receiver_inv (fs ++ [f]) (set_ch_queue q c).
Proof.
  intros (Hms&Hmb&Hpo&Hpl&Hfs&Hrx) Hf Hq. unfold receiver_inv. split_and!; auto.
  { apply Forall_app; auto. }
  unfold rx_payload in *. cbn [ch_msg_read set_ch_queue ch_msg ch_queue ch_msg_payload].
  assert (forall gs, frames_wire (gs ++ [f]) = frames_wire gs ++ frame_wire f) as Hw.
  { intros gs. unfold frames_wire. rewrite bind_app. cbn. now rewrite app_nil_r. }
  destruct (ch_msg_read c).
  - destruct Hrx as (g&fs'&got&rest&->&Hm&Hp&Hq'&Hb).
    exists g, (fs' ++ [f]), got, rest. split_and!; auto. rewrite Hw, Hq, Hq'. now rewrite <-app_assoc.
  - destruct Hrx as [Hp Hq']. split; [done|]. rewrite Hw, Hq, Hq'. done.
Qed.

(** the blocking receiver of the workers *)
Lemma blocking_receive_spec f tail buf c r c' :
  (Z.of_nat IPC_BUF_SIZE <= ch_msg_size c)%Z -> length (ch_msg_buffer c) = Z.to_nat (ch_msg_size c) ->
  frame_ok f -> mq_messages (ch_queue c) = frame_wire f ++ tail -> buffer_ok buf -> ~ ran_empty ->
  blocking_receive buf c = (r, c') ->
  exists b, r = Ret (true, b) /\ buffer_ok b /\ buffer_data b = f_payload f /\
    ch_msg c' = f_header f /\ mq_messages (ch_queue c') = tail.
Proof.
  intros Hms Hmb (Hf1&Hf2&Hf3) Hq Hb Hre. unfold IPC_BUF_SIZE in Hms.
  assert (f_header f <> []) as Hne by (intros Hn; rewrite Hn in Hf1; done).
  unfold blocking_receive, recv_header. unfold mbind, M_bind. cbv beta.
  match goal with |- context [recv_loop ?a ?b ?d ?e] => destruct (recv_loop a b d e) as [r1 [q1 b1]] eqn:E end.
  apply (recv_loop_spec (f_pieces f ++ tail) _ [f_header f]) in E as (got&rest&Hgot&Hq1&->&Hl1&Ht1&Hr1);
    [|auto|exact Hq|cbn; rewrite app_nil_r, Hf1; done|rewrite Hmb; unfold IPC_BUF_SIZE; lia|lia].
  destruct Hr1 as [->|]; [|done]. rewrite app_nil_r in Hgot. subst got. cbn [app] in Hq1.
  cbn [concat] in *. rewrite app_nil_r, Nat.add_0_l, ?Hf1 in *.
  change (take 0 (ch_msg_buffer c) ++ f_header f) with (f_header f) in Ht1.
  change (IPC_BUF_SIZE <? IPC_BUF_SIZE) with false. cbv iota.
  unfold copy_header. cbn [ch_msg_buffer set_ch_msg_buffer].
  rewrite (proj2 (Nat.leb_le _ _)) by (rewrite Hl1, Hmb; unfold IPC_BUF_SIZE; lia).
  unfold get. cbn [ch_msg set_ch_msg]. rewrite Ht1. rewrite (proj2 (Z.ltb_ge (ipc_total_length (f_header f)) 0)) by lia.
  rewrite Hf3, Nat2Z.id. set (n := length (f_payload f)) in *.
  set (buf' := if buf_size buf <? n then resize_buffer n buf else buf).
  assert (buffer_ok buf' /\ n <= buf_size buf') as [Hb' Hn'].
  { unfold buf'. destruct (Nat.ltb_spec (buf_size buf) n); split; auto using resize_buffer_ok. }
  clearbody buf'. pose proof Hb' as Hb2. unfold buffer_ok in Hb2.
  destruct (buf_ptr buf') as [bs|] eqn:Hbs.
  - cbn [ch_queue set_ch_msg set_ch_msg_buffer set_ch_queue].
    match goal with |- context [recv_loop ?a ?b ?d ?e] => destruct (recv_loop a b d e) as [r2 [q2 b2]] eqn:E2 end.
    apply (recv_loop_spec tail _ (f_pieces f)) in E2 as (got&rest&Hgot&Hq2&->&Hl2&Ht2&Hr2);
      [|done|done|done|lia|lia].
    destruct Hr2 as [->|]; [|done]. rewrite app_nil_r in Hgot. subst got. cbn [app] in Hq2.
    intros [= <- <-]. fold (f_payload f) in *. fold n. rewrite Nat.add_0_l in *. cbn [take app] in Ht2.
    rewrite Nat.leb_refl. eexists. split; [reflexivity|].
    cbn [ch_msg set_ch_queue set_ch_msg ch_queue]. unfold buffer_ok, buffer_data; cbn.
    split_and!; auto; lia.
  - assert (n = 0) as Hn0 by lia. rewrite decide_True by done. intros [= <- <-].
    exists buf'. unfold buffer_data. rewrite Hbs.
    assert (f_pieces f = []) as Hnil by (apply frame_ok_no_payload; [done|lia]).
    split_and!; auto.
    + symmetry. now apply length_zero_iff_nil.
    + cbn. rewrite Hq1, Hnil. done.
Qed.

(** ** A sender and a receiver on one queue *)

Record channel_system : Type := ChannelSystem {
  sys_tx : POSIXMQChannel;
  sys_rx : POSIXMQChannel;
  sys_sent : list (mem * list byte);
  sys_delivered : list (mem * list byte);
}.

(** A send that returned, and a call of [receive].  The interleaving of the
    pieces of a send with the calls of the receiver is in [mq_receive], which
    may return [EAGAIN] whatever was sent. *)
Inductive channel_step : channel_system -> channel_system -> Prop :=
  | step_send tx rx msg data msg' tx' sent del :
      length msg = IPC_BUF_SIZE -> Forall buffer_ok data -> i32_range (Z.of_nat (total_len data)) ->
      send_buffers msg data (set_ch_queue (ch_queue rx) tx) = (Ret msg', tx') ->
      channel_step {| sys_tx := tx; sys_rx := rx; sys_sent := sent; sys_delivered := del |}
        {| sys_tx := tx'; sys_rx := set_ch_queue (ch_queue tx') rx;
           sys_sent := sent ++ [(msg', concat (map buffer_data data))]; sys_delivered := del |}
  | step_receive tx rx r rx' sent del :
      receive rx = (Ret r, rx') ->
      channel_step {| sys_tx := tx; sys_rx := rx; sys_sent := sent; sys_delivered := del |}
        {| sys_tx := tx; sys_rx := rx'; sys_sent := sent; sys_delivered := del ++ delivered r (ch_msg rx') |}.

Definition channel_init (q : mqd) (msg_size : Z) : channel_system :=
  {| sys_tx := POSIXMQChannel_ctor q msg_size; sys_rx := POSIXMQChannel_ctor q msg_size;
     sys_sent := []; sys_delivered := [] |}.

Definition frame_view (f : frame) : mem * list byte := (f_header f, f_payload f).

Definition system_inv (s : channel_system) : Prop :=
  (Z.of_nat IPC_BUF_SIZE <= ch_msg_size (sys_tx s))%Z /\
  exists fs, receiver_inv fs (sys_rx s) /\ sys_sent s = sys_delivered s ++ map frame_view fs.

Lemma system_inv_init q ms :
  (Z.of_nat IPC_BUF_SIZE <= ms)%Z -> mq_messages q = [] -> system_inv (channel_init q ms).
Proof.
  intros Hms Hq. split; [done|]. exists []. split; [|done].
  unfold receiver_inv. cbn [sys_rx channel_init]. split_and!.
  - done.
  - apply length_fresh.
  - apply pool_ok_ctor.
  - apply pool_large_ctor. unfold BUFFER_ELEMS, BUFFER_SIZE. lia.
  - constructor.
  - unfold rx_payload. cbn. auto.
Qed.

Lemma system_inv_step s s' : system_inv s -> channel_step s s' -> system_inv s'.
Proof.
  intros [Hms (fs&Hrx&Hsent)] Hs. destruct Hs as [tx rx msg data msg' tx' sent del Hm Hok Hr Hsend|tx rx r rx' sent del Hrec].
  - cbn in Hms, Hrx, Hsent. pose proof Hsend as Hsend'.
    apply send_buffers_sent in Hsend as (r'&Hsn&Hr'&Htx'); [|done..].
    cbn [ch_msg_size ch_queue set_ch_queue] in *.
    destruct Hsn as [[-> Hq]|[[e ->] _]]; [|done]. cbn in Hr'. injection Hr' as ->.
    rewrite total_len_concat in Hr by done. unfold IPC_BUF_SIZE in Hms.
    destruct (frame_of_ok (ch_msg_size tx) msg (map buffer_data data)) as [Hfo Hpay]; [lia|done|done|].
    split; [rewrite Htx'; exact Hms|].
    exists (fs ++ [frame_of (ch_msg_size tx) msg (map buffer_data data)]). cbn [sys_rx sys_sent sys_delivered].
    split; [now apply receiver_inv_extend|].
    rewrite Hsent, map_app, <-app_assoc. do 2 f_equal. cbn. unfold frame_view. now rewrite Hpay.
  - cbn in Hms, Hrx, Hsent. apply (receive_spec fs) in Hrec; [|done]. split; [done|].
    destruct Hrec as [(f&fs'&b&->&[= ->]&_&Hb&Hm&Hinv)|([= ->]&Hinv&_)].
    + exists fs'. split; [done|]. cbn. unfold delivered. cbn. rewrite Hb, Hm, Hsent, <-app_assoc. done.
    + exists fs. split; [done|]. cbn. now rewrite app_nil_r.
Qed.


(** One call of [receive], in any state the receiver can be in: it either
    delivers the oldest pending message whole, leaving the channel ready for the
    next one, or reports that nothing is complete and keeps what it has read; it
    never fails, never writes outside a buffer, and without [EAGAIN] it always
    delivers when a message is pending. *)
Theorem receive_delivers_or_waits fs c r c' :
  receiver_inv fs c -> receive c = (r, c') ->
  (exists f fs' b, fs = f :: fs' /\ r = Ret (true, b) /\ buffer_ok b /\ buffer_data b = f_payload f /\
     ch_msg c' = f_header f /\ receiver_inv fs' c') \/
  (r = Ret (false, buffer_null_value) /\ receiver_inv fs c' /\ (fs = [] \/ ran_empty)).
Proof. intros. eapply receive_spec; eauto. Qed.

(** The blocking receive of the workers reads one message: the header into
    the channel and the payload into the caller's buffer, enlarged when it is
    too small. *)
Theorem blocking_receive_message f tail buf c r c' :
  (Z.of_nat IPC_BUF_SIZE <= ch_msg_size c)%Z -> length (ch_msg_buffer c) = Z.to_nat (ch_msg_size c) ->
  frame_ok f -> mq_messages (ch_queue c) = frame_wire f ++ tail -> buffer_ok buf -> ~ ran_empty ->
  blocking_receive buf c = (r, c') ->
  exists b, r = Ret (true, b) /\ buffer_ok b /\ buffer_data b = f_payload f /\
    ch_msg c' = f_header f /\ mq_messages (ch_queue c') = tail.
Proof. intros. eapply blocking_receive_spec; eauto. Qed.

(** C38: [send] terminates, and either the header and every piece of every
    payload buffer are in the queue, in order, or [mq_send] failed after some
    of them and the exception says so; the message is returned with its total
    length set. *)
Theorem send_all_or_throw msg data c r c' :
  (Z.of_nat IPC_BUF_SIZE <= ch_msg_size c)%Z -> length msg = IPC_BUF_SIZE ->
  Forall buffer_ok data -> i32_range (Z.of_nat (total_len data)) ->
  send_buffers msg data c = (r, c') ->
  let f := frame_of (ch_msg_size c) msg (map buffer_data data) in
  frame_ok f /\ f_payload f = concat (map buffer_data data) /\
  ((r = Ret (f_header f) /\ mq_messages (ch_queue c') = mq_messages (ch_queue c) ++ frame_wire f) \/
   (exists s k, r = Throw (PraaSException s) /\ k < length (frame_wire f) /\
      mq_messages (ch_queue c') = mq_messages (ch_queue c) ++ take k (frame_wire f))).
Proof.
  intros Hms Hm Hok Hr Hs f.
  pose proof Hr as Hr2. rewrite total_len_concat in Hr2 by done. unfold IPC_BUF_SIZE in Hms.
  destruct (frame_of_ok (ch_msg_size c) msg (map buffer_data data)) as [Hfo Hpay]; [lia|done|done|].
  split; [done|]. split; [done|].
  apply send_buffers_sent in Hs as (r'&Hsn&->&_); [|unfold IPC_BUF_SIZE; lia|done..].
  destruct Hsn as [[-> Hq]|[[e ->] (k&Hk&Hq)]]; [left|right]; auto.
  exists e, k. auto.
Qed.
End receiver.

(** ** A queue that returns the scripted results

    [None] is an [EAGAIN]; a sent message joins the script. *)
#[export] Instance scripted_mq : PosixMQ | 10 := {|
  mqd := list (option (list byte));
  mq_send q m := (true, q ++ [Some m]);
  mq_receive q := match q with [] => (MqAgain, []) | None :: q' => (MqAgain, q')
                  | Some m :: q' => (MqMessage m, q') end;
|}.

#[export] Program Instance scripted_laws : PosixMQLaws scripted_mq := {| mq_messages q := omap id q |}.
Next Obligation. cbn. intros q m q' [= <-]. now rewrite omap_app. Qed.
Next Obligation. cbn. intros q m q' [=]. Qed.
Next Obligation. cbn. intros [|[|]] m q'; intros [= <- <-]; done. Qed.
Next Obligation. cbn. intros [|[|]] q'; intros [= <-]; done. Qed.

Lemma scripted_reliable q q' : mq_receive q <> (MqError, q').
Proof. cbn. destruct q as [|[|]]; done. Qed.

(** a channel with small buffers, for the examples *)
Definition small_channel (q : mqd) : POSIXMQChannel :=
  {| ch_queue := q; ch_msg_size := 128; ch_buffers := []; ch_msg_buffer := replicate 128 NUL;
     ch_msg_read := false; ch_msg := IpcMessage_ctor IPC_GENERIC_HEADER;
     ch_msg_payload := buffer_null_value |}.

(** a message with a payload of 130 bytes, cut in two pieces *)
Definition sample_frame : frame :=
  frame_of 128 StateKeysResult [replicate 130 x01].

Lemma sample_frame_ok : frame_ok sample_frame.
Proof. apply frame_of_ok; [lia|reflexivity|]. unfold i32_range. vm_compute. split; congruence. Qed.

Lemma small_channel_inv fs q :
  mq_messages q = frames_wire fs -> Forall frame_ok fs -> receiver_inv fs (small_channel q).
Proof.
  intros Hq Hfs. unfold receiver_inv. split_and!; try done; try (now constructor).
Qed.


Lemma receive_delivers_or_waits_witness :
  let q := [None; Some (f_header sample_frame); None] ++ map Some (f_pieces sample_frame) in
  receiver_inv [sample_frame] (small_channel q) /\
  exists fs c', receiver_inv fs c' /\ receive (small_channel q) = (Ret (false, buffer_null_value), c').
Proof.
  intros q. assert (receiver_inv [sample_frame] (small_channel q)) as Hinv.
  { apply small_channel_inv; [reflexivity|]. constructor; [exact sample_frame_ok|constructor]. }
  split; [exact Hinv|].
  destruct (receive_delivers_or_waits scripted_reliable [sample_frame] (small_channel q)
    (Ret (false, buffer_null_value)) (small_channel (drop 1 q)) Hinv eq_refl)
    as [(f&fs'&b&_&Hr&_)|(_&Hi&_)]; [discriminate Hr|].
  exists [sample_frame], (small_channel (drop 1 q)). split; [exact Hi|reflexivity].
Defined.

(** ** A queue that holds all its messages *)
Definition plain_mq : PosixMQ := {|
  mqd := list (list byte);
  mq_send q m := (true, q ++ [m]);
  mq_receive q := match q with [] => (MqAgain, []) | m :: q' => (MqMessage m, q') end;
|}.

Program Definition plain_laws : PosixMQLaws plain_mq := {| mq_messages q := q |}.
Next Obligation. cbn. intros q m q' [= <-]. done. Qed.
Next Obligation. cbn. intros q m q' [=]. Qed.
Next Obligation. cbn. intros [|] m q'; intros [= <- <-]; done. Qed.
Next Obligation. cbn. intros [|] q'; intros [= <-]; done. Qed.

Lemma plain_never_empty : ~ @ran_empty plain_mq plain_laws.
Proof. intros ([|m q]&q'&Hr&Hn); cbn in *; [done|discriminate Hr]. Qed.

Definition plain_channel (q : list (list byte)) : @POSIXMQChannel plain_mq :=
  @MkChannel plain_mq q 128 [] (replicate 128 NUL) false (IpcMessage_ctor IPC_GENERIC_HEADER)
    buffer_null_value.

Lemma blocking_receive_message_witness :
  exists b c', @blocking_receive _ plain_mq buffer_null_value (plain_channel (frame_wire sample_frame))
      = (Ret (true, b), c') /\ buffer_data b = f_payload sample_frame.
Proof.
  destruct (@blocking_receive _ plain_mq buffer_null_value (plain_channel (frame_wire sample_frame)))
    as [r c'] eqn:E.
  destruct (@blocking_receive_message _ plain_mq plain_laws
    ltac:(intros [|] ?; cbn; discriminate) sample_frame [] buffer_null_value
    (plain_channel (frame_wire sample_frame)) r c' ltac:(unfold IPC_BUF_SIZE; cbn; lia) eq_refl
    sample_frame_ok ltac:(cbn [plain_channel ch_queue mq_messages plain_laws]; now rewrite app_nil_r)
    ltac:(split; reflexivity) plain_never_empty E) as (b&->&_&Hd&_).
  exists b, c'. split; [reflexivity|exact Hd].
Defined.

Lemma send_all_or_throw_witness :
  let c := plain_channel [] in
  let data := [buffer_of_bytes (replicate 130 x01)] in
  exists m c', @send_buffers plain_mq StateKeysResult data c = (Ret m, c') /\
    ch_queue c' = frame_wire sample_frame.
Proof.
  intros c data.
  destruct (@send_buffers plain_mq StateKeysResult data c) as [r c'] eqn:E.
  destruct (@send_all_or_throw plain_mq plain_laws StateKeysResult data c r c')
    as (_&_&[[-> Hq]|(s&k&->&_)]).
  - unfold IPC_BUF_SIZE. cbn. lia.
  - reflexivity.
  - repeat constructor; cbn; lia.
  - unfold i32_range. cbn. lia.
  - exact E.
  - exists (f_header sample_frame), c'. split; [reflexivity|exact Hq].
  - vm_compute in E. discriminate E.
Defined.
