(* ===== verification/Application.v ===== *)
(** * Application: the processes a process knows of

    [common/application.hpp]: every process keeps the names of the active and
    of the swapped processes of its application, changed by the updates the
    control plane broadcasts. *)

From S2P Require Import Prelude.

(** An [enum class] over [int]: a value cast from a message can be any other
    number. *)
Inductive Status : Type := ACTIVE | SWAPPED | OtherStatus (z : Z).

#[export] Instance status_eq_dec : EqDecision Status.
Proof. solve_decision. Defined.

Definition Status_to_Z (s : Status) : Z := match s with ACTIVE => 1 | SWAPPED => 2 | OtherStatus z => z end.
Definition Status_of_Z (z : Z) : Status :=
  if (z =? 1)%Z then ACTIVE else if (z =? 2)%Z then SWAPPED else OtherStatus z.

Record Application : Type := MkApplication {
  active_processes : list string;
  swapped_processes : list string;
}.

Definition Application_empty : Application := {| active_processes := []; swapped_processes := [] |}.

Record ApplicationUpdate : Type := MkApplicationUpdate { upd_status : Status; upd_process_id : string }.

(** [active_processes.erase(it)] of the first occurrence; [None]: [it == end()] *)
Fixpoint erase_first (x : string) (l : list string) : option (list string) :=
  match l with
  | [] => None
  | y :: l' => if decide (y = x) then Some l' else (cons y) <$> erase_first x l'
  end.

Definition update (status : Status) (process_id : string) (a : Application) : Application :=
  match status with
  | ACTIVE =>
      {| active_processes := active_processes a ++ [process_id];
         swapped_processes := swapped_processes a |}
  | _ =>
      match erase_first process_id (active_processes a) with
      | Some active => {| active_processes := active;
                          swapped_processes := swapped_processes a ++ [process_id] |}
      | None => a
      end
  end.

Definition apply_update (a : Application) (u : ApplicationUpdate) : Application :=
  update (upd_status u) (upd_process_id u) a.

Definition apply_updates (a : Application) (us : list ApplicationUpdate) : Application :=
  fold_left apply_update us a.

(** ** Specification vocabulary *)

(** how often [p] occurs in [l] *)
Definition count (p : string) (l : list string) : nat := length (filter (.= p) l).

(** the number of active entries of [p] after [us], from [n] entries *)
Fixpoint active_count (p : string) (n : nat) (us : list ApplicationUpdate) : nat :=
  match us with
  | [] => n
  | u :: us' =>
      let n' := if decide (upd_process_id u = p)
                then match upd_status u with ACTIVE => S n | _ => pred n end else n in
      active_count p n' us'
  end.

(** the number of activations of [p] in [us] *)
Definition activations (p : string) (us : list ApplicationUpdate) : nat :=
  length (filter (fun u => upd_status u = ACTIVE /\ upd_process_id u = p) us).

#[local] Arguments count : simpl never.

(** ** Theorems *)

Lemma count_app p l1 l2 : count p (l1 ++ l2) = count p l1 + count p l2.
Proof. unfold count. now rewrite list.filter_app, length_app. Qed.

Lemma count_cons p x l : count p (x :: l) = (if decide (x = p) then 1 else 0) + count p l.
Proof. unfold count. rewrite filter_cons. case_decide; done. Qed.

Lemma erase_first_some x l l' :
  erase_first x l = Some l' -> exists l1 l2, l = l1 ++ x :: l2 /\ l' = l1 ++ l2 /\ x ∉ l1.
Proof.
  revert l'. induction l as [|y l IH]; intros l' H; cbn in H; [done|].
  case_decide as Hd; simplify_eq.
  - exists [], l'. split_and!; auto. apply not_elem_of_nil.
  - apply fmap_Some in H as (l''&H&->). destruct (IH _ H) as (l1&l2&->&->&Hn).
    exists (y :: l1), l2. split_and!; auto. apply not_elem_of_cons. auto.
Qed.

Lemma erase_first_none x l : erase_first x l = None <-> count x l = 0.
Proof.
  induction l as [|y l IH]; [done|]. cbn. rewrite count_cons. case_decide; [split; [done|lia]|].
  rewrite fmap_None. cbn. done.
Qed.

(** the two effects an update can have *)
Lemma update_cases status q a :
  (status = ACTIVE /\ active_processes (update status q a) = active_processes a ++ [q] /\
     swapped_processes (update status q a) = swapped_processes a) \/
  (status <> ACTIVE /\ exists l1 l2, active_processes a = l1 ++ q :: l2 /\
     active_processes (update status q a) = l1 ++ l2 /\
     swapped_processes (update status q a) = swapped_processes a ++ [q]) \/
  (status <> ACTIVE /\ count q (active_processes a) = 0 /\ update status q a = a).
Proof.
  destruct (decide (status = ACTIVE)) as [->|Hs]; [by left|right].
  assert (update status q a = update SWAPPED q a) as -> by (by destruct status).
  cbn. destruct (erase_first q (active_processes a)) as [l|] eqn:E; cbn.
  - left. apply erase_first_some in E as (l1&l2&?&->&_). split; [done|]. eauto.
  - right. apply erase_first_none in E. auto.
Qed.

Lemma update_count_active status q p a :
  count p (active_processes (update status q a)) =
  if decide (q = p)
  then match status with ACTIVE => S (count p (active_processes a)) | _ => pred (count p (active_processes a)) end
  else count p (active_processes a).
Proof.
  destruct (update_cases status q a) as [(->&->&_)|[(Hs&l1&l2&->&->&_)|(Hs&Hc&->)]].
  - rewrite count_app, count_cons. change (count p []) with 0. case_decide; lia.
  - rewrite !count_app, count_cons. case_decide; [destruct status; done || lia|lia].
  - case_decide; subst; [rewrite Hc; by destruct status|done].
Qed.

Lemma update_count_total status q p a :
  count p (active_processes (update status q a)) + count p (swapped_processes (update status q a)) =
  count p (active_processes a) + count p (swapped_processes a) +
  (if decide (status = ACTIVE /\ q = p) then 1 else 0).
Proof.
  destruct (update_cases status q a) as [(->&->&->)|[(Hs&l1&l2&->&->&->)|(Hs&Hc&->)]].
  - rewrite count_app, count_cons. change (count p []) with 0.
    destruct (decide (q = p)), (decide (ACTIVE = ACTIVE /\ q = p)); lia || (exfalso; naive_solver).
  - rewrite decide_False by naive_solver. rewrite !count_app, !count_cons.
    change (count p []) with 0. lia.
  - rewrite decide_False by naive_solver. lia.
Qed.

Lemma apply_updates_cons a u us : apply_updates a (u :: us) = apply_updates (apply_update a u) us.
Proof. done. Qed.

(** After any sequence of updates, a process is listed as active as often
    as its activations exceed its (effective) swaps - a swap of a process that
    is not active changes nothing - and every activation leaves exactly one
    entry, active or swapped: none is lost and none appears twice.  A process
    activated again after a swap stays in the swapped list. *)
Theorem application_accounts (us : list ApplicationUpdate) (a : Application) (p : string) :
  count p (active_processes (apply_updates a us)) = active_count p (count p (active_processes a)) us /\
  count p (active_processes (apply_updates a us)) + count p (swapped_processes (apply_updates a us)) =
  count p (active_processes a) + count p (swapped_processes a) + activations p us.
Proof.
  revert a. induction us as [|u us IH]; intros a; [cbn; lia|].
  rewrite apply_updates_cons. destruct (IH (apply_update a u)) as [-> ->].
  unfold apply_update. split.
  - rewrite update_count_active. cbn. case_decide; done.
  - rewrite update_count_total. unfold activations. rewrite filter_cons. case_decide; cbn [length]; lia.
Qed.

Example update_sequence :
  apply_updates Application_empty
    [MkApplicationUpdate ACTIVE "p0"; MkApplicationUpdate ACTIVE "p1"; MkApplicationUpdate SWAPPED "p0";
     MkApplicationUpdate SWAPPED "p7"; MkApplicationUpdate ACTIVE "p0"]
  = {| active_processes := ["p1"; "p0"]; swapped_processes := ["p0"] |}.
Proof. reflexivity. Qed.
