(* ===== verification/Functions.v ===== *)
(** * Functions: the function table of a process

    [runtime/internal/functions.hpp] and [runtime/src/internal/functions.cpp]:
    languages, triggers and the table read from the JSON configuration.  JSON
    values are the RapidJSON library's: class [RapidJson] has the calls the
    code makes. *)

From S2P Require Import Prelude.

Inductive Language : Type := CPP | PYTHON | NONE.

Definition language_to_string (val : Language) : string :=
  match val with CPP => "cpp" | PYTHON => "python" | NONE => EmptyString end.

Definition string_to_language (language : string) : Language :=
  if decide (language = "cpp") then CPP
  else if decide (language = "python") then PYTHON
  else NONE.

(** The calls of [rapidjson::Value].  [FindMember] returns [None] for the
    past-the-end iterator of the object itself; [GetString] and [operator[]]
    on anything but a string and a present member are undefined. *)
Class RapidJson : Type := {
  value : Type;
  IsObject : value -> bool;
  FindMember : value -> string -> option value;
  GetString : value -> option string;
  GetObject : value -> list (string * value);
}.

Inductive TriggerType : Type := DIRECT | MULTI_SOURCE | BATCH | PIPELINE | DEPENDENCY.

(** [DirectTrigger] is the only class of triggers *)
Inductive Trigger : Type := DirectTrigger (name : string).
Definition trigger_type (t : Trigger) : TriggerType := match t with DirectTrigger _ => DIRECT end.
Definition trigger_name (t : Trigger) : string := match t with DirectTrigger n => n end.

Record Function_ : Type := MkFunction {
  fn_trigger : Trigger;
  fn_module_name : string;
  fn_function_name : string;
}.

Abbreviation Functions := (gmap string Function_).

Definition get_trigger (fs : Functions) (name : string) : option Trigger := fn_trigger <$> fs !! name.
Definition get_function (fs : Functions) (name : string) : option Function_ := fs !! name.

Section json.
Context `{RapidJson}.

(** [obj[key].GetString()] *)
Definition member_string (obj : value) (key : string) : outcome string :=
  match FindMember obj key with
  | Some v => match GetString v with Some s => Ret s | None => Undef end
  | None => Undef
  end.

Definition Trigger_parse (fname : string) (obj : value) : outcome Trigger :=
  match FindMember obj "trigger" with
  | Some it =>
      if IsObject it then
        trigger_type ← member_string it "type";
        if decide (trigger_type = "direct") then Ret (DirectTrigger fname)
        else Throw (InvalidJSON "Could not parse trigger type {}")
      else Throw (InvalidJSON "Could not parse trigger configuration for {}")
  | None => Throw (InvalidJSON "Could not parse trigger configuration for {}")
  end.

(** one member of the language's object *)
Definition parse_function (fname : string) (cfg : value) : outcome Function_ :=
  trigger ← Trigger_parse fname cfg;
  match FindMember cfg "code" with
  | Some it =>
      if IsObject it then
        module_name ← member_string it "module";
        function_name ← member_string it "function";
        Ret {| fn_trigger := trigger; fn_module_name := module_name; fn_function_name := function_name |}
      else Throw (InvalidJSON "Could not parse code configuration for {}")
  | None => Throw (InvalidJSON "Could not parse code configuration for {}")
  end.

(** [_functions.emplace(fname, ...)]: no effect when the name is taken *)
Definition emplace_function (fname : string) (f : Function_) (fs : Functions) : Functions :=
  match fs !! fname with Some _ => fs | None => <[fname := f]> fs end.

(** [initialize]: the document is the parsed stream.  The test for a missing
    language compares the iterator of [doc["functions"]] with the end of [doc],
    another object: it is never equal, and the past-the-end iterator is read. *)
Definition initialize (doc : value) (language : Language) : M Functions unit :=
  let lang_str := language_to_string language in
  match FindMember doc "functions" with
  | None => undef
  | Some functions =>
      match FindMember functions lang_str with
      | None => undef
      | Some it =>
          if IsObject it then
            for_each (fun '(fname, cfg) =>
              f ← lift (parse_function fname cfg);
              modify (emplace_function fname f)) (GetObject it)
          else throw (InvalidJSON "Could not parse configuration for language {}")
      end
  end.

(** ** Theorems *)

(** the first member called [name], parsed *)
Fixpoint first_parsed (ms : list (string * value)) (name : string) : option Function_ :=
  match ms with
  | [] => None
  | (fname, cfg) :: ms' =>
      if decide (fname = name)
      then match parse_function fname cfg with Ret f => Some f | _ => None end
      else first_parsed ms' name
  end.

Definition members_ok (ms : list (string * value)) : Prop :=
  Forall (fun '(fname, cfg) => is_ret (parse_function fname cfg) = true) ms.

Lemma parse_function_trigger fname cfg f :
  parse_function fname cfg = Ret f -> fn_trigger f = DirectTrigger fname.
Proof.
  unfold parse_function. intros (t&Ht&Hf)%bind_ret_inv.
  assert (t = DirectTrigger fname) as ->.
  { unfold Trigger_parse in Ht. destruct (FindMember cfg "trigger"); [|done].
    destruct (IsObject v); [|done]. apply bind_ret_inv in Ht as (s&_&Hs). case_decide; naive_solver. }
  destruct (FindMember cfg "code"); [|done]. destruct (IsObject v); [|done].
  apply bind_ret_inv in Hf as (m&_&Hf). apply bind_ret_inv in Hf as (n&_&Hf). naive_solver.
Qed.

Lemma emplace_function_lookup fname f fs name :
  emplace_function fname f fs !! name =
  match fs !! name with Some g => Some g | None => if decide (fname = name) then Some f else None end.
Proof.
  unfold emplace_function. destruct (decide (fname = name)) as [->|Hn].
  - destruct (fs !! name) eqn:E; [done|]. now rewrite lookup_insert_eq.
  - destruct (fs !! fname); [destruct (fs !! name); done|].
    rewrite lookup_insert_ne by done. destruct (fs !! name); done.
Qed.

Lemma members_loaded ms : forall fs,
  members_ok ms ->
  exists fs', for_each (fun '(fname, cfg) =>
      f ← lift (parse_function fname cfg); modify (emplace_function fname f)) ms fs = (Ret tt, fs') /\
    forall name, fs' !! name = match fs !! name with Some g => Some g | None => first_parsed ms name end.
Proof.
  induction ms as [|[fname cfg] ms IH]; intros fs Hok; cbn [for_each].
  { exists fs. split; [done|]. intros name. cbn. destruct (fs !! name); done. }
  apply List.Forall_cons_iff in Hok as [Hf Hok]. unfold mbind, M_bind, lift.
  destruct (parse_function fname cfg) as [f| |] eqn:E; [|done|done].
  destruct (IH (emplace_function fname f fs) Hok) as (fs'&Hr&Hfs').
  exists fs'. split; [exact Hr|]. intros name. rewrite Hfs', emplace_function_lookup. cbn.
  destruct (fs !! name); [done|]. rewrite E. case_decide; done.
Qed.

(** Loading a configuration whose members all parse gives a table in which
    a name is bound to the first member of that name, to its module and
    function and to a direct trigger that carries the name, and no other name
    is bound. *)
Theorem initialize_table doc functions obj language :
  FindMember doc "functions" = Some functions ->
  FindMember functions (language_to_string language) = Some obj -> IsObject obj = true ->
  members_ok (GetObject obj) ->
  exists fs, initialize doc language ∅ = (Ret tt, fs) /\
    (forall name, get_function fs name = first_parsed (GetObject obj) name) /\
    (forall name t, get_trigger fs name = Some t -> t = DirectTrigger name).
Proof.
  intros Hf Hl Ho Hok. unfold initialize. rewrite Hf, Hl, Ho.
  destruct (members_loaded (GetObject obj) ∅ Hok) as (fs&Hr&Hfs).
  exists fs. split; [exact Hr|].
  assert (forall name, fs !! name = first_parsed (GetObject obj) name) as Hfs'.
  { intros name. rewrite Hfs, lookup_empty. done. }
  split; [exact Hfs'|]. intros name t. unfold get_trigger. rewrite Hfs'.
  clear. induction (GetObject obj) as [|[n cfg] ms IH]; cbn; [done|].
  destruct (decide (n = name)) as [->|]; [|exact IH].
  destruct (parse_function name cfg) as [f| |] eqn:E; cbn; [|done|done].
  intros [= <-]. eapply parse_function_trigger; eauto.
Qed.

(** a configuration without the language's section is not reported: the
    guard compares iterators of two different objects, so [initialize] reads a
    past-the-end iterator where [InvalidJSON] was meant. *)
Theorem initialize_missing_language doc functions language fs :
  FindMember doc "functions" = Some functions ->
  FindMember functions (language_to_string language) = None ->
  initialize doc language fs = (Undef, fs).
Proof. intros Hf Hl. unfold initialize. now rewrite Hf, Hl. Qed.

(** a member that does not parse stops the loading; the members before it stay *)
Lemma initialize_stops pre fname cfg post fs e :
  members_ok pre -> parse_function fname cfg = Throw e ->
  exists fs', for_each (fun '(fname, cfg) =>
      f ← lift (parse_function fname cfg); modify (emplace_function fname f))
      (pre ++ (fname, cfg) :: post) fs = (Throw e, fs') /\
    forall name, fs' !! name = match fs !! name with Some g => Some g | None => first_parsed pre name end.
Proof.
  intros Hok He. destruct (members_loaded pre fs Hok) as (fs'&Hr&Hfs').
  exists fs'. split; [|exact Hfs']. rewrite for_each_app. unfold mbind, M_bind in *.
  rewrite Hr. cbn. unfold lift. unfold mbind, M_bind. now rewrite He.
Qed.

End json.

Lemma language_roundtrip l : string_to_language (language_to_string l) = l.
Proof. now destruct l. Qed.

(** ** A concrete JSON type *)
Inductive json : Type :=
  | JString (s : string)
  | JEmpty
  | JMember (key : string) (v : json) (rest : json).

Fixpoint json_members (v : json) : list (string * json) :=
  match v with JMember k v rest => (k, v) :: json_members rest | _ => [] end.

#[export] Instance json_rapid : RapidJson := {|
  value := json;
  IsObject v := match v with JString _ => false | _ => true end;
  FindMember v k := (fun p => p.2.2) <$> list_find (fun m => m.1 = k) (json_members v);
  GetString v := match v with JString s => Some s | _ => None end;
  GetObject v := json_members v;
|}.

Definition sample_config : @value json_rapid :=
  JMember "functions" (JMember "python" (JMember "power"
    (JMember "trigger" (JMember "type" (JString "direct") JEmpty)
    (JMember "code" (JMember "module" (JString "m") (JMember "function" (JString "f") JEmpty)) JEmpty))
    JEmpty) JEmpty) JEmpty.

Lemma initialize_table_witness :
  exists fs, initialize sample_config PYTHON ∅ = (Ret tt, fs) /\
    get_function fs "power" = Some {| fn_trigger := DirectTrigger "power"; fn_module_name := "m";
                                       fn_function_name := "f" |}.
Proof.
  destruct (initialize_table sample_config _ _ PYTHON eq_refl eq_refl eq_refl) as (fs&Hr&Hf&_).
  - repeat constructor.
  - exists fs. split; [exact Hr|]. rewrite Hf. reflexivity.
Defined.

Lemma initialize_missing_language_witness :
  initialize sample_config CPP ∅ = (Undef, ∅).
Proof. exact (initialize_missing_language sample_config _ CPP ∅ eq_refl eq_refl). Defined.
