(* ===== verification/Mailbox.v ===== *)
(** * Mailbox: pending requests and stored messages of a process

    [process/controller/messages.hpp] and [messages.cpp]: [PendingMessages]
    remembers which worker waits for which message or invocation result,
    [MessageStore] keeps the messages and the state nobody has asked for yet.
    A worker is the index of its [FunctionWorker] in the controller's vector. *)

From S2P Require Import Prelude Memory Buffers.

Definition ANY_PROCESS : string := "ANY".

(** ** PendingMessages *)
Inductive PendingType : Type := PENDING_NONE | PENDING_GET | PENDING_INVOCATION.

#[export] Instance pending_type_eq_dec : EqDecision PendingType.
Proof. solve_decision. Defined.

Record PendingMessage : Type := MkPending {
  pm_type : PendingType;
  pm_source : string;
  pm_worker : nat;
}.

(** Where [std::unordered_multimap::emplace] puts an entry among those of the
    same key is not specified: any position. *)
Class EqualRange : Type := {
  range_insert : PendingMessage -> list PendingMessage -> list PendingMessage;
  range_insert_perm : forall x l, range_insert x l ≡ₚ x :: l;
}.

(** behind the others, as libstdc++ does *)
#[export] Program Instance range_append : EqualRange | 10 := {| range_insert x l := l ++ [x] |}.
Next Obligation. intros. cbn. now rewrite Permutation_app_comm. Qed.

Abbreviation PendingMessages := (gmap string (list PendingMessage)).

(** [_msgs.equal_range(key)] *)
Definition equal_range (key : string) (p : PendingMessages) : list PendingMessage := default [] (p !! key).

(** the first entry of the range that answers a message from [source], and the others *)
Fixpoint take_get (source : string) (l : list PendingMessage) : option (nat * list PendingMessage) :=
  match l with
  | [] => None
  | m :: l' =>
      if decide ((pm_source m = ANY_PROCESS \/ pm_source m = source) /\ pm_type m = PENDING_GET)
      then Some (pm_worker m, l')
      else (fun r => (r.1, m :: r.2)) <$> take_get source l'
  end.

(** [find_get]: the worker, [None] for [nullptr] *)
Definition find_get (key source : string) (p : PendingMessages) : option nat * PendingMessages :=
  match take_get source (equal_range key p) with
  | Some (worker, rest) => (Some worker, <[key := rest]> p)
  | None => (None, p)
  end.

(** [find_invocation]: every entry of the key is handed out and erased *)
Definition find_invocation (key : string) (p : PendingMessages) : list nat * PendingMessages :=
  (pm_worker <$> equal_range key p, delete key p).

Section pending.
Context `{EqualRange}.

Definition emplace_pending (key : string) (m : PendingMessage) (p : PendingMessages) : PendingMessages :=
  <[key := range_insert m (equal_range key p)]> p.

Definition insert_get (key source : string) (worker : nat) (p : PendingMessages) : PendingMessages :=
  emplace_pending key {| pm_type := PENDING_GET; pm_source := source; pm_worker := worker |} p.

Definition insert_invocation (key : string) (worker : nat) (p : PendingMessages) : PendingMessages :=
  emplace_pending key {| pm_type := PENDING_INVOCATION; pm_source := EmptyString; pm_worker := worker |} p.
End pending.

(** ** MessageStore *)
Record StoredMessage : Type := MkStored { sm_source : string; sm_data : Buffer }.

(** times are microseconds of the system clock, an argument of the calls *)
Record MessageStore : Type := MkStore {
  st_msgs : gmap string StoredMessage;
  st_state_keys : list (string * Z);
}.

Definition MessageStore_empty : MessageStore := {| st_msgs := ∅; st_state_keys := [] |}.

(** [put]: whether the message was stored, and what is left of the payload,
    which [try_emplace] moves only if it inserts *)
Definition store_put (key source : string) (payload : Buffer) (s : MessageStore)
    : bool * Buffer * MessageStore :=
  match st_msgs s !! key with
  | Some _ => (false, payload, s)
  | None =>
      let '(data, rest) := move_buffer payload in
      (true, rest, {| st_msgs := <[key := {| sm_source := source; sm_data := data |}]> (st_msgs s);
                      st_state_keys := st_state_keys s |})
  end.

(** the entry [find_if] finds gets the new time; [None]: [_state_keys.end()] *)
Fixpoint touch_key (key : string) (now : Z) (l : list (string * Z)) : option (list (string * Z)) :=
  match l with
  | [] => None
  | (k, t) :: l' => if decide (k = key) then Some ((k, now) :: l')
                    else (cons (k, t)) <$> touch_key key now l'
  end.

(** [state]: the message replaces an older one; the time of the key is
    updated through the iterator of [find_if], which is dereferenced even when
    it is past the end *)
Definition store_state (key : string) (payload : Buffer) (now : Z) : M MessageStore bool := fun s =>
  let '(data, _) := move_buffer payload in
  let emplaced := match st_msgs s !! key with None => true | Some _ => false end in
  let msgs := <[key := {| sm_source := EmptyString; sm_data := data |}]> (st_msgs s) in
  if emplaced
  then (Ret true, {| st_msgs := msgs; st_state_keys := st_state_keys s ++ [(key, now)] |})
  else match touch_key key now (st_state_keys s) with
       | Some keys => (Ret true, {| st_msgs := msgs; st_state_keys := keys |})
       | None => (Undef, {| st_msgs := msgs; st_state_keys := st_state_keys s |})
       end.

Definition try_get (key source : string) (s : MessageStore) : option Buffer * MessageStore :=
  match st_msgs s !! key with
  | None => (None, s)
  | Some m =>
      if decide (source <> ANY_PROCESS /\ sm_source m <> source) then (None, s)
      else (Some (move_buffer (sm_data m)).1,
            {| st_msgs := delete key (st_msgs s); st_state_keys := st_state_keys s |})
  end.

Definition try_state (key : string) (s : MessageStore) : option Buffer :=
  sm_data <$> st_msgs s !! key.

Definition state_keys (s : MessageStore) : list (string * Z) := st_state_keys s.

(** ** Specification vocabulary *)

(** [m] answers a message from [source] *)
Definition answers (source : string) (m : PendingMessage) : Prop :=
  (pm_source m = ANY_PROCESS \/ pm_source m = source) /\ pm_type m = PENDING_GET.
#[export] Instance answers_dec source m : Decision (answers source m).
Proof. unfold answers. apply _. Defined.

(** The operations of a store and what they report: [true] for a message
    stored, a payload for a message handed out. *)
Inductive store_op : Type :=
  | OPut (key source : string) (payload : Buffer)
  | OState (key : string) (payload : Buffer) (now : Z)
  | OGet (key source : string).

Inductive store_event : Type :=
  | EStored (key : string) (data : Buffer)
  | EReplaced (key : string) (data : Buffer)
  | ERefused (key : string)
  | ETaken (key : string) (data : Buffer)
  | EMissing (key : string).

Definition run_op (o : store_op) : M MessageStore store_event := fun s =>
  match o with
  | OPut key source payload =>
      let '(ok, _, s') := store_put key source payload s in
      (Ret (if (ok : bool) then EStored key payload else ERefused key), s')
  | OState key payload now =>
      let fresh := match st_msgs s !! key with None => true | Some _ => false end in
      match store_state key payload now s with
      | (Ret _, s') => (Ret (if fresh then EStored key payload else EReplaced key payload), s')
      | (Throw e, s') => (Throw e, s')
      | (Undef, s') => (Undef, s')
      end
  | OGet key source =>
      match try_get key source s with
      | (Some b, s') => (Ret (ETaken key b), s')
      | (None, s') => (Ret (EMissing key), s')
      end
  end.

Fixpoint run_ops (os : list store_op) : M MessageStore (list store_event) :=
  match os with
  | [] => mret []
  | o :: os' => e ← run_op o; es ← run_ops os'; mret (e :: es)
  end.

(** the content of [key] after the events [es], from [c]: the specification
    is a variable per key that a store fills and a get empties *)
Fixpoint content (key : string) (c : option Buffer) (es : list store_event) : option Buffer :=
  match es with
  | [] => c
  | e :: es' =>
      content key match e with
                  | EStored k b | EReplaced k b => if decide (k = key) then Some b else c
                  | ETaken k _ => if decide (k = key) then None else c
                  | _ => c
                  end es'
  end.

(** every event agrees with that specification *)
Fixpoint events_ok (cs : string -> option Buffer) (es : list store_event) : Prop :=
  match es with
  | [] => True
  | e :: es' =>
      match e with
      | EStored k _ => cs k = None
      | EReplaced k _ | ERefused k => cs k <> None
      | ETaken k b => cs k = Some b
      | EMissing k => True
      end /\
      events_ok (fun key => content key (cs key) [e]) es'
  end.

(** every stored message of the state is known to [_state_keys] *)
Definition keys_cover (s : MessageStore) : Prop :=
  forall key, is_Some (st_msgs s !! key) -> key ∈ (fst <$> st_state_keys s).

(** ** Pending requests *)

Lemma take_get_some source l w rest :
  take_get source l = Some (w, rest) ->
  exists l1 m l2, l = l1 ++ m :: l2 /\ rest = l1 ++ l2 /\ answers source m /\ pm_worker m = w /\
    Forall (fun x => ~ answers source x) l1.
Proof.
  revert w rest. induction l as [|m l IH]; intros w rest H; cbn in H; [done|].
  case_decide as Hd; simplify_eq.
  - exists [], m, rest. split_and!; auto.
  - apply fmap_Some in H as ([w' rest']&H&[= -> ->]).
    destruct (IH _ _ H) as (l1&x&l2&->&->&?&?&?). exists (m :: l1), x, l2. split_and!; auto.
Qed.

Lemma take_get_none source l : take_get source l = None <-> Forall (fun x => ~ answers source x) l.
Proof.
  induction l as [|m l IH]; cbn; [done|]. rewrite List.Forall_cons_iff, <-IH.
  case_decide as Hd.
  - split; [done|]. intros [Hn _]. exfalso. exact (Hn Hd).
  - rewrite fmap_None. unfold answers. tauto.
Qed.

Lemma equal_range_insert key k l (p : PendingMessages) :
  equal_range key (<[k := l]> p) = if decide (k = key) then l else equal_range key p.
Proof.
  unfold equal_range. case_decide as Hd; subst.
  - now rewrite lookup_insert_eq.
  - now rewrite lookup_insert_ne by done.
Qed.

Lemma equal_range_delete key k (p : PendingMessages) :
  equal_range key (delete k p) = if decide (k = key) then [] else equal_range key p.
Proof.
  unfold equal_range. case_decide as Hd; subst.
  - now rewrite lookup_delete_eq.
  - now rewrite lookup_delete_ne by done.
Qed.

Lemma find_get_spec key source p :
  (exists m rest, answers source m /\ equal_range key p ≡ₚ m :: rest /\
     (find_get key source p).1 = Some (pm_worker m) /\
     equal_range key (find_get key source p).2 = rest /\
     forall k, k <> key -> equal_range k (find_get key source p).2 = equal_range k p) \/
  (Forall (fun x => ~ answers source x) (equal_range key p) /\ find_get key source p = (None, p)).
Proof.
  unfold find_get. destruct (take_get source (equal_range key p)) as [[w rest]|] eqn:E.
  - left. apply take_get_some in E as (l1&m&l2&Hl&->&Ha&<-&_).
    exists m, (l1 ++ l2). split_and!; auto.
    + rewrite Hl. symmetry. apply Permutation_middle.
    + cbn. rewrite equal_range_insert. now rewrite decide_True.
    + intros k Hk. cbn. rewrite equal_range_insert. now rewrite decide_False.
  - right. split; [|done]. now apply take_get_none.
Qed.

(** ** The store *)

Lemma touch_key_none key now l : touch_key key now l = None <-> key ∉ (fst <$> l).
Proof.
  induction l as [|[k t] l IH]; cbn.
  - split; [|done]. intros _. apply not_elem_of_nil.
  - rewrite not_elem_of_cons. case_decide as Hd; [naive_solver|]. rewrite fmap_None, IH. naive_solver.
Qed.

Lemma touch_key_keys key now l l' : touch_key key now l = Some l' -> fst <$> l' = fst <$> l.
Proof.
  revert l'. induction l as [|[k t] l IH]; intros l' H; cbn in H; [done|].
  case_decide; simplify_eq; [done|]. apply fmap_Some in H as (l2&H&->). cbn. f_equal. auto.
Qed.

Lemma store_state_undef key payload now s :
  (store_state key payload now s).1 = Undef <->
  is_Some (st_msgs s !! key) /\ key ∉ (fst <$> st_state_keys s).
Proof.
  unfold store_state. cbn. destruct (st_msgs s !! key) eqn:E.
  - rewrite <-(touch_key_none key now). destruct (touch_key key now (st_state_keys s)); cbn; naive_solver.
  - split; [done|]. intros [[? ?] _]. done.
Qed.

Lemma run_op_content o s e s' key :
  run_op o s = (Ret e, s') -> sm_data <$> st_msgs s' !! key = content key (sm_data <$> st_msgs s !! key) [e].
Proof.
  destruct o as [k source b|k b now|k source]; cbn.
  - unfold store_put. destruct (st_msgs s !! k) eqn:E; cbn; intros [= <- <-]; cbn; [done|].
    case_decide as Hd; subst; [now rewrite lookup_insert_eq; cbn; destruct b|
                               now rewrite lookup_insert_ne by done].
  - unfold store_state. cbn. destruct (st_msgs s !! k) eqn:E; cbn.
    + destruct (touch_key k now (st_state_keys s)); cbn; intros [= <- <-]; cbn.
      case_decide as Hd; subst; [now rewrite lookup_insert_eq; cbn; destruct b|
                                 now rewrite lookup_insert_ne by done].
    + intros [= <- <-]; cbn.
      case_decide as Hd; subst; [now rewrite lookup_insert_eq; cbn; destruct b|
                                 now rewrite lookup_insert_ne by done].
  - unfold try_get. destruct (st_msgs s !! k) eqn:E; cbn; [|intros [= <- <-]; done].
    case_decide; intros [= <- <-]; cbn; [done|].
    case_decide as Hd; subst; [now rewrite lookup_delete_eq|now rewrite lookup_delete_ne by done].
Qed.

Lemma run_op_event_ok o s e s' :
  run_op o s = (Ret e, s') ->
  match e with
  | EStored k _ => st_msgs s !! k = None
  | EReplaced k _ | ERefused k => is_Some (st_msgs s !! k)
  | ETaken k b => sm_data <$> st_msgs s !! k = Some b
  | EMissing k => s' = s
  end.
Proof.
  destruct o as [k source b|k b now|k source]; cbn.
  - unfold store_put. destruct (st_msgs s !! k) eqn:E; cbn; intros [= <- <-]; eauto.
  - unfold store_state. cbn. destruct (st_msgs s !! k) eqn:E; cbn.
    + destruct (touch_key k now (st_state_keys s)); cbn; intros [= <- <-]; eauto.
    + intros [= <- <-]; eauto.
  - unfold try_get. destruct (st_msgs s !! k) as [m|] eqn:E; cbn; [|intros [= <- <-]; done].
    case_decide; intros [= <- <-]; [done|]. rewrite E. cbn. now destruct (sm_data m).
Qed.


(** storing a state message is defined unless the key holds a message that
    [_state_keys] does not list - a message stored by [put] - in which case the
    code dereferences [_state_keys.end()].  Otherwise the new payload is
    readable through [try_state], however often, until a get removes it, and the
    key is listed. *)
Theorem state_defined_unless_put key payload now s :
  ((store_state key payload now s).1 = Undef <->
     is_Some (st_msgs s !! key) /\ key ∉ (fst <$> state_keys s)) /\
  (forall s', store_state key payload now s = (Ret true, s') ->
     try_state key s' = Some payload /\ key ∈ (fst <$> state_keys s') /\
     forall k, k <> key -> try_state k s' = try_state k s).
Proof.
  split; [apply store_state_undef|]. intros s'. unfold store_state, try_state, state_keys. cbn.
  destruct (st_msgs s !! key) eqn:E; cbn.
  - destruct (touch_key key now (st_state_keys s)) as [l|] eqn:Et; cbn; intros [= <-]; cbn.
    rewrite lookup_insert_eq. split; [now destruct payload|]. split.
    + rewrite (touch_key_keys _ _ _ _ Et).
      destruct (decide (key ∈ (fst <$> st_state_keys s))) as [|Hn]; [done|].
      apply (touch_key_none key now) in Hn. congruence.
    + intros k Hk. now rewrite lookup_insert_ne.
  - intros [= <-]; cbn. rewrite lookup_insert_eq. split; [now destruct payload|]. split.
    + rewrite fmap_app. apply elem_of_app. right. cbn. now apply list_elem_of_singleton.
    + intros k Hk. now rewrite lookup_insert_ne.
Qed.

(** [find_get] hands out one waiting worker - the first entry of the key
    whose source is [ANY] or the sender of the message - and erases exactly that
    entry; without one it changes nothing. *)
Theorem find_get_takes_one key source p :
  (exists m rest, answers source m /\ equal_range key p ≡ₚ m :: rest /\
     (find_get key source p).1 = Some (pm_worker m) /\
     equal_range key (find_get key source p).2 = rest /\
     forall k, k <> key -> equal_range k (find_get key source p).2 = equal_range k p) \/
  (Forall (fun x => ~ answers source x) (equal_range key p) /\ find_get key source p = (None, p)).
Proof. apply find_get_spec. Qed.

(** [find_invocation] hands out every worker waiting under the key, once
    per entry, and erases the key - whatever the type of the entries: a worker
    that waits in a [get] for a message with the key of an invocation is woken
    up by the invocation's result, and its request is lost. *)
Theorem find_invocation_takes_all `{EqualRange} key p k source worker :
  (find_invocation key p).1 = pm_worker <$> equal_range key p /\
  equal_range key (find_invocation key p).2 = [] /\
  (forall k', k' <> key -> equal_range k' (find_invocation key p).2 = equal_range k' p) /\
  worker ∈ (find_invocation key (insert_get key source worker p)).1 /\
  (find_get key k (find_invocation key (insert_get key source worker p)).2).1 = None.
Proof.
  unfold find_invocation. cbn. rewrite equal_range_delete, decide_True by done.
  split_and!; auto.
  - intros k' Hk. rewrite equal_range_delete, decide_False by done. done.
  - unfold insert_get, emplace_pending. rewrite equal_range_insert, decide_True by done.
    rewrite range_insert_perm. cbn. now left.
  - unfold find_get. rewrite equal_range_delete, decide_True by done. done.
Qed.

(** a consumed state message leaves its key in [_state_keys]; the next state
    message under the key lists it twice *)
Example state_key_twice : forall b,
  (fst <$> state_keys (store_state "k" b 2 (try_get "k" "ANY" (store_state "k" b 1 MessageStore_empty).2).2).2)
  = ["k"; "k"].
Proof. reflexivity. Qed.

Definition sample_ops : list store_op :=
  [OPut "k" "p" (buffer_of_bytes [x01]); OPut "k" "q" (buffer_of_bytes [x02]); OGet "k" "q"; OGet "k" "ANY"].

