(* ===== verification/WorkQueue.v ===== *)
(** * WorkQueue: invocations and the workers that run them

    [process/controller/workers.hpp] and [workers.cpp]: the queue of pending
    invocations, the table of all of them, and the pool of workers.  The queue
    holds pointers into the table; a pointer is the key of its element, and
    following one whose element is gone is undefined.  The time stamps of an
    invocation only reach a log line and are left out. *)

From S2P Require Import Prelude Memory IpcMessages Buffers Channel Functions.

(** ** The channels of a worker, as the controller uses them *)
Class IpcChannel : Type := {
  ipc : Type;
  (** [send(msg, data)]; the other overloads send one buffer or none, see
      [send_accessor_buffers] and [send_msg_buffers] below *)
  ipc_send : mem -> list Buffer -> M ipc unit;
  ipc_receive : M ipc (bool * Buffer);
  ipc_message : ipc -> mem;
}.

(** What the controller relies on: a channel keeps an account of the messages
    it has taken over, and [send] appends to it. *)
Class IpcChannelLaws `(IpcChannel) : Type := {
  ipc_log : ipc -> list (mem * list byte);
  ipc_send_log msg data c c' : ipc_send msg data c = (Ret tt, c') ->
    ipc_log c' = ipc_log c ++
      [(set_ipc_total_length (Z.of_nat (total_len data)) msg, concat (buffer_data <$> data))];
}.
Arguments ipc_log {_ _} _.

(** a message queue with the account of its messages *)
#[export] Instance mq_ipc `{Allocator} `{PosixMQ} : IpcChannel | 20 := {|
  ipc := POSIXMQChannel * list (mem * list byte);
  ipc_send msg data '(c, log) :=
    match send_buffers msg data c with
    | (Ret m, c') => (Ret tt, (c', log ++ [(m, concat (buffer_data <$> data))]))
    | (Throw e, c') => (Throw e, (c', log))
    | (Undef, c') => (Undef, (c', log))
    end;
  ipc_receive '(c, log) := let '(r, c') := receive c in (r, (c', log));
  ipc_message '(c, _) := ch_msg c;
|}.

(** a channel that only keeps the account, and has its input scripted *)
Record LogChannel : Type := MkLog {
  lc_sent : list (mem * list byte);
  lc_input : list (mem * Buffer);
  lc_message : mem;
}.

#[export] Instance log_ipc : IpcChannel | 10 := {|
  ipc := LogChannel;
  ipc_send msg data c :=
    (Ret tt, {| lc_sent := lc_sent c ++
                  [(set_ipc_total_length (Z.of_nat (total_len data)) msg, concat (buffer_data <$> data))];
                lc_input := lc_input c; lc_message := lc_message c |});
  ipc_receive c :=
    match lc_input c with
    | [] => (Ret (false, buffer_null_value), c)
    | (m, b) :: rest => (Ret (true, b), {| lc_sent := lc_sent c; lc_input := rest; lc_message := m |})
    end;
  ipc_message := lc_message;
|}.

(** ** Where an invocation comes from *)
Inductive RemoteType : Type := DATA_PLANE | CONTROL_PLANE | PROCESS | LOCAL_FUNCTION.

Record InvocationSource : Type := MkSource { src_type : RemoteType; src_process : option string }.

Definition from_process (remote_process : string) : InvocationSource :=
  {| src_type := PROCESS; src_process := Some remote_process |}.
Definition from_local : InvocationSource := {| src_type := LOCAL_FUNCTION; src_process := None |}.
Definition from_dataplane : InvocationSource := {| src_type := DATA_PLANE; src_process := None |}.
Definition from_controlplane : InvocationSource := {| src_type := CONTROL_PLANE; src_process := None |}.
Definition from_source (source : RemoteType) : InvocationSource :=
  {| src_type := source; src_process := None |}.

Definition is_remote (s : InvocationSource) : bool :=
  match src_type s with DATA_PLANE | PROCESS | CONTROL_PLANE => true | LOCAL_FUNCTION => false end.
Definition is_local (s : InvocationSource) : bool := negb (is_remote s).

(** ** Invocations *)
Record Invocation : Type := MkInvocation {
  inv_req : IpcInvocationRequest;
  inv_payload : list Buffer;
  inv_trigger : Trigger;
  inv_active : bool;
  inv_source : InvocationSource;
}.

(** the constructor: the setters of the request validate the names *)
Definition Invocation_ctor (fname invocation_key : string) (trigger : Trigger) (source : InvocationSource)
    : outcome Invocation :=
  req ← set_ipc_function_name (sv_of_string fname) IpcInvocationRequest_ctor;
  req ← set_ipc_invocation_id (sv_of_string invocation_key) req;
  Ret {| inv_req := req; inv_payload := []; inv_trigger := trigger; inv_active := false;
         inv_source := source |}.

Definition set_inv_req (r : IpcInvocationRequest) (i : Invocation) : Invocation :=
  {| inv_req := r; inv_payload := inv_payload i; inv_trigger := inv_trigger i;
     inv_active := inv_active i; inv_source := inv_source i |}.
Definition push_payload (b : Buffer) (i : Invocation) : Invocation :=
  {| inv_req := inv_req i; inv_payload := inv_payload i ++ [b]; inv_trigger := inv_trigger i;
     inv_active := inv_active i; inv_source := inv_source i |}.
Definition activate (i : Invocation) : Invocation :=
  {| inv_req := inv_req i; inv_payload := inv_payload i; inv_trigger := inv_trigger i;
     inv_active := true; inv_source := inv_source i |}.

(** the lengths of the payload buffers go into the request *)
Definition confirm_payload (i : Invocation) : outcome Invocation :=
  req ← set_buffers ((fun b => wrap_i32 (Z.of_nat (buf_len b))) <$> inv_payload i) (inv_req i);
  Ret (set_inv_req req i).

(** [TriggerChecker::visit], called through [Trigger::accept] *)
Definition trigger_ready (t : Trigger) : bool := match t with DirectTrigger _ => true end.

(** ** WorkQueue *)
Record WorkQueue : Type := MkWorkQueue {
  wq_pending : list string;
  wq_active : gmap string Invocation;
  wq_functions : Functions;
}.

Definition set_wq_active (a : gmap string Invocation) (q : WorkQueue) : WorkQueue :=
  {| wq_pending := wq_pending q; wq_active := a; wq_functions := wq_functions q |}.

Definition WorkQueue_ctor (functions : Functions) : WorkQueue :=
  {| wq_pending := []; wq_active := ∅; wq_functions := functions |}.

Definition unknown_function_msg : string := "Ignoring invocation of an unknown function {}".
Definition insert_failed_msg : string := "Failed to insert a new invocation {} for function {}".

(** [add_payload]: an error message, or nothing.  [emplace] constructs the
    invocation before it looks at the key. *)
Definition add_payload (fname key : string) (buffer : Buffer) (source : InvocationSource)
    : M WorkQueue (option string) := fun q =>
  let fresh :=
    match get_trigger (wq_functions q) fname with
    | None => (Ret (Some unknown_function_msg), q)
    | Some trigger =>
        match Invocation_ctor fname key trigger source with
        | Throw e => (Throw e, q)
        | Undef => (Undef, q)
        | Ret inv =>
            match wq_active q !! key with
            | Some _ => (Ret (Some insert_failed_msg), q)
            | None =>
                (Ret None, {| wq_pending := wq_pending q ++ [key];
                              wq_active := <[key := push_payload (move_buffer buffer).1 inv]> (wq_active q);
                              wq_functions := wq_functions q |})
            end
        end
    end in
  match wq_active q !! key with
  | Some inv =>
      if inv_active inv then fresh
      else (Ret None, set_wq_active (<[key := push_payload (move_buffer buffer).1 inv]> (wq_active q)) q)
  | None => fresh
  end.

(** the first pending invocation whose trigger is ready, and the others *)
Fixpoint first_ready (active : gmap string Invocation) (l : list string) : outcome (option (string * list string)) :=
  match l with
  | [] => Ret None
  | key :: l' =>
      match active !! key with
      | None => Undef
      | Some inv =>
          if trigger_ready (inv_trigger inv) then Ret (Some (key, l'))
          else r ← first_ready active l';
               Ret (match r with Some (k, rest) => Some (k, key :: rest) | None => None end)
      end
  end.

(** [next]: a pointer to the invocation, or [nullptr] *)
Definition next : M WorkQueue (option string) := fun q =>
  match first_ready (wq_active q) (wq_pending q) with
  | Ret None => (Ret None, q)
  | Ret (Some (key, rest)) =>
      (Ret (Some key), {| wq_pending := rest; wq_active := wq_active q; wq_functions := wq_functions q |})
  | Throw e => (Throw e, q)
  | Undef => (Undef, q)
  end.

(** [finish] *)
Definition finish (key : string) (q : WorkQueue) : option Invocation * WorkQueue :=
  match wq_active q !! key with
  | None => (None, q)
  | Some inv =>
      if inv_active inv then (Some inv, set_wq_active (delete key (wq_active q)) q)
      else (None, q)
  end.

Definition wq_empty (q : WorkQueue) : bool := match wq_pending q with [] => true | _ => false end.

(** ** Workers *)
Section workers.
Context `{IpcChannel}.

Record FunctionWorker : Type := MkWorker {
  fw_ipc_read : ipc;
  fw_ipc_write : ipc;
  fw_pid : Z;
  fw_busy : bool;
}.

Definition set_busy (b : bool) (w : FunctionWorker) : FunctionWorker :=
  {| fw_ipc_read := fw_ipc_read w; fw_ipc_write := fw_ipc_write w; fw_pid := fw_pid w; fw_busy := b |}.
Definition set_ipc_write (c : ipc) (w : FunctionWorker) : FunctionWorker :=
  {| fw_ipc_read := fw_ipc_read w; fw_ipc_write := c; fw_pid := fw_pid w; fw_busy := fw_busy w |}.
Definition set_ipc_read (c : ipc) (w : FunctionWorker) : FunctionWorker :=
  {| fw_ipc_read := c; fw_ipc_write := fw_ipc_write w; fw_pid := fw_pid w; fw_busy := fw_busy w |}.

Record Workers : Type := MkWorkers {
  ws_workers : list FunctionWorker;
  ws_worker_counter : Z;
  ws_idle_workers : Z;
}.

Definition set_ws_workers (l : list FunctionWorker) (ws : Workers) : Workers :=
  {| ws_workers := l; ws_worker_counter := ws_worker_counter ws; ws_idle_workers := ws_idle_workers ws |}.

(** The constructor: the number of workers of the configuration, started with
    [launch], which forks and executes an invoker.  [None]: the language is not
    set and [assert_other] ends the process. *)
Definition Workers_ctor (launch : Z -> FunctionWorker) (language : Language) (function_workers : Z)
    : option Workers :=
  match language with
  | NONE => None
  | _ => Some {| ws_workers := (fun i => launch (Z.of_nat i)) <$> seq 0 (Z.to_nat function_workers);
                ws_worker_counter := Z.max 0 function_workers;
                ws_idle_workers := function_workers |}
  end.

Definition has_idle_workers (ws : Workers) : bool := (0 <? ws_idle_workers ws)%Z.

(** the index of the first worker that is not busy *)
Definition first_idle (l : list FunctionWorker) : option nat :=
  fst <$> list_find (fun w => fw_busy w = false) l.

Definition get_idle_worker (ws : Workers) : option nat :=
  if (ws_idle_workers ws =? 0)%Z then None else first_idle (ws_workers ws).

(** [worker.ipc_write().send(...)] on the worker with index [w] *)
Definition worker_send (w : nat) (msg : mem) (data : list Buffer) : M Workers unit := fun ws =>
  match ws_workers ws !! w with
  | None => (Undef, ws)
  | Some worker =>
      let '(r, c) := ipc_send msg data (fw_ipc_write worker) in
      (r, set_ws_workers (<[w := set_ipc_write c worker]> (ws_workers ws)) ws)
  end.

(** [submit(invocation)]; the invocation is changed in place *)
Definition submit : M (Workers * Invocation) unit := fun '(ws, inv) =>
  if has_idle_workers ws then
    let worker := get_idle_worker ws in
    match confirm_payload inv with
    | Throw e => (Throw e, (ws, inv))
    | Undef => (Undef, (ws, inv))
    | Ret inv =>
        match worker with
        | None => (Undef, (ws, inv))
        | Some w =>
            match worker_send w (iir_msg (inv_req inv)) (inv_payload inv) ws with
            | (Throw e, ws) => (Throw e, (ws, inv))
            | (Undef, ws) => (Undef, (ws, inv))
            | (Ret _, ws) =>
                (Ret tt, ({| ws_workers := alter (set_busy true) w (ws_workers ws);
                             ws_worker_counter := ws_worker_counter ws;
                             ws_idle_workers := (ws_idle_workers ws - 1)%Z |}, activate inv))
            end
        end
    end
  else (Throw (PraaSException "No idle workers!"), (ws, inv)).

(** [Workers::finish] *)
Definition workers_finish (w : nat) (ws : Workers) : Workers :=
  {| ws_workers := alter (set_busy false) w (ws_workers ws);
     ws_worker_counter := ws_worker_counter ws;
     ws_idle_workers := (ws_idle_workers ws + 1)%Z |}.

(** ** Invariants *)

(** the number of workers that are not busy *)
Definition idle_count (l : list FunctionWorker) : nat := length (filter (fun w => fw_busy w = false) l).

Definition workers_ok (ws : Workers) : Prop :=
  ws_idle_workers ws = Z.of_nat (idle_count (ws_workers ws)).
End workers.

(** The invocation stored under a key carries that key. *)
Definition carries_key (key : string) (inv : Invocation) : Prop :=
  sv_str (ipc_invocation_id (inv_req inv)) = key /\ iir_id_len (inv_req inv) <= IPC_ID_LENGTH /\
  length (iir_msg (inv_req inv)) = IPC_BUF_SIZE.

(** No pending pointer dangles or is duplicated; what it points to has not been
    started; and [forgotten] lists the invocations neither pending nor started. *)
Definition wq_inv (forgotten : list string) (q : WorkQueue) : Prop :=
  NoDup (forgotten ++ wq_pending q) /\
  (forall key, key ∈ forgotten ++ wq_pending q <->
    exists inv, wq_active q !! key = Some inv /\ inv_active inv = false) /\
  (forall key inv, wq_active q !! key = Some inv -> carries_key key inv).

(** [fname] and [key] are names an invocation request can hold *)
Definition names_fit (fname key : string) : Prop :=
  ipc_fits IPC_NAME_LENGTH fname /\ ipc_fits IPC_ID_LENGTH key.

(** ** Invocations and their requests *)

Lemma Invocation_ctor_ok fname key trigger source :
  names_fit fname key ->
  exists inv, Invocation_ctor fname key trigger source = Ret inv /\ carries_key key inv /\
    sv_str (ipc_function_name (inv_req inv)) = fname /\ inv_payload inv = [] /\
    inv_trigger inv = trigger /\ inv_active inv = false /\ inv_source inv = source.
Proof.
  intros [Hf%ipc_cview_fits Hk%ipc_cview_fits].
  unfold Invocation_ctor, set_ipc_function_name, set_ipc_invocation_id. ipc_build.
  eexists. split; [reflexivity|]. unfold carries_key, ipc_invocation_id, ipc_function_name. cbn.
  split_and!; auto.
  - rewrite sv_str_after_set; [apply sv_str_of_string|done|]. ipc_len.
  - exact (proj1 Hk).
  - ipc_len.
  - transitivity (sv_str (sv_at (IPC_HEADER_OFFSET + IPC_ID_LENGTH) (sv_len (sv_of_string fname))
      (write_at (IPC_HEADER_OFFSET + IPC_ID_LENGTH) (pad IPC_NAME_LENGTH (sv_of_string fname))
        (IpcMessage_ctor IPC_INVOCATION_REQUEST)))).
    2:{ rewrite sv_str_after_set; [apply sv_str_of_string|done|]. ipc_len. }
    unfold sv_str, sv_at. cbn [sv_len sv_mem]. f_equal.
    assert (String.length fname <= IPC_NAME_LENGTH) as Hl by exact (proj1 Hf).
    change (sv_len (sv_of_string fname)) with (String.length fname).
    assert (forall off n m, take n (drop off m) = bytes_at off n m) as Hb by done. rewrite !Hb.
    apply bytes_at_write_at_disj; unfold IPC_NAME_LENGTH in Hl; ipc_len.
Qed.

Lemma confirm_payload_ok key inv :
  carries_key key inv -> length (inv_payload inv) <= 13 ->
  exists inv', confirm_payload inv = Ret inv' /\ carries_key key inv' /\
    inv_payload inv' = inv_payload inv /\ inv_source inv' = inv_source inv /\
    inv_active inv' = inv_active inv /\ inv_trigger inv' = inv_trigger inv /\
    buffers (inv_req inv') = Z.of_nat (length (inv_payload inv)).
Proof.
  intros (Hk&Hi&Hl) Hn. unfold confirm_payload.
  set (lens := (fun b => wrap_i32 (Z.of_nat (buf_len b))) <$> inv_payload inv).
  destruct (set_buffers_ok lens (inv_req inv) Hl) as (d&->&Hd&Hfr&Hc&_).
  { unfold lens. rewrite length_fmap. exact Hn. }
  cbn. eexists. split; [reflexivity|]. cbn. split_and!; auto.
  - unfold carries_key, set_inv_req; cbn. split_and!; [|done|done]. rewrite <-Hk.
    unfold ipc_invocation_id, sv_str, sv_at; cbn. f_equal.
    assert (forall off n m, take n (drop off m) = bytes_at off n m) as Hb by done.
    rewrite !Hb. rewrite Hfr; [done|]. unfold IPC_ID_LENGTH in Hi. unfold_ipc_layout. lia.
  - unfold buffers, read_i32; cbn. rewrite Hc. unfold lens. rewrite length_fmap.
    apply ipc_signed_le_bytes. unfold i32_range. lia.
Qed.

(** ** The queue *)

Lemma first_ready_head active key l inv :
  active !! key = Some inv -> first_ready active (key :: l) = Ret (Some (key, l)).
Proof. intros H. cbn. rewrite H. destruct (inv_trigger inv). done. Qed.

Lemma carries_push key b inv : carries_key key inv -> carries_key key (push_payload b inv).
Proof. done. Qed.

Lemma carries_activate key inv : carries_key key inv -> carries_key key (activate inv).
Proof. done. Qed.

(** every branch of [add_payload] *)
Lemma add_payload_cases fname key b source q :
  names_fit fname key ->
  match wq_active q !! key with
  | Some inv =>
      if inv_active inv then
        exists msg, add_payload fname key b source q = (Ret (Some msg), q)
      else add_payload fname key b source q =
        (Ret None, set_wq_active (<[key := push_payload b inv]> (wq_active q)) q)
  | None =>
      match get_trigger (wq_functions q) fname with
      | None => exists msg, add_payload fname key b source q = (Ret (Some msg), q)
      | Some t => exists inv, add_payload fname key b source q =
          (Ret None, {| wq_pending := wq_pending q ++ [key];
                        wq_active := <[key := inv]> (wq_active q); wq_functions := wq_functions q |}) /\
          carries_key key inv /\ sv_str (ipc_function_name (inv_req inv)) = fname /\
          inv_payload inv = [b] /\ inv_trigger inv = t /\ inv_active inv = false /\ inv_source inv = source
      end
  end.
Proof.
  intros Hn. unfold add_payload. rewrite move_buffer_fst.
  destruct (wq_active q !! key) as [inv|] eqn:E.
  - destruct (inv_active inv) eqn:Ea; [|done].
    destruct (get_trigger (wq_functions q) fname) as [t|]; [|eauto].
    destruct (Invocation_ctor_ok fname key t source Hn) as (i&->&_). eauto.
  - destruct (get_trigger (wq_functions q) fname) as [t|]; [|eauto].
    destruct (Invocation_ctor_ok fname key t source Hn) as (i&->&Hk&Hf&Hp&Ht&Ha&Hs).
    eexists. split; [reflexivity|]. cbn. rewrite Hp. auto 10.
Qed.

Lemma wq_inv_update forgotten q key inv inv' :
  wq_inv forgotten q -> wq_active q !! key = Some inv -> inv_active inv' = inv_active inv ->
  carries_key key inv' -> wq_inv forgotten (set_wq_active (<[key := inv']> (wq_active q)) q).
Proof.
  intros (Hnd&Hp&Hc) He Ha Hk. split_and!; [done| |].
  - intros k. cbn. rewrite Hp. destruct (decide (k = key)) as [->|Hne].
    + rewrite lookup_insert_eq, He. split; intros (i&[= <-]&Hi); eexists; split; eauto; congruence.
    + now rewrite lookup_insert_ne.
  - intros k i. cbn. destruct (decide (k = key)) as [->|Hne].
    + rewrite lookup_insert_eq. intros [= <-]. done.
    + rewrite lookup_insert_ne by done. apply Hc.
Qed.

Lemma add_payload_inv forgotten fname key b source q r q' :
  names_fit fname key -> wq_inv forgotten q -> add_payload fname key b source q = (r, q') ->
  wq_inv forgotten q' /\ is_ret r = true.
Proof.
  intros Hn Hq. pose proof (add_payload_cases fname key b source q Hn) as H.
  destruct (wq_active q !! key) as [inv|] eqn:E.
  - destruct (inv_active inv) eqn:Ea.
    + destruct H as [msg ->]. intros [= <- <-]. auto.
    + rewrite H. intros [= <- <-]. split; [|done].
      eapply wq_inv_update; eauto. apply carries_push. destruct Hq as (_&_&Hc). eauto.
  - destruct (get_trigger (wq_functions q) fname) as [t|].
    2:{ destruct H as [msg ->]. intros [= <- <-]. auto. }
    destruct H as (i&->&Hk&_&_&_&Ha&_). intros [= <- <-]. split; [|done].
    destruct Hq as (Hnd&Hp&Hc). unfold wq_inv; cbn. rewrite app_assoc. split_and!.
    + apply list.NoDup_app. split_and!; [done| |apply NoDup_singleton].
      intros x Hx Hxk. apply list_elem_of_singleton in Hxk as ->.
      apply Hp in Hx as (inv&Hinv&_). congruence.
    + intros k. rewrite elem_of_app, Hp, list_elem_of_singleton.
      destruct (decide (k = key)) as [->|Hne].
      * rewrite lookup_insert_eq. split; eauto.
      * rewrite lookup_insert_ne by done. naive_solver.
    + intros k inv. destruct (decide (k = key)) as [->|Hne].
      * rewrite lookup_insert_eq. intros [= <-]. done.
      * rewrite lookup_insert_ne by done. apply Hc.
Qed.

Lemma next_spec forgotten q :
  wq_inv forgotten q ->
  match wq_pending q with
  | [] => next q = (Ret None, q)
  | key :: rest => next q = (Ret (Some key), {| wq_pending := rest; wq_active := wq_active q;
                                                wq_functions := wq_functions q |})
  end.
Proof.
  intros (_&Hp&_). unfold next. destruct (wq_pending q) as [|key rest] eqn:E; [done|].
  destruct (proj1 (Hp key)) as (inv&Hinv&_).
  { apply elem_of_app. right. now left. }
  now rewrite (first_ready_head _ key rest inv).
Qed.

Lemma wq_inv_next forgotten key rest q :
  wq_inv forgotten q -> wq_pending q = key :: rest ->
  wq_inv (forgotten ++ [key]) {| wq_pending := rest; wq_active := wq_active q;
                                 wq_functions := wq_functions q |}.
Proof.
  intros (Hnd&Hp&Hc) He. rewrite He in *. unfold wq_inv; cbn.
  rewrite <-app_assoc. cbn. auto.
Qed.

(** the invocation taken last is started *)
Lemma wq_inv_activate forgotten key q inv :
  wq_inv (forgotten ++ [key]) q -> carries_key key inv -> inv_active inv = true ->
  wq_inv forgotten (set_wq_active (<[key := inv]> (wq_active q)) q).
Proof.
  intros (Hnd&Hp&Hc) Hk Ha. unfold wq_inv; cbn. rewrite <-app_assoc in Hnd. cbn in Hnd.
  assert (NoDup (key :: forgotten ++ wq_pending q)) as [Hkn Hnd']%list.NoDup_cons.
  { eapply NoDup_Permutation_proper; [|exact Hnd]. apply Permutation_middle. }
  split_and!; [done| |].
  - intros k. destruct (decide (k = key)) as [->|Hne].
    + rewrite lookup_insert_eq. split; [done|]. intros (i&[= <-]&Hi). congruence.
    + rewrite lookup_insert_ne by done. rewrite <-Hp, !elem_of_app, list_elem_of_singleton. naive_solver.
  - intros k i. destruct (decide (k = key)) as [->|Hne].
    + rewrite lookup_insert_eq. intros [= <-]. done.
    + rewrite lookup_insert_ne by done. apply Hc.
Qed.

Lemma finish_spec forgotten key q :
  wq_inv forgotten q ->
  (exists inv, wq_active q !! key = Some inv /\ inv_active inv = true /\
     finish key q = (Some inv, set_wq_active (delete key (wq_active q)) q) /\
     wq_inv forgotten (finish key q).2) \/
  ((forall inv, wq_active q !! key = Some inv -> inv_active inv = false) /\ finish key q = (None, q)).
Proof.
  intros (Hnd&Hp&Hc). unfold finish. destruct (wq_active q !! key) as [inv|] eqn:E; [|by right].
  destruct (inv_active inv) eqn:Ea; [left|right; naive_solver].
  exists inv. split_and!; auto. unfold wq_inv; cbn. split_and!; auto.
  - intros k. rewrite Hp. destruct (decide (k = key)) as [->|Hne].
    + rewrite lookup_delete_eq. split; [|naive_solver]. intros (i&Hi&Hia). congruence.
    + now rewrite lookup_delete_ne.
  - intros k i. destruct (decide (k = key)) as [->|Hne]; [now rewrite lookup_delete_eq|].
    rewrite lookup_delete_ne by done. apply Hc.
Qed.

(** An invocation is identified by its key.  A payload for a key that waits
    in the queue joins that invocation; one for a key that runs, and one for
    an unknown function, is answered with an error and changes nothing; any other starts an
    invocation of that function, from that source, at the end of the queue. *)
Theorem add_payload_behaviour fname key b source q :
  names_fit fname key ->
  match wq_active q !! key with
  | Some inv =>
      if inv_active inv then
        exists msg, add_payload fname key b source q = (Ret (Some msg), q)
      else add_payload fname key b source q =
        (Ret None, set_wq_active (<[key := push_payload b inv]> (wq_active q)) q)
  | None =>
      match get_trigger (wq_functions q) fname with
      | None => exists msg, add_payload fname key b source q = (Ret (Some msg), q)
      | Some t => exists inv, add_payload fname key b source q =
          (Ret None, {| wq_pending := wq_pending q ++ [key];
                        wq_active := <[key := inv]> (wq_active q); wq_functions := wq_functions q |}) /\
          carries_key key inv /\ sv_str (ipc_function_name (inv_req inv)) = fname /\
          inv_payload inv = [b] /\ inv_trigger inv = t /\ inv_active inv = false /\ inv_source inv = source
      end
  end.
Proof. apply add_payload_cases. Qed.

(** The operations of the queue; [WStart] is [next] followed by the start of
    the invocation it returns, as the scheduling loop does. *)
Inductive wq_op : Type :=
  | WAdd (fname key : string) (b : Buffer) (source : InvocationSource)
  | WStart
  | WFinish (key : string).

Definition wq_run (o : wq_op) (q : WorkQueue) : outcome (option string) * WorkQueue :=
  match o with
  | WAdd fname key b source => let '(r, q') := add_payload fname key b source q in
                               (fmap (fun _ => None) r, q')
  | WStart =>
      match next q with
      | (Ret (Some key), q') =>
          match wq_active q' !! key with
          | Some inv => (Ret (Some key), set_wq_active (<[key := activate inv]> (wq_active q')) q')
          | None => (Undef, q')
          end
      | (r, q') => (r, q')
      end
  | WFinish key => let '(_, q') := finish key q in (Ret None, q')
  end.

Definition wq_op_fits (o : wq_op) : Prop :=
  match o with WAdd fname key _ _ => names_fit fname key | _ => True end.

(** C23: the pointers of the queue stay valid: after any sequence of additions,
    starts and completions every pending entry points to an invocation of the
    table that has not been started, there are no duplicates, and every
    invocation of the table that has not been started is pending - none is
    forgotten; and no operation has undefined behaviour. *)
Theorem work_queue_invariant os : forall q,
  wq_inv [] q -> Forall wq_op_fits os ->
  wq_inv [] (fold_left (fun q o => (wq_run o q).2) os q) /\
  forall o, wq_op_fits o ->
    is_ret (wq_run o (fold_left (fun q o => (wq_run o q).2) os q)).1 = true.
Proof.
  assert (forall o q, wq_inv [] q -> wq_op_fits o ->
    wq_inv [] (wq_run o q).2 /\ is_ret (wq_run o q).1 = true) as Hstep.
  { intros [fname key b source| |key] q Hq Hf; cbn.
    - destruct (add_payload fname key b source q) as [r q'] eqn:E.
      apply (add_payload_inv []) in E as [H1 H2]; [|done|done]. cbn. split; [done|].
      destruct r; done.
    - pose proof (next_spec [] q Hq) as Hn. destruct (wq_pending q) as [|key rest] eqn:Ep; rewrite Hn; [done|].
      cbn [wq_active].
      pose proof (wq_inv_next [] key rest q Hq Ep) as Hq'. cbn in Hq'.
      destruct (proj1 (proj1 (proj2 Hq') key)) as (inv&Hinv&Ha); [cbn; now left|]. cbn in Hinv.
      rewrite Hinv. cbn. split; [|done]. apply (wq_inv_activate [] key _ (activate inv) Hq'); [|done].
      apply carries_activate. destruct Hq as (_&_&Hc). eauto.
    - destruct (finish_spec [] key q Hq) as [(inv&_&_&Hfin&Hi)|[_ Hfin]]; rewrite Hfin in *; done. }
  induction os as [|o os IH]; intros q Hq Hfs; cbn.
  - split; [done|]. intros o Ho. now apply Hstep.
  - apply List.Forall_cons_iff in Hfs as [Ho Hos]. apply IH; [|done]. now apply Hstep.
Qed.

(** Scheduling is first-in first-out: with direct triggers [next] always
    returns the invocation that has waited longest, and returns nothing only
    when nothing waits. *)
Theorem next_is_fifo forgotten q :
  wq_inv forgotten q ->
  match wq_pending q with
  | [] => next q = (Ret None, q)
  | key :: rest => next q = (Ret (Some key), {| wq_pending := rest; wq_active := wq_active q;
                                                wq_functions := wq_functions q |})
  end.
Proof. apply next_spec. Qed.

Lemma wq_inv_empty fs : wq_inv [] (WorkQueue_ctor fs).
Proof.
  unfold wq_inv; cbn. split_and!.
  - constructor.
  - intros key. rewrite lookup_empty. split; [intros H; inversion H|]. intros (?&?&?). done.
  - intros key inv. now rewrite lookup_empty.
Qed.

(** ** The pool of workers *)
#[local] Arguments idle_count : simpl never.

Section worker_lemmas.
Context `{IpcChannelLaws}.

Lemma idle_count_alter_busy l w worker :
  l !! w = Some worker -> fw_busy worker = false ->
  idle_count l = S (idle_count (alter (set_busy true) w l)).
Proof.
  unfold idle_count. revert w. induction l as [|x l IH]; intros [|w] Hw Hb; cbn in Hw; simplify_eq.
  - change (alter (set_busy true) 0 (worker :: l)) with (set_busy true worker :: l).
    rewrite !filter_cons, decide_True, decide_False by done. done.
  - change (alter (set_busy true) (S w) (x :: l)) with (x :: alter (set_busy true) w l).
    rewrite !filter_cons. specialize (IH w Hw Hb). case_decide; cbn [length]; lia.
Qed.

Lemma idle_count_alter_idle l w worker :
  l !! w = Some worker ->
  idle_count (alter (set_busy false) w l) = (if fw_busy worker then 1 else 0) + idle_count l.
Proof.
  unfold idle_count. revert w. induction l as [|x l IH]; intros [|w] Hw; cbn in Hw; simplify_eq.
  - change (alter (set_busy false) 0 (worker :: l)) with (set_busy false worker :: l).
    rewrite !filter_cons, decide_True by done.
    destruct (fw_busy worker); [rewrite decide_False by done|rewrite decide_True by done]; cbn [length]; lia.
  - change (alter (set_busy false) (S w) (x :: l)) with (x :: alter (set_busy false) w l).
    rewrite !filter_cons. specialize (IH w Hw). case_decide; cbn [length]; lia.
Qed.

Lemma idle_count_insert l w worker worker' :
  l !! w = Some worker -> fw_busy worker' = fw_busy worker -> idle_count (<[w := worker']> l) = idle_count l.
Proof.
  unfold idle_count. revert w. induction l as [|x l IH]; intros [|w] Hw Hb; cbn in Hw; simplify_eq.
  - change (<[0 := worker']> (worker :: l)) with (worker' :: l).
    rewrite !filter_cons, Hb. case_decide; done.
  - change (<[S w := worker']> (x :: l)) with (x :: <[w := worker']> l).
    rewrite !filter_cons. specialize (IH w Hw Hb). case_decide; cbn [length]; lia.
Qed.

Lemma first_idle_some l w :
  first_idle l = Some w -> exists worker, l !! w = Some worker /\ fw_busy worker = false /\
    forall w' x, l !! w' = Some x -> fw_busy x = false -> w <= w'.
Proof.
  unfold first_idle. intros Hw. apply fmap_Some in Hw as ([i x]&Hf&->).
  apply list_find_Some in Hf as (Hi&Hb&Hmin). exists x. split_and!; auto.
  intros w' y Hy Hyb. destruct (decide (w' < i)); [|cbn; lia]. destruct (Hmin w' y Hy); [lia|done].
Qed.

Lemma first_idle_none l : first_idle l = None <-> idle_count l = 0.
Proof.
  unfold first_idle, idle_count. rewrite fmap_None, list_find_None.
  induction l as [|x l IH]; [done|]. rewrite filter_cons, List.Forall_cons_iff, IH.
  case_decide; cbn; naive_solver lia.
Qed.

Lemma get_idle_worker_spec ws :
  workers_ok ws ->
  if has_idle_workers ws
  then exists w worker, get_idle_worker ws = Some w /\ ws_workers ws !! w = Some worker /\ fw_busy worker = false
  else get_idle_worker ws = None.
Proof.
  unfold workers_ok, has_idle_workers, get_idle_worker. intros Hok.
  destruct (Z.ltb_spec 0 (ws_idle_workers ws)).
  - rewrite (proj2 (Z.eqb_neq _ _)) by lia. destruct (first_idle (ws_workers ws)) as [w|] eqn:E.
    + apply first_idle_some in E as (worker&?&?&_). eauto.
    + apply first_idle_none in E. lia.
  - destruct (Z.eqb_spec (ws_idle_workers ws) 0); [done|]. lia.
Qed.

(** the state after a submission to worker [w] whose send left the channel [c] *)
Definition submitted (w : nat) (c : ipc) (ws : Workers) : Workers :=
  {| ws_workers := alter (set_busy true) w (alter (set_ipc_write c) w (ws_workers ws));
     ws_worker_counter := ws_worker_counter ws; ws_idle_workers := (ws_idle_workers ws - 1)%Z |}.

Lemma worker_send_spec w msg data ws worker r ws' :
  ws_workers ws !! w = Some worker -> worker_send w msg data ws = (r, ws') ->
  exists c, ipc_send msg data (fw_ipc_write worker) = (r, c) /\
    ws' = set_ws_workers (<[w := set_ipc_write c worker]> (ws_workers ws)) ws.
Proof.
  intros Hw. unfold worker_send. rewrite Hw.
  destruct (ipc_send msg data (fw_ipc_write worker)) as [r0 c] eqn:E. intros [= <- <-]. eauto.
Qed.

Lemma worker_send_ok w msg data ws r ws' :
  workers_ok ws -> worker_send w msg data ws = (r, ws') -> workers_ok ws'.
Proof.
  intros Hok. destruct (ws_workers ws !! w) as [worker|] eqn:Hw.
  - intros (c&_&->)%(worker_send_spec _ _ _ _ worker); [|done].
    unfold workers_ok in *. cbn. rewrite (idle_count_insert _ _ worker) by done. done.
  - unfold worker_send. rewrite Hw. intros [= <- <-]. done.
Qed.

Lemma workers_finish_ok w ws worker :
  workers_ok ws -> ws_workers ws !! w = Some worker -> fw_busy worker = true ->
  workers_ok (workers_finish w ws).
Proof.
  unfold workers_ok. intros Hok Hw Hb. cbn. rewrite (idle_count_alter_idle _ _ worker Hw), Hb. lia.
Qed.

Lemma submit_spec ws inv key r ws' inv' :
  workers_ok ws -> has_idle_workers ws = true -> carries_key key inv -> length (inv_payload inv) <= 13 ->
  submit (ws, inv) = (r, (ws', inv')) ->
  exists w worker req, get_idle_worker ws = Some w /\ ws_workers ws !! w = Some worker /\ fw_busy worker = false /\
    confirm_payload inv = Ret (set_inv_req req inv) /\ carries_key key (set_inv_req req inv) /\
    exists rs c, ipc_send (iir_msg req) (inv_payload inv) (fw_ipc_write worker) = (rs, c) /\
      carries_key key inv' /\
      match rs with
      | Ret _ => r = Ret tt /\ workers_ok ws' /\ inv' = activate (set_inv_req req inv) /\
          ws_workers ws' = <[w := set_busy true (set_ipc_write c worker)]> (ws_workers ws) /\
          ws_idle_workers ws' = (ws_idle_workers ws - 1)%Z
      | Throw e => r = Throw e
      | Undef => r = Undef
      end.
Proof.
  intros Hok Hidle Hk Hp. pose proof (get_idle_worker_spec ws Hok) as Hg. rewrite Hidle in Hg.
  destruct Hg as (w&worker&Hw&Hl&Hb). unfold submit. rewrite Hidle, Hw.
  destruct (confirm_payload_ok key inv Hk Hp) as (inv1&Hc&Hk1&Hp1&_). rewrite Hc.
  unfold confirm_payload in Hc. apply bind_ret_inv in Hc as (req&Hreq&[= <-]).
  cbn [inv_req set_inv_req inv_payload].
  destruct (worker_send w (iir_msg req) (inv_payload inv) ws) as [rs ws1] eqn:Es.
  pose proof (worker_send_ok _ _ _ _ _ _ Hok Es) as Hok1.
  apply (worker_send_spec _ _ _ _ worker) in Es as (c&Hs&->); [|done].
  intros Hr. exists w, worker, req. do 5 (split; [auto|]).
  exists rs, c. split; [done|].
  destruct rs; simplify_eq; (split; [done|]); try done.
  split_and!; auto.
  - unfold workers_ok in *. cbn in *.
    rewrite (idle_count_alter_busy _ w (set_ipc_write c worker)) in Hok1; [lia| |done].
    apply list_lookup_insert_eq. eapply lookup_lt_Some; eauto.
  - cbn. apply list_eq. intros i. destruct (decide (i = w)) as [->|Hne].
    + pose proof (lookup_lt_Some _ _ _ Hl). rewrite list_lookup_alter_eq, !list_lookup_insert_eq by done. done.
    + rewrite list_lookup_alter_ne, !list_lookup_insert_ne by done. done.
Qed.

(** [submit] hands the invocation to a worker that is not busy: if the
    channel takes the message, the account of that worker - and of no other -
    gets the request, with the number of payload buffers in it, followed by the payloads, the worker
    is busy, one worker fewer is idle and the invocation is active. *)
Theorem submit_reaches_idle_worker ws inv key ws' inv' :
  workers_ok ws -> has_idle_workers ws = true -> carries_key key inv -> length (inv_payload inv) <= 13 ->
  submit (ws, inv) = (Ret tt, (ws', inv')) ->
  exists w worker worker' m,
    ws_workers ws !! w = Some worker /\ fw_busy worker = false /\
    ws_workers ws' = <[w := worker']> (ws_workers ws) /\ fw_busy worker' = true /\
    ipc_log (fw_ipc_write worker') =
      ipc_log (fw_ipc_write worker) ++ [(m, concat (buffer_data <$> inv_payload inv))] /\
    m = set_ipc_total_length (Z.of_nat (total_len (inv_payload inv))) (iir_msg (inv_req inv')) /\
    buffers (inv_req inv') = Z.of_nat (length (inv_payload inv)) /\
    carries_key key inv' /\ inv_active inv' = true /\
    workers_ok ws' /\ ws_idle_workers ws' = (ws_idle_workers ws - 1)%Z.
Proof.
  intros Hok Hidle Hk Hp Hs.
  destruct (submit_spec _ _ _ _ _ _ Hok Hidle Hk Hp Hs)
    as (w&worker&req&Hg&Hl&Hb&Hc&Hk1&rs&c&Hsend&Hk'&Hr).
  destruct rs as [[]| |]; [|done|done]. destruct Hr as (_&Hok'&->&Hws&Hn).
  apply ipc_send_log in Hsend.
  destruct (confirm_payload_ok key inv Hk Hp) as (inv1&Hc1&_&_&_&_&_&Hbuf).
  rewrite Hc in Hc1. injection Hc1 as <-.
  eexists w, worker, _, _. split_and!; [done|done|exact Hws|done|exact Hsend|done|done|done|done|done|done].
Qed.

(** the counter of idle workers is exact as long as [finish] is called for
    busy workers.  Called for a worker that is not busy - which the controller
    does when a worker sends a second result - the counter is one too high, and
    once no worker is left [submit] still goes ahead, without a worker: a null
    pointer is dereferenced. *)
Theorem idle_counter_exact ws w worker :
  workers_ok ws -> ws_workers ws !! w = Some worker ->
  (fw_busy worker = true -> workers_ok (workers_finish w ws)) /\
  (fw_busy worker = false ->
     ws_idle_workers (workers_finish w ws) = (Z.of_nat (idle_count (ws_workers (workers_finish w ws))) + 1)%Z) /\
  (forall ws0 key inv, idle_count (ws_workers ws0) = 0 -> (0 < ws_idle_workers ws0)%Z ->
     carries_key key inv -> length (inv_payload inv) <= 13 -> (submit (ws0, inv)).1 = Undef).
Proof.
  intros Hok Hw. split_and!.
  - intros Hb. eapply workers_finish_ok; eauto.
  - intros Hb. cbn. rewrite (idle_count_alter_idle _ _ worker Hw), Hb. unfold workers_ok in Hok. lia.
  - intros ws0 key inv Hz Hpos Hk Hp. unfold submit, has_idle_workers, get_idle_worker.
    rewrite (proj2 (Z.ltb_lt _ _)) by done. rewrite (proj2 (Z.eqb_neq _ _)) by lia.
    destruct (confirm_payload_ok key inv Hk Hp) as (inv1&->&_).
    rewrite (proj2 (first_idle_none _)) by done. done.
Qed.
End worker_lemmas.

Lemma send_buffers_message `{PosixMQ} msg data c m c' :
  send_buffers msg data c = (Ret m, c') ->
  m = set_ipc_total_length (Z.of_nat (total_len data)) msg.
Proof.
  unfold send_buffers. unfold mbind, M_bind.
  destruct (chan_send _ _ c) as [[[]| |] c2]; [|done|done].
  destruct (for_each _ data c2) as [[[]| |] c3]; [|done|done].
  unfold mret, M_ret. intros Heq. congruence.
Qed.

#[export] Program Instance mq_ipc_laws `{Allocator} `{PosixMQ} : IpcChannelLaws mq_ipc | 20 := {|
  ipc_log := snd |}.
Next Obligation.
  intros Al H msg data [c log] [c' log']. unfold ipc_send, mq_ipc.
  destruct (send_buffers msg data c) as [[m| |] c1] eqn:E; [|done|done].
  apply send_buffers_message in E. intros Heq. injection Heq as <- <-. cbn [snd]. now rewrite E.
Qed.

#[export] Program Instance log_ipc_laws : IpcChannelLaws log_ipc | 10 := {| ipc_log := lc_sent |}.
Next Obligation. cbn. intros msg data c c' [= <-]. done. Qed.

(** the overloads of [send] with one buffer and with none are [send] of a list *)
Lemma send_accessor_buffers `{PosixMQ} msg a c :
  send_accessor msg a c = send_buffers msg [buffer_of_accessor a] c.
Proof.
  unfold send_accessor, send_buffers. cbn [total_len foldr for_each buffer_of_accessor buf_len buf_ptr].
  rewrite Nat.add_0_r. unfold mbind, M_bind. destruct (chan_send _ _ c) as [[| |] c1]; [|done|done].
  destruct (0 <? acc_len a); [|done]. destruct (chan_send _ _ c1) as [[| |] c2]; done.
Qed.

Lemma send_msg_buffers `{PosixMQ} msg c : send_msg msg c = send_buffers msg [] c.
Proof.
  unfold send_msg, send_buffers. cbn [total_len foldr for_each]. unfold mbind, M_bind.
  destruct (chan_send _ _ c) as [[| |] c1]; done.
Qed.

(** ** Examples *)
Definition sample_functions : Functions :=
  <["f" := {| fn_trigger := DirectTrigger "f"; fn_module_name := "m"; fn_function_name := "g" |}]> ∅.

Definition log_worker (busy : bool) : @FunctionWorker log_ipc :=
  {| fw_ipc_read := MkLog [] [] []; fw_ipc_write := MkLog [] [] []; fw_pid := 1; fw_busy := busy |}.

Definition sample_workers : @Workers log_ipc :=
  {| ws_workers := [log_worker true; log_worker false]; ws_worker_counter := 2; ws_idle_workers := 1 |}.

Definition sample_invocation : Invocation :=
  match Invocation_ctor "f" "id" (DirectTrigger "f") from_local with
  | Ret i => push_payload (buffer_of_bytes [x01; x02]) i
  | _ => {| inv_req := IpcInvocationRequest_ctor; inv_payload := []; inv_trigger := DirectTrigger "f";
            inv_active := false; inv_source := from_local |}
  end.

Lemma names_fit_sample : names_fit "f" "id".
Proof. unfold names_fit, ipc_fits. repeat split; apply (bool_decide_unpack _); vm_compute; exact I. Qed.

Lemma sample_invocation_carries : carries_key "id" sample_invocation.
Proof.
  unfold sample_invocation.
  destruct (Invocation_ctor_ok "f" "id" (DirectTrigger "f") from_local names_fit_sample) as (i&->&Hk&_).
  exact Hk.
Qed.

Lemma add_payload_behaviour_witness :
  names_fit "f" "id" /\
  exists msg, add_payload "g" "id" buffer_null_value from_local (WorkQueue_ctor sample_functions)
    = (Ret (Some msg), WorkQueue_ctor sample_functions).
Proof.
  split; [exact names_fit_sample|].
  exact (add_payload_behaviour "g" "id" buffer_null_value from_local (WorkQueue_ctor sample_functions)
    ltac:(unfold names_fit, ipc_fits; repeat split; apply (bool_decide_unpack _); vm_compute; exact I)).
Defined.

Lemma work_queue_invariant_witness :
  let os := [WAdd "f" "id" buffer_null_value from_local; WStart] in
  wq_inv [] (WorkQueue_ctor sample_functions) /\
  is_ret (wq_run (WFinish "id") (fold_left (fun q o => (wq_run o q).2) os (WorkQueue_ctor sample_functions))).1 = true.
Proof.
  intros os. split; [apply wq_inv_empty|].
  refine (proj2 (work_queue_invariant os (WorkQueue_ctor sample_functions) (wq_inv_empty _) _) (WFinish "id") I).
  repeat constructor; apply (bool_decide_unpack _); vm_compute; exact I.
Defined.

Lemma next_is_fifo_witness :
  wq_inv [] (WorkQueue_ctor sample_functions) /\
  next (WorkQueue_ctor sample_functions) = (Ret None, WorkQueue_ctor sample_functions).
Proof.
  split; [apply wq_inv_empty|].
  exact (next_is_fifo [] (WorkQueue_ctor sample_functions) (wq_inv_empty _)).
Defined.

Lemma submit_reaches_idle_worker_witness :
  workers_ok sample_workers /\
  exists ws' inv', submit (sample_workers, sample_invocation) = (Ret tt, (ws', inv')) /\
    inv_active inv' = true /\ ws_idle_workers ws' = 0%Z.
Proof.
  split; [reflexivity|].
  eexists _, _. split; [reflexivity|].
  destruct (submit_reaches_idle_worker sample_workers sample_invocation "id" _ _
    eq_refl eq_refl sample_invocation_carries ltac:(vm_compute; lia) eq_refl)
    as (w&x&x'&m&_&_&_&_&_&_&_&_&Ha&_&Hn). split; [exact Ha|exact Hn].
Defined.

Lemma idle_counter_exact_witness :
  workers_ok sample_workers /\ workers_ok (workers_finish 0 sample_workers) /\
  ws_idle_workers (workers_finish 1 sample_workers) = 2%Z.
Proof.
  split; [reflexivity|]. split.
  - exact (proj1 (idle_counter_exact sample_workers 0 (log_worker true) eq_refl eq_refl) eq_refl).
  - exact (proj1 (proj2 (idle_counter_exact sample_workers 1 (log_worker false) eq_refl eq_refl)) eq_refl).
Defined.

(** Payloads for one key pile up while its invocation waits, without a
    limit, but an invocation request has room for the lengths of 13 buffers
    only: 14 to 16 payloads make [submit] write past the end of the request, 17
    and more make it throw. *)
Theorem payloads_overflow_request `{IpcChannel} fname key source t bs q :
  names_fit fname key -> wq_active q !! key = None -> get_trigger (wq_functions q) fname = Some t ->
  14 <= length bs ->
  exists q', for_each (fun b => add_payload fname key b source ≫= fun _ => mret tt) bs q = (Ret tt, q') /\
    exists inv, wq_active q' !! key = Some inv /\ inv_payload inv = bs /\
      forall ws, has_idle_workers ws = true ->
        (length bs <= 16 -> (submit (ws, inv)).1 = Undef) /\
        (16 < length bs -> exists e, (submit (ws, inv)).1 = Throw (InvalidArgument e)).
Proof.
  intros Hn Hk Ht Hlen.
  assert (forall bs q inv, wq_active q !! key = Some inv -> inv_active inv = false -> carries_key key inv ->
    exists q', for_each (fun b => add_payload fname key b source ≫= fun _ => mret tt) bs q = (Ret tt, q') /\
      exists inv', wq_active q' !! key = Some inv' /\ inv_payload inv' = inv_payload inv ++ bs /\
        carries_key key inv') as Hmore.
  { clear -Hn. induction bs as [|b bs IH]; intros q inv Hinv Ha Hc; cbn [for_each].
    - exists q. split; [done|]. exists inv. rewrite app_nil_r. auto.
    - pose proof (add_payload_cases fname key b source q Hn) as Hadd. rewrite Hinv, Ha in Hadd.
      unfold mbind, M_bind in *. rewrite Hadd. cbn.
      destruct (IH (set_wq_active (<[key := push_payload b inv]> (wq_active q)) q) (push_payload b inv))
        as (q'&Hq'&inv'&Hi&Hp&Hc'); [cbn; now rewrite lookup_insert_eq|done|done|].
      exists q'. split; [exact Hq'|]. exists inv'. rewrite Hp. cbn. rewrite <-app_assoc. auto. }
  destruct bs as [|b bs]; [cbn in Hlen; lia|]. cbn [for_each].
  pose proof (add_payload_cases fname key b source q Hn) as Hadd. rewrite Hk, Ht in Hadd.
  destruct Hadd as (i&Hadd&Hc&_&Hp&_&Ha&_).
  unfold mbind at 1, M_bind at 1. unfold mbind at 1, M_bind at 1. rewrite Hadd. cbn [mret M_ret].
  destruct (Hmore bs {| wq_pending := wq_pending q ++ [key]; wq_active := <[key := i]> (wq_active q);
    wq_functions := wq_functions q |} i) as (q'&Hq'&inv&Hinv&Hpl&_&_&Hm); [cbn; now rewrite lookup_insert_eq|done..|].
  exists q'. split; [exact Hq'|]. exists inv. rewrite Hp in Hpl. split; [done|]. split; [done|].
  intros ws Hidle. unfold submit. rewrite Hidle. unfold confirm_payload, set_buffers.
  rewrite length_fmap, Hpl. cbn [app]. split; intros Hl.
  - rewrite (proj2 (Nat.ltb_ge _ _)) by exact Hl. rewrite store_i32s_overflow; [done|done|].
    rewrite Hm. cbn [length]. rewrite length_fmap. cbn [length] in *. unfold IPC_BUF_SIZE. unfold_ipc_layout. lia.
  - rewrite (proj2 (Nat.ltb_lt _ _)) by exact Hl. cbn. eauto.
Qed.

Lemma payloads_overflow_request_witness :
  exists q', for_each (fun b => add_payload "f" "id" b from_local ≫= fun _ => mret tt)
      (replicate 14 buffer_null_value) (WorkQueue_ctor sample_functions) = (Ret tt, q') /\
    exists inv, wq_active q' !! "id" = Some inv /\ (submit (sample_workers, inv)).1 = Undef.
Proof.
  destruct (payloads_overflow_request "f" "id" from_local (DirectTrigger "f")
    (replicate 14 buffer_null_value) (WorkQueue_ctor sample_functions)
    ltac:(unfold names_fit, ipc_fits; repeat split; apply (bool_decide_unpack _); vm_compute; exact I)
    eq_refl eq_refl ltac:(cbn; lia)) as (q'&Hq'&inv&Hinv&_&Hs).
  exists q'. split; [exact Hq'|]. exists inv. split; [exact Hinv|].
  exact (proj1 (Hs sample_workers eq_refl) ltac:(cbn; lia)).
Defined.
