(* ===== verification/Controller.v ===== *)
(** * Controller: the process controller

    [process/controller/controller.hpp] and [controller.cpp]: the TCP server
    leaves messages in a queue and signals an [eventfd]; the polling thread
    takes them, reads the messages of the workers, and starts pending
    invocations on idle workers.  The TCP server is used through the class
    [RemoteServer], the channels of the workers through [IpcChannel]. *)

From S2P Require Import Prelude Memory Messages IpcMessages Buffers Channel Application Functions.
From S2P Require Import Mailbox WorkQueue.

(** ** The TCP server, as the controller sees it: [remote::Server] *)
Class RemoteServer : Type := {
  server : Type;
  srv_invocation_result :
    RemoteType -> option string -> string_view -> Z -> BufferAccessor -> M server unit;
  srv_put_message : string_view -> string_view -> Buffer -> M server unit;
  srv_invocation_request : string_view -> string_view -> string_view -> Buffer -> M server unit;
}.

(** a server that writes down what it is asked to send *)
Inductive server_event : Type :=
  | SrvResult (source : RemoteType) (process : option string) (id : string) (code : Z) (data : list byte)
  | SrvPut (process name : string) (data : list byte)
  | SrvRequest (process fname id : string) (data : list byte).

#[export] Instance log_server : RemoteServer | 10 := {|
  server := list server_event;
  srv_invocation_result source process id code payload l :=
    (Ret tt, l ++ [SrvResult source process (sv_str id) code (accessor_data payload)]);
  srv_put_message process name payload l :=
    (Ret tt, l ++ [SrvPut (sv_str process) (sv_str name) (buffer_data payload)]);
  srv_invocation_request process fname id payload l :=
    (Ret tt, l ++ [SrvRequest (sv_str process) (sv_str fname) (sv_str id) (buffer_data payload)]);
|}.

Definition SELF_PROCESS : string := "SELF".

(** [ExternalMessage]: no source for the data and the control plane *)
Record ExternalMessage : Type := MkExternal {
  em_source_type : RemoteType;
  em_source : option string;
  em_msg : mem;
  em_payload : Buffer;
}.

(** the events [epoll_wait] reports, and its failure with an [errno] *)
Inductive poll_event : Type := WakeUp | WorkerReady (w : nat).
Inductive epoll_result : Type := EpollEvents (l : list poll_event) | EpollFailed (errno : Z).
Definition EINTR : Z := 4.
Definition EINVAL : Z := 22.

Section controller.
Context `{IpcChannel} `{RemoteServer} `{EqualRange}.
(** [StateKeys::serialize], the cereal library's binary archive *)
Variable serialize_state_keys : list (string * Z) -> list byte.

Record Controller : Type := MkController {
  c_process_id : string;
  c_workers : Workers;
  c_external_queue : list ExternalMessage;
  c_event_fd : Z;
  c_application : Application;
  c_app_updates : list ApplicationUpdate;
  c_work_queue : WorkQueue;
  c_server : option server;
  c_mailbox : MessageStore;
  c_pending_msgs : PendingMessages;
  c_ending : bool;
}.

Definition set_c_workers (x : Workers) (c : Controller) : Controller :=
  {| c_process_id := c_process_id c; c_workers := x; c_external_queue := c_external_queue c;
     c_event_fd := c_event_fd c; c_application := c_application c; c_app_updates := c_app_updates c;
     c_work_queue := c_work_queue c; c_server := c_server c; c_mailbox := c_mailbox c;
     c_pending_msgs := c_pending_msgs c; c_ending := c_ending c |}.
Definition set_c_external_queue (x : list ExternalMessage) (c : Controller) : Controller :=
  {| c_process_id := c_process_id c; c_workers := c_workers c; c_external_queue := x;
     c_event_fd := c_event_fd c; c_application := c_application c; c_app_updates := c_app_updates c;
     c_work_queue := c_work_queue c; c_server := c_server c; c_mailbox := c_mailbox c;
     c_pending_msgs := c_pending_msgs c; c_ending := c_ending c |}.
Definition set_c_event_fd (x : Z) (c : Controller) : Controller :=
  {| c_process_id := c_process_id c; c_workers := c_workers c; c_external_queue := c_external_queue c;
     c_event_fd := x; c_application := c_application c; c_app_updates := c_app_updates c;
     c_work_queue := c_work_queue c; c_server := c_server c; c_mailbox := c_mailbox c;
     c_pending_msgs := c_pending_msgs c; c_ending := c_ending c |}.
Definition set_c_application (x : Application) (c : Controller) : Controller :=
  {| c_process_id := c_process_id c; c_workers := c_workers c; c_external_queue := c_external_queue c;
     c_event_fd := c_event_fd c; c_application := x; c_app_updates := c_app_updates c;
     c_work_queue := c_work_queue c; c_server := c_server c; c_mailbox := c_mailbox c;
     c_pending_msgs := c_pending_msgs c; c_ending := c_ending c |}.
Definition set_c_app_updates (x : list ApplicationUpdate) (c : Controller) : Controller :=
  {| c_process_id := c_process_id c; c_workers := c_workers c; c_external_queue := c_external_queue c;
     c_event_fd := c_event_fd c; c_application := c_application c; c_app_updates := x;
     c_work_queue := c_work_queue c; c_server := c_server c; c_mailbox := c_mailbox c;
     c_pending_msgs := c_pending_msgs c; c_ending := c_ending c |}.
Definition set_c_work_queue (x : WorkQueue) (c : Controller) : Controller :=
  {| c_process_id := c_process_id c; c_workers := c_workers c; c_external_queue := c_external_queue c;
     c_event_fd := c_event_fd c; c_application := c_application c; c_app_updates := c_app_updates c;
     c_work_queue := x; c_server := c_server c; c_mailbox := c_mailbox c;
     c_pending_msgs := c_pending_msgs c; c_ending := c_ending c |}.
Definition set_c_server (x : option server) (c : Controller) : Controller :=
  {| c_process_id := c_process_id c; c_workers := c_workers c; c_external_queue := c_external_queue c;
     c_event_fd := c_event_fd c; c_application := c_application c; c_app_updates := c_app_updates c;
     c_work_queue := c_work_queue c; c_server := x; c_mailbox := c_mailbox c;
     c_pending_msgs := c_pending_msgs c; c_ending := c_ending c |}.
Definition set_c_mailbox (x : MessageStore) (c : Controller) : Controller :=
  {| c_process_id := c_process_id c; c_workers := c_workers c; c_external_queue := c_external_queue c;
     c_event_fd := c_event_fd c; c_application := c_application c; c_app_updates := c_app_updates c;
     c_work_queue := c_work_queue c; c_server := c_server c; c_mailbox := x;
     c_pending_msgs := c_pending_msgs c; c_ending := c_ending c |}.
Definition set_c_pending_msgs (x : PendingMessages) (c : Controller) : Controller :=
  {| c_process_id := c_process_id c; c_workers := c_workers c; c_external_queue := c_external_queue c;
     c_event_fd := c_event_fd c; c_application := c_application c; c_app_updates := c_app_updates c;
     c_work_queue := c_work_queue c; c_server := c_server c; c_mailbox := c_mailbox c;
     c_pending_msgs := x; c_ending := c_ending c |}.
Definition set_c_ending (x : bool) (c : Controller) : Controller :=
  {| c_process_id := c_process_id c; c_workers := c_workers c; c_external_queue := c_external_queue c;
     c_event_fd := c_event_fd c; c_application := c_application c; c_app_updates := c_app_updates c;
     c_work_queue := c_work_queue c; c_server := c_server c; c_mailbox := c_mailbox c;
     c_pending_msgs := c_pending_msgs c; c_ending := x |}.

(** the controller after its constructor, with the loaded functions and the
    started workers *)
Definition Controller_ctor (process_id : string) (functions : Functions) (workers : Workers) : Controller :=
  {| c_process_id := process_id; c_workers := workers; c_external_queue := []; c_event_fd := 0;
     c_application := Application_empty; c_app_updates := []; c_work_queue := WorkQueue_ctor functions;
     c_server := None; c_mailbox := MessageStore_empty; c_pending_msgs := ∅; c_ending := false |}.

Definition set_remote (s : server) : M Controller unit := modify (set_c_server (Some s)).

(** [write(_event_fd, 1)] *)
Definition signal : M Controller unit := modify (fun c => set_c_event_fd (c_event_fd c + 1)%Z c).

Definition push_external (m : ExternalMessage) : M Controller unit :=
  modify (fun c => set_c_external_queue (c_external_queue c ++ [m]) c).

(** ** The methods the TCP server calls *)
Definition remote_message (msg : mem) (payload : Buffer) (process_id : string) : M Controller unit :=
  push_external {| em_source_type := PROCESS; em_source := Some process_id; em_msg := msg;
                   em_payload := payload |} ≫= fun _ => signal.

Definition dataplane_message (msg : mem) (payload : Buffer) : M Controller unit :=
  push_external {| em_source_type := DATA_PLANE; em_source := None; em_msg := msg;
                   em_payload := payload |} ≫= fun _ => signal.

Definition controlplane_message (msg : mem) (payload : Buffer) : M Controller unit :=
  push_external {| em_source_type := CONTROL_PLANE; em_source := None; em_msg := msg;
                   em_payload := payload |} ≫= fun _ => signal.

Definition update_application (status : Status) (process : string) : M Controller unit :=
  modify (fun c => set_c_app_updates
    (c_app_updates c ++ [{| upd_status := status; upd_process_id := process |}]) c) ≫= fun _ => signal.

(** ** Access to the parts *)
Definition on_workers {A} (m : M Workers A) : M Controller A := zoom c_workers set_c_workers m.
Definition on_queue {A} (m : M WorkQueue A) : M Controller A := zoom c_work_queue set_c_work_queue m.
Definition on_mailbox {A} (m : M MessageStore A) : M Controller A := zoom c_mailbox set_c_mailbox m.

(** a call through [_server]; a null pointer before [set_remote] *)
Definition on_server {A} (m : M server A) : M Controller A := fun c =>
  match c_server c with
  | None => (Undef, c)
  | Some s => let '(r, s') := m s in (r, set_c_server (Some s') c)
  end.

(** [worker->ipc_write().send(...)] *)
Definition send_to (w : nat) (msg : mem) (data : list Buffer) : M Controller unit :=
  on_workers (worker_send w msg data).

(** [_pending_msgs.find_invocation(id, out)] and its siblings *)
Definition take_invocation (id : string) : M Controller (list nat) := fun c =>
  let '(ws, p) := find_invocation id (c_pending_msgs c) in (Ret ws, set_c_pending_msgs p c).
Definition take_pending_get (key source : string) : M Controller (option nat) := fun c =>
  let '(w, p) := find_get key source (c_pending_msgs c) in (Ret w, set_c_pending_msgs p c).
Definition add_pending_get (key source : string) (w : nat) : M Controller unit :=
  modify (fun c => set_c_pending_msgs (insert_get key source w (c_pending_msgs c)) c).
Definition add_pending_invocation (key : string) (w : nat) : M Controller unit :=
  modify (fun c => set_c_pending_msgs (insert_invocation key w (c_pending_msgs c)) c).

(** [_work_queue.finish(key)] *)
Definition take_finished (key : string) : M Controller (option Invocation) := fun c =>
  let '(inv, q) := finish key (c_work_queue c) in (Ret inv, set_c_work_queue q c).

(** [_mailbox.put(...)] and [_mailbox.try_get(...)] *)
Definition mailbox_put (key source : string) (payload : Buffer) : M Controller bool := fun c =>
  let '(ok, _, s) := store_put key source payload (c_mailbox c) in (Ret ok, set_c_mailbox s c).
Definition mailbox_try_get (key source : string) : M Controller (option Buffer) := fun c =>
  let '(b, s) := try_get key source (c_mailbox c) in (Ret b, set_c_mailbox s c).

(** an IPC result message *)
Definition make_result (invocation_id : string_view) (return_code : Z) (len : nat) : outcome IpcInvocationResult :=
  result ← set_ipc_result_id invocation_id IpcInvocationResult_ctor;
  Ret (set_ipc_buffer_length (wrap_i32 (Z.of_nat len)) (set_ipc_return_code return_code result)).

(** an IPC reply to a get *)
Definition make_get_reply (process_id name : string_view) : outcome GenericRequest :=
  r ← set_generic_process_id process_id GetRequest;
  set_generic_name name r.

Definition make_state_reply (name : string_view) : outcome GenericRequest :=
  r ← set_generic_name name GetRequest;
  Ret (set_generic_state true r).

(** the accessor of a string: [BufferAccessor{s.data(), s.size()}] *)
Definition accessor_of_string (s : string) : BufferAccessor :=
  {| acc_ptr := Some (String.list_byte_of_string s); acc_len := String.length s |}.

(** ** The handlers *)

(** [_process_invocation_result(source, ...)] *)
Definition process_result_source (source : InvocationSource) (invocation_id : string_view)
    (return_code : Z) (payload : BufferAccessor) : M Controller unit :=
  if is_remote source then
    on_server (srv_invocation_result (src_type source) (src_process source) invocation_id return_code payload)
  else
    pending_workers ← take_invocation (sv_str invocation_id);
    result ← lift (make_result invocation_id return_code (acc_len payload));
    for_each (fun w => send_to w (irs_msg result) [buffer_of_accessor payload]) pending_workers.

(** [_process_invocation_result(worker, ...)] *)
Definition process_result_worker (worker : nat) (invocation_id : string_view) (return_code : Z)
    (payload : BufferAccessor) : M Controller unit :=
  invoc ← take_finished (sv_str invocation_id);
  match invoc with
  | Some inv => process_result_source (inv_source inv) invocation_id return_code payload
  | None => mret tt
  end ≫= fun _ =>
  modify (fun c => set_c_workers (workers_finish worker (c_workers c)) c).

(** the source of an external message *)
Definition external_source (msg : ExternalMessage) : InvocationSource :=
  match em_source msg with
  | Some p => from_process p
  | None => from_source (em_source_type msg)
  end.

(** [_process_external_message] *)
Definition process_external_message (msg : ExternalMessage) : M Controller unit :=
  parsed_msg ← lift (parse (em_msg msg));
  match parsed_msg with
  | VInvocationRequest req =>
      res ← on_queue (add_payload (sv_str (function_name req)) (sv_str (invocation_id req))
                        (em_payload msg) (external_source msg));
      match res with
      | Some error =>
          process_result_source (external_source msg) (invocation_id req) (-1) (accessor_of_string error)
      | None => mret tt
      end
  | VInvocationResult req =>
      pending_workers ← take_invocation (sv_str (result_invocation_id req));
      result ← lift (make_result (result_invocation_id req) (return_code req) (buf_len (em_payload msg)));
      for_each (fun w => send_to w (irs_msg result) [em_payload msg]) pending_workers
  | VPutMessage req =>
      pending_worker ← take_pending_get (sv_str (put_name req)) (sv_str (put_process_id req));
      match pending_worker with
      | Some w =>
          return_req ← lift (make_get_reply (put_process_id req) (put_name req));
          send_to w (gr_msg return_req) [em_payload msg]
      | None =>
          _ ← mailbox_put (sv_str (put_name req)) (sv_str (put_process_id req)) (em_payload msg);
          mret tt
      end
  | _ => mret tt
  end.

(** [_process_invocation] *)
Definition process_invocation (worker : nat) (req : IpcInvocationRequest) (payload : Buffer)
    : M Controller unit :=
  add_pending_invocation (sv_str (ipc_invocation_id req)) worker ≫= fun _ =>
  process_id ← gets c_process_id;
  if decide (sv_str (ipc_process_id req) = SELF_PROCESS \/ sv_str (ipc_process_id req) = process_id) then
    res ← on_queue (add_payload (sv_str (ipc_function_name req)) (sv_str (ipc_invocation_id req))
                      payload from_local);
    match res with
    | Some error =>
        process_result_source from_local (ipc_invocation_id req) (-1) (accessor_of_string error)
    | None => mret tt
    end
  else
    on_server (srv_invocation_request (ipc_process_id req) (ipc_function_name req)
                 (ipc_invocation_id req) payload).

(** [_process_put]; [now] is the time of the system clock *)
Definition process_put (now : Z) (req : GenericRequest) (payload : Buffer) : M Controller unit :=
  process_id ← gets c_process_id;
  if generic_state req then
    _ ← on_mailbox (store_state (sv_str (generic_name req)) payload now);
    mret tt
  else if decide (sv_str (generic_process_id req) = SELF_PROCESS \/
                  sv_str (generic_process_id req) = process_id) then
    pending_worker ← take_pending_get (sv_str (generic_name req)) process_id;
    match pending_worker with
    | Some w =>
        return_req ← lift (make_get_reply (sv_of_string process_id) (generic_name req));
        send_to w (gr_msg return_req) [payload]
    | None =>
        _ ← mailbox_put (sv_str (generic_name req)) process_id payload;
        mret tt
    end
  else
    on_server (srv_put_message (generic_process_id req) (generic_name req) payload).

(** the source a get waits for *)
Definition get_source (process_id : string) (req : GenericRequest) : string :=
  if decide (sv_str (generic_process_id req) = SELF_PROCESS) then process_id
  else sv_str (generic_process_id req).

(** the case of [GetRequestParsed] *)
Definition process_get (worker : nat) (req : GenericRequest) : M Controller unit :=
  process_id ← gets c_process_id;
  if generic_state req then
    c ← get;
    return_req ← lift (make_state_reply (generic_name req));
    match try_state (sv_str (generic_name req)) (c_mailbox c) with
    | Some buf => send_to worker (gr_msg return_req) [buf]
    | None => send_to worker (gr_msg return_req) []
    end
  else
    buf ← mailbox_try_get (sv_str (generic_name req)) (get_source process_id req);
    match buf with
    | Some b =>
        return_req ← lift (make_get_reply (generic_process_id req) (generic_name req));
        send_to worker (gr_msg return_req) [b]
    | None => add_pending_get (sv_str (generic_name req)) (get_source process_id req) worker
    end.

(** the case of [StateKeysRequestParsed] *)
Definition process_state_keys (worker : nat) : M Controller unit :=
  c ← get;
  let str := serialize_state_keys (state_keys (c_mailbox c)) in
  let return_req := set_state_keys_buffer_length (wrap_i32 (Z.of_nat (length str))) StateKeysResult in
  send_to worker return_req [{| buf_ptr := Some str; buf_size := length str; buf_len := length str |}].

(** [_process_internal_message] *)
Definition process_internal_message (now : Z) (worker : nat) (msg : mem) (payload : Buffer)
    : M Controller unit :=
  parsed_msg ← lift (parse_message msg);
  match parsed_msg with
  | VInvocationResultParsed req =>
      process_result_worker worker (ipc_result_id req) (ipc_return_code req) (accessor_of payload)
  | VInvocationRequestParsed req => process_invocation worker req payload
  | VPutRequestParsed req => process_put now req payload
  | VStateKeysRequestParsed _ => process_state_keys worker
  | VGetRequestParsed req => process_get worker req
  | _ => mret tt
  end.

(** [_process_application_updates]; one message object serves all updates *)
Fixpoint send_updates (msg : IpcApplicationUpdate) (updates : list ApplicationUpdate) : M Controller unit :=
  match updates with
  | [] => mret tt
  | u :: updates' =>
      msg ← lift (set_ipc_update_process_id (sv_of_string (upd_process_id u)) msg);
      let msg := set_ipc_status_change (Status_to_Z (upd_status u)) msg in
      c ← get;
      for_each (fun w => send_to w (iau_msg msg) []) (seq 0 (length (ws_workers (c_workers c)))) ≫= fun _ =>
      send_updates msg updates'
  end.

Definition process_application_updates (updates : list ApplicationUpdate) : M Controller unit :=
  send_updates IpcApplicationUpdate_ctor updates ≫= fun _ =>
  modify (fun c => set_c_application (apply_updates (c_application c) updates) c).

(** ** poll *)

(** the wake-up: read the counter, then take and process what is queued *)
Definition handle_wakeup : M Controller unit :=
  modify (set_c_event_fd 0) ≫= fun _ =>
  msgs ← gets c_external_queue;
  modify (set_c_external_queue []) ≫= fun _ =>
  for_each process_external_message msgs ≫= fun _ =>
  updates ← gets c_app_updates;
  match updates with
  | [] => mret tt
  | _ =>
      modify (set_c_app_updates []) ≫= fun _ =>
      process_application_updates updates
  end.

(** a worker's queue is readable *)
Definition handle_worker (now : Z) (w : nat) : M Controller unit := fun c =>
  match ws_workers (c_workers c) !! w with
  | None => (Undef, c)
  | Some worker =>
      let '(r, ch) := ipc_receive (fw_ipc_read worker) in
      let c' := set_c_workers (set_ws_workers
                  (<[w := set_ipc_read ch worker]> (ws_workers (c_workers c))) (c_workers c)) c in
      match r with
      | Throw e => (Throw e, c')
      | Undef => (Undef, c')
      | Ret (complete, input) =>
          if (complete : bool) then process_internal_message now w (ipc_message ch) input c'
          else (Ret tt, c')
      end
  end.

Definition handle_event (now : Z) (e : poll_event) : M Controller unit :=
  match e with
  | WakeUp => handle_wakeup
  | WorkerReady w => handle_worker now w
  end.

(** [_workers.submit( *invoc)] on an element of the table *)
Definition submit_key (key : string) : M Controller unit := fun c =>
  match wq_active (c_work_queue c) !! key with
  | None => (Undef, c)
  | Some inv =>
      let '(r, (ws, inv')) := submit (c_workers c, inv) in
      (r, set_c_workers ws (set_c_work_queue
            (set_wq_active (<[key := inv']> (wq_active (c_work_queue c))) (c_work_queue c)) c))
  end.

(** the loop that starts pending invocations.  Fuel: every round leaves one
    idle worker fewer. *)
Fixpoint schedule (fuel : nat) : M Controller unit :=
  c ← get;
  if has_idle_workers (c_workers c) then
    match fuel with
    | O => undef
    | S fuel' =>
        invoc ← on_queue next;
        match invoc with
        | None => mret tt
        | Some key => submit_key key ≫= fun _ => schedule fuel'
        end
    end
  else mret tt.

(** One round of the loop of [poll]: whether the loop goes on. *)
Definition poll_round (now : Z) (result : epoll_result) : M Controller bool :=
  c ← get;
  let failed := match result with EpollFailed errno => negb (errno =? EINVAL)%Z | _ => false end in
  if c_ending c || failed then mret false
  else
    for_each (handle_event now) (match result with EpollEvents l => l | _ => [] end) ≫= fun _ =>
    c ← get;
    schedule (Z.to_nat (ws_idle_workers (c_workers c))) ≫= fun _ =>
    mret true.

(** [shutdown] *)
Definition controller_shutdown : M Controller unit := modify (set_c_ending true).

End controller.

(** ** Names in parsed messages *)

Lemma cview_ipc_fits max v : cview max v -> ipc_fits max (sv_str v).
Proof.
  intros (Hl&Hn&Ht&_). unfold ipc_fits, no_nul, sv_str.
  rewrite String.list_byte_of_string_of_list_byte. split; [exact Hn|].
  rewrite <-length_list_byte_of_string, String.list_byte_of_string_of_list_byte. lia.
Qed.

Lemma parsed_request_fits d x :
  length d = BUF_SIZE -> parse d = Ret (VInvocationRequest x) ->
  names_fit (sv_str (function_name x)) (sv_str (invocation_id x)).
Proof.
  intros Hd Hp. unfold parse in Hp.
  destruct (_ || _)%bool; [done|]. destruct (MessageType_of_Z _); try done.
  injection Hp as <-. unfold names_fit, function_name, invocation_id, InvocationRequest_ctor; cbn.
  split; apply cview_ipc_fits.
  - apply (cview_sv_at (HEADER_OFFSET + 4) 32). rewrite Hd. unfold HEADER_OFFSET, BUF_SIZE. lia.
  - apply (cview_sv_at (HEADER_OFFSET + NAME_LENGTH + 4) 16). rewrite Hd.
    unfold HEADER_OFFSET, NAME_LENGTH, BUF_SIZE. lia.
Qed.

Lemma parsed_ipc_request_fits d x :
  length d = IPC_BUF_SIZE -> parse_message d = Ret (VInvocationRequestParsed x) ->
  names_fit (sv_str (ipc_function_name x)) (sv_str (ipc_invocation_id x)).
Proof.
  intros Hd Hp. unfold parse_message in Hp.
  destruct (_ || _)%bool; [done|]. destruct (IpcType_of_Z _); try done.
  injection Hp as <-. unfold names_fit, ipc_function_name, ipc_invocation_id, InvocationRequestParsed; cbn.
  split; apply cview_ipc_fits.
  - apply (cview_sv_at (IPC_HEADER_OFFSET + IPC_ID_LENGTH) 32). rewrite Hd.
    unfold IPC_HEADER_OFFSET, IPC_ID_LENGTH, IPC_BUF_SIZE. lia.
  - apply (cview_sv_at IPC_HEADER_OFFSET 16). rewrite Hd. unfold IPC_HEADER_OFFSET, IPC_BUF_SIZE. lia.
Qed.

Create HintDb keep.

(** ** The table of invocations is never left in a bad state *)
Section invariant.
Context `{IpcChannel} `{RemoteServer} `{EqualRange}.
Variable serialize_state_keys : list (string * Z) -> list byte.

(** the queued messages have the size of a message *)
Definition queue_inv (c : Controller) : Prop :=
  wq_inv [] (c_work_queue c) /\ Forall (fun m => length (em_msg m) = BUF_SIZE) (c_external_queue c).

Lemma keeps_on_workers {A} (m : M Workers A) : keeps queue_inv (on_workers m).
Proof. apply keeps_zoom. done. Qed.

Lemma keeps_send_to w msg data : keeps queue_inv (send_to w msg data).
Proof. apply keeps_on_workers. Qed.

Lemma keeps_on_server {A} (m : M server A) : keeps queue_inv (on_server m).
Proof.
  intros c r c' Hc. unfold on_server. destruct (c_server c); [|intros [= <- <-]; done].
  destruct (m s). intros [= <- <-]. done.
Qed.

Lemma keeps_take_invocation id : keeps queue_inv (take_invocation id).
Proof. intros c r c' Hc [= <- <-]. done. Qed.

Lemma keeps_take_pending_get key source : keeps queue_inv (take_pending_get key source).
Proof.
  intros c r c' Hc. unfold take_pending_get. destruct (find_get _ _ _). intros [= <- <-]. done.
Qed.

Lemma keeps_mailbox_put key source b : keeps queue_inv (mailbox_put key source b).
Proof.
  intros c r c' Hc. unfold mailbox_put. destruct (store_put _ _ _ _) as [[? ?] ?]. intros [= <- <-]. done.
Qed.

Lemma keeps_mailbox_try_get key source : keeps queue_inv (mailbox_try_get key source).
Proof.
  intros c r c' Hc. unfold mailbox_try_get. destruct (try_get _ _ _). intros [= <- <-]. done.
Qed.

Lemma keeps_on_mailbox {A} (m : M MessageStore A) : keeps queue_inv (on_mailbox m).
Proof. apply keeps_zoom. done. Qed.

Lemma keeps_add_payload fname key b source :
  names_fit fname key -> keeps queue_inv (on_queue (add_payload fname key b source)).
Proof.
  intros Hn. apply keeps_zoom. intros c r t [Hc Hs] E. split; [|exact Hs].
  eapply (add_payload_inv [] _ _ _ _ _ r); eauto.
Qed.

Hint Resolve keeps_on_workers keeps_send_to keeps_on_server keeps_take_invocation
  keeps_take_pending_get keeps_mailbox_put keeps_mailbox_try_get keeps_on_mailbox keeps_add_payload : keep.

(** split a handler into its calls *)
Ltac keep :=
  repeat first
    [ progress intros
    | apply keeps_ret | apply keeps_lift | apply keeps_get | apply keeps_gets
    | solve [auto with keep]
    | apply keeps_modify; [idtac]; solve [intros ? ?; auto]
    | apply keeps_for_each; intros ? _
    | apply keeps_bind
    | case_match ].

Lemma keeps_result_source source id code payload :
  keeps queue_inv (process_result_source source id code payload).
Proof. unfold process_result_source. keep. Qed.
Hint Resolve keeps_result_source : keep.

Lemma keeps_take_finished key : keeps queue_inv (take_finished key).
Proof.
  intros c r c' [Hc Hs]. unfold take_finished. pose proof (finish_spec [] key (c_work_queue c) Hc) as Hf.
  destruct (finish key (c_work_queue c)) as [inv q]. intros [= <- <-].
  destruct Hf as [(i&_&_&_&Hi)|[_ [= _ ->]]]; (split; [done|exact Hs]).
Qed.
Hint Resolve keeps_take_finished : keep.

Lemma keeps_result_worker w id code payload :
  keeps queue_inv (process_result_worker w id code payload).
Proof. unfold process_result_worker. keep. Qed.

Lemma keeps_external m :
  length (em_msg m) = BUF_SIZE -> keeps queue_inv (process_external_message m).
Proof.
  intros Hm. unfold process_external_message. apply keeps_bind_lift. intros v Hv.
  assert (match v with VInvocationRequest x =>
    names_fit (sv_str (function_name x)) (sv_str (invocation_id x)) | _ => True end) as Hfit.
  { destruct v; try done. eapply parsed_request_fits; eauto. }
  destruct v; keep.
Qed.

Lemma keeps_internal now w m payload :
  length m = IPC_BUF_SIZE -> keeps queue_inv (process_internal_message serialize_state_keys now w m payload).
Proof.
  intros Hm. unfold process_internal_message. apply keeps_bind_lift. intros v Hv.
  assert (match v with VInvocationRequestParsed x =>
    names_fit (sv_str (ipc_function_name x)) (sv_str (ipc_invocation_id x)) | _ => True end) as Hfit.
  { destruct v; try done. eapply parsed_ipc_request_fits; eauto. }
  destruct v; unfold process_get, process_put, process_invocation, process_state_keys, add_pending_invocation,
    add_pending_get; keep; auto using keeps_result_worker.
Qed.

Lemma keeps_updates msg us : keeps queue_inv (send_updates msg us).
Proof. revert msg. induction us as [|u us IH]; intros msg; cbn [send_updates]; keep. Qed.

(** the messages an [IpcChannel] hands over have the size of an IPC message *)
Definition ipc_sized : Prop :=
  forall ch b ch', ipc_receive ch = (Ret (true, b), ch') -> length (ipc_message ch') = IPC_BUF_SIZE.

Lemma keeps_wakeup : keeps queue_inv handle_wakeup.
Proof.
  intros c r c' [Hq Hs]. unfold handle_wakeup.
  erewrite (M_bind_eq (modify _)) by reflexivity. erewrite (M_bind_eq (gets _)) by reflexivity.
  erewrite (M_bind_eq (modify _)) by reflexivity. cbn [c_external_queue set_c_event_fd].
  match goal with |- context [(for_each ?f ?l ≫= ?g) ?c1] =>
    enough (keeps queue_inv (for_each f l ≫= g)) as Hk by (apply (Hk c1); split; [exact Hq|constructor]) end.
  apply keeps_bind.
  - apply keeps_for_each. intros m Hm. apply keeps_external. exact (proj1 (list.Forall_forall _ _) Hs m Hm).
  - unfold process_application_updates. keep; auto using keeps_updates.
Qed.

Lemma keeps_worker now w :
  ipc_sized -> keeps queue_inv (handle_worker serialize_state_keys now w).
Proof.
  intros Hi c r c' Hc. unfold handle_worker.
  destruct (ws_workers (c_workers c) !! w) as [worker|]; [|intros [= <- <-]; done].
  destruct (ipc_receive (fw_ipc_read worker)) as [[[[] input]| |] ch] eqn:E;
    try (intros [= <- <-]; exact Hc).
  apply keeps_internal; [eapply Hi; eauto|exact Hc].
Qed.

(** ** The scheduling loop *)

Lemma next_then_submit key rest c :
  wq_inv [] (c_work_queue c) -> wq_pending (c_work_queue c) = key :: rest ->
  exists inv c1, on_queue next c = (Ret (Some key), c1) /\
    wq_active (c_work_queue c1) = wq_active (c_work_queue c) /\ wq_pending (c_work_queue c1) = rest /\
    wq_active (c_work_queue c) !! key = Some inv /\ carries_key key inv /\ inv_active inv = false /\
    wq_inv [key] (c_work_queue c1) /\ c1 = set_c_work_queue (c_work_queue c1) c.
Proof.
  intros Hq Hp. pose proof (next_spec [] _ Hq) as Hn. rewrite Hp in Hn.
  pose proof (wq_inv_next [] key rest _ Hq Hp) as Hq1. cbn in Hq1.
  destruct (proj1 (proj1 (proj2 Hq) key)) as (inv&Hinv&Ha); [cbn; rewrite Hp; now left|].
  eexists inv, _. unfold on_queue, zoom. rewrite Hn. split; [reflexivity|]. cbn.
  split_and!; auto. destruct Hq as (_&_&Hc). eauto.
Qed.

(** payloads an invocation request can describe *)
Definition payloads_small (q : WorkQueue) : Prop :=
  forall key inv, wq_active q !! key = Some inv -> inv_active inv = false -> length (inv_payload inv) <= 13.

(** the first [n] pending invocations, in order, were started *)
Definition started (n : nat) (q q' : WorkQueue) : Prop :=
  wq_pending q' = drop n (wq_pending q) /\
  (forall key, key ∈ take n (wq_pending q) ->
     exists inv, wq_active q' !! key = Some inv /\ inv_active inv = true) /\
  (forall key, key ∉ take n (wq_pending q) -> wq_active q' !! key = wq_active q !! key).

(** the channels of the workers take every message *)
Definition sends_succeed : Prop := forall msg data ch, exists ch', ipc_send msg data ch = (Ret tt, ch').

Lemma submit_key_ok `{!IpcChannelLaws _} key inv c :
  sends_succeed -> wq_active (c_work_queue c) !! key = Some inv -> carries_key key inv ->
  length (inv_payload inv) <= 13 -> workers_ok (c_workers c) -> has_idle_workers (c_workers c) = true ->
  exists c' inv', submit_key key c = (Ret tt, c') /\ workers_ok (c_workers c') /\
    ws_idle_workers (c_workers c') = (ws_idle_workers (c_workers c) - 1)%Z /\
    inv_active inv' = true /\ carries_key key inv' /\
    c_work_queue c' = set_wq_active (<[key := inv']> (wq_active (c_work_queue c))) (c_work_queue c).
Proof.
  intros Hs Hk Hck Hp Hok Hidle. unfold submit_key. rewrite Hk.
  destruct (submit (c_workers c, inv)) as [r [ws inv']] eqn:E.
  destruct (submit_spec _ _ key _ _ _ Hok Hidle Hck Hp E)
    as (w&worker&req&_&_&_&_&_&rs&ch&Hsend&Hck'&Hr).
  destruct (Hs (iir_msg req) (inv_payload inv) (fw_ipc_write worker)) as [ch' Hs'].
  rewrite Hs' in Hsend. injection Hsend as <- <-. destruct Hr as (->&Hok'&Hi&_&Hn).
  eexists _, inv'. split; [reflexivity|]. cbn. split_and!; auto. now rewrite Hi.
Qed.

Lemma schedule_spec `{!IpcChannelLaws _} fuel : sends_succeed -> forall c,
  wq_inv [] (c_work_queue c) -> workers_ok (c_workers c) -> payloads_small (c_work_queue c) ->
  Z.to_nat (ws_idle_workers (c_workers c)) <= fuel ->
  exists c', schedule fuel c = (Ret tt, c') /\
    wq_inv [] (c_work_queue c') /\ workers_ok (c_workers c') /\ payloads_small (c_work_queue c') /\
    exists n, n = Nat.min (Z.to_nat (ws_idle_workers (c_workers c))) (length (wq_pending (c_work_queue c))) /\
      started n (c_work_queue c) (c_work_queue c') /\
      ws_idle_workers (c_workers c') = (ws_idle_workers (c_workers c) - Z.of_nat n)%Z.
Proof.
  intros Hs. induction fuel as [|fuel IH]; intros c Hq Hok Hp Hf; cbn [schedule];
    erewrite M_bind_eq by reflexivity;
    assert (0 <= ws_idle_workers (c_workers c))%Z as Hnn by (unfold workers_ok in Hok; lia);
    unfold has_idle_workers; destruct (Z.ltb_spec 0 (ws_idle_workers (c_workers c))) as [Hlt|Hge]; try lia.
  1,3: exists c; split; [done|]; split_and!; auto; exists 0; split_and!; [lia| |lia];
    unfold started; split_and!; auto; intros key Hk; cbn in Hk; inversion Hk.
  destruct (wq_pending (c_work_queue c)) as [|key rest] eqn:Ep.
  - pose proof (next_spec [] _ Hq) as Hn. rewrite Ep in Hn.
    assert (on_queue next c = (Ret None, c)) as He.
    { unfold on_queue, zoom. rewrite Hn. now destruct c. }
    rewrite (M_bind_eq _ _ _ _ _ He). exists c. split; [done|]. split_and!; auto.
    exists 0. rewrite Nat.min_0_r. split_and!; [done| |lia].
    unfold started. rewrite Ep. split_and!; auto. intros k Hk. inversion Hk.
  - destruct (next_then_submit key rest c Hq Ep) as (inv&c1&He&Hact&Hpend&Hinv&Hck&Ha&Hq1&Hc1).
    rewrite (M_bind_eq _ _ _ _ _ He).
    assert (c_workers c1 = c_workers c) as Hw by (rewrite Hc1; done).
    destruct (submit_key_ok key inv c1 Hs) as (c2&inv'&He2&Hok2&Hn2&Ha2&Hck2&Hq2);
      [congruence|done|eauto|congruence|rewrite Hw; unfold has_idle_workers; now apply Z.ltb_lt|].
    rewrite (M_bind_eq _ _ _ _ _ He2).
    assert (wq_inv [] (c_work_queue c2)) as Hinv2.
    { rewrite Hq2. now apply (wq_inv_activate [] key). }
    destruct (IH c2 Hinv2 Hok2) as (c3&He3&Hinv3&Hok3&Hp3&n&Hn&(Hs1&Hs2&Hs3)&Hidle3).
    { intros k i. rewrite Hq2. cbn. destruct (decide (k = key)) as [->|Hne].
      - rewrite lookup_insert_eq. intros [= <-]. congruence.
      - rewrite lookup_insert_ne by done. rewrite Hact. apply Hp. }
    { rewrite Hn2, Hw. lia. }
    exists c3. split; [done|]. split_and!; auto. exists (S n).
    assert (wq_pending (c_work_queue c2) = rest) as Hp2 by (rewrite Hq2; cbn; done).
    rewrite Hp2 in *. rewrite Hn2, Hw in *. cbn [length]. split_and!; [lia| |lia].
    assert (key ∉ rest) as Hnk.
    { destruct Hq as (Hnd&_). cbn in Hnd. rewrite Ep in Hnd. now apply list.NoDup_cons in Hnd as [? _]. }
    unfold started. rewrite Ep. cbn [take drop]. split_and!; [done| |].
    + intros k Hk. apply elem_of_cons in Hk as [->|Hk]; [|auto].
      rewrite Hs3.
      * rewrite Hq2. cbn. rewrite lookup_insert_eq. eauto.
      * intros Hk. apply Hnk. apply elem_of_take in Hk as (i&Hi&_). eapply list_elem_of_lookup_2; eauto.
    + intros k Hk. apply not_elem_of_cons in Hk as [Hne Hk]. rewrite Hs3 by done.
      rewrite Hq2. cbn. rewrite lookup_insert_ne by done. now rewrite Hact.
Qed.
End invariant.

(** ** What the workers receive *)
Section deliveries.
Context `{IpcChannelLaws} `{RemoteServer} `{EqualRange}.
Variable serialize_state_keys : list (string * Z) -> list byte.

(** the messages handed to the channel of worker [w] *)
Definition log_of (c : Controller) (w : nat) : option (list (mem * list byte)) :=
  (fun x => ipc_log (fw_ipc_write x)) <$> ws_workers (c_workers c) !! w.

(** the account of one send *)
Definition log_entry (msg : mem) (data : list Buffer) : mem * list byte :=
  (set_ipc_total_length (Z.of_nat (total_len data)) msg, concat (buffer_data <$> data)).

(** [c'] is [c] but for the write channels of the workers *)
Definition only_sends (c c' : Controller) : Prop :=
  c' = set_c_workers (c_workers c') c /\
  fw_busy <$> ws_workers (c_workers c') = fw_busy <$> ws_workers (c_workers c) /\
  ws_idle_workers (c_workers c') = ws_idle_workers (c_workers c).

Lemma only_sends_refl c : only_sends c c.
Proof. split_and!; auto. now destruct c. Qed.

Lemma only_sends_trans c1 c2 c3 : only_sends c1 c2 -> only_sends c2 c3 -> only_sends c1 c3.
Proof.
  intros (H12&Hb12&Hi12) (H23&Hb23&Hi23). split_and!; [|congruence|congruence].
  rewrite H23, H12. done.
Qed.

Lemma send_to_log w msg data c c' :
  send_to w msg data c = (Ret tt, c') ->
  only_sends c c' /\ is_Some (log_of c w) /\
  forall k, log_of c' k = (fun l => l ++ (if decide (k = w) then [log_entry msg data] else [])) <$> log_of c k.
Proof.
  unfold send_to, on_workers, zoom, worker_send.
  destruct (ws_workers (c_workers c) !! w) as [worker|] eqn:Hw; [|done].
  destruct (ipc_send msg data (fw_ipc_write worker)) as [r ch] eqn:Es. intros [= -> <-].
  apply ipc_send_log in Es. pose proof (lookup_lt_Some _ _ _ Hw) as Hlt. unfold only_sends; cbn.
  split_and!; auto.
  - rewrite list_fmap_insert. apply list_insert_id. now rewrite list_lookup_fmap, Hw.
  - unfold log_of. rewrite Hw. eauto.
  - intros k. unfold log_of; cbn. destruct (decide (k = w)) as [->|Hne].
    + rewrite list_lookup_insert_eq, Hw by done. cbn. now rewrite Es.
    + rewrite list_lookup_insert_ne by done. destruct (ws_workers (c_workers c) !! k); cbn; [|done].
      now rewrite app_nil_r.
Qed.

(** where the channels take every message, sending to a worker of the
    process succeeds *)
Lemma send_to_ok w msg data c :
  sends_succeed -> is_Some (log_of c w) -> exists c', send_to w msg data c = (Ret tt, c').
Proof.
  intros Hs [l Hl]. apply fmap_Some in Hl as (worker&Hw&_).
  unfold send_to, on_workers, zoom, worker_send. rewrite Hw.
  destruct (Hs msg data (fw_ipc_write worker)) as [ch ->]. eauto.
Qed.

Lemma send_to_log_some w msg data c c' k :
  send_to w msg data c = (Ret tt, c') -> is_Some (log_of c k) -> is_Some (log_of c' k).
Proof. intros Hs [l Hl]. apply send_to_log in Hs as (_&_&Hlog). rewrite Hlog, Hl. eauto. Qed.

Lemma for_each_send_ok msg data l : sends_succeed -> forall c,
  Forall (fun w => is_Some (log_of c w)) l ->
  exists c', for_each (fun w => send_to w msg data) l c = (Ret tt, c').
Proof.
  intros Hs. induction l as [|w l IH]; intros c Hl; cbn [for_each]; [eauto|].
  apply List.Forall_cons_iff in Hl as [Hw Hl]. destruct (send_to_ok w msg data c Hs Hw) as [c1 Hc1].
  destruct (IH c1) as [c' Hc'].
  - eapply List.Forall_impl; [|exact Hl]. intros k. now apply send_to_log_some with (1 := Hc1).
  - exists c'. erewrite M_bind_eq by exact Hc1. exact Hc'.
Qed.

Lemma replicate_add_one {A} n (x : A) : replicate n x ++ [x] = x :: replicate n x.
Proof. induction n as [|n IH]; cbn; [done|]. now rewrite IH. Qed.

(** how often [w] occurs in [l] *)
Definition occurrences (w : nat) (l : list nat) : nat := length (filter (.= w) l).

#[local] Arguments occurrences : simpl never.

Lemma occurrences_cons w x l :
  occurrences w (x :: l) = (if decide (x = w) then 1 else 0) + occurrences w l.
Proof. unfold occurrences. rewrite filter_cons. case_decide; done. Qed.

Lemma for_each_send_log msg data l : forall c c',
  for_each (fun w => send_to w msg data) l c = (Ret tt, c') ->
  only_sends c c' /\
  forall k, log_of c' k = (fun x => x ++ replicate (occurrences k l) (log_entry msg data)) <$> log_of c k.
Proof.
  induction l as [|w l IH]; intros c c'; cbn [for_each].
  - intros [= <-]. split; [apply only_sends_refl|]. intros k. cbn. destruct (log_of c k); cbn; [|done].
    now rewrite app_nil_r.
  - intros ([]&c1&Hs&Hr)%M_bind_ret. apply send_to_log in Hs as (Ho1&_&Hl1). apply IH in Hr as (Ho2&Hl2).
    split; [eapply only_sends_trans; eauto|]. intros k. rewrite Hl2, Hl1.
    destruct (log_of c k) as [x|]; cbn; [|done]. f_equal. rewrite occurrences_cons.
    destruct (decide (w = k)), (decide (k = w)); try congruence; cbn; rewrite <-app_assoc; done.
Qed.

Lemma buffer_data_of_accessor a : buffer_data (buffer_of_accessor a) = accessor_data a.
Proof. done. Qed.

(** [make_result] on views of a parsed message *)
Lemma make_result_ok id code len m :
  cview IPC_ID_LENGTH id -> i32_range code -> i32_range (Z.of_nat len) ->
  exists r, make_result id code len = Ret r /\
    (m = set_ipc_total_length (Z.of_nat len) (irs_msg r) ->
     exists x, parse_message m = Ret (VInvocationResultParsed x) /\ sv_str (ipc_result_id x) = sv_str id /\
       ipc_return_code x = code /\ ipc_buffer_length x = Z.of_nat len /\ ipc_total_length m = Z.of_nat len).
Proof.
  intros Hid Hc Hl. unfold make_result, set_ipc_result_id. ipc_build. rewrite wrap_i32_id by done.
  eexists. split; [reflexivity|]. cbn. intros ->. unfold set_ipc_total_length.
  ipc_parse IPC_INVOCATION_RESULT.
  unfold ipc_result_id, ipc_buffer_length, ipc_return_code, ipc_total_length; cbn. rewrite sv_str_sv_at.
  ipc_read. rewrite !ipc_signed_le_bytes by done. auto.
Qed.

(** [make_get_reply] on views of a parsed message *)
Lemma make_get_reply_ok pid name len m :
  cview IPC_NAME_LENGTH pid -> cview IPC_NAME_LENGTH name ->
  exists r, make_get_reply pid name = Ret r /\
    (m = set_ipc_total_length len (gr_msg r) ->
     exists x, parse_message m = Ret (VGetRequestParsed x) /\ sv_str (generic_name x) = sv_str name /\
       sv_str (generic_process_id x) = sv_str pid).
Proof.
  intros Hp Hn. unfold make_get_reply, set_generic_process_id, set_generic_name. ipc_build.
  eexists. split; [reflexivity|]. cbn. intros ->. unfold set_ipc_total_length, GetRequest, GenericRequest_ctor. cbn.
  ipc_parse IPC_GET_REQUEST.
  unfold generic_process_id, generic_name; cbn. rewrite (sv_str_sv_at (IPC_HEADER_OFFSET + 4)).
  replace (IPC_HEADER_OFFSET + 4 + IPC_NAME_LENGTH)
    with (IPC_HEADER_OFFSET + IPC_NAME_LENGTH + 4) by (unfold_ipc_layout; lia).
  rewrite sv_str_sv_at. ipc_read. auto.
Qed.
(** ** Results *)

Lemma log_of_finish w c k : log_of (set_c_workers (workers_finish w (c_workers c)) c) k = log_of c k.
Proof.
  unfold log_of; cbn. destruct (decide (k = w)) as [->|Hne].
  - rewrite list_lookup_alter_eq. destruct (ws_workers (c_workers c) !! w); done.
  - now rewrite list_lookup_alter_ne.
Qed.

(** where a result goes *)
Definition result_delivered (source : InvocationSource) (id : string_view) (code : Z)
    (payload : BufferAccessor) (c c' : Controller) : Prop :=
  if is_remote source then
    exists s s', c_server c = Some s /\ c_server c' = Some s' /\
      srv_invocation_result (src_type source) (src_process source) id code payload s = (Ret tt, s') /\
      (forall k, log_of c' k = log_of c k) /\ c_pending_msgs c' = c_pending_msgs c
  else
    exists m x, parse_message m = Ret (VInvocationResultParsed x) /\
      sv_str (ipc_result_id x) = sv_str id /\ ipc_return_code x = code /\
      ipc_buffer_length x = Z.of_nat (acc_len payload) /\
      (forall k, log_of c' k = (fun l => l ++ replicate
         (occurrences k (pm_worker <$> equal_range (sv_str id) (c_pending_msgs c)))
         (m, accessor_data payload)) <$> log_of c k) /\
      c_server c' = c_server c /\ equal_range (sv_str id) (c_pending_msgs c') = [].

Lemma process_result_source_spec source id code payload c c' :
  cview IPC_ID_LENGTH id -> i32_range code -> i32_range (Z.of_nat (acc_len payload)) ->
  process_result_source source id code payload c = (Ret tt, c') ->
  result_delivered source id code payload c c' /\
  c_work_queue c' = c_work_queue c /\ c_mailbox c' = c_mailbox c /\
  fw_busy <$> ws_workers (c_workers c') = fw_busy <$> ws_workers (c_workers c) /\
  ws_idle_workers (c_workers c') = ws_idle_workers (c_workers c).
Proof.
  intros Hid Hcode Hlen. unfold process_result_source, result_delivered. destruct (is_remote source).
  - unfold on_server. destruct (c_server c) as [s|] eqn:Es; [|done].
    destruct (srv_invocation_result _ _ _ _ _ s) as [r s'] eqn:Er. intros [= -> <-]. cbn.
    split; [|done]. exists s, s'. split_and!; auto.
  - intros (ws&c1&Ht&Hr)%M_bind_ret. unfold take_invocation, find_invocation in Ht. injection Ht as <- <-.
    apply M_bind_ret in Hr as (res&c2&Hl&Hr). injection Hl as Hres <-.
    destruct (make_result_ok id code (acc_len payload)
      (set_ipc_total_length (Z.of_nat (acc_len payload)) (irs_msg res)) Hid Hcode Hlen) as (res'&Hres'&Hm).
    rewrite Hres' in Hres. injection Hres as ->. destruct (Hm eq_refl) as (x&Hp&Hx1&Hx2&Hx3&_).
    apply for_each_send_log in Hr as ((Heq&Hb&Hi)&Hlog). cbn [c_workers set_c_pending_msgs] in *.
    split.
    + exists (set_ipc_total_length (Z.of_nat (acc_len payload)) (irs_msg res)), x. split_and!; auto.
      * intros k. rewrite Hlog. unfold log_entry. cbn [total_len foldr buffer_of_accessor buf_len fmap list_fmap concat].
        rewrite Nat.add_0_r, app_nil_r. done.
      * rewrite Heq. done.
      * rewrite Heq. cbn. rewrite equal_range_delete, decide_True by done. done.
    + rewrite Heq. cbn. auto.
Qed.

(** whoever asked can be told: the server takes the result, or the channels of
    the workers that wait for it do *)
Definition source_takes (source : InvocationSource) (id : string_view) (code : Z)
    (payload : BufferAccessor) (c : Controller) : Prop :=
  if is_remote source then
    exists s s', c_server c = Some s /\
      srv_invocation_result (src_type source) (src_process source) id code payload s = (Ret tt, s')
  else
    sends_succeed /\
    Forall (fun w => is_Some (log_of c w)) (pm_worker <$> equal_range (sv_str id) (c_pending_msgs c)).

Lemma process_result_source_ok source id code payload c :
  cview IPC_ID_LENGTH id -> i32_range code -> i32_range (Z.of_nat (acc_len payload)) ->
  source_takes source id code payload c ->
  exists c', process_result_source source id code payload c = (Ret tt, c').
Proof.
  intros Hid Hcode Hlen. unfold source_takes, process_result_source. destruct (is_remote source).
  - intros (s&s'&Hs&Hr). unfold on_server. rewrite Hs, Hr. eauto.
  - intros [Hs Hl]. destruct (make_result_ok id code (acc_len payload) [] Hid Hcode Hlen) as (r&Hr&_).
    erewrite M_bind_eq by reflexivity. erewrite M_bind_eq by (unfold lift; now rewrite Hr).
    now apply for_each_send_ok.
Qed.

(** C11: the result of an invocation goes where the invocation came from: to the
    TCP server, with the kind and the name of the remote caller, or - for a
    local caller - exactly once to the channel of every worker that waits for
    it, in a message from which the identifier, the return code and the length
    of the payload can be read back; nobody else gets it.  The handler succeeds
    when the server or these channels take the result; the invocation is then
    forgotten, so that its key can be used again, and the worker is idle. *)
Theorem result_reaches_source worker id code payload inv c :
  cview IPC_ID_LENGTH id -> i32_range code -> i32_range (Z.of_nat (acc_len payload)) ->
  wq_active (c_work_queue c) !! sv_str id = Some inv -> inv_active inv = true ->
  source_takes (inv_source inv) id code payload c ->
  exists c', process_result_worker worker id code payload c = (Ret tt, c') /\
    result_delivered (inv_source inv) id code payload c c' /\
    wq_active (c_work_queue c') = delete (sv_str id) (wq_active (c_work_queue c)) /\
    wq_pending (c_work_queue c') = wq_pending (c_work_queue c) /\
    fw_busy <$> ws_workers (c_workers c') = alter (fun _ => false) worker (fw_busy <$> ws_workers (c_workers c)) /\
    ws_idle_workers (c_workers c') = (ws_idle_workers (c_workers c) + 1)%Z.
Proof.
  intros Hid Hcode Hlen Hinv Ha Ht. unfold process_result_worker.
  erewrite M_bind_eq by (unfold take_finished, finish; rewrite Hinv, Ha; reflexivity).
  set (c1 := set_c_work_queue _ c).
  destruct (process_result_source_ok (inv_source inv) id code payload c1) as [c2 Hs]; [done..|].
  erewrite M_bind_eq by exact Hs. eexists. split; [reflexivity|].
  apply process_result_source_spec in Hs as (Hd&Hq&_&Hb&Hi); [|done..].
  cbn in Hq, Hb, Hi |- *. rewrite Hq. cbn. split_and!; auto.
  - revert Hd. unfold result_delivered. destruct (is_remote (inv_source inv)).
    + intros (s&s'&?&?&?&Hl&?). exists s, s'. split_and!; auto. intros k. rewrite log_of_finish. apply Hl.
    + intros (m&x&?&?&?&?&Hl&?&?). exists m, x. split_and!; auto. intros k. rewrite log_of_finish. apply Hl.
  - rewrite <-Hb. apply list_eq. intros i. rewrite list_lookup_fmap. destruct (decide (i = worker)) as [->|Hne].
    + rewrite !list_lookup_alter_eq, list_lookup_fmap. destruct (ws_workers (c_workers c2) !! worker); done.
    + rewrite !list_lookup_alter_ne, list_lookup_fmap by done. done.
  - now rewrite Hi.
Qed.

(** ** Requests from outside *)


(** ** Messages between functions: put and get *)

(** only worker [w] got something: the message [m] with the payload [data] *)
Definition only_reply (w : nat) (m : mem) (data : list byte) (c c' : Controller) : Prop :=
  forall k, log_of c' k = (fun l => l ++ (if decide (k = w) then [(m, data)] else [])) <$> log_of c k.

(** [greq] asks, in process [pid], for the message [name] that [preq] sends to the same process *)
Definition get_matches_put (pid name : string) (greq preq : GenericRequest) : Prop :=
  sv_str (generic_name greq) = name /\ sv_str (generic_name preq) = name /\
  generic_state greq = false /\ generic_state preq = false /\
  get_source pid greq = pid /\
  (sv_str (generic_process_id preq) = SELF_PROCESS \/ sv_str (generic_process_id preq) = pid) /\
  cview IPC_NAME_LENGTH (generic_name greq) /\ cview IPC_NAME_LENGTH (generic_name preq) /\
  cview IPC_NAME_LENGTH (generic_process_id greq) /\ cview IPC_NAME_LENGTH (sv_of_string pid).

(** the reply is a get message with the name *)
Definition is_get_reply (name : string) (m : mem) : Prop :=
  exists x, parse_message m = Ret (VGetRequestParsed x) /\ sv_str (generic_name x) = name.

Lemma send_reply_spec w pid name payload c :
  sends_succeed -> is_Some (log_of c w) -> cview IPC_NAME_LENGTH pid -> cview IPC_NAME_LENGTH name ->
  exists c' m,
    (return_req ← lift (make_get_reply pid name); send_to w (gr_msg return_req) [payload]) c = (Ret tt, c') /\
    is_get_reply (sv_str name) m /\ only_reply w m (buffer_data payload) c c' /\ only_sends c c'.
Proof.
  intros Hs Hw Hp Hn. destruct (make_get_reply_ok pid name 0 [] Hp Hn) as (r&Hr&_).
  destruct (make_get_reply_ok pid name (Z.of_nat (buf_len payload))
    (set_ipc_total_length (Z.of_nat (buf_len payload)) (gr_msg r)) Hp Hn) as (r'&Hr'&Hm).
  rewrite Hr in Hr'. injection Hr' as <-. destruct (Hm eq_refl) as (x&Hx&Hxn&_).
  destruct (send_to_ok w (gr_msg r) [payload] c Hs Hw) as [c' Hc'].
  exists c'. eexists. split; [erewrite M_bind_eq by (unfold lift; now rewrite Hr); exact Hc'|].
  split; [exists x; split; [exact Hx|exact Hxn]|]. apply send_to_log in Hc' as (Ho&_&Hlog).
  split; [|done]. intros k. rewrite Hlog. unfold log_entry.
  cbn [total_len foldr fmap list_fmap concat]. now rewrite Nat.add_0_r, app_nil_r.
Qed.

Lemma process_put_self now pid name preq payload c :
  c_process_id c = pid -> generic_state preq = false -> sv_str (generic_name preq) = name ->
  (sv_str (generic_process_id preq) = SELF_PROCESS \/ sv_str (generic_process_id preq) = pid) ->
  process_put now preq payload c =
  (pending_worker ← take_pending_get name pid;
   match pending_worker with
   | Some w => return_req ← lift (make_get_reply (sv_of_string pid) (generic_name preq));
               send_to w (gr_msg return_req) [payload]
   | None => _ ← mailbox_put name pid payload; mret tt
   end) c.
Proof.
  intros Hpid Hst Hn Hp. unfold process_put. erewrite M_bind_eq by reflexivity.
  rewrite Hst, Hpid. rewrite decide_True by done. now rewrite Hn.
Qed.

Lemma process_get_message w pid name greq c :
  c_process_id c = pid -> generic_state greq = false -> sv_str (generic_name greq) = name ->
  get_source pid greq = pid ->
  process_get w greq c =
  (buf ← mailbox_try_get name pid;
   match buf with
   | Some b => return_req ← lift (make_get_reply (generic_process_id greq) (generic_name greq));
               send_to w (gr_msg return_req) [b]
   | None => add_pending_get name pid w
   end) c.
Proof.
  intros Hpid Hst Hn Hs. unfold process_get. erewrite M_bind_eq by reflexivity.
  rewrite Hst, Hpid, Hs. now rewrite Hn.
Qed.

(** nothing under the name is around, for a process *)
Definition nothing_waits (pid name : string) (c : Controller) : Prop :=
  st_msgs (c_mailbox c) !! name = None /\ Forall (fun x => ~ answers pid x) (equal_range name (c_pending_msgs c)).

(** the first of the two requests is remembered *)
Lemma process_get_waits w pid name greq c :
  c_process_id c = pid -> generic_state greq = false -> sv_str (generic_name greq) = name ->
  get_source pid greq = pid -> st_msgs (c_mailbox c) !! name = None ->
  process_get w greq c = (Ret tt, set_c_pending_msgs (insert_get name pid w (c_pending_msgs c)) c).
Proof.
  intros Hpid Hst Hn Hs Hmsg. rewrite (process_get_message w pid name) by done.
  unfold mailbox_try_get, try_get, add_pending_get, mbind, M_bind. rewrite Hmsg. cbn. now destruct c.
Qed.

Lemma process_put_waits now pid name preq payload c :
  c_process_id c = pid -> generic_state preq = false -> sv_str (generic_name preq) = name ->
  (sv_str (generic_process_id preq) = SELF_PROCESS \/ sv_str (generic_process_id preq) = pid) ->
  nothing_waits pid name c ->
  process_put now preq payload c =
  (Ret tt, set_c_mailbox (MkStore (<[name := MkStored pid (move_buffer payload).1]> (st_msgs (c_mailbox c)))
                            (st_state_keys (c_mailbox c))) c).
Proof.
  intros Hpid Hst Hn Hself [Hmsg Hpend]. rewrite (process_put_self now pid name) by done.
  destruct (find_get_spec name pid (c_pending_msgs c)) as [(m&rest&Ha&Hperm&_)|[_ Hf]].
  { exfalso. assert (m ∈ equal_range name (c_pending_msgs c)) as Hin by (rewrite Hperm; now left).
    exact (proj1 (list.Forall_forall _ _) Hpend m Hin Ha). }
  unfold take_pending_get, mailbox_put, store_put, mbind, M_bind. rewrite Hf. cbn. rewrite Hmsg.
  destruct payload; done.
Qed.

(** the second one is answered *)
Lemma process_put_answers now pid name w preq payload p c :
  sends_succeed -> is_Some (log_of c w) ->
  c_process_id c = pid -> generic_state preq = false -> sv_str (generic_name preq) = name ->
  (sv_str (generic_process_id preq) = SELF_PROCESS \/ sv_str (generic_process_id preq) = pid) ->
  cview IPC_NAME_LENGTH (generic_name preq) -> cview IPC_NAME_LENGTH (sv_of_string pid) ->
  Forall (fun x => ~ answers pid x) (equal_range name p) -> c_pending_msgs c = insert_get name pid w p ->
  exists c' m, process_put now preq payload c = (Ret tt, c') /\
    is_get_reply name m /\ only_reply w m (buffer_data payload) c c' /\
    c_mailbox c' = c_mailbox c /\ equal_range name (c_pending_msgs c') ≡ₚ equal_range name p.
Proof.
  intros Hs Hw Hpid Hst Hn Hself Hv Hvp Hpend Hp. rewrite (process_put_self now pid name) by done.
  set (entry := {| pm_type := PENDING_GET; pm_source := pid; pm_worker := w |}).
  assert (equal_range name (c_pending_msgs c) ≡ₚ entry :: equal_range name p) as Hrange.
  { rewrite Hp. unfold insert_get, emplace_pending. rewrite equal_range_insert, decide_True by done.
    apply range_insert_perm. }
  destruct (find_get_spec name pid (c_pending_msgs c)) as [(e&rest&Ha&Hperm&Hw0&Hrest&_)|[Hnone _]].
  2:{ exfalso. rewrite Hrange in Hnone. apply List.Forall_cons_iff in Hnone as [Hno _].
      apply Hno. split; [by right|done]. }
  assert (e = entry) as ->.
  { assert (e ∈ entry :: equal_range name p) as [->|Hin]%elem_of_cons by (rewrite <-Hrange, Hperm; now left);
      [done|]. exfalso. exact (proj1 (list.Forall_forall _ _) Hpend e Hin Ha). }
  destruct (find_get name pid (c_pending_msgs c)) as [ow q] eqn:Ef. cbn in Hw0, Hrest. subst ow.
  erewrite M_bind_eq by (unfold take_pending_get; now rewrite Ef). cbn [pm_worker entry].
  destruct (send_reply_spec w (sv_of_string pid) (generic_name preq) payload (set_c_pending_msgs q c))
    as (c'&m&Hc'&Hm&Hlog&Ho&_); [done..|]. rewrite Hn in Hm.
  exists c', m. split_and!; [exact Hc'|exact Hm|exact Hlog|now rewrite Ho|]. rewrite Ho. cbn.
  rewrite Hrest. rewrite Hrange in Hperm. apply Permutation_cons_inv in Hperm. now symmetry.
Qed.

Lemma process_get_answers pid name w greq b c :
  sends_succeed -> is_Some (log_of c w) ->
  c_process_id c = pid -> generic_state greq = false -> sv_str (generic_name greq) = name ->
  get_source pid greq = pid ->
  cview IPC_NAME_LENGTH (generic_name greq) -> cview IPC_NAME_LENGTH (generic_process_id greq) ->
  st_msgs (c_mailbox c) !! name = Some (MkStored pid b) ->
  exists c' m, process_get w greq c = (Ret tt, c') /\
    is_get_reply name m /\ only_reply w m (buffer_data b) c c' /\
    st_msgs (c_mailbox c') = delete name (st_msgs (c_mailbox c)) /\ c_pending_msgs c' = c_pending_msgs c.
Proof.
  intros Hs Hw Hpid Hst Hn Hsrc Hv Hvp Hmsg. rewrite (process_get_message w pid name) by done.
  erewrite M_bind_eq by (unfold mailbox_try_get, try_get; rewrite Hmsg; cbn;
                         rewrite decide_False by tauto; reflexivity).
  edestruct (send_reply_spec w (generic_process_id greq) (generic_name greq) (move_buffer b).1)
    as (c'&m&Hc'&Hm&Hlog&Ho&_); [done| |done..|]; [|rewrite Hn in Hm; exists c', m; split_and!;
      [exact Hc'|exact Hm| |now rewrite Ho|now rewrite Ho]].
  - exact Hw.
  - destruct b; exact Hlog.
Qed.

(** C26: a message meets the function that asks for it, in either order.  If no
    message and no request under the name is around, and the worker's channel
    takes the reply, then a get followed by a put, and a put followed by a
    get, both end with exactly one reply, to the worker that asked, with the
    payload of the put, and leave neither the message nor the request behind. *)
Theorem get_and_put_meet pid name w greq preq payload now c :
  sends_succeed -> is_Some (log_of c w) ->
  c_process_id c = pid -> get_matches_put pid name greq preq -> nothing_waits pid name c ->
  (exists c' m, (process_get w greq ≫= fun _ => process_put now preq payload) c = (Ret tt, c') /\
     is_get_reply name m /\ only_reply w m (buffer_data payload) c c' /\
     st_msgs (c_mailbox c') = st_msgs (c_mailbox c) /\
     equal_range name (c_pending_msgs c') ≡ₚ equal_range name (c_pending_msgs c)) /\
  (exists c' m, (process_put now preq payload ≫= fun _ => process_get w greq) c = (Ret tt, c') /\
     is_get_reply name m /\ only_reply w m (buffer_data payload) c c' /\
     st_msgs (c_mailbox c') = st_msgs (c_mailbox c) /\ c_pending_msgs c' = c_pending_msgs c).
Proof.
  intros Hs Hw Hpid (Hgn&Hpn&Hgs&Hps&Hsrc&Hself&Hv1&Hv2&Hv3&Hv4) [Hmsg Hpend]. split.
  - destruct (process_put_answers now pid name w preq payload (c_pending_msgs c)
      (set_c_pending_msgs (insert_get name pid w (c_pending_msgs c)) c))
      as (c'&m&Hc'&Hm&Hlog&Hb&Hp); [done..|]. exists c', m. split_and!; [|done|exact Hlog|now rewrite Hb|done].
    erewrite M_bind_eq by (apply (process_get_waits w pid name); done). exact Hc'.
  - set (s := MkStore (<[name := MkStored pid (move_buffer payload).1]> (st_msgs (c_mailbox c)))
                (st_state_keys (c_mailbox c))).
    destruct (process_get_answers pid name w greq (move_buffer payload).1 (set_c_mailbox s c))
      as (c'&m&Hc'&Hm&Hlog&Hb&Hp); [try done..|]; [cbn; now rewrite lookup_insert_eq|].
    exists c', m. split_and!; [|done| |rewrite Hb; cbn; now apply delete_insert_id|done].
    + erewrite M_bind_eq by (apply (process_put_waits now pid name); done). exact Hc'.
    + destruct payload; exact Hlog.
Qed.

(** ** Two invocations with one key *)

(** While a local invocation runs, a second local request with the same
    key does harm: it is refused, but the refusal is sent to the worker
    that waits for the first one - which sees return code -1 - and that
    worker is taken off the list, so that the result of the first invocation
    reaches nobody. *)
Theorem duplicate_key_steals_reply w1 w2 req payload inv c c1 code result c2 :
  names_fit (sv_str (ipc_function_name req)) (sv_str (ipc_invocation_id req)) ->
  cview IPC_ID_LENGTH (ipc_invocation_id req) ->
  sv_str (ipc_process_id req) = SELF_PROCESS ->
  wq_active (c_work_queue c) !! sv_str (ipc_invocation_id req) = Some inv ->
  inv_active inv = true -> is_remote (inv_source inv) = false ->
  (exists e, equal_range (sv_str (ipc_invocation_id req)) (c_pending_msgs c) = [e] /\ pm_worker e = w1) ->
  w1 <> w2 ->
  process_invocation w2 req payload c = (Ret tt, c1) ->
  i32_range code -> i32_range (Z.of_nat (acc_len result)) ->
  process_result_worker w2 (ipc_invocation_id req) code result c1 = (Ret tt, c2) ->
  (exists m x d, log_of c1 w1 = (fun l => l ++ [(m, d)]) <$> log_of c w1 /\
     parse_message m = Ret (VInvocationResultParsed x) /\
     sv_str (ipc_result_id x) = sv_str (ipc_invocation_id req) /\ ipc_return_code x = (-1)%Z) /\
  (forall k, log_of c2 k = log_of c1 k).
Proof.
  intros Hn Hcv Hself Hact Ha Hloc (e&He&Hw1) Hne Hp Hcode Hlen Hres.
  unfold process_invocation in Hp. erewrite M_bind_eq in Hp by reflexivity.
  erewrite M_bind_eq in Hp by reflexivity. rewrite decide_True in Hp by (left; done).
  apply M_bind_ret in Hp as (res&c0&Hadd&Hp).
  pose proof (add_payload_cases _ _ payload from_local (c_work_queue c) Hn) as Hc. rewrite Hact, Ha in Hc.
  destruct Hc as [msg Hc]. unfold on_queue, zoom in Hadd. cbn in Hadd. rewrite Hc in Hadd.
  injection Hadd as <- <-.
  assert (exists n, acc_len (accessor_of_string msg) = n) as [n Hmn] by eauto.
  assert (i32_range (Z.of_nat (acc_len (accessor_of_string msg)))) as Hml.
  { unfold add_payload in Hc. rewrite Hact, Ha in Hc.
    destruct (get_trigger _ _).
    - destruct (Invocation_ctor _ _ _ _); [|done|done].
      injection Hc as <-. unfold i32_range. vm_compute. split; congruence.
    - injection Hc as <-. unfold i32_range. vm_compute. split; congruence. }
  apply process_result_source_spec in Hp as (Hd&Hq1&_); [|done|unfold i32_range; lia|done].
  unfold result_delivered in Hd. cbn [is_remote from_local src_type] in Hd.
  destruct Hd as (m&x&Hpm&Hx1&Hx2&_&Hlog&_&Hempty). cbn in Hq1.
  assert (Hocc : occurrences w1 (pm_worker <$> equal_range (sv_str (ipc_invocation_id req))
    (insert_invocation (sv_str (ipc_invocation_id req)) w2 (c_pending_msgs c))) = 1).
  { unfold insert_invocation, emplace_pending. rewrite equal_range_insert, decide_True by done. rewrite He.
    unfold occurrences. rewrite range_insert_perm. cbn [fmap list_fmap pm_worker].
    rewrite !filter_cons, decide_False, decide_True by done. done. }
  split.
  - exists m, x, (accessor_data (accessor_of_string msg)). split_and!; auto.
    rewrite Hlog. cbn [c_pending_msgs set_c_work_queue set_c_pending_msgs]. rewrite Hocc. done.
  - intros k. unfold process_result_worker in Hres.
    apply M_bind_ret in Hres as (invoc&c3&Ht&Hr). unfold take_finished, finish in Ht.
    rewrite Hq1 in Ht. rewrite Hact, Ha in Ht. injection Ht as <- <-.
    apply M_bind_ret in Hr as ([]&c4&Hs&Hr). injection Hr as <-. rewrite log_of_finish.
    apply process_result_source_spec in Hs as (Hd&_); [|done..].
    unfold result_delivered in Hd. rewrite Hloc in Hd.
    destruct Hd as (m'&x'&_&_&_&_&Hlog'&_). rewrite Hlog'. cbn [c_pending_msgs set_c_work_queue].
    rewrite Hempty. change (occurrences k (pm_worker <$> [])) with 0. cbn.
    change (log_of (set_c_work_queue (set_wq_active (delete (sv_str (ipc_invocation_id req))
      (wq_active (c_work_queue c))) (c_work_queue c)) c1) k) with (log_of c1 k).
    destruct (log_of c1 k); cbn; [now rewrite app_nil_r|done].
Qed.

(** ** Application updates *)

(** a message from which the update can be read back *)
Definition describes (u : ApplicationUpdate) (m : mem) : Prop :=
  exists x, parse_message m = Ret (VApplicationUpdateParsed x) /\
    sv_str (ipc_update_process_id x) = upd_process_id u /\ ipc_status_change x = Status_to_Z (upd_status u).

Lemma occurrences_seq w : forall n a, occurrences w (seq a n) = if decide (a <= w < a + n) then 1 else 0.
Proof.
  induction n as [|n IH]; intros a; cbn [seq].
  - rewrite decide_False by lia. done.
  - rewrite occurrences_cons, IH.
    destruct (decide (a = w)), (decide (S a <= w < S a + n)), (decide (a <= w < a + S n)); lia.
Qed.

(** the bytes of an update, written over those of the previous one *)
Lemma update_message_ok u d :
  length d = IPC_BUF_SIZE -> read_i16 0 d = IpcType_to_Z IPC_APPLICATION_UPDATE ->
  cview IPC_NAME_LENGTH (sv_of_string (upd_process_id u)) -> i32_range (Status_to_Z (upd_status u)) ->
  let d1 := write_i32 (IPC_HEADER_OFFSET + IPC_NAME_LENGTH) (Status_to_Z (upd_status u))
              (write_at IPC_HEADER_OFFSET (pad IPC_NAME_LENGTH (sv_of_string (upd_process_id u))) d) in
  length d1 = IPC_BUF_SIZE /\ read_i16 0 d1 = IpcType_to_Z IPC_APPLICATION_UPDATE /\
  describes u (set_ipc_total_length 0 d1).
Proof.
  intros Hlen Hty Hv Hst. unfold write_i32. unfold_ipc_layout. unfold IPC_BUF_SIZE in *.
  assert (length (pad 32 (sv_of_string (upd_process_id u))) = 32) as Hp by exact (length_pad _ _ Hv).
  set (v := pad 32 (sv_of_string (upd_process_id u))) in *. set (z := Status_to_Z (upd_status u)) in *.
  assert (length (write_at 6 v d) = 128) as Hl1 by (rewrite length_write_at; lia).
  assert (length (write_at 38 (le_bytes 4 z) (write_at 6 v d)) = 128) as Hl2
    by (rewrite length_write_at; rewrite ?length_le_bytes; lia).
  assert (read_i16 0 (write_at 38 (le_bytes 4 z) (write_at 6 v d)) = IpcType_to_Z IPC_APPLICATION_UPDATE) as Ht3.
  { rewrite !ipc_read_type_write_at; rewrite ?length_le_bytes; try done; lia. }
  split; [done|]. split; [done|]. unfold set_ipc_total_length, write_i32.
  set (d1 := write_at 38 _ _) in *.
  assert (forall o n, 6 <= o -> bytes_at o n (write_at 2 (le_bytes 4 0) d1) = bytes_at o n d1) as Hfr.
  { intros o n Ho. apply bytes_at_write_at_disj; rewrite length_le_bytes; lia. }
  exists (ApplicationUpdateParsed (write_at 2 (le_bytes 4 0) d1)). split_and!.
  - rewrite (parse_message_typed _ IPC_APPLICATION_UPDATE); [done| |done].
    rewrite ipc_read_type_write_at; [done|lia|]. rewrite length_le_bytes. lia.
  - unfold ipc_update_process_id, ApplicationUpdateParsed; cbn. rewrite sv_str_sv_at.
    unfold field_text. unfold_ipc_layout. rewrite Hfr by lia. unfold d1.
    rewrite bytes_at_write_at_disj by (rewrite ?length_le_bytes; lia).
    rewrite bytes_at_write_at_same by lia. rewrite <-(sv_str_of_string (upd_process_id u)).
    unfold sv_str. f_equal. exact (cstr_pad _ _ Hv).
  - unfold ipc_status_change, ApplicationUpdateParsed; cbn. unfold read_i32. unfold_ipc_layout.
    rewrite Hfr by lia. unfold d1. rewrite bytes_at_write_at_same by (rewrite ?length_le_bytes; lia).
    now apply ipc_signed_le_bytes.
Qed.

Lemma send_updates_spec us : forall msg c c',
  length (iau_msg msg) = IPC_BUF_SIZE -> read_i16 0 (iau_msg msg) = IpcType_to_Z IPC_APPLICATION_UPDATE ->
  Forall (fun u => ipc_fits IPC_NAME_LENGTH (upd_process_id u) /\ i32_range (Status_to_Z (upd_status u))) us ->
  send_updates msg us c = (Ret tt, c') ->
  only_sends c c' /\
  exists ms, Forall2 describes us ms /\
    forall k, log_of c' k = (fun l => l ++ ((fun m => (m, [])) <$> ms)) <$> log_of c k.
Proof.
  induction us as [|u us IH]; intros msg c c' Hlen Hty Hus; cbn [send_updates].
  - intros [= <-]. split; [apply only_sends_refl|]. exists []. split; [constructor|].
    intros k. cbn. destruct (log_of c k); cbn; [now rewrite app_nil_r|done].
  - apply List.Forall_cons_iff in Hus as [[Hfit Hst] Hus]. apply ipc_cview_fits in Hfit.
    unfold set_ipc_update_process_id. rewrite set_string_field_ok by done. cbn.
    erewrite M_bind_eq by reflexivity. erewrite M_bind_eq by reflexivity.
    intros ([]&c1&Hs&Hr)%M_bind_ret. apply for_each_send_log in Hs as (Ho1&Hlog1).
    destruct (update_message_ok u (iau_msg msg) Hlen Hty Hfit Hst) as (Hlen1&Hty1&Hdesc).
    apply IH in Hr as (Ho2&ms&Hms&Hlog2); [|done..].
    split; [eapply only_sends_trans; eauto|]. eexists (_ :: ms). split; [constructor; [exact Hdesc|done]|].
    intros k. rewrite Hlog2, Hlog1. unfold log_of.
    destruct (ws_workers (c_workers c) !! k) as [worker|] eqn:Hk; cbn; [|done]. f_equal.
    pose proof (lookup_lt_Some _ _ _ Hk) as Hlt.
    rewrite occurrences_seq, decide_True by lia. cbn [replicate]. now rewrite <-app_assoc.
Qed.

(** The updates of the application reach every worker, each update once and
    all of them in order, in messages from which the process and its new status
    can be read back, and the controller's own view changes by the same
    updates. *)
Theorem application_updates_reach_all us c c' :
  Forall (fun u => ipc_fits IPC_NAME_LENGTH (upd_process_id u) /\ i32_range (Status_to_Z (upd_status u))) us ->
  process_application_updates us c = (Ret tt, c') ->
  c_application c' = apply_updates (c_application c) us /\
  exists ms, Forall2 describes us ms /\
    forall k, log_of c' k = (fun l => l ++ ((fun m => (m, [])) <$> ms)) <$> log_of c k.
Proof.
  intros Hus ([]&c1&Hs&Hr)%M_bind_ret. injection Hr as <-.
  apply send_updates_spec in Hs as ((Heq&_)&ms&Hms&Hlog); [|reflexivity|reflexivity|done].
  split; [cbn; rewrite Heq; done|]. exists ms. split; [done|]. intros k. apply Hlog.
Qed.

(** ** The polling thread *)

Lemma confirm_payload_ret key inv inv' :
  carries_key key inv -> confirm_payload inv = Ret inv' -> carries_key key inv'.
Proof.
  intros Hk Hc. assert (length (inv_payload inv) <= 13) as Hl.
  { destruct (le_lt_dec (length (inv_payload inv)) 13) as [|Hlt]; [done|exfalso].
    unfold confirm_payload, set_buffers in Hc. rewrite length_fmap in Hc.
    destruct (MAX_BUFFERS <? length (inv_payload inv)); [done|].
    rewrite store_i32s_overflow in Hc; [done|done|].
    destruct Hk as (_&_&Hlen). rewrite Hlen. cbn [length]. rewrite length_fmap.
    unfold IPC_BUF_SIZE. unfold_ipc_layout. lia. }
  destruct (confirm_payload_ok key inv Hk Hl) as (i&Hi&Hki&_). congruence.
Qed.

Lemma submit_key_inv key c c' :
  wq_inv [key] (c_work_queue c) -> submit_key key c = (Ret tt, c') -> wq_inv [] (c_work_queue c') /\
  c_external_queue c' = c_external_queue c.
Proof.
  intros Hq. unfold submit_key. destruct (wq_active (c_work_queue c) !! key) as [inv|] eqn:Ek; [|done].
  assert (carries_key key inv) as Hck by (destruct Hq as (_&_&Hc); eauto).
  unfold submit. destruct (has_idle_workers _); [|done].
  destruct (confirm_payload inv) as [i| |] eqn:Ec; [|done|done].
  destruct (get_idle_worker _); [|done].
  destruct (worker_send _ _ _ _) as [[[]| |] ws]; [|done|done]. intros [= <-]. cbn. split; [|done].
  apply (wq_inv_activate [] key (c_work_queue c) (activate i) Hq); [|done].
  apply carries_activate. eapply confirm_payload_ret; eauto.
Qed.

Lemma schedule_inv fuel : forall c c',
  queue_inv c -> schedule fuel c = (Ret tt, c') -> queue_inv c'.
Proof.
  induction fuel as [|fuel IH]; intros c c' [Hq He]; cbn [schedule]; erewrite M_bind_eq by reflexivity;
    (destruct (has_idle_workers (c_workers c)); [|intros [= <-]; done]); [done|].
  intros (invoc&c1&Hn&Hr)%M_bind_ret.
  destruct (wq_pending (c_work_queue c)) as [|key rest] eqn:Ep.
  - pose proof (next_spec [] _ Hq) as Hnx. rewrite Ep in Hnx.
    unfold on_queue, zoom in Hn. rewrite Hnx in Hn. injection Hn as <- <-. injection Hr as <-. done.
  - destruct (next_then_submit key rest c Hq Ep) as (inv&c2&He2&_&_&_&_&_&Hq2&Hc2).
    rewrite He2 in Hn. injection Hn as <- <-. apply M_bind_ret in Hr as ([]&c3&Hs&Hr).
    apply submit_key_inv in Hs as [Hq3 He3]; [|done].
    apply IH in Hr; [done|]. split; [done|]. rewrite He3, Hc2. exact He.
Qed.



(** the loop of [poll] ends on request and on a failure of [epoll_wait]
    with any [errno] but [EINVAL] - so an interruption by a signal, [EINTR],
    ends it, although the comment says that it should not. *)
Theorem poll_ends_on_interrupt now errno c :
  (poll_round serialize_state_keys now (EpollFailed errno) c = (Ret false, c) <->
     c_ending c = true \/ errno <> EINVAL) /\
  poll_round serialize_state_keys now (EpollFailed EINTR) c = (Ret false, c).
Proof.
  assert (forall e, c_ending c = true \/ e <> EINVAL ->
    poll_round serialize_state_keys now (EpollFailed e) c = (Ret false, c)) as Hend.
  { intros e He. unfold poll_round. erewrite M_bind_eq by reflexivity.
    destruct (c_ending c); [done|]. destruct He as [|He]; [done|].
    rewrite (proj2 (Z.eqb_neq _ _)) by done. done. }
  split; [|apply Hend; by right]. split; [|apply Hend].
  intros Hr. destruct (c_ending c) eqn:Ee; [by left|]. right. intros ->.
  unfold poll_round in Hr. erewrite M_bind_eq in Hr by reflexivity. rewrite Ee in Hr. cbn in Hr.
  apply M_bind_ret in Hr as ([]&c1&_&Hr). erewrite M_bind_eq in Hr by reflexivity.
  apply M_bind_ret in Hr as ([]&c2&_&Hr). done.
Qed.

(** ** Producers and the polling thread

    A producer - a thread of the TCP server - pushes a message and then
    signals; the polling thread, woken up, clears the counter and then takes
    the queue.  [wk_pushing]: producers between the two steps; [wk_reading]: the
    polling thread is between its two. *)
Record wake_system : Type := WakeSystem {
  wk_ctl : Controller;
  wk_pushing : nat;
  wk_reading : bool;
  wk_pushed : list ExternalMessage;
  wk_taken : list ExternalMessage;
}.

Inductive wake_step : wake_system -> wake_system -> Prop :=
  | wake_push m c c' n b pushed taken :
      push_external m c = (Ret tt, c') ->
      wake_step (WakeSystem c n b pushed taken) (WakeSystem c' (S n) b (pushed ++ [m]) taken)
  | wake_signal c c' n b pushed taken :
      signal c = (Ret tt, c') ->
      wake_step (WakeSystem c (S n) b pushed taken) (WakeSystem c' n b pushed taken)
  | wake_read c n pushed taken :
      (0 < c_event_fd c)%Z ->
      wake_step (WakeSystem c n false pushed taken) (WakeSystem (set_c_event_fd 0 c) n true pushed taken)
  | wake_take c n pushed taken :
      wake_step (WakeSystem c n true pushed taken)
        (WakeSystem (set_c_external_queue [] c) n false pushed (taken ++ c_external_queue c)).

Definition wake_inv (s : wake_system) : Prop :=
  wk_pushed s = wk_taken s ++ c_external_queue (wk_ctl s) /\ (0 <= c_event_fd (wk_ctl s))%Z /\
  (c_external_queue (wk_ctl s) <> [] ->
     (0 < c_event_fd (wk_ctl s))%Z \/ 0 < wk_pushing s \/ wk_reading s = true).

End deliveries.

(** ** Examples *)
Definition from_ret {A} (d : A) (o : outcome A) : A := match o with Ret a => a | _ => d end.

Definition sample_controller (q : WorkQueue) (p : PendingMessages) : Controller :=
  {| c_process_id := "P"; c_workers := sample_workers; c_external_queue := []; c_event_fd := 0;
     c_application := Application_empty; c_app_updates := []; c_work_queue := q;
     c_server := Some []; c_mailbox := MessageStore_empty; c_pending_msgs := p; c_ending := false |}.

(** the invocation "id" of "f" runs, and worker 1 waits for it *)
Definition running_queue : WorkQueue :=
  {| wq_pending := []; wq_active := {["id" := activate sample_invocation]}; wq_functions := sample_functions |}.
Definition running_pending : PendingMessages :=
  {["id" := [{| pm_type := PENDING_INVOCATION; pm_source := EmptyString; pm_worker := 1 |}]]}.
Definition running_controller : Controller := sample_controller running_queue running_pending.

Definition sample_request : InvocationRequest :=
  from_ret InvocationRequestData
    (r ← set_invocation_id (sv_of_string "id2") InvocationRequestData; set_function_name (sv_of_string "f") r).

Definition sample_ipc_request : IpcInvocationRequest :=
  InvocationRequestParsed (iir_msg (from_ret IpcInvocationRequest_ctor
    (r ← set_ipc_function_name (sv_of_string "f") IpcInvocationRequest_ctor;
     r ← set_ipc_invocation_id (sv_of_string "id") r;
     set_ipc_process_id (sv_of_string "SELF") r))).

Definition sample_get : GenericRequest :=
  from_ret GetRequest (r ← set_generic_process_id (sv_of_string "SELF") GetRequest;
                       set_generic_name (sv_of_string "msg") r).
Definition sample_put : GenericRequest :=
  from_ret PutRequest (r ← set_generic_process_id (sv_of_string "SELF") PutRequest;
                       set_generic_name (sv_of_string "msg") r).

Definition no_keys (l : list (string * Z)) : list byte := [].

Lemma cview_sample max s : bool_decide (no_nul s) = true -> (String.length s <=? max) = true ->
  cview max (sv_of_string s).
Proof. intros H1 H2. apply cview_of_string; [exact (bool_decide_eq_true_1 _ H1)|now apply Nat.leb_le]. Qed.

Lemma log_sends_succeed : sends_succeed.
Proof. intros msg data ch. eexists. reflexivity. Qed.

Lemma result_reaches_source_witness :
  let c := running_controller in
  let id := sv_of_string "id" in let p := accessor_of_string "ok" in
  exists c', process_result_worker 0 id 7 p c = (Ret tt, c') /\ result_delivered from_local id 7 p c c'.
Proof.
  intros c id p.
  destruct (result_reaches_source 0 id 7 p (activate sample_invocation) c) as (c'&E&Hd&_).
  - apply cview_sample; vm_compute; reflexivity.
  - unfold i32_range. lia.
  - unfold i32_range. cbn. lia.
  - vm_compute. reflexivity.
  - reflexivity.
  - split; [exact log_sends_succeed|]. vm_compute. constructor; [eexists; reflexivity|constructor].
  - exists c'. split; [exact E|exact Hd].
Defined.

Lemma running_queue_inv : wq_inv [] running_queue.
Proof.
  unfold wq_inv, running_queue; cbn. split_and!.
  - constructor.
  - intros key. split; [intros H; inversion H|]. intros (inv&Hinv&Ha).
    apply lookup_singleton_Some in Hinv as [<- <-]. done.
  - intros key inv Hinv. apply lookup_singleton_Some in Hinv as [<- <-].
    apply carries_activate, sample_invocation_carries.
Qed.


Lemma get_and_put_meet_witness :
  let c := sample_controller (WorkQueue_ctor sample_functions) ∅ in
  let b := buffer_of_bytes [x01; x02] in
  exists c' m, (process_get 0 sample_get ≫= fun _ => process_put 5 sample_put b) c = (Ret tt, c') /\
    is_get_reply "msg" m /\ only_reply 0 m [x01; x02] c c'.
Proof.
  intros c b.
  destruct (get_and_put_meet "P" "msg" 0 sample_get sample_put b 5 c log_sends_succeed) as [(c'&m&E&Hm&Hr&_) _].
  - eexists. reflexivity.
  - reflexivity.
  - unfold get_matches_put. split_and!; try (vm_compute; reflexivity); try (left; vm_compute; reflexivity).
    + apply (cview_sv_at (IPC_HEADER_OFFSET + IPC_NAME_LENGTH + 4) 32 (gr_msg sample_get)). vm_compute. lia.
    + apply (cview_sv_at (IPC_HEADER_OFFSET + IPC_NAME_LENGTH + 4) 32 (gr_msg sample_put)). vm_compute. lia.
    + apply (cview_sv_at (IPC_HEADER_OFFSET + 4) 32 (gr_msg sample_get)). vm_compute. lia.
    + apply cview_sample; vm_compute; reflexivity.
  - split; [reflexivity|constructor].
  - exists c', m. split; [exact E|]. split; [exact Hm|exact Hr].
Defined.

Lemma duplicate_key_steals_reply_witness :
  let c := running_controller in
  let id := ipc_invocation_id sample_ipc_request in
  let c1 := (process_invocation 0 sample_ipc_request buffer_null_value c).2 in
  let c2 := (process_result_worker 0 id 0 (accessor_of_string "ok") c1).2 in
  (exists m d, log_of c1 1 = (fun l => l ++ [(m, d)]) <$> log_of c 1) /\ log_of c2 1 = log_of c1 1.
Proof.
  intros c id c1 c2.
  destruct (duplicate_key_steals_reply 1 0 sample_ipc_request buffer_null_value
    (activate sample_invocation) c c1 0 (accessor_of_string "ok") c2) as [(m&x&d&Hl&_) Hk].
  - split; apply cview_ipc_fits.
    + apply (cview_sv_at (IPC_HEADER_OFFSET + IPC_ID_LENGTH) 32 (iir_msg sample_ipc_request)). vm_compute. lia.
    + apply (cview_sv_at IPC_HEADER_OFFSET 16 (iir_msg sample_ipc_request)). vm_compute. lia.
  - apply (cview_sv_at IPC_HEADER_OFFSET 16 (iir_msg sample_ipc_request)). vm_compute. lia.
  - vm_compute. reflexivity.
  - vm_compute. reflexivity.
  - reflexivity.
  - reflexivity.
  - eexists. split; [vm_compute; reflexivity|reflexivity].
  - lia.
  - vm_cast_no_check (eq_refl (Ret tt, c1)).
  - unfold i32_range. lia.
  - unfold i32_range. cbn. lia.
  - vm_cast_no_check (eq_refl (Ret tt, c2)).
  - split; [exists m, d; exact Hl|exact (Hk 1)].
Defined.

Lemma application_updates_reach_all_witness :
  let us := [MkApplicationUpdate ACTIVE "p1"; MkApplicationUpdate SWAPPED "p1"] in
  let c' := (process_application_updates us running_controller).2 in
  process_application_updates us running_controller = (Ret tt, c') /\
  c_application c' = {| active_processes := []; swapped_processes := ["p1"] |}.
Proof.
  intros us c'.
  assert (process_application_updates us running_controller = (Ret tt, c')) as E by (vm_cast_no_check (eq_refl (Ret tt, c'))).
  split; [exact E|].
  refine (proj1 (application_updates_reach_all us running_controller c' _ E)).
  unfold i32_range. repeat constructor; try (cbn; lia); apply (bool_decide_unpack _); vm_compute; exact I.
Defined.

(** one invocation waits *)
Definition waiting_queue : WorkQueue :=
  {| wq_pending := ["id"]; wq_active := {["id" := sample_invocation]}; wq_functions := sample_functions |}.

Lemma waiting_queue_inv : wq_inv [] waiting_queue.
Proof.
  unfold wq_inv, waiting_queue; cbn. split_and!.
  - apply list.NoDup_singleton.
  - intros key. rewrite list_elem_of_singleton. split.
    + intros ->. exists sample_invocation. split; [reflexivity|]. vm_compute. reflexivity.
    + intros (inv&Hinv&_). now apply lookup_singleton_Some in Hinv as [<- _].
  - intros key inv Hinv. apply lookup_singleton_Some in Hinv as [<- <-]. apply sample_invocation_carries.
Qed.


(** a channel that never has a message *)
Definition silent_ipc : IpcChannel := {|
  ipc := unit; ipc_send _ _ c := (Ret tt, c); ipc_receive c := (Ret (false, buffer_null_value), c);
  ipc_message _ := [];
|}.

Definition silent_controller : @Controller silent_ipc log_server :=
  @MkController silent_ipc log_server "P" (@MkWorkers silent_ipc [@MkWorker silent_ipc tt tt 1 false] 1 1) [] 1
    Application_empty [] (WorkQueue_ctor sample_functions) (Some []) MessageStore_empty ∅ false.


