(* ===== verification/Remote.v ===== *)
(** * Remote: the TCP server of a process

    [process/controller/remote.hpp] and [remote.cpp]: the connections of a
    process with the data plane, the control plane and other processes, the
    reassembly of messages from the byte streams, and the sending side the
    controller calls.  Connections are shared objects - [std::shared_ptr] in
    the table, in the context of the TCP connection and in two fields - and
    live in a heap of locations here.  The network library (trantor) is seen
    through what the code asks of it: the bytes it is given to send, the
    connections it is asked to open, the context it keeps per connection, and
    the bytes received and not yet retrieved. *)

From S2P Require Import Prelude Memory Messages Buffers Application WorkQueue Controller.

Definition DATAPLANE_ID : string := "DATA_PLANE".
Definition CONTROLPLANE_ID : string := "CONTROL_PLANE".

Inductive ConnStatus : Type := DISCONNECTED | CONNECTING | CONNECTED.
#[export] Instance ConnStatus_eq_dec : EqDecision ConnStatus.
Proof. solve_decision. Defined.

(** a location of a [Connection], and the number of a TCP connection *)
Abbreviation loc := nat (only parsing).
Abbreviation tcp := nat (only parsing).

Record Connection : Type := MkConnection {
  cn_status : ConnStatus;
  cn_type : RemoteType;
  cn_id : option string;
  cn_conn : option tcp;
  cn_ip_address : string;
  cn_port : Z;
  cn_cur_msg : mem;
  cn_parsed_msg : MessageVariants;
  cn_bytes_to_read : Z;
  cn_pendings_msgs : list (mem * Buffer);
}.

(** the aggregate initialisation with the first fields *)
Definition Connection_make (status : ConnStatus) (type : RemoteType) (id : option string)
    (conn : option tcp) : Connection :=
  {| cn_status := status; cn_type := type; cn_id := id; cn_conn := conn; cn_ip_address := EmptyString;
     cn_port := 0; cn_cur_msg := MessageData; cn_parsed_msg := Monostate; cn_bytes_to_read := 0;
     cn_pendings_msgs := [] |}.

Definition set_cn_status (s : ConnStatus) (c : Connection) : Connection :=
  {| cn_status := s; cn_type := cn_type c; cn_id := cn_id c; cn_conn := cn_conn c;
     cn_ip_address := cn_ip_address c; cn_port := cn_port c; cn_cur_msg := cn_cur_msg c;
     cn_parsed_msg := cn_parsed_msg c; cn_bytes_to_read := cn_bytes_to_read c;
     cn_pendings_msgs := cn_pendings_msgs c |}.
Definition set_cn_conn (t : option tcp) (c : Connection) : Connection :=
  {| cn_status := cn_status c; cn_type := cn_type c; cn_id := cn_id c; cn_conn := t;
     cn_ip_address := cn_ip_address c; cn_port := cn_port c; cn_cur_msg := cn_cur_msg c;
     cn_parsed_msg := cn_parsed_msg c; cn_bytes_to_read := cn_bytes_to_read c;
     cn_pendings_msgs := cn_pendings_msgs c |}.
Definition set_cn_address (ip : string) (port : Z) (c : Connection) : Connection :=
  {| cn_status := cn_status c; cn_type := cn_type c; cn_id := cn_id c; cn_conn := cn_conn c;
     cn_ip_address := ip; cn_port := port; cn_cur_msg := cn_cur_msg c;
     cn_parsed_msg := cn_parsed_msg c; cn_bytes_to_read := cn_bytes_to_read c;
     cn_pendings_msgs := cn_pendings_msgs c |}.
Definition set_cn_cur_msg (m : mem) (c : Connection) : Connection :=
  {| cn_status := cn_status c; cn_type := cn_type c; cn_id := cn_id c; cn_conn := cn_conn c;
     cn_ip_address := cn_ip_address c; cn_port := cn_port c; cn_cur_msg := m;
     cn_parsed_msg := cn_parsed_msg c; cn_bytes_to_read := cn_bytes_to_read c;
     cn_pendings_msgs := cn_pendings_msgs c |}.
Definition set_cn_parsed_msg (v : MessageVariants) (c : Connection) : Connection :=
  {| cn_status := cn_status c; cn_type := cn_type c; cn_id := cn_id c; cn_conn := cn_conn c;
     cn_ip_address := cn_ip_address c; cn_port := cn_port c; cn_cur_msg := cn_cur_msg c;
     cn_parsed_msg := v; cn_bytes_to_read := cn_bytes_to_read c;
     cn_pendings_msgs := cn_pendings_msgs c |}.
Definition set_cn_bytes_to_read (n : Z) (c : Connection) : Connection :=
  {| cn_status := cn_status c; cn_type := cn_type c; cn_id := cn_id c; cn_conn := cn_conn c;
     cn_ip_address := cn_ip_address c; cn_port := cn_port c; cn_cur_msg := cn_cur_msg c;
     cn_parsed_msg := cn_parsed_msg c; cn_bytes_to_read := n;
     cn_pendings_msgs := cn_pendings_msgs c |}.
Definition set_cn_pendings_msgs (l : list (mem * Buffer)) (c : Connection) : Connection :=
  {| cn_status := cn_status c; cn_type := cn_type c; cn_id := cn_id c; cn_conn := cn_conn c;
     cn_ip_address := cn_ip_address c; cn_port := cn_port c; cn_cur_msg := cn_cur_msg c;
     cn_parsed_msg := cn_parsed_msg c; cn_bytes_to_read := cn_bytes_to_read c;
     cn_pendings_msgs := l |}.

(** the calls of the server into the controller *)
Inductive ctl_call : Type :=
  | CallRemote (msg : mem) (payload : Buffer) (process_id : string)
  | CallDataplane (msg : mem) (payload : Buffer)
  | CallControlplane (msg : mem) (payload : Buffer)
  | CallUpdate (status : Status) (process : string).

(** what a call does *)
Definition run_call `{IpcChannel} `{RemoteServer} (c : ctl_call) : M Controller unit :=
  match c with
  | CallRemote msg payload process_id => remote_message msg payload process_id
  | CallDataplane msg payload => dataplane_message msg payload
  | CallControlplane msg payload => controlplane_message msg payload
  | CallUpdate status process => update_application status process
  end.

Record TCPServer : Type := MkTCPServer {
  ts_process_id : string;
  ts_connection_data : gmap string loc;
  ts_data_plane : option loc;
  ts_control_plane : option loc;
  ts_heap : gmap loc Connection;
  ts_contexts : gmap tcp loc;
  ts_sent : list (tcp * list byte);
  ts_connects : list (loc * string * Z);
  ts_calls : list ctl_call;
}.

Definition TCPServer_ctor (process_id : string) : TCPServer :=
  {| ts_process_id := process_id; ts_connection_data := ∅; ts_data_plane := None;
     ts_control_plane := None; ts_heap := ∅; ts_contexts := ∅; ts_sent := []; ts_connects := [];
     ts_calls := [] |}.

Definition set_ts_connection_data (x : gmap string loc) (s : TCPServer) : TCPServer :=
  {| ts_process_id := ts_process_id s; ts_connection_data := x; ts_data_plane := ts_data_plane s;
     ts_control_plane := ts_control_plane s; ts_heap := ts_heap s; ts_contexts := ts_contexts s;
     ts_sent := ts_sent s; ts_connects := ts_connects s; ts_calls := ts_calls s |}.
Definition set_ts_data_plane (x : option loc) (s : TCPServer) : TCPServer :=
  {| ts_process_id := ts_process_id s; ts_connection_data := ts_connection_data s; ts_data_plane := x;
     ts_control_plane := ts_control_plane s; ts_heap := ts_heap s; ts_contexts := ts_contexts s;
     ts_sent := ts_sent s; ts_connects := ts_connects s; ts_calls := ts_calls s |}.
Definition set_ts_control_plane (x : option loc) (s : TCPServer) : TCPServer :=
  {| ts_process_id := ts_process_id s; ts_connection_data := ts_connection_data s;
     ts_data_plane := ts_data_plane s; ts_control_plane := x; ts_heap := ts_heap s;
     ts_contexts := ts_contexts s; ts_sent := ts_sent s; ts_connects := ts_connects s;
     ts_calls := ts_calls s |}.
Definition set_ts_heap (x : gmap loc Connection) (s : TCPServer) : TCPServer :=
  {| ts_process_id := ts_process_id s; ts_connection_data := ts_connection_data s;
     ts_data_plane := ts_data_plane s; ts_control_plane := ts_control_plane s; ts_heap := x;
     ts_contexts := ts_contexts s; ts_sent := ts_sent s; ts_connects := ts_connects s;
     ts_calls := ts_calls s |}.
Definition set_ts_contexts (x : gmap tcp loc) (s : TCPServer) : TCPServer :=
  {| ts_process_id := ts_process_id s; ts_connection_data := ts_connection_data s;
     ts_data_plane := ts_data_plane s; ts_control_plane := ts_control_plane s; ts_heap := ts_heap s;
     ts_contexts := x; ts_sent := ts_sent s; ts_connects := ts_connects s; ts_calls := ts_calls s |}.
Definition set_ts_sent (x : list (tcp * list byte)) (s : TCPServer) : TCPServer :=
  {| ts_process_id := ts_process_id s; ts_connection_data := ts_connection_data s;
     ts_data_plane := ts_data_plane s; ts_control_plane := ts_control_plane s; ts_heap := ts_heap s;
     ts_contexts := ts_contexts s; ts_sent := x; ts_connects := ts_connects s; ts_calls := ts_calls s |}.
Definition set_ts_connects (x : list (loc * string * Z)) (s : TCPServer) : TCPServer :=
  {| ts_process_id := ts_process_id s; ts_connection_data := ts_connection_data s;
     ts_data_plane := ts_data_plane s; ts_control_plane := ts_control_plane s; ts_heap := ts_heap s;
     ts_contexts := ts_contexts s; ts_sent := ts_sent s; ts_connects := x; ts_calls := ts_calls s |}.
Definition set_ts_calls (x : list ctl_call) (s : TCPServer) : TCPServer :=
  {| ts_process_id := ts_process_id s; ts_connection_data := ts_connection_data s;
     ts_data_plane := ts_data_plane s; ts_control_plane := ts_control_plane s; ts_heap := ts_heap s;
     ts_contexts := ts_contexts s; ts_sent := ts_sent s; ts_connects := ts_connects s; ts_calls := x |}.

(** ** Access *)

(** [*ptr]; locations are never freed while a pointer to them is around *)
Definition deref (l : loc) : M TCPServer Connection := fun s =>
  match ts_heap s !! l with Some c => (Ret c, s) | None => (Undef, s) end.

Definition update_conn (l : loc) (f : Connection -> Connection) : M TCPServer unit :=
  modify (fun s => set_ts_heap (alter f l (ts_heap s)) s).

(** [std::make_shared<Connection>(...)] *)
Definition alloc_conn (c : Connection) : M TCPServer loc := fun s =>
  let l := base.fresh (dom (ts_heap s) : gset nat) in (Ret l, set_ts_heap (<[l := c]> (ts_heap s)) s).

(** [connectionPtr->send(data, len)] *)
Definition tcp_send (t : tcp) (data : list byte) : M TCPServer unit :=
  modify (fun s => set_ts_sent (ts_sent s ++ [(t, data)]) s).

(** [conn->conn->send(data, len)]; the pointer can be null *)
Definition conn_send (l : loc) (data : list byte) : M TCPServer unit :=
  c ← deref l;
  match cn_conn c with Some t => tcp_send t data | None => undef end.

(** [connectionPtr->setContext(ptr)] *)
Definition set_context (t : tcp) (l : loc) : M TCPServer unit :=
  modify (fun s => set_ts_contexts (<[t := l]> (ts_contexts s)) s).

Definition call_controller (c : ctl_call) : M TCPServer unit :=
  modify (fun s => set_ts_calls (ts_calls s ++ [c]) s).

(** ** Sending *)

(** [invocation_result]; an unknown recipient is only logged *)
Definition result_recipient (source : RemoteType) (remote_process : option string) (s : TCPServer) : option loc :=
  match source with
  | DATA_PLANE => ts_data_plane s
  | CONTROL_PLANE => ts_control_plane s
  | _ => match remote_process with Some p => ts_connection_data s !! p | None => None end
  end.

Definition tcp_invocation_result (source : RemoteType) (remote_process : option string)
    (invocation_id : string_view) (return_code : Z) (payload : BufferAccessor) : M TCPServer unit :=
  conn ← gets (result_recipient source remote_process);
  match conn with
  | None => mret tt
  | Some l =>
      req ← lift (set_result_invocation_id invocation_id InvocationResultData);
      let req := set_total_length (wrap_i32 (Z.of_nat (acc_len payload))) (set_return_code return_code req) in
      conn_send l (bytes req) ≫= fun _ =>
      if 0 <? acc_len payload then conn_send l (accessor_data payload) else mret tt
  end.

(** [_connect]: a client is created and asked to connect *)
Definition connect (l : loc) : M TCPServer unit :=
  update_conn l (set_cn_status CONNECTING) ≫= fun _ =>
  c ← deref l;
  modify (fun s => set_ts_connects (ts_connects s ++ [(l, cn_ip_address c, (cn_port c mod 2 ^ 16)%Z)]) s).

(** send a message over the connection, or keep it until there is one *)
Definition send_or_store (l : loc) (msg : mem) (payload : Buffer) : M TCPServer unit :=
  c ← deref l;
  match cn_conn c with
  | None =>
      update_conn l (fun c => set_cn_pendings_msgs (cn_pendings_msgs c ++ [(msg, payload)]) c) ≫= fun _ =>
      match cn_status c with DISCONNECTED => connect l | _ => mret tt end
  | Some _ =>
      conn_send l msg ≫= fun _ => conn_send l (buffer_data payload)
  end.

Definition tcp_put_message (process_id name : string_view) (payload : Buffer) : M TCPServer unit :=
  iter ← gets (fun s => ts_connection_data s !! sv_str process_id);
  match iter with
  | None => mret tt
  | Some l =>
      my_id ← gets ts_process_id;
      put_req ← lift (set_put_name name PutMessageData);
      put_req ← lift (set_put_process_id (sv_of_string my_id) put_req);
      send_or_store l (bytes (set_total_length (wrap_i32 (Z.of_nat (buf_len payload))) put_req)) payload
  end.

Definition tcp_invocation_request (process_id function_name invocation_id : string_view) (payload : Buffer)
    : M TCPServer unit :=
  iter ← gets (fun s => ts_connection_data s !! sv_str process_id);
  match iter with
  | None => mret tt
  | Some l =>
      req ← lift (set_invocation_id invocation_id InvocationRequestData);
      req ← lift (set_function_name function_name req);
      req ← lift (set_payload_size (wrap_i32 (Z.of_nat (buf_len payload))) req);
      send_or_store l (bytes (set_total_length (wrap_i32 (Z.of_nat (buf_len payload))) req)) payload
  end.

#[export] Instance tcp_server : RemoteServer | 20 := {|
  server := TCPServer;
  srv_invocation_result := tcp_invocation_result;
  srv_put_message := tcp_put_message;
  srv_invocation_request := tcp_invocation_request;
|}.

(** the callback of a client of [_connect] *)
Definition client_connected (l : loc) (t : tcp) : M TCPServer unit :=
  update_conn l (set_cn_status CONNECTED) ≫= fun _ =>
  my_id ← gets ts_process_id;
  req ← lift (set_process_name (sv_of_string my_id) ProcessConnectionData);
  tcp_send t (bytes req) ≫= fun _ =>
  update_conn l (set_cn_conn (Some t)) ≫= fun _ =>
  c ← deref l;
  for_each (fun '(msg, buf) =>
    tcp_send t msg ≫= fun _ =>
    if 0 <? buf_len buf then tcp_send t (buffer_data buf) else mret tt) (cn_pendings_msgs c) ≫= fun _ =>
  update_conn l (set_cn_pendings_msgs []).

Definition client_disconnected (l : loc) : M TCPServer unit := update_conn l (set_cn_status DISCONNECTED).

(** [poll]: the entry for the control plane, and the callback of its client; a
    failed [assert_true] ends the program with [exit(1)] *)
Definition poll_control_plane (address : string) (port : Z) : M TCPServer loc :=
  l ← alloc_conn (Connection_make CONNECTING CONTROL_PLANE None None);
  modify (set_ts_control_plane (Some l)) ≫= fun _ =>
  iter ← gets (fun s => ts_connection_data s !! "CONTROLPLANE");
  match iter with
  | Some _ => throw (StdException "exit")
  | None =>
      modify (fun s => set_ts_connection_data (<["CONTROLPLANE" := l]> (ts_connection_data s)) s) ≫= fun _ =>
      modify (fun s => set_ts_connects (ts_connects s ++ [(l, address, (port mod 2 ^ 16)%Z)]) s) ≫= fun _ =>
      mret l
  end.

Definition control_plane_connected (l : loc) (t : tcp) : M TCPServer unit :=
  my_id ← gets ts_process_id;
  req ← lift (set_process_name (sv_of_string my_id) ProcessConnectionData);
  tcp_send t (bytes req) ≫= fun _ =>
  set_context t l ≫= fun _ =>
  update_conn l (set_cn_conn (Some t)).

Definition control_plane_disconnected : M TCPServer unit := modify (set_ts_control_plane None).

(** ** Receiving

    The state is the server and the bytes of the connection that have not been
    retrieved yet. *)
Definition on_srv {A} (m : M TCPServer A) : M (TCPServer * list byte) A :=
  zoom fst (fun s p => (s, p.2)) m.

Definition peek : M (TCPServer * list byte) (list byte) := gets snd.
Definition retrieve (n : nat) : M (TCPServer * list byte) unit := modify (fun '(s, b) => (s, drop n b)).

(** [_handle_connection] *)
Definition handle_connection (t : tcp) (msg : ProcessConnection) : M TCPServer unit :=
  let name := sv_str (process_name msg) in
  find_iter ← gets (fun s => ts_connection_data s !! name);
  match find_iter with
  | Some l =>
      update_conn l (fun c => set_cn_status CONNECTED (set_cn_conn (Some t) c)) ≫= fun _ =>
      (if decide (name = DATAPLANE_ID) then modify (set_ts_data_plane (Some l))
       else if decide (name = CONTROLPLANE_ID) then modify (set_ts_control_plane (Some l))
       else mret tt) ≫= fun _ =>
      set_context t l
  | None =>
      l ← (if decide (name = DATAPLANE_ID) then
             l ← alloc_conn (Connection_make CONNECTED DATA_PLANE None (Some t));
             modify (set_ts_data_plane (Some l)) ≫= fun _ => mret l
           else if decide (name = CONTROLPLANE_ID) then
             l ← alloc_conn (Connection_make CONNECTED CONTROL_PLANE None (Some t));
             modify (set_ts_control_plane (Some l)) ≫= fun _ => mret l
           else alloc_conn (Connection_make CONNECTED PROCESS (Some name) (Some t)));
      modify (fun s => set_ts_connection_data (<[name := l]> (ts_connection_data s)) s) ≫= fun _ =>
      set_context t l
  end ≫= fun _ =>
  req ← lift (set_process_name (sv_of_string "CORRECT") ProcessConnectionData);
  tcp_send t (bytes req).

(** [_handle_app_update] *)
Definition handle_app_update (msg : ApplicationUpdateMsg) : M TCPServer unit :=
  let process_id := sv_str (update_process_id msg) in
  call_controller (CallUpdate (Status_of_Z (status_change msg)) process_id) ≫= fun _ =>
  iter ← gets (fun s => ts_connection_data s !! process_id);
  match iter with
  | Some l => update_conn l (set_cn_address (sv_str (ip_address msg)) (update_port msg))
  | None =>
      l ← alloc_conn (set_cn_address (sv_str (ip_address msg)) (update_port msg)
                        (Connection_make DISCONNECTED PROCESS (Some process_id) None));
      modify (fun s => set_ts_connection_data (<[process_id := l]> (ts_connection_data s)) s)
  end.

(** The payload of a message: a fresh buffer with [n] bytes of the stream.  The
    pool of the server is empty, so the buffer is always allocated. *)
Definition payload_buffer (n : nat) (stream : list byte) : Buffer :=
  {| buf_ptr := Some (take n stream); buf_size := n; buf_len := n |}.

(** [connection.id.value()] *)
Definition id_value (c : Connection) : outcome string :=
  match cn_id c with Some i => Ret i | None => Throw (StdException "bad optional access") end.

(** [_handle_invocation_result] and [_handle_put_message]: whether a whole
    message was consumed; [len] is [msg.total_length()] *)
Definition handle_payload_remote (l : loc) (len : Z) : M (TCPServer * list byte) bool :=
  c ← on_srv (deref l);
  (if (cn_bytes_to_read c =? 0)%Z then
     on_srv (update_conn l (set_cn_bytes_to_read (wrap_u64 len))) ≫= fun _ => retrieve BUF_SIZE
   else mret tt) ≫= fun _ =>
  c ← on_srv (deref l);
  b ← peek;
  if (cn_bytes_to_read c <=? Z.of_nat (length b))%Z then
    let n := Z.to_nat (cn_bytes_to_read c) in
    let buf := payload_buffer n b in
    retrieve n ≫= fun _ =>
    id ← lift (id_value c);
    on_srv (call_controller (CallRemote (cn_cur_msg c) buf id)) ≫= fun _ =>
    on_srv (update_conn l (set_cn_bytes_to_read 0)) ≫= fun _ =>
    mret true
  else mret false.

(** [_handle_invocation]; [size] is [msg.payload_size()] *)
Definition handle_invocation (l : loc) (size : Z) : M (TCPServer * list byte) bool :=
  c ← on_srv (deref l);
  (if (cn_bytes_to_read c =? 0)%Z then
     on_srv (update_conn l (set_cn_bytes_to_read (wrap_u64 size))) ≫= fun _ => retrieve BUF_SIZE
   else mret tt) ≫= fun _ =>
  b ← peek;
  if (wrap_u64 size <=? Z.of_nat (length b))%Z then
    let n := Z.to_nat (wrap_u64 size) in
    let buf := payload_buffer n b in
    retrieve n ≫= fun _ =>
    (match cn_type c with
     | DATA_PLANE => on_srv (call_controller (CallDataplane (cn_cur_msg c) buf))
     | CONTROL_PLANE => on_srv (call_controller (CallControlplane (cn_cur_msg c) buf))
     | _ => id ← lift (id_value c); on_srv (call_controller (CallRemote (cn_cur_msg c) buf id))
     end) ≫= fun _ =>
    on_srv (update_conn l (set_cn_bytes_to_read 0)) ≫= fun _ =>
    mret true
  else mret false.

(** the handler of a message that has a payload *)
Definition visit_payload (l : loc) (v : MessageVariants) : M (TCPServer * list byte) bool :=
  match v with
  | VInvocationRequest req => handle_invocation l (payload_size req)
  | VPutMessage req => handle_payload_remote l (total_length req)
  | VInvocationResult req => handle_payload_remote l (total_length req)
  | _ => mret false
  end.

(** the handler of a message whose header was just read *)
Definition visit_header (l : loc) (v : MessageVariants) : M (TCPServer * list byte) bool :=
  match v with
  | VInvocationRequest _ | VInvocationResult _ | VPutMessage _ => visit_payload l v
  | VApplicationUpdate msg => on_srv (handle_app_update msg) ≫= fun _ => retrieve BUF_SIZE ≫= fun _ => mret true
  | _ => retrieve BUF_SIZE ≫= fun _ => mret true
  end.

(** [_handle_message].  Fuel: every recursive call is made after a header was
    retrieved. *)
Fixpoint handle_message (fuel : nat) (t : tcp) : M (TCPServer * list byte) unit :=
  match fuel with
  | O => undef
  | S fuel' =>
      s ← on_srv get;
      match ts_contexts s !! t with
      | None =>
          b ← peek;
          if length b <? BUF_SIZE then mret tt
          else
            msg ← lift (parse (take BUF_SIZE b));
            match msg with
            | VProcessConnection m => on_srv (handle_connection t m)
            | _ => mret tt
            end ≫= fun _ =>
            retrieve BUF_SIZE ≫= fun _ =>
            b ← peek;
            if 0 <? length b then handle_message fuel' t else mret tt
      | Some l =>
          c ← on_srv (deref l);
          b ← peek;
          consumed ← (if (0 <? cn_bytes_to_read c)%Z then
              if (Z.of_nat (length b) <? cn_bytes_to_read c)%Z then mret false
              else visit_payload l (cn_parsed_msg c) ≫= fun _ => mret false
            else if length b <? BUF_SIZE then mret false
            else
              on_srv (update_conn l (set_cn_cur_msg (take BUF_SIZE b))) ≫= fun _ =>
              v ← lift (parse (take BUF_SIZE b));
              on_srv (update_conn l (set_cn_parsed_msg v)) ≫= fun _ =>
              visit_header l v);
          b ← peek;
          if (consumed : bool) && (0 <? length b) then handle_message fuel' t else mret tt
      end
  end.

(** the fuel that is enough for the bytes in the buffer *)
Definition handle_bytes (t : tcp) : M (TCPServer * list byte) unit :=
  b ← peek; handle_message (S (length b)) t.


(** ** The byte stream of a connection, declaratively

    What a registered connection says: a header of [BUF_SIZE] bytes, then as
    many bytes of payload as the header announces.  [decode_stream] cuts a
    stream into the calls of its complete messages, the bytes left, and how it
    ended: at an incomplete message, or at bytes the server cannot process. *)

(** the payload the header announces; [true] for an invocation request *)
Definition announced (v : MessageVariants) : option (bool * Z) :=
  match v with
  | VInvocationRequest req => Some (true, wrap_u64 (payload_size req))
  | VPutMessage req => Some (false, wrap_u64 (total_length req))
  | VInvocationResult req => Some (false, wrap_u64 (total_length req))
  | _ => None
  end.

(** who is told of a complete message *)
Definition addressee (type : RemoteType) (id : option string) (request : bool) (msg : mem) (buf : Buffer) :
    outcome ctl_call :=
  let remote := match id with
    | Some i => Ret (CallRemote msg buf i)
    | None => Throw (StdException "bad optional access")
    end in
  match request, type with
  | true, DATA_PLANE => Ret (CallDataplane msg buf)
  | true, CONTROL_PLANE => Ret (CallControlplane msg buf)
  | _, _ => remote
  end.

Definition control_calls (v : MessageVariants) : list ctl_call :=
  match v with
  | VApplicationUpdate msg => [CallUpdate (Status_of_Z (status_change msg)) (sv_str (update_process_id msg))]
  | _ => []
  end.

(** prepend calls to a decoding *)
Definition and_then (calls : list ctl_call) (d : list ctl_call * list byte * outcome unit) :
    list ctl_call * list byte * outcome unit :=
  (calls ++ d.1.1, d.1.2, d.2).

Fixpoint decode_fuel (fuel : nat) (type : RemoteType) (id : option string) (stream : list byte) :
    list ctl_call * list byte * outcome unit :=
  match fuel with
  | O => ([], stream, Undef)
  | S fuel' =>
      if length stream <? BUF_SIZE then ([], stream, Ret tt)
      else
        let header := take BUF_SIZE stream in
        let body := drop BUF_SIZE stream in
        match parse header with
        | Ret v =>
            match announced v with
            | Some (request, n) =>
                if (n <=? Z.of_nat (length body))%Z then
                  match addressee type id request header (payload_buffer (Z.to_nat n) body) with
                  | Ret c => and_then [c] (decode_fuel fuel' type id (drop (Z.to_nat n) body))
                  | Throw e => ([], stream, Throw e)
                  | Undef => ([], stream, Undef)
                  end
                else ([], stream, Ret tt)
            | None => and_then (control_calls v) (decode_fuel fuel' type id body)
            end
        | Throw e => ([], stream, Throw e)
        | Undef => ([], stream, Undef)
        end
  end.

(** fuel: a message has at least a header *)
Definition decode_stream (type : RemoteType) (id : option string) (stream : list byte) :=
  decode_fuel (S (length stream)) type id stream.

Lemma decode_fuel_enough f f' type id s :
  length s < f -> length s < f' -> decode_fuel f type id s = decode_fuel f' type id s.
Proof.
  revert f' s. induction f as [|f IH]; intros [|f'] s Hf Hf'; [lia|lia|lia|].
  cbn [decode_fuel]. destruct (Nat.ltb_spec (length s) BUF_SIZE) as [|Hlen]; [done|].
  assert (forall k, decode_fuel f type id (drop k (drop BUF_SIZE s)) =
                    decode_fuel f' type id (drop k (drop BUF_SIZE s))) as Hrec.
  { intros k. apply IH; rewrite !length_drop; unfold BUF_SIZE in *; lia. }
  pose proof (Hrec 0) as Hrec0. rewrite drop_0 in Hrec0.
  destruct (parse _) as [v| |]; [|done|done].
  destruct (announced v) as [[request n]|]; [|now rewrite Hrec0].
  destruct (_ <=? _)%Z; [|done]. destruct (addressee _ _ _ _ _); [|done|done]. now rewrite Hrec.
Qed.

(** one message of a stream *)
Lemma decode_stream_eq type id s :
  decode_stream type id s =
    if length s <? BUF_SIZE then ([], s, Ret tt)
    else match parse (take BUF_SIZE s) with
      | Ret v =>
          match announced v with
          | Some (request, n) =>
              if (n <=? Z.of_nat (length (drop BUF_SIZE s)))%Z then
                match addressee type id request (take BUF_SIZE s)
                        (payload_buffer (Z.to_nat n) (drop BUF_SIZE s)) with
                | Ret c => and_then [c] (decode_stream type id (drop (Z.to_nat n) (drop BUF_SIZE s)))
                | Throw e => ([], s, Throw e)
                | Undef => ([], s, Undef)
                end
              else ([], s, Ret tt)
          | None => and_then (control_calls v) (decode_stream type id (drop BUF_SIZE s))
          end
      | Throw e => ([], s, Throw e)
      | Undef => ([], s, Undef)
      end.
Proof.
  unfold decode_stream at 1. cbn [decode_fuel].
  destruct (Nat.ltb_spec (length s) BUF_SIZE) as [|Hlen]; [done|].
  assert (forall k, decode_fuel (length s) type id (drop k (drop BUF_SIZE s)) =
                    decode_stream type id (drop k (drop BUF_SIZE s))) as Hrec.
  { intros k. apply decode_fuel_enough; rewrite !length_drop; unfold BUF_SIZE in *; lia. }
  pose proof (Hrec 0) as Hrec0. rewrite drop_0 in Hrec0.
  destruct (parse _) as [v| |]; [|done|done].
  destruct (announced v) as [[request n]|]; [|now rewrite Hrec0].
  destruct (_ <=? _)%Z; [|done]. destruct (addressee _ _ _ _ _); [|done|done]. now rewrite Hrec.
Qed.

(** a header, and exactly the payload it announces *)
Lemma decode_message type id hdr v request body rest c :
  length hdr = BUF_SIZE -> parse hdr = Ret v -> announced v = Some (request, Z.of_nat (length body)) ->
  addressee type id request hdr (payload_buffer (length body) body) = Ret c ->
  decode_stream type id (hdr ++ body ++ rest) = and_then [c] (decode_stream type id rest).
Proof.
  intros Hlen Hp Ha Hc. rewrite decode_stream_eq, length_app, Hlen, (proj2 (Nat.ltb_ge _ _)) by lia.
  rewrite take_app_length', drop_app_length' by done. rewrite Hp, Ha, length_app.
  rewrite (proj2 (Z.leb_le _ _)) by lia. rewrite Nat2Z.id, drop_app_length.
  replace (payload_buffer (length body) (body ++ rest)) with (payload_buffer (length body) body); [now rewrite Hc|].
  unfold payload_buffer. now rewrite take_app_length, firstn_all.
Qed.

Lemma decode_stream_short type id s : length s < BUF_SIZE -> decode_stream type id s = ([], s, Ret tt).
Proof. intros. rewrite decode_stream_eq. now rewrite (proj2 (Nat.ltb_lt _ _)). Qed.

Lemma and_then_app l1 l2 d : and_then l1 (and_then l2 d) = and_then (l1 ++ l2) d.
Proof. unfold and_then. cbn. now rewrite app_assoc. Qed.

Lemma and_then_nil d : and_then [] d = d.
Proof. now destruct d as [[]]. Qed.

Lemma payload_buffer_app n s1 s2 : n <= length s1 -> payload_buffer n (s1 ++ s2) = payload_buffer n s1.
Proof. intros. unfold payload_buffer. now rewrite take_app_le. Qed.

Lemma announced_nonneg v r n : announced v = Some (r, n) -> (0 <= n)%Z.
Proof. destruct v; cbn; intros; simplify_eq; unfold wrap_u64; apply Z.mod_pos_bound; lia. Qed.

(** Bytes that arrive later change nothing in what was decoded, and decoding
    goes on with the bytes left. *)
Lemma decode_stream_app type id s1 s2 :
  decode_stream type id (s1 ++ s2) =
    match decode_stream type id s1 with
    | (calls, rest, Ret _) => and_then calls (decode_stream type id (rest ++ s2))
    | (calls, rest, o) => (calls, rest ++ s2, o)
    end.
Proof.
  remember (length s1) as k eqn:Hk. revert s1 Hk.
  induction k as [k IH] using lt_wf_ind. intros s1 ->.
  rewrite (decode_stream_eq _ _ s1).
  destruct (Nat.ltb_spec (length s1) BUF_SIZE) as [Hs|Hl].
  { now rewrite and_then_nil. }
  rewrite decode_stream_eq. rewrite length_app.
  rewrite (proj2 (Nat.ltb_ge (length s1 + length s2) BUF_SIZE)) by lia.
  rewrite take_app_le, drop_app_le by done. set (body := drop BUF_SIZE s1).
  assert (length body < length s1) as Hb by (unfold body; rewrite length_drop; unfold BUF_SIZE in *; lia).
  assert (s1 = take BUF_SIZE s1 ++ body) as Hs1 by (symmetry; apply take_drop).
  destruct (parse _) as [v| |] eqn:Ep; [|done|done].
  assert (forall k calls, decode_stream type id (drop k body ++ s2) =
     match decode_stream type id (drop k body) with
     | (calls, rest, Ret _) => and_then calls (decode_stream type id (rest ++ s2))
     | (calls, rest, o) => (calls, rest ++ s2, o)
     end /\ and_then calls (decode_stream type id (drop k body ++ s2)) =
     match and_then calls (decode_stream type id (drop k body)) with
     | (calls, rest, Ret _) => and_then calls (decode_stream type id (rest ++ s2))
     | (calls, rest, o) => (calls, rest ++ s2, o)
     end) as Hrec.
  { intros k calls. assert (length (drop k body) < length s1) by (rewrite length_drop; lia).
    rewrite (IH _ ltac:(eassumption) _ eq_refl). split; [done|].
    destruct (decode_stream type id (drop k body)) as [[cs rest] [[]|e|]]; cbn; [|done|done].
    now rewrite and_then_app. }
  destruct (announced v) as [[request n]|] eqn:Ea.
  - pose proof (announced_nonneg _ _ _ Ea) as Hn. rewrite length_app.
    destruct (Z.leb_spec n (Z.of_nat (length body))) as [Hle|Hgt].
    + rewrite (proj2 (Z.leb_le n (Z.of_nat (length body + length s2)))) by lia.
      rewrite payload_buffer_app by lia.
      destruct (addressee _ _ _ _ _) as [c| |]; [|done|done].
      rewrite drop_app_le by lia. apply Hrec.
    + rewrite and_then_nil. symmetry. rewrite decode_stream_eq. rewrite length_app.
      rewrite (proj2 (Nat.ltb_ge (length s1 + length s2) BUF_SIZE)) by lia.
      rewrite take_app_le, drop_app_le by done. fold body.
      now rewrite Ep, Ea, length_app.
  - pose proof (Hrec 0 (control_calls v)) as [_ H2]. rewrite drop_0 in H2. exact H2.
Qed.

(** ** Reassembly refines the decoder *)
Section reassembly.
Variables (t : tcp) (l : loc) (type : RemoteType) (id : option string).

(** [c] is the connection of [t] *)
Definition conn_at (c : Connection) (s : TCPServer) : Prop :=
  ts_contexts s !! t = Some l /\ ts_heap s !! l = Some c /\ cn_type c = type /\ cn_id c = id.

(** The bytes of the stream that belong to no delivered message: those of the
    buffer, and before them the header that waits for its payload. *)
Definition undelivered (c : Connection) (b : list byte) : list byte :=
  (if (cn_bytes_to_read c =? 0)%Z then [] else cn_cur_msg c) ++ b.

(** a header waits for its payload, or nothing is begun *)
Definition conn_ok (c : Connection) : Prop :=
  cn_bytes_to_read c = 0%Z \/
  (0 < cn_bytes_to_read c)%Z /\ length (cn_cur_msg c) = BUF_SIZE /\
  parse (cn_cur_msg c) = Ret (cn_parsed_msg c) /\
  exists request, announced (cn_parsed_msg c) = Some (request, cn_bytes_to_read c).

(** the server can process the bytes of [t]: [v] is undelivered *)
Definition receiving (v : list byte) (s : TCPServer) (b : list byte) : Prop :=
  exists c, conn_at c s /\ conn_ok c /\ undelivered c b = v.

Lemma deref_at c s : ts_heap s !! l = Some c -> deref l s = (Ret c, s).
Proof. intros Hc. unfold deref. now rewrite Hc. Qed.

Lemma update_conn_at f c s :
  conn_at c s -> cn_type (f c) = cn_type c -> cn_id (f c) = cn_id c ->
  exists s', update_conn l f s = (Ret tt, s') /\ conn_at (f c) s' /\ ts_calls s' = ts_calls s.
Proof.
  intros (Ht & Hc & Hty & Hid) Hf1 Hf2. eexists. split; [reflexivity|].
  unfold conn_at. cbn. rewrite list_lookup_alter_eq || rewrite lookup_alter_eq. rewrite Hc. cbn.
  split_and!; auto; congruence.
Qed.

Lemma call_controller_at c s k :
  conn_at c s -> exists s', call_controller k s = (Ret tt, s') /\ conn_at c s' /\
    ts_calls s' = ts_calls s ++ [k].
Proof. intros (Ht & Hc & Hty & Hid). eexists. split; [reflexivity|]. now split_and!. Qed.

Lemma on_srv_eq {A} (m : M TCPServer A) s b (a : A) s' :
  m s = (Ret a, s') -> on_srv m (s, b) = (Ret a, (s', b)).
Proof. unfold on_srv, zoom. cbn. now intros ->. Qed.

(** the bytes a payload handler looks at *)
Definition body_of (c : Connection) (b : list byte) : list byte :=
  if (cn_bytes_to_read c =? 0)%Z then drop BUF_SIZE b else b.

(** A payload handler delivers the message when all of its payload is there,
    and writes down how much it waits for otherwise. *)
Lemma visit_payload_at c s b v request n :
  conn_at c s -> announced v = Some (request, n) ->
  cn_bytes_to_read c = 0%Z \/ cn_bytes_to_read c = n ->
  if (n <=? Z.of_nat (length (body_of c b)))%Z then
    match addressee type id request (cn_cur_msg c) (payload_buffer (Z.to_nat n) (body_of c b)) with
    | Ret k => exists s', visit_payload l v (s, b) = (Ret true, (s', drop (Z.to_nat n) (body_of c b))) /\
        conn_at (set_cn_bytes_to_read 0 c) s' /\ ts_calls s' = ts_calls s ++ [k]
    | Throw e => exists s' b', visit_payload l v (s, b) = (Throw e, (s', b')) /\ ts_calls s' = ts_calls s
    | Undef => False
    end
  else exists s', visit_payload l v (s, b) = (Ret false, (s', body_of c b)) /\
      conn_at (set_cn_bytes_to_read n c) s' /\ ts_calls s' = ts_calls s.
Proof.
  intros Hat Ha Hn.
  assert (exists s1, ((if (cn_bytes_to_read c =? 0)%Z
     then on_srv (update_conn l (set_cn_bytes_to_read n)) ≫= fun _ => retrieve BUF_SIZE
     else mret tt) (s, b) = (Ret tt, (s1, body_of c b))) /\
     conn_at (set_cn_bytes_to_read n c) s1 /\ ts_calls s1 = ts_calls s) as (s1 & E1 & Hat1 & Hcalls1).
  { unfold body_of. destruct (Z.eqb_spec (cn_bytes_to_read c) 0) as [E|E].
    - destruct (update_conn_at (set_cn_bytes_to_read n) c s Hat eq_refl eq_refl) as (s1 & Hu & H1 & H2).
      exists s1. rewrite (M_bind_eq _ _ _ _ _ (on_srv_eq _ _ b _ _ Hu)). now split_and!.
    - destruct Hn as [Hn|Hn]; [done|]. exists s. split_and!; auto.
      destruct Hat as (Ht & Hc & Hty & Hid). unfold conn_at. rewrite Hc. split_and!; auto.
      rewrite <-Hn. now destruct c. }
  pose proof Hat as (_ & Hc & Hty & Hid). pose proof Hat1 as (_ & Hc1 & _ & _).
  assert (forall k, exists s', (on_srv (call_controller k) ≫= fun _ =>
     on_srv (update_conn l (set_cn_bytes_to_read 0)) ≫= fun _ => mret true)
       (s1, drop (Z.to_nat n) (body_of c b)) = (Ret true, (s', drop (Z.to_nat n) (body_of c b))) /\
     conn_at (set_cn_bytes_to_read 0 c) s' /\ ts_calls s' = ts_calls s ++ [k]) as Hfin.
  { intros k. destruct (call_controller_at _ _ k Hat1) as (s2 & E2 & Hat2 & Hcalls2).
    destruct (update_conn_at (set_cn_bytes_to_read 0) _ _ Hat2 eq_refl eq_refl) as (s3 & E3 & Hat3 & Hcalls3).
    exists s3. rewrite (M_bind_eq _ _ _ _ _ (on_srv_eq _ _ _ _ _ E2)).
    rewrite (M_bind_eq _ _ _ _ _ (on_srv_eq _ _ _ _ _ E3)). split_and!; auto; congruence. }
  rewrite <-Hty, <-Hid.
  destruct v; cbn [announced] in Ha; simplify_eq; cbn [visit_payload];
    unfold handle_invocation, handle_payload_remote;
    rewrite (M_bind_eq _ _ _ _ _ (on_srv_eq _ _ b _ _ (deref_at _ _ Hc)));
    rewrite (M_bind_eq _ _ _ _ _ E1);
    try rewrite (M_bind_eq _ _ _ _ _ (on_srv_eq _ _ _ _ _ (deref_at _ _ Hc1)));
    erewrite M_bind_eq by reflexivity; cbn [snd cn_bytes_to_read set_cn_bytes_to_read];
    (destruct (_ <=? _)%Z eqn:Ele; [|exists s1; now split_and!]);
    erewrite M_bind_eq by reflexivity; unfold id_value; cbn [cn_cur_msg cn_type cn_id set_cn_bytes_to_read];
    destruct (cn_type c), (cn_id c) as [i|]; cbn [addressee];
    first
      [ match goal with |- context [ts_calls s ++ [?k]] => destruct (Hfin k) as (s' & Hs' & H1 & H2) end;
        exists s'; split; [exact Hs'|now split]
      | eexists _, _; split; [reflexivity|exact Hcalls1] ].
Qed.

Lemma handle_app_update_at c s m :
  conn_at c s -> exists s' c', handle_app_update m s = (Ret tt, s') /\ conn_at c' s' /\
    cn_bytes_to_read c' = cn_bytes_to_read c /\ ts_calls s' = ts_calls s ++ control_calls (VApplicationUpdate m).
Proof.
  intros Hat. destruct Hat as (Ht & Hc & Hty & Hid).
  unfold handle_app_update, control_calls. erewrite M_bind_eq by reflexivity. erewrite M_bind_eq by reflexivity.
  cbn [ts_connection_data set_ts_calls].
  destruct (ts_connection_data s !! _) as [l'|].
  - destruct (decide (l' = l)) as [->|Hne].
    + eexists _, (set_cn_address _ _ c). split; [reflexivity|]. unfold conn_at. cbn.
      rewrite lookup_alter_eq, Hc. now split_and!.
    + eexists _, c. split; [reflexivity|]. unfold conn_at. cbn. rewrite lookup_alter_ne by done. now split_and!.
  - erewrite M_bind_eq by reflexivity. eexists _, c. split; [reflexivity|]. unfold conn_at. cbn.
    rewrite lookup_insert_ne; [now split_and!|]. intros E.
    assert (l ∈ (dom (ts_heap s) : gset nat)) as Hin by (apply elem_of_dom; eauto).
    rewrite <-E in Hin. revert Hin. apply is_fresh.
Qed.

(** a header without a payload is consumed *)
Lemma visit_header_at c s b v :
  conn_at c s -> announced v = None ->
  exists s' c', visit_header l v (s, b) = (Ret true, (s', drop BUF_SIZE b)) /\ conn_at c' s' /\
    cn_bytes_to_read c' = cn_bytes_to_read c /\ ts_calls s' = ts_calls s ++ control_calls v.
Proof.
  intros Hat Ha. destruct v; try discriminate Ha;
    try (exists s, c; cbn [control_calls]; rewrite app_nil_r; now split_and!).
  destruct (handle_app_update_at _ _ x Hat) as (s' & c' & E & H1 & H2 & H3).
  exists s', c'. cbn [visit_header]. rewrite (M_bind_eq _ _ _ _ _ (on_srv_eq _ _ b _ _ E)). now split_and!.
Qed.

Lemma visit_header_payload v request n :
  announced v = Some (request, n) -> visit_header l v = visit_payload l v.
Proof. destruct v; cbn; congruence. Qed.

(** the header is stored and parsed *)
Lemma store_header_at c s m v :
  conn_at c s -> exists s', update_conn l (set_cn_cur_msg m) s = (Ret tt, s') /\
    conn_at (set_cn_cur_msg m c) s' /\ ts_calls s' = ts_calls s /\
    exists s'', update_conn l (set_cn_parsed_msg v) s' = (Ret tt, s'') /\
      conn_at (set_cn_parsed_msg v (set_cn_cur_msg m c)) s'' /\ ts_calls s'' = ts_calls s.
Proof.
  intros Hat. destruct (update_conn_at (set_cn_cur_msg m) _ _ Hat eq_refl eq_refl) as (s1 & E1 & H1 & H2).
  destruct (update_conn_at (set_cn_parsed_msg v) _ _ H1 eq_refl eq_refl) as (s2 & E2 & H3 & H4).
  exists s1. split_and!; auto. exists s2. split_and!; auto. congruence.
Qed.

(** the loop starts again on what is left, unless nothing is *)
Lemma handle_message_rest fuel s b :
  0 < fuel -> (exists c, conn_at c s /\ cn_bytes_to_read c = 0%Z) ->
  (if true && (0 <? length b) then handle_message fuel t else mret tt) (s, b) = handle_message fuel t (s, b).
Proof.
  intros Hf (c & (Ht & Hc & _) & Hz). destruct b as [|x b]; [|reflexivity].
  destruct fuel as [|fuel]; [lia|]. cbn [handle_message length andb].
  change (0 <? 0) with false. cbn iota.
  erewrite M_bind_eq by reflexivity. cbn [fst]. rewrite Ht.
  rewrite (M_bind_eq _ _ _ _ _ (on_srv_eq _ _ _ _ _ (deref_at _ _ Hc))). rewrite Hz. reflexivity.
Qed.

Lemma addressee_defined request m buf : addressee type id request m buf <> Undef.
Proof. unfold addressee. destruct request, type, id; discriminate. Qed.

Lemma decode_stream_defined s : (decode_stream type id s).2 <> Undef.
Proof.
  remember (length s) as k eqn:Hk. revert s Hk. induction k as [k IH] using lt_wf_ind. intros s ->.
  rewrite decode_stream_eq. destruct (Nat.ltb_spec (length s) BUF_SIZE) as [|Hl]; [discriminate|].
  assert (forall k, (decode_stream type id (drop k (drop BUF_SIZE s))).2 <> Undef) as Hrec.
  { intros k. eapply IH; [|reflexivity]. rewrite !length_drop. unfold BUF_SIZE in *. lia. }
  pose proof (parse_not_undef (take BUF_SIZE s)) as Hp.
  destruct (parse _) as [v| |]; [|discriminate|congruence].
  destruct (announced v) as [[request n]|]; [|apply (Hrec 0)].
  destruct (_ <=? _)%Z; [|discriminate].
  pose proof (addressee_defined request (take BUF_SIZE s) (payload_buffer (Z.to_nat n) (drop BUF_SIZE s))) as Hd.
  destruct (addressee _ _ _ _ _); [apply Hrec|discriminate|congruence].
Qed.

(** Between two messages, [handle_message] is the decoder. *)
Lemma handle_message_at fuel c s b :
  length b < fuel -> conn_at c s -> cn_bytes_to_read c = 0%Z ->
  exists s' b', handle_message fuel t (s, b) = ((decode_stream type id b).2, (s', b')) /\
    ts_calls s' = ts_calls s ++ (decode_stream type id b).1.1 /\
    ((decode_stream type id b).2 = Ret tt -> receiving (decode_stream type id b).1.2 s' b').
Proof.
  revert c s b. induction fuel as [|fuel IH]; intros c s b Hf Hat Hz; [lia|].
  pose proof Hat as (Ht & Hc & _).
  cbn [handle_message]. erewrite M_bind_eq by reflexivity. cbn [fst]. rewrite Ht.
  rewrite (M_bind_eq _ _ _ _ _ (on_srv_eq _ _ _ _ _ (deref_at _ _ Hc))). rewrite Hz.
  erewrite M_bind_eq by reflexivity. change (0 <? 0)%Z with false. cbn iota. cbn [snd].
  rewrite (decode_stream_eq type id b).
  destruct (Nat.ltb_spec (length b) BUF_SIZE) as [Hlt|Hge].
  { exists s, b. rewrite app_nil_r. split_and!; [reflexivity|done|]. intros _. exists c.
    split_and!; auto; [now left|]. unfold undelivered. now rewrite Hz. }
  assert (0 < BUF_SIZE) as HB by (unfold BUF_SIZE; lia).
  destruct (parse (take BUF_SIZE b)) as [v|e|] eqn:Ep.
  2-3: destruct (store_header_at c s (take BUF_SIZE b) Monostate Hat) as (s1 & E1 & Hat1 & Hk1 & _);
    exists s1, b; split_and!; [|now rewrite app_nil_r|discriminate];
    unfold mbind at 1, M_bind at 1; rewrite (M_bind_eq _ _ _ _ _ (on_srv_eq _ _ _ _ _ E1)); reflexivity.
  destruct (store_header_at c s (take BUF_SIZE b) v Hat) as (s1 & E1 & Hat1 & Hk1 & s2 & E2 & Hat2 & Hk2).
  set (c2 := set_cn_parsed_msg v (set_cn_cur_msg (take BUF_SIZE b) c)) in *.
  unfold mbind at 1, M_bind at 1.
  rewrite (M_bind_eq _ _ _ _ _ (on_srv_eq _ _ _ _ _ E1)). erewrite M_bind_eq by reflexivity.
  rewrite (M_bind_eq _ _ _ _ _ (on_srv_eq _ _ _ _ _ E2)).
  assert (forall k s', (exists c, conn_at c s' /\ cn_bytes_to_read c = 0%Z) ->
    exists s'' b'', (b0 ← peek; if true && (0 <? length b0) then handle_message fuel t else mret tt)
      (s', drop k (drop BUF_SIZE b)) = ((decode_stream type id (drop k (drop BUF_SIZE b))).2, (s'', b'')) /\
      ts_calls s'' = ts_calls s' ++ (decode_stream type id (drop k (drop BUF_SIZE b))).1.1 /\
      ((decode_stream type id (drop k (drop BUF_SIZE b))).2 = Ret tt ->
        receiving (decode_stream type id (drop k (drop BUF_SIZE b))).1.2 s'' b'')) as Hrec.
  { intros k s' (c' & Hat' & Hz'). erewrite M_bind_eq by reflexivity. cbn [snd].
    rewrite handle_message_rest by (eauto; lia). apply (IH c'); auto. rewrite !length_drop. lia. }
  destruct (announced v) as [[request n]|] eqn:Ea.
  - rewrite (visit_header_payload _ _ _ Ea).
    pose proof (visit_payload_at c2 s2 b v request n Hat2 Ea (or_introl Hz)) as Hv.
    assert (body_of c2 b = drop BUF_SIZE b) as Hb by (unfold body_of; cbn; now rewrite Hz).
    rewrite Hb in Hv. cbn [c2 cn_cur_msg set_cn_parsed_msg set_cn_cur_msg] in Hv.
    destruct (_ <=? _)%Z eqn:Ele.
    + destruct (addressee _ _ _ _ _) as [k|e|]; [|destruct Hv as (s3 & b3 & E3 & Hk3)|done].
      * destruct Hv as (s3 & E3 & Hat3 & Hk3). rewrite E3.
        destruct (Hrec (Z.to_nat n) s3 ltac:(eauto)) as (s4 & b4 & E4 & Hk4 & Hr4).
        exists s4, b4. rewrite E4. split_and!; auto. cbn. rewrite Hk4, Hk3, Hk2. now rewrite <-app_assoc.
      * exists s3, b3. rewrite E3. split_and!; [done| |discriminate]. cbn. rewrite app_nil_r. congruence.
    + destruct Hv as (s3 & E3 & Hat3 & Hk3). rewrite E3.
      exists s3, (drop BUF_SIZE b). split_and!; [reflexivity|cbn; rewrite app_nil_r; congruence|].
      intros _. exists (set_cn_bytes_to_read n c2). split_and!; [done| |].
      * pose proof (announced_nonneg _ _ _ Ea). apply Z.leb_gt in Ele.
        right. cbn. rewrite length_take. split_and!; [lia|lia|done|eauto].
      * pose proof (announced_nonneg _ _ _ Ea). apply Z.leb_gt in Ele.
        unfold undelivered. cbn. rewrite (proj2 (Z.eqb_neq _ _)) by lia. apply take_drop.
  - destruct (visit_header_at c2 s2 b v Hat2 Ea) as (s3 & c3 & E3 & Hat3 & Hz3 & Hk3). rewrite E3.
    destruct (Hrec 0 s3) as (s4 & b4 & E4 & Hk4 & Hr4); [exists c3; split; [done|now rewrite Hz3]|].
    rewrite drop_0 in *. exists s4, b4. rewrite E4. split_and!; auto. cbn.
    rewrite Hk4, Hk3, Hk2. now rewrite <-app_assoc.
Qed.

(** While a payload is awaited, [handle_message] waits for all of it, delivers
    that one message, and stops there. *)
Lemma handle_message_waiting fuel c s b :
  0 < fuel -> conn_at c s -> conn_ok c -> (0 < cn_bytes_to_read c)%Z ->
  exists request n, announced (cn_parsed_msg c) = Some (request, n) /\ n = cn_bytes_to_read c /\
  if (n <=? Z.of_nat (length b))%Z then
    match addressee type id request (cn_cur_msg c) (payload_buffer (Z.to_nat n) b) with
    | Ret k => exists s', handle_message fuel t (s, b) = (Ret tt, (s', drop (Z.to_nat n) b)) /\
        conn_at (set_cn_bytes_to_read 0 c) s' /\ ts_calls s' = ts_calls s ++ [k]
    | Throw e => exists s' b', handle_message fuel t (s, b) = (Throw e, (s', b')) /\ ts_calls s' = ts_calls s
    | Undef => False
    end
  else handle_message fuel t (s, b) = (Ret tt, (s, b)).
Proof.
  intros Hf Hat [Hz|(_ & Hlen & Hp & request & Ha)] Hpos; [lia|]. exists request, (cn_bytes_to_read c).
  split_and!; auto. pose proof Hat as (Ht & Hc & _).
  destruct fuel as [|fuel]; [lia|]. cbn [handle_message].
  erewrite M_bind_eq by reflexivity. cbn [fst]. rewrite Ht.
  rewrite (M_bind_eq _ _ _ _ _ (on_srv_eq _ _ _ _ _ (deref_at _ _ Hc))).
  erewrite M_bind_eq by reflexivity. rewrite (proj2 (Z.ltb_lt _ _)) by done. cbn [snd].
  pose proof (visit_payload_at c s b _ _ _ Hat Ha (or_intror eq_refl)) as Hv.
  assert (body_of c b = b) as Hb by (unfold body_of; now rewrite (proj2 (Z.eqb_neq _ _)) by lia).
  rewrite Hb in Hv.
  destruct (Z.leb_spec (cn_bytes_to_read c) (Z.of_nat (length b))) as [Hle|Hlt].
  - rewrite (proj2 (Z.ltb_ge _ _)) by lia. unfold mbind, M_bind.
    destruct (addressee _ _ _ _ _) as [k|e|]; [| |done].
    + destruct Hv as (s' & E & H1 & H2). exists s'. rewrite E. now split_and!.
    + destruct Hv as (s' & b' & E & H1). exists s', b'. now rewrite E.
  - rewrite (proj2 (Z.ltb_lt _ _)) by lia. reflexivity.
Qed.

(** What is delivered from any state of the connection: a part of what its
    undelivered bytes say, and the rest stays undelivered. *)
Lemma handle_bytes_receiving v s b extra :
  receiving v s b ->
  exists s' b' calls o, handle_bytes t (s, b ++ extra) = (o, (s', b')) /\
    ts_calls s' = ts_calls s ++ calls /\
    match o with
    | Ret _ => exists v', receiving v' s' b' /\
        decode_stream type id (v ++ extra) = and_then calls (decode_stream type id v')
    | Throw e => (decode_stream type id (v ++ extra)).1.1 = calls /\
        (decode_stream type id (v ++ extra)).2 = Throw e
    | Undef => False
    end.
Proof.
  intros (c & Hat & Hok & <-). unfold handle_bytes. erewrite M_bind_eq by reflexivity. cbn [snd].
  pose proof Hok as [Hz|(Hpos & Hlen & Hp & _)].
  - unfold undelivered. rewrite Hz. cbn [Z.eqb app].
    destruct (handle_message_at (S (length (b ++ extra))) c s (b ++ extra)) as (s' & b' & E & Hk & Hr);
      auto. pose proof (decode_stream_defined (b ++ extra)) as Hd.
    pose proof (decode_stream_app type id (b ++ extra) []) as Happ. rewrite app_nil_r in Happ.
    destruct (decode_stream type id (b ++ extra)) as [[calls rest] o]. cbn in *.
    exists s', b', calls, o. split_and!; auto. destruct o as [[]|e|]; [|done|done].
    exists rest. split; [now apply Hr|]. now rewrite app_nil_r in Happ.
  - destruct (handle_message_waiting (S (length (b ++ extra))) c s (b ++ extra)) as
      (request & n & Ha & Hn & Hw); auto; [lia|].
    assert (undelivered c b = cn_cur_msg c ++ b) as ->
      by (unfold undelivered; now rewrite (proj2 (Z.eqb_neq _ _)) by lia).
    assert (take BUF_SIZE (cn_cur_msg c ++ b ++ extra) = cn_cur_msg c) as Htake by (rewrite <-Hlen; apply take_app_length).
    assert (drop BUF_SIZE (cn_cur_msg c ++ b ++ extra) = b ++ extra) as Hdrop by (rewrite <-Hlen; apply drop_app_length).
    rewrite <-app_assoc.
    pose proof (decode_stream_eq type id (cn_cur_msg c ++ b ++ extra)) as Hdec.
    rewrite Htake, Hdrop, Hp, Ha in Hdec.
    rewrite (proj2 (Nat.ltb_ge _ _)) in Hdec by (rewrite length_app; lia).
    destruct (n <=? _)%Z eqn:Ele.
    + destruct (addressee _ _ _ _ _) as [k|e|]; [| |done].
      * destruct Hw as (s' & E & Hat' & Hk). exists s', (drop (Z.to_nat n) (b ++ extra)), [k], (Ret tt).
        split_and!; auto. exists (drop (Z.to_nat n) (b ++ extra)). split; [|done].
        exists (set_cn_bytes_to_read 0 c). split_and!; auto. now left.
      * destruct Hw as (s' & b' & E & Hk). exists s', b', [], (Throw e). rewrite app_nil_r.
        split_and!; auto; now rewrite Hdec.
    + exists s, (b ++ extra), [], (Ret tt). rewrite app_nil_r. split_and!; auto.
      exists (cn_cur_msg c ++ b ++ extra). split; [|now rewrite and_then_nil].
      exists c. split_and!; auto. unfold undelivered. now rewrite (proj2 (Z.eqb_neq _ _)) by lia.
Qed.
End reassembly.

(** the event loop: bytes arrive and are appended to the buffer *)
Definition arrival (t : tcp) (chunk : list byte) : M (TCPServer * list byte) unit :=
  modify (fun '(s, b) => (s, b ++ chunk)) ≫= fun _ => handle_bytes t.

Lemma arrival_eq t chunk s b : arrival t chunk (s, b) = handle_bytes t (s, b ++ chunk).
Proof. reflexivity. Qed.

(** decoding in two steps *)
Lemma decode_and_then type id v1 calls v2 rest :
  decode_stream type id v1 = and_then calls (decode_stream type id v2) ->
  decode_stream type id (v1 ++ rest) = and_then calls (decode_stream type id (v2 ++ rest)).
Proof.
  intros H. rewrite !decode_stream_app, H.
  destruct (decode_stream type id v2) as [[cs r] [[]|e|]]; cbn; [|done|done]. now rewrite and_then_app.
Qed.

(** ** Sending *)

(** a message the server can put on the wire *)
Definition put_ok (p : string_view * Buffer) : Prop :=
  cview NAME_LENGTH p.1 /\ length (buffer_data p.2) = buf_len p.2 /\ (Z.of_nat (buf_len p.2) < 2 ^ 31)%Z.

(** the header of the put [p] sent by process [id] *)
Definition put_frame (id : string) (p : string_view * Buffer) (hdr : mem) : Prop :=
  length hdr = BUF_SIZE /\ exists m, parse hdr = Ret (VPutMessage m) /\ sv_str (put_name m) = sv_str p.1 /\
    sv_str (put_process_id m) = id /\ total_length m = Z.of_nat (buf_len p.2).

(** the peer is told of the put, with the bytes of its payload *)
Definition put_call (id : string) (hdr : mem) (p : string_view * Buffer) : ctl_call :=
  CallRemote hdr {| buf_ptr := Some (buffer_data p.2); buf_size := buf_len p.2; buf_len := buf_len p.2 |} id.

Definition frame_bytes (hdr : mem) (p : string_view * Buffer) : list byte := hdr ++ buffer_data p.2.

Lemma put_header id p :
  cview NAME_LENGTH (sv_of_string id) -> put_ok p ->
  exists hdr, put_frame id p hdr /\
    (r ← set_put_name p.1 PutMessageData; r ← set_put_process_id (sv_of_string id) r;
     Ret (bytes (set_total_length (wrap_i32 (Z.of_nat (buf_len p.2))) r))) = Ret hdr.
Proof.
  intros Hid (Hn & Hb & Hlt). assert (i32_range (Z.of_nat (buf_len p.2))) as Hr by (unfold i32_range; lia).
  destruct (PutMessage_parse p.1 (sv_of_string id) _ Hn Hid Hr) as (r & Er & Hlen & m & Hm & H1 & H2 & H3).
  exists (bytes (set_total_length (Z.of_nat (buf_len p.2)) r)). rewrite wrap_i32_id by done.
  apply bind_ret_inv in Er as (r1 & E1 & E2). rewrite E1. cbn [mbind outcome_bind]. rewrite E2.
  split; [|reflexivity]. split; [done|]. exists m. rewrite sv_str_of_string in H2. now split_and!.
Qed.

Lemma decode_stream_frame id p hdr rest :
  put_ok p -> put_frame id p hdr ->
  decode_stream PROCESS (Some id) (frame_bytes hdr p ++ rest) =
    and_then [put_call id hdr p] (decode_stream PROCESS (Some id) rest).
Proof.
  intros (Hn & Hb & Hlt) (Hlen & m & Hp & _ & _ & Ht). unfold frame_bytes. rewrite <-app_assoc.
  apply (decode_message PROCESS (Some id) hdr _ false _ rest _ Hlen Hp).
  - cbn. rewrite Ht, Hb, wrap_u64_id; [done|unfold u64_range; lia].
  - cbn. unfold put_call, payload_buffer. now rewrite firstn_all, Hb.
Qed.

Lemma decode_stream_frames id puts hdrs :
  Forall put_ok puts -> Forall2 (put_frame id) puts hdrs ->
  decode_stream PROCESS (Some id) (concat (zip_with frame_bytes hdrs puts)) =
    (zip_with (put_call id) hdrs puts, [], Ret tt).
Proof.
  intros Hok Hf. induction Hf as [|p hdr puts hdrs Hp Hf IH]; [reflexivity|].
  apply List.Forall_cons_iff in Hok as [Hp1 Hok]. cbn [zip_with concat].
  rewrite (decode_stream_frame id p) by done. rewrite IH by done. reflexivity.
Qed.

(** a put to a peer without a connection is stored, and asks for one *)
Definition stored (l : loc) (hdr : mem) (p : string_view * Buffer) (c : Connection) (s : TCPServer) : TCPServer :=
  let c' := set_cn_pendings_msgs (cn_pendings_msgs c ++ [(hdr, p.2)]) c in
  match cn_status c with
  | DISCONNECTED => set_ts_connects (ts_connects s ++ [(l, cn_ip_address c, (cn_port c mod 2 ^ 16)%Z)])
                      (set_ts_heap (<[l := set_cn_status CONNECTING c']> (ts_heap s)) s)
  | _ => set_ts_heap (<[l := c']> (ts_heap s)) s
  end.

Lemma alter_insert_eq {V} (f : V -> V) (l : nat) (m : gmap nat V) x : m !! l = Some x -> alter f l m = <[l := f x]> m.
Proof.
  intros Hx. apply map_eq. intros i. destruct (decide (i = l)) as [->|Hne].
  - now rewrite lookup_alter_eq, lookup_insert_eq, Hx.
  - now rewrite lookup_alter_ne, lookup_insert_ne by done.
Qed.

Lemma tcp_put_message_stored peer l c s p :
  cview NAME_LENGTH (sv_of_string (ts_process_id s)) -> put_ok p ->
  ts_connection_data s !! sv_str peer = Some l -> ts_heap s !! l = Some c -> cn_conn c = None ->
  exists hdr, put_frame (ts_process_id s) p hdr /\
    tcp_put_message peer p.1 p.2 s = (Ret tt, stored l hdr p c s).
Proof.
  intros Hid Hp Hl Hc Hn. destruct (put_header _ _ Hid Hp) as (hdr & Hf & E). exists hdr. split; [done|].
  unfold tcp_put_message. erewrite M_bind_eq by reflexivity. rewrite Hl. erewrite M_bind_eq by reflexivity.
  apply bind_ret_inv in E as (r1 & E1 & E). apply bind_ret_inv in E as (r2 & E2 & E). injection E as <-.
  rewrite E1. erewrite M_bind_eq by reflexivity. rewrite E2. erewrite M_bind_eq by reflexivity.
  unfold send_or_store. rewrite (M_bind_eq _ _ _ _ _ (deref_at l _ _ Hc)). rewrite Hn.
  erewrite M_bind_eq by reflexivity. unfold stored.
  unfold update_conn, modify. rewrite (alter_insert_eq _ _ _ c Hc).
  destruct (cn_status c) eqn:Est; [|reflexivity|reflexivity].
  unfold connect. erewrite M_bind_eq by reflexivity. cbn [ts_heap set_ts_heap].
  rewrite (alter_insert_eq _ _ _ _ (lookup_insert_eq _ _ _)), insert_insert_eq.
  unfold deref, mbind, M_bind. cbn [ts_heap set_ts_heap]. rewrite lookup_insert_eq. reflexivity.
Qed.

Lemma tcp_puts_stored peer l c s puts :
  cview NAME_LENGTH (sv_of_string (ts_process_id s)) -> Forall put_ok puts ->
  ts_connection_data s !! sv_str peer = Some l -> ts_heap s !! l = Some c -> cn_conn c = None ->
  exists hdrs s' c', Forall2 (put_frame (ts_process_id s)) puts hdrs /\
    for_each (fun p => tcp_put_message peer p.1 p.2) puts s = (Ret tt, s') /\
    ts_heap s' !! l = Some c' /\ cn_conn c' = None /\
    cn_pendings_msgs c' = cn_pendings_msgs c ++ zip_with (fun hdr p => (hdr, p.2)) hdrs puts /\
    ts_sent s' = ts_sent s /\ ts_process_id s' = ts_process_id s /\
    ts_connects s' = ts_connects s ++
      match puts, cn_status c with
      | _ :: _, DISCONNECTED => [(l, cn_ip_address c, (cn_port c mod 2 ^ 16)%Z)]
      | _, _ => []
      end.
Proof.
  intros Hid Hok. revert s c Hid. induction Hok as [|p puts Hp Hok IH]; intros s c Hid Hl Hc Hn.
  - exists [], s, c. cbn. rewrite !app_nil_r. now split_and!.
  - destruct (tcp_put_message_stored peer l c s p) as (hdr & Hf & E); auto.
    cbn [for_each]. rewrite (M_bind_eq _ _ _ _ _ E).
    set (c1 := (match cn_status c with DISCONNECTED => set_cn_status CONNECTING | _ => fun c => c end)
                 (set_cn_pendings_msgs (cn_pendings_msgs c ++ [(hdr, p.2)]) c)).
    assert (ts_heap (stored l hdr p c s) !! l = Some c1) as Hc1.
    { unfold stored, c1. destruct (cn_status c); cbn; apply lookup_insert_eq. }
    destruct (IH (stored l hdr p c s) c1) as (hdrs & s' & c' & H1 & H2 & H3 & H4 & H5 & H6 & H7 & H8); auto.
    1,2: unfold stored; destruct (cn_status c); done.
    { unfold c1. destruct (cn_status c); done. }
    exists (hdr :: hdrs), s', c'. rewrite H5, H6, H7, H8. unfold stored, c1.
    unfold stored in H1. split_and!; auto.
    + constructor; [done|]. destruct (cn_status c); exact H1.
    + cbn [zip_with]. destruct (cn_status c); cbn; now rewrite <-app_assoc.
    + destruct (cn_status c); done.
    + destruct (cn_status c); done.
    + destruct (cn_status c) eqn:Es; cbn; destruct puts; cbn; rewrite ?Es, ?app_nil_r; done.
Qed.

(** the bytes sent over [t] *)
Definition sent_on (t : tcp) (s : TCPServer) : list byte := concat (snd <$> filter (fun x => x.1 = t) (ts_sent s)).

Lemma sent_on_send t data s : sent_on t (tcp_send t data s).2 = sent_on t s ++ data.
Proof.
  unfold sent_on. cbn. rewrite list.filter_app, fmap_app, concat_app. f_equal.
  rewrite filter_cons_True by done. cbn. apply app_nil_r.
Qed.

Lemma update_conn_eq l f c s : ts_heap s !! l = Some c ->
  update_conn l f s = (Ret tt, set_ts_heap (<[l := f c]> (ts_heap s)) s).
Proof. intros Hc. unfold update_conn, modify. now rewrite (alter_insert_eq _ _ _ c Hc). Qed.

(** a put over a connection *)
Lemma put_over_connection peer l c t s p hdr :
  (r ← set_put_name p.1 PutMessageData; r ← set_put_process_id (sv_of_string (ts_process_id s)) r;
   Ret (bytes (set_total_length (wrap_i32 (Z.of_nat (buf_len p.2))) r))) = Ret hdr ->
  ts_connection_data s !! sv_str peer = Some l -> ts_heap s !! l = Some c -> cn_conn c = Some t ->
  exists s', tcp_put_message peer p.1 p.2 s = (Ret tt, s') /\ sent_on t s' = sent_on t s ++ frame_bytes hdr p.
Proof.
  intros E Hl Hc Hn. exists (tcp_send t (buffer_data p.2) (tcp_send t hdr s).2).2.
  unfold tcp_put_message. erewrite M_bind_eq by reflexivity. rewrite Hl. erewrite M_bind_eq by reflexivity.
  apply bind_ret_inv in E as (r1 & E1 & E). apply bind_ret_inv in E as (r2 & E2 & E). injection E as <-.
  rewrite E1. erewrite M_bind_eq by reflexivity. rewrite E2. erewrite M_bind_eq by reflexivity.
  unfold send_or_store. rewrite (M_bind_eq _ _ _ _ _ (deref_at l _ _ Hc)), Hn.
  unfold conn_send, mbind, M_bind. rewrite (deref_at l c s Hc), Hn.
  cbn. unfold deref. cbn. rewrite Hc, Hn. split; [reflexivity|].
  unfold frame_bytes. change (sent_on t (tcp_send t (buffer_data p.2) (tcp_send t
    (bytes (set_total_length (wrap_i32 (Z.of_nat (buf_len p.2))) r2)) s).2).2 = sent_on t s ++ 
    bytes (set_total_length (wrap_i32 (Z.of_nat (buf_len p.2))) r2) ++ buffer_data p.2).
  now rewrite !sent_on_send, app_assoc.
Qed.

Lemma flush_pending t pend s :
  Forall (fun p => length (buffer_data p.2) = buf_len p.2) pend ->
  exists s', for_each (fun '(msg, buf) =>
      tcp_send t msg ≫= fun _ => if 0 <? buf_len buf then tcp_send t (buffer_data buf) else mret tt) pend s
    = (Ret tt, s') /\ sent_on t s' = sent_on t s ++ concat ((fun p => p.1 ++ buffer_data p.2) <$> pend) /\
    ts_heap s' = ts_heap s /\ ts_connects s' = ts_connects s.
Proof.
  intros Hp. revert s. induction Hp as [|[msg buf] pend Hlen Hp IH]; intros s.
  - exists s. cbn. now rewrite app_nil_r.
  - cbn [for_each]. cbn [snd] in Hlen.
    set (s1 := (tcp_send t (buffer_data buf) (tcp_send t msg s).2).2).
    set (s1' := (tcp_send t msg s).2).
    assert (sent_on t (if 0 <? buf_len buf then s1 else s1') = sent_on t s ++ msg ++ buffer_data buf) as H1.
    { unfold s1, s1'. destruct (Nat.ltb_spec 0 (buf_len buf)) as [Hb|Hb].
      - now rewrite !sent_on_send, app_assoc.
      - rewrite sent_on_send. destruct (buffer_data buf); [now rewrite app_nil_r|cbn in Hlen; lia]. }
    destruct (IH (if 0 <? buf_len buf then s1 else s1')) as (s' & E & H2 & H3 & H4).
    exists s'. unfold mbind, M_bind in E |- *. cbn [fmap list_fmap concat fst snd].
    rewrite app_assoc, <-H1. split; [|rewrite H3, H4; split_and!; [exact H2|..]].
    + destruct (0 <? buf_len buf); exact E.
    + unfold s1, s1'; destruct (0 <? buf_len buf); reflexivity.
    + unfold s1, s1'; destruct (0 <? buf_len buf); reflexivity.
Qed.

Lemma client_connected_flush l c s t :
  cview NAME_LENGTH (sv_of_string (ts_process_id s)) -> ts_heap s !! l = Some c ->
  Forall (fun p => length (buffer_data p.2) = buf_len p.2) (cn_pendings_msgs c) ->
  exists reg s', client_connected l t s = (Ret tt, s') /\
    length reg = BUF_SIZE /\ (exists m, parse reg = Ret (VProcessConnection m) /\ sv_str (process_name m) = ts_process_id s) /\
    sent_on t s' = sent_on t s ++ reg ++ concat ((fun p => p.1 ++ buffer_data p.2) <$> cn_pendings_msgs c) /\
    ts_heap s' !! l = Some (set_cn_pendings_msgs [] (set_cn_conn (Some t) (set_cn_status CONNECTED c))) /\
    ts_connects s' = ts_connects s.
Proof.
  intros Hid Hc Hp. destruct (ProcessConnection_parse _ Hid) as (r & Er & Hlen & m & Hm & Hn).
  rewrite sv_str_of_string in Hn. exists (bytes r).
  set (c1 := set_cn_status CONNECTED c). set (c2 := set_cn_conn (Some t) c1).
  set (s1 := set_ts_heap (<[l := c1]> (ts_heap s)) s).
  set (s2 := set_ts_heap (<[l := c2]> (ts_heap s1)) (tcp_send t (bytes r) s1).2).
  destruct (flush_pending t (cn_pendings_msgs c) s2 Hp) as (s3 & E3 & H1 & H2 & H3).
  exists (set_ts_heap (<[l := set_cn_pendings_msgs [] c2]> (ts_heap s3)) s3). split.
  - unfold client_connected.
    assert (update_conn l (set_cn_status CONNECTED) s = (Ret tt, s1)) as E
      by (unfold update_conn, modify; now rewrite (alter_insert_eq _ _ _ c Hc)).
    rewrite (M_bind_eq _ _ _ _ _ E). erewrite M_bind_eq by reflexivity. cbn [s1 ts_process_id set_ts_heap].
    rewrite Er. erewrite M_bind_eq by reflexivity. erewrite M_bind_eq by reflexivity.
    erewrite M_bind_eq. 2: { unfold update_conn, modify. cbn [ts_heap set_ts_heap set_ts_sent].
      rewrite (alter_insert_eq _ _ _ c1) by apply lookup_insert_eq. reflexivity. }
    erewrite M_bind_eq. 2: { apply (deref_at l c2). cbn. apply lookup_insert_eq. }
    cbn [c2 c1 cn_pendings_msgs set_cn_conn set_cn_status].
    erewrite M_bind_eq by exact E3. unfold update_conn, modify.
    rewrite (alter_insert_eq _ _ _ c2); [reflexivity|]. rewrite H2. cbn. apply lookup_insert_eq.
  - split_and!; auto; [now exists m| |cbn; apply lookup_insert_eq].
    transitivity (sent_on t s3); [reflexivity|]. rewrite H1. unfold s2.
    change (sent_on t (set_ts_heap ?h ?x)) with (sent_on t x).
    change (sent_on t (set_ts_heap _ (tcp_send t (bytes r) s1).2)) with (sent_on t (tcp_send t (bytes r) s1).2).
    rewrite sent_on_send. now rewrite <-app_assoc.
Qed.

Lemma fmap_frames hdrs puts :
  (fun p : mem * Buffer => p.1 ++ buffer_data p.2) <$> zip_with (fun hdr p => (hdr, p.2)) hdrs puts =
  zip_with frame_bytes hdrs (puts : list (string_view * Buffer)).
Proof. revert puts. induction hdrs as [|h hdrs IH]; intros [|p puts]; cbn; [done..|]. f_equal. apply IH. Qed.

(** C6: reassembly refines the declarative decoder: however the bytes of a
    connection are cut into reads, the calls into the controller are, in order
    and without loss or repetition, a prefix of the calls of the messages in
    the whole stream; the bytes that are left say exactly the remaining calls;
    and an exception of the server is one the decoder reports at that point. *)
Theorem reassembly_refines_stream t l type id chunks v s b o s' b' :
  receiving t l type id v s b -> for_each (arrival t) chunks (s, b) = (o, (s', b')) ->
  exists calls, ts_calls s' = ts_calls s ++ calls /\
    match o with
    | Ret _ => exists v', receiving t l type id v' s' b' /\
        decode_stream type id (v ++ concat chunks) = and_then calls (decode_stream type id v')
    | Throw e => (decode_stream type id (v ++ concat chunks)).1.1 = calls /\
        (decode_stream type id (v ++ concat chunks)).2 = Throw e
    | Undef => False
    end.
Proof.
  revert v s b. induction chunks as [|x chunks IH]; intros v s b Hr.
  - intros [= <- <- <-]. exists []. rewrite app_nil_r. split; [done|]. exists v.
    cbn [concat]. rewrite app_nil_r, and_then_nil. done.
  - cbn [for_each concat]. intros E.
    destruct (handle_bytes_receiving t l type id v s b x Hr) as (s1 & b1 & calls & o1 & E1 & Hk & H1).
    unfold mbind, M_bind at 1 in E. rewrite arrival_eq, E1 in E.
    destruct o1 as [[]|e|]; [|simplify_eq|done].
    + destruct H1 as (v1 & Hr1 & Hd1). destruct (IH v1 s1 b1 Hr1 E) as (calls' & Hk' & H').
      exists (calls ++ calls'). split; [rewrite Hk', Hk; now rewrite app_assoc|].
      rewrite app_assoc, (decode_and_then _ _ _ _ _ _ Hd1).
      destruct o as [[]|e|]; [| |done].
      * destruct H' as (v' & Hr' & Hd'). exists v'. split; [done|]. rewrite Hd'. apply and_then_app.
      * destruct H' as [H1' H2']. unfold and_then. cbn [fst snd]. now rewrite H1'.
    + exists calls. split; [done|]. destruct H1 as [H1 H2]. rewrite app_assoc, decode_stream_app.
      destruct (decode_stream type id (v ++ x)) as [[cs rest] o']. cbn in *. subst. done.
Qed.

(** What one read of the buffer delivers.  Between two messages it is
    everything the decoder finds, and nothing complete stays behind.  When a
    header waited for its payload, it is that one message when the payload is
    there - the complete messages that follow it stay in the buffer until more
    bytes arrive - and nothing otherwise. *)
Theorem read_delivers t l type id c s b :
  conn_at t l type id c s -> conn_ok c ->
  exists s' b' calls o, handle_bytes t (s, b) = (o, (s', b')) /\ ts_calls s' = ts_calls s ++ calls /\
    if (cn_bytes_to_read c =? 0)%Z then
      calls = (decode_stream type id b).1.1 /\ o = (decode_stream type id b).2 /\
      (o = Ret tt -> receiving t l type id (decode_stream type id b).1.2 s' b')
    else if (cn_bytes_to_read c <=? Z.of_nat (length b))%Z then
      (o = Ret tt -> length calls = 1 /\ b' = drop (Z.to_nat (cn_bytes_to_read c)) b)
    else calls = [] /\ o = Ret tt /\ b' = b /\ s' = s.
Proof.
  intros Hat Hok. unfold handle_bytes. erewrite M_bind_eq by reflexivity. cbn [snd].
  destruct (Z.eqb_spec (cn_bytes_to_read c) 0) as [Hz|Hnz].
  - destruct (handle_message_at t l type id (S (length b)) c s b) as (s' & b' & E & Hk & Hr); auto.
    exists s', b', (decode_stream type id b).1.1, (decode_stream type id b).2. now split_and!.
  - assert (0 < cn_bytes_to_read c)%Z as Hpos by (destruct Hok as [|[]]; lia).
    destruct (handle_message_waiting t l type id (S (length b)) c s b) as (request & n & Ha & -> & Hw);
      auto; [lia|]. destruct (_ <=? _)%Z eqn:Ele.
    + destruct (addressee _ _ _ _ _) as [k|e|]; [| |done].
      * destruct Hw as (s' & E & _ & Hk). exists s', (drop (Z.to_nat (cn_bytes_to_read c)) b), [k], (Ret tt).
        now split_and!.
      * destruct Hw as (s' & b' & E & Hk). exists s', b', [], (Throw e). rewrite app_nil_r. now split_and!.
    + exists s, b, [], (Ret tt). rewrite app_nil_r. now split_and!.
Qed.

(** C8: puts to a peer that has no connection are neither lost nor reordered:
    they are stored, one connection attempt is made, and when it succeeds the
    bytes sent are the registration of this process followed by a stream that
    the peer's decoder cuts into exactly these puts, in order, each with its
    name, its sender and its payload. *)
Theorem puts_reach_peer_in_order peer l t c s puts :
  cview NAME_LENGTH (sv_of_string (ts_process_id s)) -> Forall put_ok puts ->
  ts_connection_data s !! sv_str peer = Some l -> ts_heap s !! l = Some c ->
  cn_conn c = None -> cn_pendings_msgs c = [] -> cn_status c = DISCONNECTED -> puts <> [] ->
  exists s1 s2 reg stream hdrs,
    for_each (fun p => tcp_put_message peer p.1 p.2) puts s = (Ret tt, s1) /\
    client_connected l t s1 = (Ret tt, s2) /\
    ts_connects s2 = ts_connects s ++ [(l, cn_ip_address c, (cn_port c mod 2 ^ 16)%Z)] /\
    sent_on t s2 = sent_on t s ++ reg ++ stream /\
    length reg = BUF_SIZE /\
    (exists m, parse reg = Ret (VProcessConnection m) /\ sv_str (process_name m) = ts_process_id s) /\
    Forall2 (put_frame (ts_process_id s)) puts hdrs /\
    decode_stream PROCESS (Some (ts_process_id s)) stream =
      (zip_with (put_call (ts_process_id s)) hdrs puts, [], Ret tt).
Proof.
  intros Hid Hok Hl Hc Hn Hpe Hst Hne.
  destruct (tcp_puts_stored peer l c s puts) as (hdrs & s1 & c1 & H1 & H2 & H3 & H4 & H5 & H6 & H7 & H8); auto.
  rewrite Hpe in H5. rewrite Hst in H8. cbn [app] in H5.
  destruct (client_connected_flush l c1 s1 t) as (reg & s2 & E & Hlen & Hreg & Hs & _ & Hcn); auto.
  { now rewrite H7. }
  { rewrite H5. clear -Hok. revert hdrs. induction Hok as [|p puts (_ & Hp & _) _ IH]; intros [|h hdrs]; cbn; auto. }
  rewrite H5, fmap_frames in Hs. rewrite H7 in Hreg.
  exists s1, s2, reg, (concat (zip_with frame_bytes hdrs puts)), hdrs. split_and!; auto.
  - rewrite Hcn, H8. now destruct puts.
  - rewrite Hs. unfold sent_on. now rewrite H6.
  - now apply decode_stream_frames.
Qed.

Lemma invocation_result_sent source proc id code payload s :
  cview ID_LENGTH id -> i32_range code -> length (accessor_data payload) = acc_len payload ->
  (Z.of_nat (acc_len payload) < 2 ^ 31)%Z ->
  match result_recipient source proc s with
  | None => tcp_invocation_result source proc id code payload s = (Ret tt, s)
  | Some l => forall c, ts_heap s !! l = Some c ->
      match cn_conn c with
      | None => tcp_invocation_result source proc id code payload s = (Undef, s)
      | Some t => exists hdr s', tcp_invocation_result source proc id code payload s = (Ret tt, s') /\
          sent_on t s' = sent_on t s ++ hdr ++ accessor_data payload /\ length hdr = BUF_SIZE /\
          exists m, parse hdr = Ret (VInvocationResult m) /\ sv_str (result_invocation_id m) = sv_str id /\
            return_code m = code /\ total_length m = Z.of_nat (acc_len payload)
      end
  end.
Proof.
  intros Hid Hcode Hlen Hlt. unfold tcp_invocation_result. erewrite M_bind_eq by reflexivity.
  destruct (result_recipient source proc s) as [l|]; [|reflexivity]. intros c Hc.
  assert (i32_range (Z.of_nat (acc_len payload))) as Hr by (unfold i32_range; lia).
  destruct (InvocationResult_parse id code _ Hid Hcode Hr) as (r & Er & Hl & m & Hm & H1 & H2 & H3).
  rewrite Er. erewrite M_bind_eq by reflexivity. rewrite wrap_i32_id by done.
  set (hdr := bytes _) in *.
  assert (forall data s0, ts_heap s0 = ts_heap s -> conn_send l data s0 =
    match cn_conn c with Some t => (Ret tt, (tcp_send t data s0).2) | None => (Undef, s0) end) as Hsend.
  { intros data s0 Hs0. unfold conn_send. rewrite (M_bind_eq _ _ _ _ _ (deref_at l c s0 ltac:(congruence))).
    now destruct (cn_conn c). }
  unfold mbind, M_bind. rewrite Hsend by done. destruct (cn_conn c) as [t|]; [|reflexivity].
  destruct (Nat.ltb_spec 0 (acc_len payload)) as [Hpos|Hz].
  - rewrite Hsend by done. exists hdr, (tcp_send t (accessor_data payload) (tcp_send t hdr s).2).2.
    split_and!; [reflexivity| |done|eauto]. now rewrite !sent_on_send, app_assoc.
  - exists hdr, (tcp_send t hdr s).2. split_and!; [reflexivity| |done|eauto].
    rewrite sent_on_send. destruct (accessor_data payload); [now rewrite app_nil_r|cbn in Hlen; lia].
Qed.

(** The result of an invocation goes to the plane or the process that asked,
    as one header that carries its id, return code and length, followed by the
    payload; a result for an unknown recipient is dropped; and for a recipient
    that never had a connection the null pointer is dereferenced. *)
Theorem result_goes_to_source source proc id code payload s :
  cview ID_LENGTH id -> i32_range code -> length (accessor_data payload) = acc_len payload ->
  (Z.of_nat (acc_len payload) < 2 ^ 31)%Z ->
  match result_recipient source proc s with
  | None => tcp_invocation_result source proc id code payload s = (Ret tt, s)
  | Some l => forall c, ts_heap s !! l = Some c ->
      match cn_conn c with
      | None => tcp_invocation_result source proc id code payload s = (Undef, s)
      | Some t => exists hdr s', tcp_invocation_result source proc id code payload s = (Ret tt, s') /\
          sent_on t s' = sent_on t s ++ hdr ++ accessor_data payload /\ length hdr = BUF_SIZE /\
          exists m, parse hdr = Ret (VInvocationResult m) /\ sv_str (result_invocation_id m) = sv_str id /\
            return_code m = code /\ total_length m = Z.of_nat (acc_len payload)
      end
  end.
Proof. apply invocation_result_sent. Qed.

(** the acknowledgement of a registration, as [_handle_connection] sends it *)
Definition ack : mem := from_ret [] (encode (WProcessConnection "CORRECT")).

Lemma ack_parse : exists m, parse ack = Ret (VProcessConnection m) /\ sv_str (process_name m) = "CORRECT".
Proof. eexists. split; [vm_compute; reflexivity|vm_compute; reflexivity]. Qed.

Lemma length_ack : length ack = BUF_SIZE.
Proof. vm_compute. reflexivity. Qed.

(** a registration on a connection without a context, with nothing behind it *)
Lemma handle_message_registration fuel t s d m :
  ts_contexts s !! t = None -> length d = BUF_SIZE -> parse d = Ret (VProcessConnection m) ->
  handle_message (S fuel) t (s, d) =
    match handle_connection t m s with
    | (Ret _, s') => (Ret tt, (s', []))
    | (Throw e, s') => (Throw e, (s', d))
    | (Undef, s') => (Undef, (s', d))
    end.
Proof.
  intros Ht Hlen Hm.
  cbn [handle_message]. erewrite M_bind_eq by reflexivity. cbn [fst]. rewrite Ht.
  erewrite M_bind_eq by reflexivity. cbn [snd]. rewrite Hlen, (proj2 (Nat.ltb_ge _ _)) by reflexivity.
  rewrite take_ge by lia. rewrite Hm. erewrite M_bind_eq by reflexivity. unfold mbind, M_bind, on_srv, zoom.
  cbn [fst snd]. destruct (handle_connection t m s) as [[]]; [|reflexivity|reflexivity].
  unfold retrieve, modify, peek, gets. rewrite drop_ge by lia. reflexivity.
Qed.

Lemma handle_registration t s d m :
  ts_contexts s !! t = None -> length d = BUF_SIZE -> parse d = Ret (VProcessConnection m) ->
  handle_bytes t (s, d) =
    match handle_connection t m s with
    | (Ret _, s') => (Ret tt, (s', []))
    | (Throw e, s') => (Throw e, (s', d))
    | (Undef, s') => (Undef, (s', d))
    end.
Proof. intros. unfold handle_bytes. erewrite M_bind_eq by reflexivity. now apply handle_message_registration. Qed.

Lemma handle_connection_known t m s l c :
  ts_connection_data s !! sv_str (process_name m) = Some l -> ts_heap s !! l = Some c ->
  sv_str (process_name m) <> DATAPLANE_ID -> sv_str (process_name m) <> CONTROLPLANE_ID ->
  exists s', handle_connection t m s = (Ret tt, s') /\ ts_contexts s' = <[t := l]> (ts_contexts s) /\
    ts_heap s' !! l = Some (set_cn_status CONNECTED (set_cn_conn (Some t) c)) /\
    ts_connection_data s' = ts_connection_data s.
Proof.
  intros Hl Hc H1 H2. unfold handle_connection. erewrite M_bind_eq by reflexivity. rewrite Hl.
  rewrite !decide_False by done. eexists. split; [reflexivity|]. cbn. split_and!; [reflexivity| |reflexivity].
  now rewrite lookup_alter_eq, Hc.
Qed.

Lemma handle_connection_new t m s :
  ts_connection_data s !! sv_str (process_name m) = None ->
  sv_str (process_name m) <> DATAPLANE_ID -> sv_str (process_name m) <> CONTROLPLANE_ID ->
  exists s' l, handle_connection t m s = (Ret tt, s') /\ ts_contexts s' = <[t := l]> (ts_contexts s) /\
    ts_heap s' !! l = Some (Connection_make CONNECTED PROCESS (Some (sv_str (process_name m))) (Some t)) /\
    ts_connection_data s' = <[sv_str (process_name m) := l]> (ts_connection_data s) /\
    ts_data_plane s' = ts_data_plane s /\ sent_on t s' = sent_on t s ++ ack.
Proof.
  intros Hl H1 H2. unfold handle_connection. erewrite M_bind_eq by reflexivity. rewrite Hl.
  rewrite !decide_False by done. eexists _, _. split; [reflexivity|]. split_and!; [reflexivity| |reflexivity..|].
  - apply lookup_insert_eq.
  - etransitivity; [apply sent_on_send|reflexivity].
Qed.

(** two connections that register under the same name share its entry, which
    keeps the second one *)
Lemma registrations_merge t1 t2 s d m (n := sv_str (process_name m)) :
  length d = BUF_SIZE -> parse d = Ret (VProcessConnection m) -> n <> DATAPLANE_ID -> n <> CONTROLPLANE_ID ->
  t1 <> t2 -> ts_contexts s !! t1 = None -> ts_contexts s !! t2 = None ->
  ts_connection_data s !! n = None ->
  exists s1 s2 l c, handle_bytes t1 (s, d) = (Ret tt, (s1, [])) /\
    handle_bytes t2 (s1, d) = (Ret tt, (s2, [])) /\
    conn_at t1 l PROCESS (Some n) c s2 /\ conn_at t2 l PROCESS (Some n) c s2 /\
    result_recipient PROCESS (Some n) s2 = Some l /\ cn_conn c = Some t2.
Proof.
  intros Hd Hm Hn1 Hn2 Hne H1 H2 Hn.
  destruct (handle_connection_new t1 m s) as (s1 & l & E1 & Hx1 & Hh1 & Hd1 & _); try done.
  destruct (handle_connection_known t2 m s1 l (Connection_make CONNECTED PROCESS (Some n) (Some t1)))
    as (s2 & E2 & Hx2 & Hh2 & Hd2); try done.
  { rewrite Hd1. apply lookup_insert_eq. }
  exists s1, s2, l, (set_cn_status CONNECTED (set_cn_conn (Some t2)
    (Connection_make CONNECTED PROCESS (Some n) (Some t1)))).
  assert (ts_contexts s1 !! t2 = None) as H2' by now rewrite Hx1, lookup_insert_ne.
  pose proof (handle_registration t1 s d m H1 Hd Hm) as Hr1. rewrite E1 in Hr1.
  pose proof (handle_registration t2 s1 d m H2' Hd Hm) as Hr2. rewrite E2 in Hr2.
  split; [exact Hr1|]. split; [exact Hr2|].
  unfold conn_at. rewrite Hx2, Hx1, Hh2. cbn [result_recipient]. rewrite Hd2, Hd1.
  rewrite !lookup_insert_eq, lookup_insert_ne, lookup_insert_eq by done. now split_and!.
Qed.

(** A process that connects to its peers itself cannot tell them apart:
    these connections get their context from the acknowledgement of the peer,
    whose text "CORRECT" is taken for the peer's name.  After the
    acknowledgements of two peers, what either sends counts as sent by a
    process "CORRECT", and the results for both go to the second. *)
Theorem acknowledgements_merge_peers t1 t2 s :
  t1 <> t2 -> ts_contexts s !! t1 = None -> ts_contexts s !! t2 = None ->
  ts_connection_data s !! "CORRECT" = None ->
  exists s1 s2 l c, handle_bytes t1 (s, ack) = (Ret tt, (s1, [])) /\
    handle_bytes t2 (s1, ack) = (Ret tt, (s2, [])) /\
    conn_at t1 l PROCESS (Some "CORRECT") c s2 /\ conn_at t2 l PROCESS (Some "CORRECT") c s2 /\
    result_recipient PROCESS (Some "CORRECT") s2 = Some l /\ cn_conn c = Some t2.
Proof.
  intros Hne H1 H2 Hn. destruct ack_parse as (m & Hm & Hname). rewrite <-Hname.
  apply registrations_merge; rewrite ?Hname; auto using length_ack; done.
Qed.

(** ** Witnesses *)
Definition demo_put_header : mem := from_ret [] (encode (WPutMessage "msg" "peer" 1)).
Definition demo_stream : list byte := demo_put_header ++ [x61] ++ demo_put_header ++ [x62].
Definition demo_parsed : MessageVariants := from_ret Monostate (parse demo_put_header).

(** a process connected to "peer" over the TCP connection 0 *)
Definition demo_conn : Connection := Connection_make CONNECTED PROCESS (Some "peer") (Some 0).
Definition demo_server (c : Connection) : TCPServer :=
  set_ts_contexts {[0 := 0]} (set_ts_heap {[0 := c]} (set_ts_connection_data {["peer" := 0]} (TCPServer_ctor "me"))).
Definition demo_waiting : Connection :=
  set_cn_bytes_to_read 1 (set_cn_parsed_msg demo_parsed (set_cn_cur_msg demo_put_header demo_conn)).

Lemma demo_conn_at c : cn_type c = PROCESS -> cn_id c = Some "peer" -> conn_at 0 0 PROCESS (Some "peer") c (demo_server c).
Proof. intros. now split_and!. Qed.

(** the stream in three reads that cut headers and payloads *)
Definition demo_chunks : list (list byte) :=
  [take 40 demo_stream; take 60 (drop 40 demo_stream); drop 100 demo_stream].
Definition demo_run := for_each (arrival 0) demo_chunks (demo_server demo_conn, []).

Lemma reassembly_refines_stream_witness :
  exists s' b' calls, demo_run = (Ret tt, (s', b')) /\
    ts_calls s' = ts_calls (demo_server demo_conn) ++ calls /\ length calls = 2 /\
    exists v', receiving 0 0 PROCESS (Some "peer") v' s' b' /\
      decode_stream PROCESS (Some "peer") ([] ++ concat demo_chunks) =
        and_then calls (decode_stream PROCESS (Some "peer") v').
Proof.
  destruct demo_run as [o [s' b']] eqn:E.
  assert (o = Ret tt) as -> by (transitivity demo_run.1; [now rewrite E|vm_compute; reflexivity]).
  assert (length (ts_calls s') = 2) as Hlen
    by (transitivity (length (ts_calls demo_run.2.1)); [now rewrite E|vm_compute; reflexivity]).
  assert (receiving 0 0 PROCESS (Some "peer") [] (demo_server demo_conn) []) as Hr
    by (exists demo_conn; split_and!; [now apply demo_conn_at|now left|reflexivity]).
  destruct (reassembly_refines_stream 0 0 PROCESS (Some "peer") _ [] _ _ _ _ _ Hr E) as (calls & Hk & Hv).
  exists s', b', calls. split_and!; auto. rewrite Hk in Hlen. exact Hlen.
Defined.

(** one byte was awaited, two messages are there: the second stays behind *)
Lemma read_delivers_witness :
  let b := x61 :: demo_put_header ++ [x62] in
  length (decode_stream PROCESS (Some "peer") (drop 1 b)).1.1 = 1 /\
  exists s' b' calls o, handle_bytes 0 (demo_server demo_waiting, b) = (o, (s', b')) /\
    ts_calls s' = ts_calls (demo_server demo_waiting) ++ calls /\
    (o = Ret tt -> length calls = 1 /\ b' = drop 1 b).
Proof.
  split; [vm_compute; reflexivity|].
  assert (conn_ok demo_waiting) as Hok.
  { right. split_and!; [reflexivity|vm_compute; reflexivity|vm_compute; reflexivity|].
    exists false. vm_compute. reflexivity. }
  exact (read_delivers 0 0 PROCESS (Some "peer") demo_waiting (demo_server demo_waiting) _
           (demo_conn_at demo_waiting eq_refl eq_refl) Hok).
Defined.

(** a server that knows the address of "peer" *)
Definition demo_known : TCPServer :=
  demo_server (set_cn_address "10.0.0.2" 8000 (Connection_make DISCONNECTED PROCESS (Some "peer") None)).
Definition demo_puts : list (string_view * Buffer) :=
  [(sv_of_string "a", buffer_of_bytes [x61]); (sv_of_string "b", buffer_of_bytes [])].

Lemma puts_reach_peer_in_order_witness :
  exists s1 s2 reg stream hdrs,
    for_each (fun p => tcp_put_message (sv_of_string "peer") p.1 p.2) demo_puts demo_known = (Ret tt, s1) /\
    client_connected 0 7 s1 = (Ret tt, s2) /\
    ts_connects s2 = [(0, "10.0.0.2", 8000%Z)] /\
    sent_on 7 s2 = reg ++ stream /\ length reg = BUF_SIZE /\
    (exists m, parse reg = Ret (VProcessConnection m) /\ sv_str (process_name m) = "me") /\
    Forall2 (put_frame "me") demo_puts hdrs /\
    decode_stream PROCESS (Some "me") stream = (zip_with (put_call "me") hdrs demo_puts, [], Ret tt).
Proof.
  exact (puts_reach_peer_in_order (sv_of_string "peer") 0 7
    (set_cn_address "10.0.0.2" 8000 (Connection_make DISCONNECTED PROCESS (Some "peer") None)) demo_known demo_puts
    ltac:(now apply cview_sample)
    ltac:(repeat (apply List.Forall_cons || apply List.Forall_nil);
          (split; [now apply cview_sample|split; [reflexivity|cbn; lia]]))
    eq_refl eq_refl eq_refl eq_refl eq_refl ltac:(discriminate)).
Defined.

Lemma result_goes_to_source_witness :
  exists hdr s', tcp_invocation_result PROCESS (Some "peer") (sv_of_string "id") 0
      (accessor_of (buffer_of_bytes [x61])) (demo_server demo_conn) = (Ret tt, s') /\
    sent_on 0 s' = hdr ++ [x61] /\ length hdr = BUF_SIZE /\
    exists m, parse hdr = Ret (VInvocationResult m) /\ sv_str (result_invocation_id m) = "id" /\
      return_code m = 0%Z /\ total_length m = 1%Z.
Proof.
  exact (result_goes_to_source PROCESS (Some "peer") (sv_of_string "id") 0 (accessor_of (buffer_of_bytes [x61]))
    (demo_server demo_conn)
    ltac:(now apply cview_sample)
    ltac:(unfold i32_range; lia) eq_refl ltac:(cbn; lia) demo_conn eq_refl).
Defined.

Lemma acknowledgements_merge_peers_witness :
  let s := TCPServer_ctor "me" in
  exists s1 s2 l c, handle_bytes 1 (s, ack) = (Ret tt, (s1, [])) /\
    handle_bytes 2 (s1, ack) = (Ret tt, (s2, [])) /\
    conn_at 1 l PROCESS (Some "CORRECT") c s2 /\ conn_at 2 l PROCESS (Some "CORRECT") c s2 /\
    result_recipient PROCESS (Some "CORRECT") s2 = Some l /\ cn_conn c = Some 2.
Proof. exact (acknowledgements_merge_peers 1 2 (TCPServer_ctor "me") ltac:(done) eq_refl eq_refl eq_refl). Defined.
