(* ===== verification/CpProcess.v ===== *)
(** * CpProcess: processes as the control plane sees them

    [control-plane/process.hpp] and [process.cpp], with the state of the whole
    control plane ([World]) that CpApplication.v and CpServer.v work on.
    Processes are shared objects ([ProcessPtr] in the tables of the
    applications, in the TCP server, in the contexts of connections and in
    callbacks) and live in a heap of locations.  A callback is the data it
    captures: whoever waits for a process is an HTTP client that asked for it,
    or an invocation that needs one; an HTTP client is a number, and what it is
    told is recorded.  Time only reaches metrics and log lines; the clock of
    [update_metrics] is an argument. *)

From S2P Require Import Prelude Memory Messages.

(** [process::Status] *)
Inductive PStatus : Type :=
  ALLOCATING | ALLOCATED | SWAPPED_OUT | SWAPPING_OUT | SWAPPING_IN | CLOSED | FAILURE.
#[export] Instance PStatus_eq_dec : EqDecision PStatus.
Proof. solve_decision. Defined.

(** the number of a TCP connection, a location of a process, an HTTP client *)
Abbreviation tcp := nat (only parsing).
Abbreviation ploc := nat (only parsing).
Abbreviation client := nat (only parsing).

(** [uuids::to_string] of the [n]-th identifier drawn: 36 characters *)
Class UuidGenerator : Type := { uuid_text : nat -> string }.
Class UuidLaws `{UuidGenerator} : Prop := {
  uuid_text_length n : String.length (uuid_text n) = 36;
  uuid_text_no_nul n : no_nul (uuid_text n);
}.

Record DataPlaneMetrics : Type := MkMetrics {
  dm_invocations : Z; dm_computation_time : Z; dm_last_invocation : Z; dm_last_report : Z;
}.
Definition DataPlaneMetrics_empty : DataPlaneMetrics :=
  {| dm_invocations := 0; dm_computation_time := 0; dm_last_invocation := 0; dm_last_report := 0 |}.

(** [process::Resources] *)
Record PResources : Type := MkPResources { vcpus : string; memory : string; sandbox_id : string }.

(** [process::Invocation]: the body of the request, whom to answer *)
Record PInvocation : Type := MkPInvocation {
  pi_body : list byte; pi_callback : client; pi_function_name : string; pi_invocation_id : string;
  pi_submitted : bool;
}.

(** [backend::ProcessInstance] of the Docker back end *)
Record ProcessInstance : Type := MkInstance { in_ip_address : string; in_port : Z; in_container_id : string }.

(** what the HTTP handlers answer *)
Inductive http_response : Type :=
  | RespProcess (name ip : string) (port : Z)
  | RespResult (function_name invocation_id : string) (return_code : Z) (result : list byte)
  | RespCorrect (message : string)
  | RespFailed (reason : string) (status : Z)
  | RespList (app : string) (active swapped : list string).

(** the creation callbacks: of [HttpServer::create_process], and of
    [Workers::handle_invocation] *)
Inductive creation_callback : Type :=
  | CbCreate (k : client)
  | CbInvoke (body : list byte) (k : client) (function_name : string).

Record Process : Type := MkProcess {
  pr_name : string;
  pr_application : string;
  pr_status : PStatus;
  pr_resources : PResources;
  pr_metrics : DataPlaneMetrics;
  pr_connection : option tcp;
  pr_swap : option string;
  pr_wait_for_allocation : bool;
  pr_creation_callback : option creation_callback;
  pr_handle : option ProcessInstance;
  pr_active_invocations : Z;
  pr_invocations : list PInvocation;
}.

Definition Process_ctor (name application : string) (resources : PResources) : Process :=
  {| pr_name := name; pr_application := application; pr_status := ALLOCATING; pr_resources := resources;
     pr_metrics := DataPlaneMetrics_empty; pr_connection := None; pr_swap := None;
     pr_wait_for_allocation := false; pr_creation_callback := None; pr_handle := None;
     pr_active_invocations := 0; pr_invocations := [] |}.

Definition set_status (x : PStatus) (p : Process) : Process :=
  {| pr_name := pr_name p; pr_application := pr_application p; pr_status := x;
     pr_resources := pr_resources p; pr_metrics := pr_metrics p; pr_connection := pr_connection p;
     pr_swap := pr_swap p; pr_wait_for_allocation := pr_wait_for_allocation p;
     pr_creation_callback := pr_creation_callback p; pr_handle := pr_handle p;
     pr_active_invocations := pr_active_invocations p; pr_invocations := pr_invocations p |}.
Definition set_pr_metrics (x : DataPlaneMetrics) (p : Process) : Process :=
  {| pr_name := pr_name p; pr_application := pr_application p; pr_status := pr_status p;
     pr_resources := pr_resources p; pr_metrics := x; pr_connection := pr_connection p;
     pr_swap := pr_swap p; pr_wait_for_allocation := pr_wait_for_allocation p;
     pr_creation_callback := pr_creation_callback p; pr_handle := pr_handle p;
     pr_active_invocations := pr_active_invocations p; pr_invocations := pr_invocations p |}.
Definition set_pr_connection (x : option tcp) (p : Process) : Process :=
  {| pr_name := pr_name p; pr_application := pr_application p; pr_status := pr_status p;
     pr_resources := pr_resources p; pr_metrics := pr_metrics p; pr_connection := x;
     pr_swap := pr_swap p; pr_wait_for_allocation := pr_wait_for_allocation p;
     pr_creation_callback := pr_creation_callback p; pr_handle := pr_handle p;
     pr_active_invocations := pr_active_invocations p; pr_invocations := pr_invocations p |}.
Definition set_pr_swap (x : option string) (p : Process) : Process :=
  {| pr_name := pr_name p; pr_application := pr_application p; pr_status := pr_status p;
     pr_resources := pr_resources p; pr_metrics := pr_metrics p; pr_connection := pr_connection p;
     pr_swap := x; pr_wait_for_allocation := pr_wait_for_allocation p;
     pr_creation_callback := pr_creation_callback p; pr_handle := pr_handle p;
     pr_active_invocations := pr_active_invocations p; pr_invocations := pr_invocations p |}.
Definition set_pr_callback (cb : option creation_callback) (wait : bool) (p : Process) : Process :=
  {| pr_name := pr_name p; pr_application := pr_application p; pr_status := pr_status p;
     pr_resources := pr_resources p; pr_metrics := pr_metrics p; pr_connection := pr_connection p;
     pr_swap := pr_swap p; pr_wait_for_allocation := wait; pr_creation_callback := cb;
     pr_handle := pr_handle p; pr_active_invocations := pr_active_invocations p;
     pr_invocations := pr_invocations p |}.
Definition set_pr_handle (x : option ProcessInstance) (p : Process) : Process :=
  {| pr_name := pr_name p; pr_application := pr_application p; pr_status := pr_status p;
     pr_resources := pr_resources p; pr_metrics := pr_metrics p; pr_connection := pr_connection p;
     pr_swap := pr_swap p; pr_wait_for_allocation := pr_wait_for_allocation p;
     pr_creation_callback := pr_creation_callback p; pr_handle := x;
     pr_active_invocations := pr_active_invocations p; pr_invocations := pr_invocations p |}.
Definition set_pr_invocations (n : Z) (l : list PInvocation) (p : Process) : Process :=
  {| pr_name := pr_name p; pr_application := pr_application p; pr_status := pr_status p;
     pr_resources := pr_resources p; pr_metrics := pr_metrics p; pr_connection := pr_connection p;
     pr_swap := pr_swap p; pr_wait_for_allocation := pr_wait_for_allocation p;
     pr_creation_callback := pr_creation_callback p; pr_handle := pr_handle p;
     pr_active_invocations := n; pr_invocations := l |}.

Definition set_submitted (i : PInvocation) : PInvocation :=
  {| pi_body := pi_body i; pi_callback := pi_callback i; pi_function_name := pi_function_name i;
     pi_invocation_id := pi_invocation_id i; pi_submitted := true |}.

(** ** The state of the control plane *)

(** [Application]: its tables of processes *)
Record CpApplication : Type := MkCpApplication {
  ca_name : string;
  ca_code_resource_name : string;
  ca_active_processes : gmap string ploc;
  ca_swapped_processes : gmap string ploc;
  ca_controlplane_processes : list ploc;
}.

(** an allocation asked of the back end, and which callback waits for it: that
    of [add_process] or that of [get_controlplane_process] *)
Record alloc_request : Type := MkAlloc {
  al_process : ploc; al_controlplane : bool; al_container : string; al_address : string;
}.

(** [tcpserver::TCPServer::ConnectionData], the context of a connection *)
Record ConnectionData : Type := MkConnectionData {
  cd_process : ploc; cd_cur_msg : mem; cd_bytes_to_read : Z;
}.

(** [w_processes] names the connections that registered; their data, shared with
    the context, is in [w_contexts]. *)
Record World : Type := MkWorld {
  w_heap : gmap ploc Process;
  w_apps : gmap string CpApplication;
  w_pending_processes : gmap string ploc;
  w_contexts : gmap tcp ConnectionData;
  w_processes : gmap string tcp;
  w_num_connected : Z;
  w_num_registered : Z;
  w_loop : list ploc;
  w_posts : list alloc_request;
  w_uuids : nat;
  w_sent : list (tcp * list byte);
  w_responses : list (client * http_response);
}.

Definition World_init : World :=
  {| w_heap := ∅; w_apps := ∅; w_pending_processes := ∅; w_contexts := ∅; w_processes := ∅; w_num_connected := 0;
     w_num_registered := 0; w_loop := []; w_posts := []; w_uuids := 0; w_sent := []; w_responses := [] |}.

Definition set_w_heap (x : gmap ploc Process) (w : World) : World :=
  {| w_heap := x; w_apps := w_apps w; w_pending_processes := w_pending_processes w;
     w_contexts := w_contexts w; w_processes := w_processes w; w_num_connected := w_num_connected w;
     w_num_registered := w_num_registered w; w_loop := w_loop w; w_posts := w_posts w;
     w_uuids := w_uuids w; w_sent := w_sent w; w_responses := w_responses w |}.
Definition set_w_apps (x : gmap string CpApplication) (w : World) : World :=
  {| w_heap := w_heap w; w_apps := x; w_pending_processes := w_pending_processes w;
     w_contexts := w_contexts w; w_processes := w_processes w; w_num_connected := w_num_connected w;
     w_num_registered := w_num_registered w; w_loop := w_loop w; w_posts := w_posts w;
     w_uuids := w_uuids w; w_sent := w_sent w; w_responses := w_responses w |}.
Definition set_w_pending_processes (x : gmap string ploc) (w : World) : World :=
  {| w_heap := w_heap w; w_apps := w_apps w; w_pending_processes := x;
     w_contexts := w_contexts w; w_processes := w_processes w; w_num_connected := w_num_connected w;
     w_num_registered := w_num_registered w; w_loop := w_loop w; w_posts := w_posts w;
     w_uuids := w_uuids w; w_sent := w_sent w; w_responses := w_responses w |}.
Definition set_w_contexts (x : gmap tcp ConnectionData) (w : World) : World :=
  {| w_heap := w_heap w; w_apps := w_apps w; w_pending_processes := w_pending_processes w;
     w_contexts := x; w_processes := w_processes w; w_num_connected := w_num_connected w;
     w_num_registered := w_num_registered w; w_loop := w_loop w; w_posts := w_posts w;
     w_uuids := w_uuids w; w_sent := w_sent w; w_responses := w_responses w |}.
Definition set_w_processes (x : gmap string tcp) (w : World) : World :=
  {| w_heap := w_heap w; w_apps := w_apps w; w_pending_processes := w_pending_processes w;
     w_contexts := w_contexts w; w_processes := x; w_num_connected := w_num_connected w;
     w_num_registered := w_num_registered w; w_loop := w_loop w; w_posts := w_posts w;
     w_uuids := w_uuids w; w_sent := w_sent w; w_responses := w_responses w |}.
Definition set_w_counters (connected registered : Z) (w : World) : World :=
  {| w_heap := w_heap w; w_apps := w_apps w; w_pending_processes := w_pending_processes w;
     w_contexts := w_contexts w; w_processes := w_processes w; w_num_connected := connected;
     w_num_registered := registered; w_loop := w_loop w; w_posts := w_posts w;
     w_uuids := w_uuids w; w_sent := w_sent w; w_responses := w_responses w |}.
Definition set_w_loop (x : list ploc) (w : World) : World :=
  {| w_heap := w_heap w; w_apps := w_apps w; w_pending_processes := w_pending_processes w;
     w_contexts := w_contexts w; w_processes := w_processes w; w_num_connected := w_num_connected w;
     w_num_registered := w_num_registered w; w_loop := x; w_posts := w_posts w;
     w_uuids := w_uuids w; w_sent := w_sent w; w_responses := w_responses w |}.
Definition set_w_posts (x : list alloc_request) (w : World) : World :=
  {| w_heap := w_heap w; w_apps := w_apps w; w_pending_processes := w_pending_processes w;
     w_contexts := w_contexts w; w_processes := w_processes w; w_num_connected := w_num_connected w;
     w_num_registered := w_num_registered w; w_loop := w_loop w; w_posts := x;
     w_uuids := w_uuids w; w_sent := w_sent w; w_responses := w_responses w |}.
Definition set_w_uuids (x : nat) (w : World) : World :=
  {| w_heap := w_heap w; w_apps := w_apps w; w_pending_processes := w_pending_processes w;
     w_contexts := w_contexts w; w_processes := w_processes w; w_num_connected := w_num_connected w;
     w_num_registered := w_num_registered w; w_loop := w_loop w; w_posts := w_posts w;
     w_uuids := x; w_sent := w_sent w; w_responses := w_responses w |}.
Definition set_w_sent (x : list (tcp * list byte)) (w : World) : World :=
  {| w_heap := w_heap w; w_apps := w_apps w; w_pending_processes := w_pending_processes w;
     w_contexts := w_contexts w; w_processes := w_processes w; w_num_connected := w_num_connected w;
     w_num_registered := w_num_registered w; w_loop := w_loop w; w_posts := w_posts w;
     w_uuids := w_uuids w; w_sent := x; w_responses := w_responses w |}.
Definition set_w_responses (x : list (client * http_response)) (w : World) : World :=
  {| w_heap := w_heap w; w_apps := w_apps w; w_pending_processes := w_pending_processes w;
     w_contexts := w_contexts w; w_processes := w_processes w; w_num_connected := w_num_connected w;
     w_num_registered := w_num_registered w; w_loop := w_loop w; w_posts := w_posts w;
     w_uuids := w_uuids w; w_sent := w_sent w; w_responses := x |}.

(** ** Access *)
Definition deref (p : ploc) : M World Process := fun w =>
  match w_heap w !! p with Some x => (Ret x, w) | None => (Undef, w) end.

Definition update_process (p : ploc) (f : Process -> Process) : M World unit :=
  modify (fun w => set_w_heap (alter f p (w_heap w)) w).

Definition new_process (x : Process) : M World ploc := fun w =>
  let p := base.fresh (dom (w_heap w) : gset nat) in (Ret p, set_w_heap (<[p := x]> (w_heap w)) w).

Definition respond (k : client) (r : http_response) : M World unit :=
  modify (fun w => set_w_responses (w_responses w ++ [(k, r)]) w).

(** [_connection->send(data, len)] *)
Definition send (p : ploc) (data : list byte) : M World unit :=
  x ← deref p;
  match pr_connection x with
  | Some t => modify (fun w => set_w_sent (w_sent w ++ [(t, data)]) w)
  | None => undef
  end.

(** ** Operations *)

(** [_send_invocation(invoc)], for the [i]-th invocation *)
Definition send_invocation (p : ploc) (i : nat) : M World unit :=
  x ← deref p;
  match pr_invocations x !! i with
  | None => undef
  | Some invoc =>
      req ← lift (set_function_name (sv_of_string (pi_function_name invoc)) InvocationRequestData);
      req ← lift (set_invocation_id (sv_of_string (String.substring 0 16 (pi_invocation_id invoc))) req);
      req ← lift (set_payload_size (wrap_i32 (Z.of_nat (length (pi_body invoc)))) req);
      let req := set_total_length (wrap_i32 (Z.of_nat (length (pi_body invoc)))) req in
      send p (bytes req) ≫= fun _ =>
      send p (pi_body invoc) ≫= fun _ =>
      update_process p (fun x =>
        set_pr_invocations (pr_active_invocations x) (alter set_submitted i (pr_invocations x)) x)
  end.

(** [send_invocations]: the loop over the vector *)
Definition send_invocations (p : ploc) : M World unit :=
  x ← deref p;
  for_each (fun i =>
    x ← deref p;
    match pr_invocations x !! i with
    | Some invoc => if pi_submitted invoc then mret tt else send_invocation p i
    | None => mret tt
    end) (seq 0 (length (pr_invocations x))).

Section process.
Context `{UuidGenerator}.

Definition add_invocation (p : ploc) (body : list byte) (callback : client) (function_name : string) : M World unit :=
  n ← gets w_uuids;
  modify (set_w_uuids (S n)) ≫= fun _ =>
  let invoc := {| pi_body := body; pi_callback := callback; pi_function_name := function_name;
                  pi_invocation_id := uuid_text n; pi_submitted := false |} in
  update_process p (fun x =>
    set_pr_invocations (pr_active_invocations x + 1) (pr_invocations x ++ [invoc]) x) ≫= fun _ =>
  x ← deref p;
  if decide (pr_status x = ALLOCATED) then send_invocation p (length (pr_invocations x) - 1) else mret tt.

(** the bodies of the two creation callbacks *)
Definition run_callback (cb : creation_callback) (proc : option ploc) (error_msg : option string) : M World unit :=
  match proc with
  | Some p =>
      match cb with
      | CbCreate k =>
          x ← deref p;
          match pr_handle x with
          | None => undef
          | Some h => respond k (RespProcess (pr_name x) (in_ip_address h) (in_port h))
          end
      | CbInvoke body k function_name => add_invocation p body k function_name
      end
  | None =>
      match error_msg with
      | None => throw (StdException "bad optional access")
      | Some e => match cb with CbCreate k | CbInvoke _ k _ => respond k (RespFailed e 500) end
      end
  end.

Definition clear_callback (p : ploc) : M World unit :=
  update_process p (fun x => set_pr_callback None (pr_wait_for_allocation x) x).

(** [created_callback]; [ProcessInstance::connect] calls back at once *)
Definition created_callback (p : ploc) (error_msg : option string) : M World unit :=
  x ← deref p;
  match pr_creation_callback x with
  | None => mret tt
  | Some cb =>
      match error_msg with
      | None =>
          match pr_handle x with
          | None => mret tt
          | Some _ =>
              if pr_wait_for_allocation x && negb (bool_decide (pr_status x = ALLOCATED)) then mret tt
              else run_callback cb (Some p) None ≫= fun _ => clear_callback p
          end
      | Some e => run_callback cb None (Some e) ≫= fun _ => clear_callback p
      end
  end.

(** [connect] *)
Definition process_connect (p : ploc) (t : tcp) : M World unit :=
  x ← deref p;
  if decide (pr_status x = ALLOCATING) then
    update_process p (fun x => set_status ALLOCATED (set_pr_connection (Some t) x)) ≫= fun _ =>
    send_invocations p ≫= fun _ =>
    created_callback p None
  else throw (InvalidProcessState "Can't register process").

Definition close_connection (p : ploc) : M World unit :=
  update_process p (fun x => set_pr_connection None (set_status CLOSED x)).

(** [update_metrics] at the time [now] *)
Definition update_metrics (p : ploc) (time invocations timestamp now : Z) : M World unit :=
  update_process p (fun x =>
    if (dm_last_report (pr_metrics x) <=? now)%Z
    then set_pr_metrics {| dm_invocations := invocations; dm_computation_time := time;
                           dm_last_invocation := timestamp; dm_last_report := now |} x
    else x).

(** [swap]: asks the process to swap out *)
Definition process_swap (p : ploc) : M World unit :=
  x ← deref p;
  match pr_connection x with
  | None => mret tt
  | Some _ =>
      match pr_swap x with
      | None => undef
      | Some path =>
          msg ← lift (set_swap_path (sv_of_string path) SwapRequestData);
          send p (bytes msg)
      end
  end.

(** [finish_invocation] *)
Definition finish_invocation (p : ploc) (invocation_id : string) (return_code : Z) (buf : list byte) : M World unit :=
  x ← deref p;
  match list_find (fun obj => String.substring 0 16 (pi_invocation_id obj) = invocation_id) (pr_invocations x) with
  | Some (i, invoc) =>
      respond (pi_callback invoc) (RespResult (pi_function_name invoc) invocation_id return_code buf) ≫= fun _ =>
      update_process p (fun x =>
        set_pr_invocations (pr_active_invocations x - 1) (delete i (pr_invocations x)) x)
  | None => mret tt
  end.
End process.
