(* ===== verification/CpApplication.v ===== *)
(** * CpApplication: applications, workers and HTTP requests of the control plane

    [control-plane/application.cpp], [resources.cpp], [worker.cpp], [http.cpp],
    and of [backend.cpp] the Docker back end.  An application is found by its
    name in the table of [Resources]; the process allocations asked of the back
    end and the tasks left for the event loop of the TCP server are lists in
    the state, and are completed by [post_completed] and [loop_task].  Each
    operation is one step; its locks, and what can happen when operations
    overlap, are in CpThreads.v and CpRaces.v. *)

From S2P Require Import Prelude Memory Messages CpProcess.
From Stdlib Require Import QArith.

(** the result of [std::stod], as far as comparisons tell; none when it throws *)
Inductive double : Type := DFinite (q : Q) | DInfinity | DMinusInfinity | DNaN.
Class StdStod : Type := { stod : string -> option double }.

Definition double_le (x : double) (n : Z) : bool :=
  match x with DFinite q => Qle_bool q (inject_Z n) | DMinusInfinity => true | _ => false end.
Definition double_gt (x : double) (n : Z) : bool :=
  match x with DFinite q => negb (Qle_bool q (inject_Z n)) | DInfinity => true | _ => false end.

(** the configuration: where swaps go, where processes find the TCP server *)
Class CpConfig : Type := { cfg_swap_root : string; cfg_tcp_address : string }.

Definition set_ca_active (x : gmap string nat) (a : CpApplication) : CpApplication :=
  {| ca_name := ca_name a; ca_code_resource_name := ca_code_resource_name a; ca_active_processes := x;
     ca_swapped_processes := ca_swapped_processes a;
     ca_controlplane_processes := ca_controlplane_processes a |}.
Definition set_ca_swapped (x : gmap string nat) (a : CpApplication) : CpApplication :=
  {| ca_name := ca_name a; ca_code_resource_name := ca_code_resource_name a;
     ca_active_processes := ca_active_processes a; ca_swapped_processes := x;
     ca_controlplane_processes := ca_controlplane_processes a |}.
Definition set_ca_controlplane (x : list nat) (a : CpApplication) : CpApplication :=
  {| ca_name := ca_name a; ca_code_resource_name := ca_code_resource_name a;
     ca_active_processes := ca_active_processes a; ca_swapped_processes := ca_swapped_processes a;
     ca_controlplane_processes := x |}.

(** [DockerBackend::max_memory] and [max_vcpus] *)
Definition max_memory : Z := 1024.
Definition max_vcpus : Z := 1.

(** the application a pointer or an accessor refers to *)
Definition get_app (a : string) : M World CpApplication := fun w =>
  match w_apps w !! a with Some x => (Ret x, w) | None => (Undef, w) end.
Definition update_app (a : string) (f : CpApplication -> CpApplication) : M World unit :=
  modify (fun w => set_w_apps (alter f a (w_apps w)) w).

Section application.
Context `{UuidGenerator} `{StdStod} `{CpConfig}.

(** [DockerBackend::allocate_process]: the request to [/create] *)
Definition allocate_process (p : nat) (controlplane : bool) : M World unit :=
  x ← deref p;
  app ← get_app (pr_application x);
  modify (fun w => set_w_posts (w_posts w ++
    [{| al_process := p; al_controlplane := controlplane; al_container := ca_code_resource_name app;
        al_address := cfg_tcp_address |}]) w).

(** [TCPServer::add_process]: a task for the event loop *)
Definition server_add_process (p : nat) : M World unit := modify (fun w => set_w_loop (w_loop w ++ [p]) w).

Definition lift_stod (s : string) : M World double :=
  match stod s with Some d => mret d | None => throw (StdException "stod") end.

Definition add_process (a name : string) (resources : PResources) (callback : creation_callback)
    (wait_for_allocation : bool) : M World unit :=
  if String.length name =? 0 then throw (InvalidConfigurationError "Empty name")
  else
    mem ← lift_stod (memory resources);
    if double_le mem 0 || double_gt mem max_memory
    then throw (InvalidConfigurationError "Incorrect memory size {}")
    else
      cpus ← lift_stod (vcpus resources);
      if double_le cpus 0 || double_gt cpus max_vcpus
      then throw (InvalidConfigurationError "Incorrect number of vCPUs {}")
      else
        p ← new_process (Process_ctor name a resources);
        app ← get_app a;
        match ca_active_processes app !! name with
        | Some _ => throw (ObjectExists name)
        | None =>
            update_app a (set_ca_active (<[name := p]> (ca_active_processes app))) ≫= fun _ =>
            server_add_process p ≫= fun _ =>
            update_process p (set_pr_callback (Some callback) wait_for_allocation) ≫= fun _ =>
            allocate_process p false
        end.

(** [get_process] and [get_swapped_process] *)
Definition get_process (a name : string) : M World nat :=
  app ← get_app a;
  match ca_active_processes app !! name with Some p => mret p | None => throw (ObjectDoesNotExist name) end.
Definition get_swapped_process (a name : string) : M World nat :=
  app ← get_app a;
  match ca_swapped_processes app !! name with Some p => mret p | None => throw (ObjectDoesNotExist name) end.

(** the first process with spare capacity *)
Fixpoint first_spare (w : World) (l : list nat) : outcome (option nat) :=
  match l with
  | [] => Ret None
  | p :: l' =>
      match w_heap w !! p with
      | None => Undef
      | Some x => if (pr_active_invocations x <? 1)%Z then Ret (Some p) else first_spare w l'
      end
  end.

(** ["controlplane-{}"] *)
Definition controlplane_name (n : nat) : string := "controlplane-" +:+ pretty.pretty (N.of_nat n).

Definition get_controlplane_process (a : string) (resources : PResources) (callback : creation_callback) : M World unit :=
  app ← get_app a;
  w ← get;
  spare ← lift (first_spare w (ca_controlplane_processes app));
  match spare with
  | Some p => run_callback callback (Some p) None
  | None =>
      p ← new_process (set_pr_callback (Some callback) true
            (Process_ctor (controlplane_name (length (ca_controlplane_processes app))) a resources));
      server_add_process p ≫= fun _ =>
      allocate_process p true
  end.

(** the reply of the back end's HTTP server *)
Inductive docker_reply : Type :=
  | ReplyFailed
  | ReplyError (body : string)
  | ReplyCreated (container ip : string) (port : Z)
  | ReplyOther (body : string).

Definition docker_result (name : string) (r : docker_reply) : ProcessInstance + string :=
  match r with
  | ReplyFailed => inr "Unknown error!"
  | ReplyError body => inr ("Process " +:+ name +:+ " could not be created, reason: " +:+ body)
  | ReplyCreated container ip port =>
      inl {| in_ip_address := ip; in_port := port; in_container_id := container |}
  | ReplyOther body => inr ("Unknown error! Response: " +:+ body)
  end.

(** [_active_processes.erase(iter)]: the element must still be there *)
Definition erase_active (a name : string) (p : nat) : M World unit :=
  app ← get_app a;
  match ca_active_processes app !! name with
  | Some p' => if decide (p' = p) then update_app a (set_ca_active (delete name (ca_active_processes app))) else undef
  | None => undef
  end.

(** the callbacks passed to [allocate_process]; [remove_process] of the TCP
    server only logs *)
Definition post_callback (r : alloc_request) (reply : docker_reply) : M World unit :=
  let p := al_process r in
  x ← deref p;
  match docker_result (pr_name x) reply with
  | inl instance =>
      update_process p (set_pr_handle (Some instance)) ≫= fun _ =>
      created_callback p None ≫= fun _ =>
      if al_controlplane r
      then update_app (pr_application x) (fun app =>
             set_ca_controlplane (ca_controlplane_processes app ++ [p]) app)
      else mret tt
  | inr error =>
      (if al_controlplane r then mret tt else erase_active (pr_application x) (pr_name x) p) ≫= fun _ =>
      created_callback p (Some error)
  end.

(** the [i]-th outstanding request is answered *)
Definition post_completed (i : nat) (reply : docker_reply) : M World unit :=
  posts ← gets w_posts;
  match posts !! i with
  | None => mret tt
  | Some r => modify (set_w_posts (delete i posts)) ≫= fun _ => post_callback r reply
  end.

Definition swap_process (a process_name : string) : M World unit :=
  if String.length process_name =? 0
  then throw (InvalidConfigurationError "Application name cannot be empty")
  else
    p ← get_process a process_name;
    x ← deref p;
    if decide (pr_status x = ALLOCATED) then
      update_process p (set_status SWAPPING_OUT) ≫= fun _ =>
      update_process p (set_pr_swap (Some cfg_swap_root)) ≫= fun _ =>
      process_swap p
    else throw (InvalidProcessState "Cannot swap a non-allocated process").

(** [insert(node_handle)] leaves a present element alone *)
Definition insert_node (name : string) (p : nat) (m : gmap string nat) : gmap string nat :=
  match m !! name with Some _ => m | None => <[name := p]> m end.

Definition swapped_process (a process_name : string) : M World unit :=
  p ← get_process a process_name;
  x ← deref p;
  if decide (pr_status x = SWAPPING_OUT) then
    update_app a (fun app => set_ca_active (delete process_name (ca_active_processes app)) app) ≫= fun _ =>
    update_process p (set_status SWAPPED_OUT) ≫= fun _ =>
    update_app a (fun app => set_ca_swapped (insert_node process_name p (ca_swapped_processes app)) app)
  else throw (InvalidProcessState "Cannot confirm a swap of non-swapping process").

(** [closed_process(ptr)] of the application of the process *)
Definition closed_process (p : nat) : M World unit :=
  x ← deref p;
  if decide (pr_status x = SWAPPED_OUT) then close_connection p
  else
    update_process p (set_status FAILURE) ≫= fun _ =>
    app ← get_app (pr_application x);
    match ca_active_processes app !! pr_name x with
    | Some _ => update_app (pr_application x) (set_ca_active (delete (pr_name x) (ca_active_processes app)))
    | None =>
        match ca_swapped_processes app !! pr_name x with
        | Some _ => update_app (pr_application x) (set_ca_swapped (delete (pr_name x) (ca_swapped_processes app)))
        | None => mret tt
        end
    end.

(** [delete_process]; [Local::delete_swap] does nothing with the location *)
Definition delete_process (a process_name : string) : M World unit :=
  if String.length process_name =? 0
  then throw (InvalidConfigurationError "Process name cannot be empty")
  else
    p ← get_swapped_process a process_name;
    x ← deref p;
    match pr_swap x with
    | None => undef
    | Some _ => update_app a (fun app => set_ca_swapped (delete process_name (ca_swapped_processes app)) app)
    end.

(** [get_processes] and [get_swapped_processes]: the names of the processes *)
Definition process_names (m : gmap string nat) : M World (list string) := fun w =>
  (mapM (fun '(_, p) => match w_heap w !! p with Some x => Ret (pr_name x) | None => Undef end) (map_to_list m), w).

(** ** Resources *)
Definition add_application (name code_resource : string) : M World unit :=
  if String.length name =? 0 then throw (InvalidConfigurationError "Application name cannot be empty")
  else
    apps ← gets w_apps;
    match apps !! name with
    | Some _ => throw (ObjectExists name)
    | None => modify (set_w_apps (<[name :=
        {| ca_name := name; ca_code_resource_name := code_resource; ca_active_processes := ∅;
           ca_swapped_processes := ∅; ca_controlplane_processes := [] |}]> apps))
    end.

Definition delete_application (application_name : string) : M World unit :=
  if String.length application_name =? 0 then throw (InvalidConfigurationError "Application name cannot be empty")
  else
    apps ← gets w_apps;
    match apps !! application_name with
    | None => throw (ObjectDoesNotExist application_name)
    | Some _ => modify (set_w_apps (delete application_name apps))
    end.

(** ** Workers, and the HTTP handlers that run them in a task *)

(** [try { m } catch (E& e)]: [handler] gives the value for the exceptions caught *)
Definition catching {A} (m : M World A) (handler : exn -> option A) : M World A := fun w =>
  match m w with
  | (Throw e, w') => match handler e with Some a => (Ret a, w') | None => (Throw e, w') end
  | x => x
  end.

Definition create_application (app_name code_resource : string) : M World bool :=
  catching (add_application app_name code_resource ≫= fun _ => mret true)
    (fun e => if is_praas_exception e then Some false else None).

Definition http_create_app (k : nat) (app_name code_resource : string) : M World unit :=
  if String.length code_resource =? 0 then respond k (RespFailed "Missing arguments!" 500)
  else
    created ← create_application app_name code_resource;
    respond k (if created : bool then RespCorrect "Created" else RespFailed "Failed to create" 500).

(** [Workers::create_process]: false when there is no such application *)
Definition create_process (app_name proc_id : string) (resources : PResources) (callback : creation_callback)
    : M World bool :=
  apps ← gets w_apps;
  match apps !! app_name with
  | None => mret false
  | Some _ => add_process app_name proc_id resources callback true ≫= fun _ => mret true
  end.

(** [HttpServer::create_process]: the missing arguments are answered, and the task
    runs all the same; its result is dropped *)
Definition http_create_process (k : nat) (app_name process_name vcpus_str memory_str : string) : M World unit :=
  (if (String.length vcpus_str =? 0) || (String.length memory_str =? 0)
   then respond k (RespFailed "Missing arguments!" 500) else mret tt) ≫= fun _ =>
  _ ← create_process app_name process_name
        {| vcpus := vcpus_str; memory := memory_str; sandbox_id := EmptyString |} (CbCreate k);
  mret tt.

(** [Workers::workers_handle_invocation], the task of [HttpServer::invoke] *)
Definition workers_handle_invocation (body : list byte) (k : nat) (app_id function_name : string) : M World unit :=
  apps ← gets w_apps;
  match apps !! app_id with
  | None => respond k (RespFailed "App unknown" 404)
  | Some _ =>
      get_controlplane_process app_id {| vcpus := "1"; memory := "2048"; sandbox_id := EmptyString |}
        (CbInvoke body k function_name)
  end.

(** [Workers::delete_process] and [swap_process]: the error message, if any *)
Definition workers_delete_process (app_name proc_id : string) : M World (option string) :=
  apps ← gets w_apps;
  match apps !! app_name with
  | None => mret (Some "Application does not exist")
  | Some _ =>
      catching (delete_process app_name proc_id ≫= fun _ => mret None) (fun e =>
        match e with
        | ObjectDoesNotExist _ => Some (Some "Process does not exist or is not swapped out.")
        | _ => None
        end)
  end.

Definition workers_swap_process (app_name proc_id : string) : M World (option string) :=
  apps ← gets w_apps;
  match apps !! app_name with
  | None => mret (Some "Application does not exist")
  | Some _ =>
      catching (swap_process app_name proc_id ≫= fun _ => mret None) (fun e =>
        match e with
        | ObjectDoesNotExist _ => Some (Some "Process does not exist.")
        | InvalidProcessState _ => Some (Some "Process cannot be swapped out (not allocated, not active).")
        | _ => None
        end)
  end.

Definition http_delete_process (k : nat) (app_name process_name : string) : M World unit :=
  response ← workers_delete_process app_name process_name;
  respond k (match response with
    | Some error => RespFailed error 400
    | None => RespCorrect ("Deleted swapped state of process " +:+ process_name +:+ ".")
    end).

Definition http_swap_process (k : nat) (app_name process_name : string) : M World unit :=
  response ← workers_swap_process app_name process_name;
  respond k (match response with
    | Some error => RespFailed error 400
    | None => RespCorrect ("Request swapping of process " +:+ process_name +:+ ".")
    end).

(** [Workers::list_processes]: the error message, if any, and the names *)
Definition workers_list_processes (app_name : string) : M World (option string * (list string * list string)) :=
  apps ← gets w_apps;
  match apps !! app_name with
  | None => mret (Some "Application does not exist", ([], []))
  | Some app =>
      active ← process_names (ca_active_processes app);
      swapped ← process_names (ca_swapped_processes app);
      mret (None, (active, swapped))
  end.

(** [HttpServer::list_processes]: an unknown application is answered twice *)
Definition http_list_processes (k : nat) (app_name : string) : M World unit :=
  response ← workers_list_processes app_name;
  (match response.1 with Some error => respond k (RespFailed error 400) | None => mret tt end) ≫= fun _ =>
  respond k (RespList app_name response.2.1 response.2.2).
End application.
