(* ===== verification/CpServer.v ===== *)
(** * CpServer: the TCP server of the control plane

    [control-plane/tcpserver.hpp] and [tcpserver.cpp]: registration of the
    processes, the reassembly of their messages, and the change of the tables
    when they swap, close or disconnect; then the control plane as a transition
    system.  The server is running. *)

From S2P Require Import Prelude Memory Messages CpProcess CpApplication.

Section server.
Context `{UuidGenerator} `{StdStod} `{CpConfig}.

(** the task [add_process] left for the event loop *)
Definition loop_task : M World unit :=
  tasks ← gets w_loop;
  match tasks with
  | [] => mret tt
  | p :: rest =>
      modify (set_w_loop rest) ≫= fun _ =>
      x ← deref p;
      pending ← gets w_pending_processes;
      match pending !! pr_name x with
      | Some _ => throw (ObjectExists ("Cannot add process " +:+ pr_name x +:+ " again to the server!"))
      | None => modify (set_w_pending_processes (<[pr_name x := p]> pending))
      end
  end.

(** a new connection *)
Definition handle_connected : M World unit :=
  modify (fun w => set_w_counters (w_num_connected w + 1) (w_num_registered w) w).

(** [handle_connection]: the registration of a process *)
Definition cp_handle_connection (t : nat) (msg : ProcessConnection) : M World unit :=
  pending ← gets w_pending_processes;
  match pending !! sv_str (process_name msg) with
  | None => mret tt
  | Some p =>
      modify (set_w_pending_processes (delete (sv_str (process_name msg)) pending)) ≫= fun _ =>
      modify (fun w => set_w_contexts (<[t := {| cd_process := p; cd_cur_msg := MessageData;
                                                 cd_bytes_to_read := 0 |}]> (w_contexts w)) w) ≫= fun _ =>
      x ← deref p;
      modify (fun w => set_w_processes (insert_node (pr_name x) t (w_processes w)) w) ≫= fun _ =>
      process_connect p t ≫= fun _ =>
      modify (fun w => set_w_counters (w_num_connected w) (w_num_registered w + 1) w)
  end.

(** [handle_disconnection] *)
Definition handle_disconnection (t : nat) : M World unit :=
  modify (fun w => set_w_counters (w_num_connected w - 1) (w_num_registered w) w) ≫= fun _ =>
  contexts ← gets w_contexts;
  match contexts !! t with
  | None => mret tt
  | Some data =>
      modify (fun w => set_w_counters (w_num_connected w) (w_num_registered w - 1) w) ≫= fun _ =>
      closed_process (cd_process data)
  end.

(** [handle_closure]: [shutdown] of the connection leads to its disconnection *)
Definition handle_closure (t : nat) : M World unit := handle_disconnection t.

Definition handle_data_metrics (p : nat) (msg : DataPlaneMetricsMsg) (now : Z) : M World unit :=
  update_metrics p (computation_time msg) (invocations msg) (last_invocation_timestamp msg) now.

Definition handle_swap (p : nat) : M World unit :=
  x ← deref p; swapped_process (pr_application x) (pr_name x).

(** The state of the message handlers: the bytes of the connection that have
    not been retrieved yet. *)
Definition on_world {A} (m : M World A) : M (World * list byte) A := zoom fst (fun w s => (w, s.2)) m.
Definition peek : M (World * list byte) (list byte) := gets snd.
Definition retrieve (n : nat) : M (World * list byte) unit := modify (fun '(w, b) => (w, drop n b)).

Definition cp_set_context (t : nat) (data : ConnectionData) : M World unit :=
  modify (fun w => set_w_contexts (<[t := data]> (w_contexts w)) w).

(** [handle_invocation_result]: whether the message was consumed *)
Definition handle_invocation_result (t : nat) (data : ConnectionData) (req : InvocationResult)
    : M (World * list byte) bool :=
  (if (cd_bytes_to_read data =? 0)%Z then
     on_world (cp_set_context t {| cd_process := cd_process data; cd_cur_msg := bytes req;
                                cd_bytes_to_read := wrap_u64 (total_length req) |}) ≫= fun _ =>
     retrieve BUF_SIZE
   else mret tt) ≫= fun _ =>
  let to_read := if (cd_bytes_to_read data =? 0)%Z then wrap_u64 (total_length req) else cd_bytes_to_read data in
  b ← peek;
  if (to_read <=? Z.of_nat (length b))%Z then
    on_world (finish_invocation (cd_process data) (sv_str (result_invocation_id req)) (return_code req)
                (take (Z.to_nat to_read) b)) ≫= fun _ =>
    retrieve (Z.to_nat to_read) ≫= fun _ =>
    on_world (cp_set_context t {| cd_process := cd_process data;
                               cd_cur_msg := if (cd_bytes_to_read data =? 0)%Z then bytes req else cd_cur_msg data;
                               cd_bytes_to_read := 0 |}) ≫= fun _ =>
    mret true
  else mret false.

(** The visitor of a parsed message, with the clock for the metrics.  The
    alternative for [ProcessConnectionPtr] takes a mutable reference and never
    matches the constant variant: such a message is an unknown one. *)
Definition visit_message (t : nat) (data : ConnectionData) (now : Z) (msg : MessageVariants)
    : M (World * list byte) bool :=
  match msg with
  | VProcessClosure _ => on_world (handle_closure t) ≫= fun _ => retrieve BUF_SIZE ≫= fun _ => mret true
  | VDataPlaneMetrics metrics =>
      on_world (handle_data_metrics (cd_process data) metrics now) ≫= fun _ =>
      retrieve BUF_SIZE ≫= fun _ => mret true
  | VInvocationResult req => handle_invocation_result t data req
  | VSwapConfirmation _ =>
      on_world (handle_swap (cd_process data)) ≫= fun _ => retrieve BUF_SIZE ≫= fun _ => mret true
  | _ => retrieve BUF_SIZE ≫= fun _ => mret true
  end.

(** [handle_message].  Fuel: every recursive call is made with fewer bytes, a
    header or an awaited payload having been retrieved. *)
Fixpoint cp_handle_message (fuel : nat) (t : nat) (now : Z) : M (World * list byte) unit :=
  match fuel with
  | O => undef
  | S fuel' =>
      w ← on_world get;
      match w_contexts w !! t with
      | None =>
          b ← peek;
          if length b <? BUF_SIZE then mret tt
          else
            msg ← lift (parse (take BUF_SIZE b));
            match msg with
            | VProcessConnection m => on_world (cp_handle_connection t m)
            | _ => mret tt
            end ≫= fun _ =>
            retrieve BUF_SIZE ≫= fun _ =>
            b ← peek;
            if 0 <? length b then cp_handle_message fuel' t now else mret tt
      | Some data =>
          b ← peek;
          consumed ← (if (0 <? cd_bytes_to_read data)%Z then
              msg ← lift (parse (cd_cur_msg data)); visit_message t data now msg
            else if length b <? BUF_SIZE then mret false
            else msg ← lift (parse (take BUF_SIZE b)); visit_message t data now msg);
          b ← peek;
          if (consumed : bool) && (0 <? length b) then cp_handle_message fuel' t now else mret tt
      end
  end.

Definition cp_receive (t : nat) (now : Z) : M (World * list byte) unit :=
  b ← peek; cp_handle_message (S (length b)) t now.

(** ** The control plane as a transition system

    What happens to it: HTTP requests, replies of the back end, tasks of the
    event loop, connections, received bytes and disconnections.  The bytes not
    yet retrieved of a connection live in its buffer. *)
Inductive cp_event : Type :=
  | EvCreateApp (k : nat) (app resource : string)
  | EvCreateProcess (k : nat) (app name vcpus memory : string)
  | EvInvoke (body : list byte) (k : nat) (app function_name : string)
  | EvDeleteProcess (k : nat) (app name : string)
  | EvSwapProcess (k : nat) (app name : string)
  | EvListProcesses (k : nat) (app : string)
  | EvPostCompleted (i : nat) (reply : docker_reply)
  | EvLoopTask
  | EvConnected
  | EvReceived (t : nat) (buffer : list byte) (now : Z)
  | EvDisconnected (t : nat).

Definition handle (e : cp_event) : M World unit :=
  match e with
  | EvCreateApp k app resource => http_create_app k app resource
  | EvCreateProcess k app name vcpus memory => http_create_process k app name vcpus memory
  | EvInvoke body k app function_name => workers_handle_invocation body k app function_name
  | EvDeleteProcess k app name => http_delete_process k app name
  | EvSwapProcess k app name => http_swap_process k app name
  | EvListProcesses k app => http_list_processes k app
  | EvPostCompleted i reply => post_completed i reply
  | EvLoopTask => loop_task
  | EvConnected => handle_connected
  | EvReceived t buffer now => fun w => let '(r, (w', _)) := cp_receive t now (w, buffer) in (r, w')
  | EvDisconnected t => handle_disconnection t
  end.

(** an event handled, with or without an exception *)
Definition cp_step (w w' : World) : Prop := exists e r, handle e w = (r, w') /\ r <> Undef.
End server.
