(* ===== verification/CpInvariant.v ===== *)
(** * CpInvariant: what holds of the control plane in every state

    The invariant of the tables of processes, the state machine of a process,
    and the absence of undefined behaviour, for every sequence of events
    ([cp_step] of CpServer.v). *)

From S2P Require Import Prelude Memory Messages CpProcess CpApplication CpServer.

(** ** The state machine of a process *)
Inductive status_edge : PStatus -> PStatus -> Prop :=
  | edge_connect : status_edge ALLOCATING ALLOCATED
  | edge_swap : status_edge ALLOCATED SWAPPING_OUT
  | edge_swapped : status_edge SWAPPING_OUT SWAPPED_OUT
  | edge_close : status_edge SWAPPED_OUT CLOSED
  | edge_fail s : s <> SWAPPED_OUT -> status_edge s FAILURE.

(** processes stay, keep their name and application, and move along the edges *)
Definition evolves (w w' : World) : Prop :=
  forall p x, w_heap w !! p = Some x -> exists x', w_heap w' !! p = Some x' /\
    pr_name x' = pr_name x /\ pr_application x' = pr_application x /\
    star status_edge (pr_status x) (pr_status x').

(** ** The invariant *)
Definition connected_status (s : PStatus) : Prop := s = ALLOCATED \/ s = SWAPPING_OUT \/ s = SWAPPED_OUT.
Definition active_status (s : PStatus) : Prop := s = ALLOCATING \/ s = ALLOCATED \/ s = SWAPPING_OUT.
Definition swapped_status (s : PStatus) : Prop := s = SWAPPED_OUT \/ s = CLOSED \/ s = FAILURE.

Record process_ok (x : Process) : Prop := {
  ok_count : pr_active_invocations x = Z.of_nat (length (pr_invocations x));
  ok_connected : connected_status (pr_status x) -> is_Some (pr_connection x);
  ok_allocating : pr_status x = ALLOCATING ->
    pr_connection x = None /\ Forall (fun i => pi_submitted i = false) (pr_invocations x);
  ok_swap : pr_status x = SWAPPING_OUT \/ pr_status x = SWAPPED_OUT -> is_Some (pr_swap x);
}.

(** what the tables of an application promise of their entries *)
Definition entry (w : World) (a n : string) (p : nat) (ok : Process -> Prop) : Prop :=
  exists x, w_heap w !! p = Some x /\ pr_name x = n /\ pr_application x = a /\ ok x.

Record cp_inv (w : World) : Prop := {
  inv_active : forall a app n p, w_apps w !! a = Some app -> ca_active_processes app !! n = Some p ->
    entry w a n p (fun x => active_status (pr_status x));
  inv_swapped : forall a app n p, w_apps w !! a = Some app -> ca_swapped_processes app !! n = Some p ->
    entry w a n p (fun x => swapped_status (pr_status x) /\ is_Some (pr_swap x));
  inv_controlplane : forall a app p, w_apps w !! a = Some app -> p ∈ ca_controlplane_processes app ->
    is_Some (w_heap w !! p);
  inv_process : forall p x, w_heap w !! p = Some x -> process_ok x /\ is_Some (w_apps w !! pr_application x);
  inv_pending : forall n p, w_pending_processes w !! n = Some p ->
    exists x, w_heap w !! p = Some x /\ pr_name x = n;
  inv_contexts : forall t d, w_contexts w !! t = Some d ->
    is_Some (w_heap w !! cd_process d) /\ (0 <= cd_bytes_to_read d)%Z;
  inv_loop : Forall (fun p => is_Some (w_heap w !! p)) (w_loop w);
  inv_posts : Forall (fun r => is_Some (w_heap w !! al_process r)) (w_posts w);
}.

(** ** Steps that change no status *)

(** [x'] is [x] but for its invocations, metrics, callback and handle *)
Definition same_role (x x' : Process) : Prop :=
  pr_name x' = pr_name x /\ pr_application x' = pr_application x /\ pr_status x' = pr_status x /\
  pr_connection x' = pr_connection x /\ pr_swap x' = pr_swap x /\ (process_ok x -> process_ok x').

Definition quiet (w w' : World) : Prop :=
  w_apps w' = w_apps w /\ w_pending_processes w' = w_pending_processes w /\ w_contexts w' = w_contexts w /\
  w_loop w' = w_loop w /\ w_posts w' = w_posts w /\
  forall p, match w_heap w !! p with
    | Some x => exists x', w_heap w' !! p = Some x' /\ same_role x x'
    | None => w_heap w' !! p = None
    end.

Lemma same_role_refl x : same_role x x.
Proof. now split_and!. Qed.

Lemma quiet_refl w : quiet w w.
Proof. split_and!; auto. intros p. destruct (w_heap w !! p); eauto using same_role_refl. Qed.

Lemma quiet_trans w1 w2 w3 : quiet w1 w2 -> quiet w2 w3 -> quiet w1 w3.
Proof.
  intros (A1 & A2 & A3 & A4 & A5 & A6) (B1 & B2 & B3 & B4 & B5 & B6). split_and!; try congruence.
  intros p. specialize (A6 p). specialize (B6 p). destruct (w_heap w1 !! p) as [x|].
  - destruct A6 as (x' & E & S1). rewrite E in B6. destruct B6 as (x'' & E' & S2). exists x''. split; [done|].
    destruct S1 as (?&?&?&?&?&?), S2 as (?&?&?&?&?&?). unfold same_role. split_and!; try congruence. auto.
  - now rewrite A6 in B6.
Qed.

Lemma quiet_heap w w' p x : quiet w w' -> w_heap w !! p = Some x -> exists x', w_heap w' !! p = Some x' /\ same_role x x'.
Proof. intros (_ & _ & _ & _ & _ & H) Hp. specialize (H p). now rewrite Hp in H. Qed.

Lemma quiet_some w w' p : quiet w w' -> is_Some (w_heap w !! p) -> is_Some (w_heap w' !! p).
Proof. intros H [x Hp]. destruct (quiet_heap _ _ _ _ H Hp) as (x' & E & _). eauto. Qed.

Lemma quiet_entry w w' a n p ok :
  quiet w w' -> (forall x x', same_role x x' -> ok x -> ok x') -> entry w a n p ok -> entry w' a n p ok.
Proof.
  intros H Hok (x & Hp & Hn & Ha & Hx). destruct (quiet_heap _ _ _ _ H Hp) as (x' & E & S).
  exists x'. pose proof S as (?&?&_). split_and!; try congruence. eauto.
Qed.

Lemma quiet_inv w w' : cp_inv w -> quiet w w' -> cp_inv w'.
Proof.
  intros [I1 I2 I3 I4 I5 I6 I7 I8] Q. pose proof Q as (A1 & A2 & A3 & A4 & A5 & A6).
  split; rewrite ?A1, ?A2, ?A3, ?A4, ?A5.
  - intros a app n p H1 H2. eapply quiet_entry; [done| |eauto].
    intros x x' (_ & _ & Hs & _). now rewrite Hs.
  - intros a app n p H1 H2. eapply quiet_entry; [done| |eauto].
    intros x x' (_ & _ & Hs & _ & Hw & _). now rewrite Hs, Hw.
  - intros a app p H1 H2. eapply quiet_some; eauto.
  - intros p x' Hp. specialize (A6 p). destruct (w_heap w !! p) as [x|] eqn:E; [|congruence].
    destruct A6 as (x'' & E' & S). assert (x'' = x') as -> by congruence.
    destruct (I4 _ _ E) as [Hok Happ]. destruct S as (_ & Ha & _ & _ & _ & Hs). rewrite Ha. auto.
  - intros n p Hn. destruct (I5 _ _ Hn) as (x & Hp & Hx). destruct (quiet_heap _ _ _ _ Q Hp) as (x' & E & S).
    exists x'. split; [done|]. destruct S as (-> & _). done.
  - intros t d Ht. destruct (I6 _ _ Ht). split; [eapply quiet_some; eauto|done].
  - eapply List.Forall_impl; [|exact I7]. intros p. now apply quiet_some.
  - eapply List.Forall_impl; [|exact I8]. intros r. now apply quiet_some.
Qed.

Lemma evolves_refl w : evolves w w.
Proof. intros p x Hp. exists x. split_and!; auto. constructor. Qed.

Lemma evolves_trans w1 w2 w3 : evolves w1 w2 -> evolves w2 w3 -> evolves w1 w3.
Proof.
  intros H1 H2 p x Hp. destruct (H1 p x Hp) as (y & Ey & ? & ? & S1). destruct (H2 p y Ey) as (z & Ez & ? & ? & S2).
  exists z. split_and!; try congruence. eapply star_trans; eauto.
Qed.

Lemma quiet_evolves w w' : quiet w w' -> evolves w w'.
Proof.
  intros Q p x Hp. destruct (quiet_heap _ _ _ _ Q Hp) as (x' & E & ? & ? & Hs & _).
  exists x'. split_and!; auto. rewrite Hs. constructor.
Qed.

(** Computations on the process [p] that are quiet and, when the status of [p]
    satisfies [R], defined. *)
Definition quiet_on (R : PStatus -> Prop) {A} (p : nat) (m : M World A) : Prop :=
  forall w x, w_heap w !! p = Some x -> process_ok x -> R (pr_status x) ->
    (m w).1 <> Undef /\ quiet w (m w).2.

Lemma quiet_on_bind R {A B} p (m : M World A) (f : A -> M World B) :
  quiet_on R p m -> (forall a, quiet_on R p (f a)) -> quiet_on R p (m ≫= f).
Proof.
  intros Hm Hf w x Hp Hok HR. destruct (Hm w x Hp Hok HR) as [H1 H2]. unfold mbind, M_bind.
  destruct (m w) as [[a| |] w1]; cbn in *; [|now split|done].
  destruct (quiet_heap _ _ _ _ H2 Hp) as (x1 & E1 & S1). pose proof S1 as (_ & _ & Hs & _ & _ & Hok1).
  destruct (Hf a w1 x1 E1 (Hok1 Hok)) as [H3 H4]; [now rewrite Hs|]. split; [done|]. eapply quiet_trans; eauto.
Qed.

Lemma quiet_on_pure R {A} p (m : M World A) : (forall w, (m w).1 <> Undef /\ (m w).2 = w) -> quiet_on R p m.
Proof. intros H w x _ _ _. destruct (H w) as [H1 ->]. split; [done|]. apply quiet_refl. Qed.

Lemma quiet_on_ret R {A} p (a : A) : quiet_on R p (mret a).
Proof. now apply quiet_on_pure. Qed.

Lemma quiet_on_lift R {A} p (o : outcome A) : o <> Undef -> quiet_on R p (lift o).
Proof. intros. now apply quiet_on_pure. Qed.

Lemma quiet_on_gets R {A} p (f : World -> A) : quiet_on R p (gets f).
Proof. now apply quiet_on_pure. Qed.

Lemma quiet_on_for_each R {A} p (f : A -> M World unit) l :
  (forall a, quiet_on R p (f a)) -> quiet_on R p (for_each f l).
Proof. intros Hf. induction l; cbn; [apply quiet_on_ret|]. now apply quiet_on_bind. Qed.

(** following the pointer *)
Lemma quiet_on_deref R {A} p (f : Process -> M World A) :
  (forall w x, w_heap w !! p = Some x -> process_ok x -> R (pr_status x) -> (f x w).1 <> Undef /\ quiet w (f x w).2) ->
  quiet_on R p (deref p ≫= f).
Proof. intros H w x Hp Hok HR. unfold deref, mbind, M_bind. rewrite Hp. eauto. Qed.

Lemma quiet_on_update (R : PStatus -> Prop) p f :
  (forall x, R (pr_status x) -> same_role x (f x)) -> quiet_on R p (update_process p f).
Proof.
  intros Hf w x Hp Hok HR. split; [done|]. split_and!; auto. cbn. intros q.
  destruct (decide (q = p)) as [->|Hne].
  - rewrite Hp, lookup_alter_eq, Hp. cbn. eauto.
  - rewrite lookup_alter_ne by done. destruct (w_heap w !! q); eauto using same_role_refl.
Qed.

(** the recorded effects *)
Lemma quiet_on_record R p f :
  (forall w, w_heap (f w) = w_heap w /\ w_apps (f w) = w_apps w /\ w_pending_processes (f w) = w_pending_processes w /\
     w_contexts (f w) = w_contexts w /\ w_loop (f w) = w_loop w /\ w_posts (f w) = w_posts w) ->
  quiet_on R p (modify f).
Proof.
  intros Hf w x _ _ _. split; [done|]. cbn. destruct (Hf w) as (H1 & H2 & H3 & H4 & H5 & H6).
  split_and!; auto. rewrite H1. intros q. destruct (w_heap w !! q); eauto using same_role_refl.
Qed.

Lemma quiet_on_respond R p k r : quiet_on R p (respond k r).
Proof. now apply quiet_on_record. Qed.

Create HintDb quiet.
#[export] Hint Resolve quiet_on_ret quiet_on_gets quiet_on_respond : quiet.

Lemma set_field_defined max off e s m : set_string_field max off e (sv_of_string s) m <> Undef.
Proof.
  destruct (set_string_field_string max off e s m) as [H1 H2].
  destruct (decide (String.length s <= max)) as [Hs|Hs].
  - destruct (H2 Hs) as [? ->]. discriminate.
  - rewrite H1 by lia. discriminate.
Qed.

(** *** The operations of a process *)
Lemma send_quiet p data : quiet_on connected_status p (send p data).
Proof.
  apply quiet_on_deref. intros w x Hp Hok HR. destruct (ok_connected _ Hok HR) as [t ->].
  now apply (quiet_on_record connected_status p _ ltac:(intros; split_and!; reflexivity) w x).
Qed.

Lemma submitted_role i x :
  connected_status (pr_status x) ->
  same_role x (set_pr_invocations (pr_active_invocations x) (alter set_submitted i (pr_invocations x)) x).
Proof.
  intros HR. split_and!; auto. intros [H1 H2 H3 H4]. split; cbn; auto.
  - now rewrite length_alter.
  - intros E. destruct HR as [HR|[HR|HR]]; congruence.
Qed.

Lemma send_invocation_quiet p i w x :
  w_heap w !! p = Some x -> process_ok x -> connected_status (pr_status x) -> is_Some (pr_invocations x !! i) ->
  (send_invocation p i w).1 <> Undef /\ quiet w (send_invocation p i w).2.
Proof.
  intros Hp Hok HR [invoc Hi]. unfold send_invocation.
  rewrite (M_bind_eq _ _ _ x w) by (unfold deref; now rewrite Hp). rewrite Hi.
  assert (forall m : M World unit, quiet_on connected_status p m -> (m w).1 <> Undef /\ quiet w (m w).2) as Hq
    by (intros m Hm; eapply Hm; eauto).
  apply Hq. unfold set_function_name, set_invocation_id, set_payload_size.
  repeat (apply quiet_on_bind; [apply quiet_on_lift|intros ?]).
  - pose proof (set_field_defined NAME_LENGTH (HEADER_OFFSET + 4) (InvalidArgument "Function name too long: {} > {}") (pi_function_name invoc) (ireq_msg InvocationRequestData)) as Hd.
    intros E. apply Hd. revert E. cbn. destruct (set_string_field _ _ _ _ _); done.
  - intros E. revert E. match goal with |- context [set_string_field ?a ?b ?c ?d ?e] =>
      pose proof (set_field_defined a b c (String.substring 0 16 (pi_invocation_id invoc)) e) as Hd;
      destruct (set_string_field a b c d e); done end.
  - destruct (_ <? 0)%Z; discriminate.
  - apply quiet_on_bind; [apply send_quiet|intros _]. apply quiet_on_bind; [apply send_quiet|intros _].
    apply quiet_on_update. intros y Hy. now apply submitted_role.
Qed.

Lemma send_invocations_quiet p : quiet_on connected_status p (send_invocations p).
Proof.
  apply quiet_on_deref. intros w x Hp Hok HR.
  assert (forall l, quiet_on connected_status p (for_each (fun i => x ← deref p;
    match pr_invocations x !! i with
    | Some invoc => if pi_submitted invoc then mret tt else send_invocation p i
    | None => mret tt
    end) l)) as Hq; [|eapply Hq; eauto].
  intros l. apply quiet_on_for_each. intros i. apply quiet_on_deref. intros w1 x1 Hp1 Hok1 HR1.
  destruct (pr_invocations x1 !! i) as [invoc|] eqn:Ei; [|now apply (quiet_on_ret connected_status p tt w1 x1)].
  destruct (pi_submitted invoc); [now apply (quiet_on_ret connected_status p tt w1 x1)|].
  eapply send_invocation_quiet; eauto.
Qed.

Section quiet_ops.
Context `{UuidGenerator}.

Lemma add_invocation_quiet p body k fname : quiet_on (fun _ => True) p (add_invocation p body k fname).
Proof.
  unfold add_invocation. apply quiet_on_bind; [apply quiet_on_gets|]. intros n.
  apply quiet_on_bind; [now apply quiet_on_record|]. intros _.
  set (invoc := {| pi_body := body; pi_callback := k; pi_function_name := fname;
                   pi_invocation_id := uuid_text n; pi_submitted := false |}).
  set (f := fun x => set_pr_invocations (pr_active_invocations x + 1) (pr_invocations x ++ [invoc]) x).
  assert (forall x, same_role x (f x)) as Hf.
  { intros x. split_and!; auto. intros [H1 H2 H3 H4]. split; cbn; auto.
    - rewrite H1, length_app. cbn. lia.
    - intros Hs. destruct (H3 Hs) as [Hc Ha]. split; [done|]. apply Forall_app. auto. }
  intros w x Hp Hok _.
  destruct (quiet_on_update (fun _ => True) p f (fun x _ => Hf x) w x Hp Hok I) as [_ Hq].
  set (w1 := (update_process p f w).2) in *.
  assert (w_heap w1 !! p = Some (f x)) as Hp1 by (cbn; rewrite lookup_alter_eq, Hp; done).
  assert (process_ok (f x)) as Hok1 by (destruct (Hf x) as (_ & _ & _ & _ & _ & Hx); auto).
  rewrite (M_bind_eq (update_process p f) _ w tt w1) by reflexivity.
  rewrite (M_bind_eq _ _ w1 (f x) w1) by (unfold deref; now rewrite Hp1).
  destruct (decide _) as [Hs|Hs]; [|split; [discriminate|exact Hq]].
  destruct (send_invocation_quiet p (length (pr_invocations (f x)) - 1) w1 (f x)) as [H1 H2]; auto.
  { now left. }
  { cbn. rewrite length_app. cbn. apply lookup_lt_is_Some. rewrite length_app. cbn. lia. }
  split; [done|]. eapply quiet_trans; eauto.
Qed.

Lemma run_callback_quiet p cb proc error w x :
  w_heap w !! p = Some x -> process_ok x ->
  (proc = Some p /\ is_Some (pr_handle x)) \/ (proc = None /\ is_Some error) ->
  (run_callback cb proc error w).1 <> Undef /\ quiet w (run_callback cb proc error w).2.
Proof.
  intros Hp Hok [[-> [h Hh]]|[-> [e ->]]]; destruct cb as [k|body k fname]; cbn [run_callback].
  - rewrite (M_bind_eq _ _ _ x w) by (unfold deref; now rewrite Hp). rewrite Hh.
    now apply (quiet_on_respond (fun _ => True) p k _ w x).
  - now apply (add_invocation_quiet p body k fname w x).
  - now apply (quiet_on_respond (fun _ => True) p k _ w x).
  - now apply (quiet_on_respond (fun _ => True) p k _ w x).
Qed.

Lemma clear_callback_quiet p : quiet_on (fun _ => True) p (clear_callback p).
Proof. apply quiet_on_update. intros x _. split_and!; auto. intros [H1 H2 H3 H4]. now split. Qed.

Lemma created_callback_quiet p error : quiet_on (fun _ => True) p (created_callback p error).
Proof.
  apply quiet_on_deref. intros w x Hp Hok _.
  pose proof (quiet_on_ret (fun _ => True) p tt w x Hp Hok I) as Hret.
  assert (forall proc, (proc = Some p /\ is_Some (pr_handle x)) \/ (proc = None /\ is_Some error) -> forall cb,
    ((run_callback cb proc error ≫= fun _ => clear_callback p) w).1 <> Undef /\
    quiet w ((run_callback cb proc error ≫= fun _ => clear_callback p) w).2) as Hrun.
  { intros proc Hproc cb. destruct (run_callback_quiet p cb proc error w x Hp Hok Hproc) as [H1 H2].
    unfold mbind, M_bind. destruct (run_callback cb proc error w) as [[[]| |] w1]; cbn in *; [|now split|done].
    destruct (quiet_heap _ _ _ _ H2 Hp) as (x1 & E1 & _ & _ & _ & _ & _ & Hok1).
    destruct (clear_callback_quiet p w1 x1 E1 (Hok1 Hok) I) as [H3 H4]. split; [done|]. eapply quiet_trans; eauto. }
  destruct (pr_creation_callback x) as [cb|]; [|done]. destruct error as [e|].
  - apply (Hrun None). right. eauto.
  - destruct (pr_handle x) as [h|] eqn:Eh; [|done]. destruct (_ && _)%bool; [done|]. apply (Hrun (Some p)). left. eauto.
Qed.

Lemma update_metrics_quiet p a b c d : quiet_on (fun _ => True) p (update_metrics p a b c d).
Proof.
  apply quiet_on_update. intros x _. destruct (_ <=? _)%Z; [|apply same_role_refl].
  split_and!; auto. intros [H1 H2 H3 H4]. now split.
Qed.

Lemma finish_invocation_quiet p id code buf : quiet_on (fun _ => True) p (finish_invocation p id code buf).
Proof.
  apply quiet_on_deref. intros w x Hp Hok _.
  destruct (list_find _ _) as [[i invoc]|] eqn:Ef; [|now apply (quiet_on_ret (fun _ => True) p tt w x)].
  apply list_find_Some in Ef as (Hi & _ & _).
  set (f := fun x => set_pr_invocations (pr_active_invocations x - 1) (delete i (pr_invocations x)) x).
  set (r := RespResult (pi_function_name invoc) id code buf).
  set (w1 := (respond (pi_callback invoc) r w).2).
  assert (quiet w w1) as Hq1 by (now apply (quiet_on_respond (fun _ => True) p _ _ w x)).
  rewrite (M_bind_eq _ _ w tt w1) by reflexivity. split; [discriminate|].
  eapply quiet_trans; [exact Hq1|]. split_and!; auto. intros q. cbn. destruct (decide (q = p)) as [->|Hne].
  - rewrite Hp, lookup_alter_eq, Hp. cbn. exists (f x). split; [done|]. split_and!; auto.
    intros [H1 H2 H3 H4]. split; cbn; auto.
    + rewrite H1, length_delete by eauto. pose proof (lookup_lt_Some _ _ _ Hi). lia.
    + intros Hs. destruct (H3 Hs) as [Hc Ha]. split; [done|].
      rewrite delete_take_drop. apply Forall_app. split; [now apply Forall_take|now apply Forall_drop].
  - rewrite lookup_alter_ne by done. destruct (w_heap w !! q); eauto using same_role_refl.
Qed.
End quiet_ops.

(** ** Steps that change the tables *)
Definition good (U : Prop) {A} (m : M World A) (w : World) : Prop :=
  match m w with (Undef, _) => U | (_, w') => cp_inv w' /\ evolves w w' end.
Definition sound (U : Prop) {A} (m : M World A) : Prop := forall w, cp_inv w -> good U m w.

Lemma good_bind U {A B} (m : M World A) (f : A -> M World B) w :
  good U m w -> (forall a w', m w = (Ret a, w') -> cp_inv w' -> evolves w w' -> good U (f a) w') ->
  good U (m ≫= f) w.
Proof.
  unfold good, mbind, M_bind. intros Hm Hf. destruct (m w) as [[a| |] w1]; auto.
  destruct Hm as [H1 H2]. specialize (Hf a w1 eq_refl H1 H2).
  destruct (f a w1) as [[] w2]; auto; destruct Hf; split; auto; eapply evolves_trans; eauto.
Qed.

Lemma sound_bind U {A B} (m : M World A) (f : A -> M World B) :
  sound U m -> (forall a, sound U (f a)) -> sound U (m ≫= f).
Proof. intros Hm Hf w Hw. apply good_bind; [auto|]. intros a w' _ Hw' _. now apply Hf. Qed.

Lemma good_same U {A} (m : M World A) w : cp_inv w -> (m w).1 <> Undef -> (m w).2 = w -> good U m w.
Proof.
  unfold good. intros Hw. destruct (m w) as [[] w']; cbn; intros H1 H2; subst; auto using evolves_refl. done.
Qed.

Lemma sound_pure U {A} (m : M World A) : (forall w, (m w).1 <> Undef /\ (m w).2 = w) -> sound U m.
Proof. intros H w Hw. destruct (H w). now apply good_same. Qed.

Lemma sound_gets U {A} (f : World -> A) : sound U (gets f).
Proof. now apply sound_pure. Qed.
Lemma sound_ret U {A} (a : A) : sound U (mret a).
Proof. now apply sound_pure. Qed.

Lemma good_quiet U {A} (m : M World A) w :
  cp_inv w -> (m w).1 <> Undef /\ quiet w (m w).2 -> good U m w.
Proof.
  unfold good. intros Hw [H1 H2]. destruct (m w) as [[] w']; cbn in *; try done;
    (split; [eapply quiet_inv; eauto|now apply quiet_evolves]).
Qed.

(** a quiet computation on a process of the heap *)
Lemma good_quiet_on U {A} (m : M World A) p w :
  cp_inv w -> is_Some (w_heap w !! p) -> quiet_on (fun _ => True) p m -> good U m w.
Proof.
  intros Hw [x Hp] Hm. apply good_quiet; [done|]. eapply Hm; eauto. now destruct (inv_process _ Hw _ _ Hp).
Qed.

Lemma sound_respond U k r : sound U (respond k r).
Proof.
  intros w Hw. apply good_quiet; [done|]. split; [done|]. split_and!; auto.
  intros p. cbn. destruct (w_heap w !! p); eauto using same_role_refl.
Qed.

(** the tables, queues and contexts change, the processes do not *)
Lemma cp_inv_frame w w' :
  cp_inv w -> w_heap w' = w_heap w ->
  (forall a app n p, w_apps w' !! a = Some app -> ca_active_processes app !! n = Some p ->
    entry w a n p (fun x => active_status (pr_status x))) ->
  (forall a app n p, w_apps w' !! a = Some app -> ca_swapped_processes app !! n = Some p ->
    entry w a n p (fun x => swapped_status (pr_status x) /\ is_Some (pr_swap x))) ->
  (forall a app p, w_apps w' !! a = Some app -> p ∈ ca_controlplane_processes app -> is_Some (w_heap w !! p)) ->
  (forall a, is_Some (w_apps w !! a) -> is_Some (w_apps w' !! a)) ->
  (forall n p, w_pending_processes w' !! n = Some p -> exists x, w_heap w !! p = Some x /\ pr_name x = n) ->
  (forall t d, w_contexts w' !! t = Some d ->
    is_Some (w_heap w !! cd_process d) /\ (0 <= cd_bytes_to_read d)%Z) ->
  Forall (fun p => is_Some (w_heap w !! p)) (w_loop w') ->
  Forall (fun r => is_Some (w_heap w !! al_process r)) (w_posts w') ->
  cp_inv w' /\ evolves w w'.
Proof.
  intros Hw Hh H1 H2 H3 H4 H5 H6 H7 H8. split.
  - split; unfold entry; rewrite ?Hh; auto. intros p x Hp. destruct (inv_process _ Hw _ _ Hp). auto.
  - intros p x Hp. exists x. rewrite Hh. split_and!; auto. constructor.
Qed.

Lemma good_frame U (f : World -> World) w :
  cp_inv w -> w_heap (f w) = w_heap w -> w_apps (f w) = w_apps w ->
  (forall n p, w_pending_processes (f w) !! n = Some p -> exists x, w_heap w !! p = Some x /\ pr_name x = n) ->
  (forall t d, w_contexts (f w) !! t = Some d ->
    is_Some (w_heap w !! cd_process d) /\ (0 <= cd_bytes_to_read d)%Z) ->
  Forall (fun p => is_Some (w_heap w !! p)) (w_loop (f w)) ->
  Forall (fun r => is_Some (w_heap w !! al_process r)) (w_posts (f w)) ->
  good U (modify f) w.
Proof.
  intros Hw Hh Ha H1 H2 H3 H4. unfold good, modify. cbn. pose proof Hw as [I1 I2 I3 I4 _ _ _ _].
  apply cp_inv_frame; auto; rewrite Ha; auto.
Qed.

Lemma alter_app (a : string) f (m : gmap string CpApplication) app :
  m !! a = Some app -> alter f a m = <[a := f app]> m.
Proof.
  intros Hx. apply map_eq. intros i. destruct (decide (i = a)) as [->|Hne].
  - now rewrite lookup_alter_eq, lookup_insert_eq, Hx.
  - now rewrite lookup_alter_ne, lookup_insert_ne by done.
Qed.

Lemma alter_process (p : nat) f (m : gmap nat Process) x : m !! p = Some x -> alter f p m = <[p := f x]> m.
Proof.
  intros Hx. apply map_eq. intros i. destruct (decide (i = p)) as [->|Hne].
  - now rewrite lookup_alter_eq, lookup_insert_eq, Hx.
  - now rewrite lookup_alter_ne, lookup_insert_ne by done.
Qed.

(** one application changes *)
Lemma cp_inv_app w a app' :
  cp_inv w ->
  (forall n p, ca_active_processes app' !! n = Some p -> entry w a n p (fun x => active_status (pr_status x))) ->
  (forall n p, ca_swapped_processes app' !! n = Some p ->
    entry w a n p (fun x => swapped_status (pr_status x) /\ is_Some (pr_swap x))) ->
  (forall p, p ∈ ca_controlplane_processes app' -> is_Some (w_heap w !! p)) ->
  cp_inv (set_w_apps (<[a := app']> (w_apps w)) w) /\ evolves w (set_w_apps (<[a := app']> (w_apps w)) w).
Proof.
  intros Hw H1 H2 H3. pose proof Hw as [I1 I2 I3 I4 I5 I6 I7 I8].
  apply cp_inv_frame; auto; cbn [w_apps set_w_apps].
  - intros b app n p Hb Hn. apply lookup_insert_Some in Hb as [[<- <-]|[_ Hb]]; eauto.
  - intros b app n p Hb Hn. apply lookup_insert_Some in Hb as [[<- <-]|[_ Hb]]; eauto.
  - intros b app p Hb Hn. apply lookup_insert_Some in Hb as [[<- <-]|[_ Hb]]; eauto.
  - intros b Hb. apply lookup_insert_is_Some'. auto.
Qed.

Lemma update_app_good U w a f app :
  cp_inv w -> w_apps w !! a = Some app ->
  (forall n p, ca_active_processes (f app) !! n = Some p -> entry w a n p (fun x => active_status (pr_status x))) ->
  (forall n p, ca_swapped_processes (f app) !! n = Some p ->
    entry w a n p (fun x => swapped_status (pr_status x) /\ is_Some (pr_swap x))) ->
  (forall p, p ∈ ca_controlplane_processes (f app) -> is_Some (w_heap w !! p)) ->
  good U (update_app a f) w.
Proof.
  intros Hw Ha H1 H2 H3. unfold good, update_app, modify. rewrite (alter_app _ _ _ app Ha). now apply cp_inv_app.
Qed.

(** one process changes its status *)
Lemma cp_inv_status w p x x' :
  cp_inv w -> w_heap w !! p = Some x -> pr_name x' = pr_name x -> pr_application x' = pr_application x ->
  process_ok x' -> star status_edge (pr_status x) (pr_status x') ->
  (forall app, w_apps w !! pr_application x = Some app -> ca_active_processes app !! pr_name x = Some p ->
    active_status (pr_status x')) ->
  (forall app, w_apps w !! pr_application x = Some app -> ca_swapped_processes app !! pr_name x = Some p ->
    swapped_status (pr_status x') /\ is_Some (pr_swap x')) ->
  cp_inv (set_w_heap (<[p := x']> (w_heap w)) w) /\ evolves w (set_w_heap (<[p := x']> (w_heap w)) w).
Proof.
  intros Hw Hp Hn Ha Hok Hs H1 H2. pose proof Hw as [I1 I2 I3 I4 I5 I6 I7 I8].
  assert (forall q, is_Some (w_heap w !! q) -> is_Some (w_heap (set_w_heap (<[p := x']> (w_heap w)) w) !! q)) as Hsome
    by (intros q Hq; apply lookup_insert_is_Some'; auto).
  split.
  - split; cbn [w_apps w_pending_processes w_contexts w_loop w_posts set_w_heap]; auto.
    + intros a app n q Happ Hq. destruct (I1 _ _ _ _ Happ Hq) as (y & Hy & <- & <- & Hst).
      destruct (decide (q = p)) as [->|Hne].
      * assert (y = x) as -> by congruence. exists x'. cbn. rewrite lookup_insert_eq. split_and!; eauto.
      * exists y. cbn. rewrite lookup_insert_ne by done. now split_and!.
    + intros a app n q Happ Hq. destruct (I2 _ _ _ _ Happ Hq) as (y & Hy & <- & <- & Hst).
      destruct (decide (q = p)) as [->|Hne].
      * assert (y = x) as -> by congruence. exists x'. cbn. rewrite lookup_insert_eq. split_and!; eauto; eapply H2; eauto.
      * exists y. cbn. rewrite lookup_insert_ne by done. now split_and!.
    + eauto.
    + intros q y Hy. cbn in Hy. apply lookup_insert_Some in Hy as [[<- <-]|[_ Hy]]; [|eauto].
      split; [done|]. rewrite Ha. now destruct (I4 _ _ Hp).
    + intros n q Hq. destruct (I5 _ _ Hq) as (y & Hy & <-). cbn. destruct (decide (q = p)) as [->|Hne].
      * assert (y = x) as -> by congruence. rewrite lookup_insert_eq. eauto.
      * rewrite lookup_insert_ne by done. eauto.
    + intros t d Ht. destruct (I6 _ _ Ht). auto.
    + eapply List.Forall_impl; [|exact I7]. auto.
    + eapply List.Forall_impl; [|exact I8]. auto.
  - intros q y Hy. cbn. destruct (decide (q = p)) as [->|Hne].
    + assert (y = x) as -> by congruence. rewrite lookup_insert_eq. eauto.
    + rewrite lookup_insert_ne by done. exists y. split_and!; auto. constructor.
Qed.

(** a process is created *)
Lemma cp_inv_new w x p w' :
  cp_inv w -> process_ok x -> is_Some (w_apps w !! pr_application x) -> new_process x w = (Ret p, w') ->
  cp_inv w' /\ evolves w w' /\ w_heap w' !! p = Some x /\ w' = set_w_heap (<[p := x]> (w_heap w)) w /\
  w_heap w !! p = None.
Proof.
  intros Hw Hok Happ [= Ep <-].
  assert (w_heap w !! p = None) as Hfresh.
  { apply not_elem_of_dom. rewrite <-Ep. apply is_fresh. }
  rewrite Ep. clear Ep. pose proof Hw as [I1 I2 I3 I4 I5 I6 I7 I8].
  assert (forall q y, w_heap w !! q = Some y -> (<[p := x]> (w_heap w)) !! q = Some y) as Hold
    by (intros q y Hq; rewrite lookup_insert_ne; [done|intros ->; congruence]).
  assert (forall q, is_Some (w_heap w !! q) -> is_Some ((<[p := x]> (w_heap w)) !! q)) as Hsome
    by (intros q [y Hq]; eauto).
  split_and!; auto; [|intros q y Hq; exists y; split_and!; [now apply Hold|done|done|constructor]|apply lookup_insert_eq].
  split; cbn [w_apps w_pending_processes w_contexts w_loop w_posts w_heap set_w_heap]; auto.
  - intros a app n q H1 H2. destruct (I1 _ _ _ _ H1 H2) as (y & Hy & Hr). exists y. eauto.
  - intros a app n q H1 H2. destruct (I2 _ _ _ _ H1 H2) as (y & Hy & Hr). exists y. eauto.
  - eauto.
  - intros q y Hq. apply lookup_insert_Some in Hq as [[<- <-]|[_ Hq]]; eauto.
  - intros n q Hq. destruct (I5 _ _ Hq) as (y & Hy & Hn). eauto.
  - intros t d Ht. destruct (I6 _ _ Ht). auto.
  - eapply List.Forall_impl; [|exact I7]. auto.
  - eapply List.Forall_impl; [|exact I8]. auto.
Qed.

(** ** Every operation *)
Section operations.
Context {uu : UuidGenerator} {st : StdStod} {cf : CpConfig}.

Lemma deref_some w p x : w_heap w !! p = Some x -> deref p w = (Ret x, w).
Proof. unfold deref. now intros ->. Qed.

Lemma get_app_some w a app : w_apps w !! a = Some app -> get_app a w = (Ret app, w).
Proof. unfold get_app. now intros ->. Qed.

Lemma Process_ctor_ok n a r : process_ok (Process_ctor n a r).
Proof.
  split; cbn; [done| |auto|].
  - intros [H|[H|H]]; discriminate.
  - intros [H|H]; discriminate.
Qed.

Lemma sound_lift_stod s : sound False (lift_stod s).
Proof. apply sound_pure. intros w. unfold lift_stod. destruct (stod s); done. Qed.

(** a task for the loop, a request to the back end *)
Lemma server_add_good w p : cp_inv w -> is_Some (w_heap w !! p) -> good False (server_add_process p) w.
Proof.
  intros Hw Hp. pose proof Hw as [I1 I2 I3 I4 I5 I6 I7 I8].
  apply good_frame; auto. apply Forall_app. auto.
Qed.

Lemma allocate_good w p cp : cp_inv w -> is_Some (w_heap w !! p) -> good False (allocate_process p cp) w.
Proof.
  intros Hw [x Hp]. pose proof Hw as [I1 I2 I3 I4 I5 I6 I7 I8]. unfold allocate_process.
  destruct (I4 _ _ Hp) as [_ [app Happ]].
  apply good_bind; [unfold good; rewrite (deref_some _ _ _ Hp); auto using evolves_refl|].
  intros y w1 E _ _. rewrite (deref_some _ _ _ Hp) in E. simplify_eq.
  apply good_bind; [unfold good; rewrite (get_app_some _ _ _ Happ); auto using evolves_refl|].
  intros app' w2 E _ _. rewrite (get_app_some _ _ _ Happ) in E. simplify_eq.
  apply good_frame; auto. apply Forall_app. split; [done|]. constructor; [eauto|constructor].
Qed.

Lemma callback_quiet p cb wait : quiet_on (fun _ => True) p (update_process p (set_pr_callback cb wait)).
Proof. apply quiet_on_update. intros x _. split_and!; auto. intros [H1 H2 H3 H4]. now split. Qed.

(** the end of both creations: the process is handed to the server and the back end *)
Lemma launch_good w p cb wait cp :
  cp_inv w -> is_Some (w_heap w !! p) ->
  good False (server_add_process p ≫= fun _ =>
     update_process p (set_pr_callback cb wait) ≫= fun _ => allocate_process p cp) w.
Proof.
  intros Hw Hp. apply good_bind; [now apply server_add_good|]. intros _ w1 _ Hw1 Hev1.
  assert (forall w w', evolves w w' -> is_Some (w_heap w !! p) -> is_Some (w_heap w' !! p)) as Hsome
    by (intros ?? Hev [x Hx]; destruct (Hev _ _ Hx) as (? & ? & _); eauto).
  apply good_bind; [eapply good_quiet_on; eauto using callback_quiet|]. intros _ w2 _ Hw2 Hev2.
  apply allocate_good; eauto.
Qed.

Lemma add_process_sound a n r cb wait w :
  cp_inv w -> is_Some (w_apps w !! a) -> good False (add_process a n r cb wait) w.
Proof.
  intros Hw Happ. unfold add_process. destruct (_ =? 0); [now apply good_same|].
  assert (forall s (f : double -> M World unit), (forall d, good False (f d) w) -> good False (lift_stod s ≫= f) w) as Hstod.
  { intros s f Hf. unfold lift_stod, good, mbind, M_bind. destruct (stod s); [apply Hf|].
    cbn. auto using evolves_refl. }
  apply Hstod. intros d1. destruct (_ || _)%bool; [now apply good_same|].
  apply Hstod. intros d2. destruct (_ || _)%bool; [now apply good_same|].
  destruct (new_process (Process_ctor n a r) w) as [[p| |] w1] eqn:E; [|discriminate E|discriminate E].
  destruct (cp_inv_new _ _ _ _ Hw (Process_ctor_ok n a r) Happ E) as (Hw1 & Hev1 & Hp1 & -> & _).
  apply good_bind; [unfold good; now rewrite E|]. intros p' w1' E' _ _. rewrite E in E'. simplify_eq.
  set (w1 := set_w_heap _ w) in *. destruct Happ as [app Happ].
  apply good_bind; [unfold good; rewrite (get_app_some w1 a app Happ); auto using evolves_refl|].
  intros app' w2 E' _ _. rewrite (get_app_some w1 a app Happ) in E'. simplify_eq.
  destruct (ca_active_processes app' !! n) eqn:En; [now apply good_same|].
  apply good_bind.
  - pose proof Hw1 as [I1 I2 I3 _ _ _ _ _].
    apply (update_app_good _ _ _ _ app'); cbn; eauto. intros m q Hq. apply lookup_insert_Some in Hq as [[En1 En2]|[_ Hq]]; [|eauto].
    rewrite <-En1, <-En2. exists (Process_ctor n a r). split_and!; auto. now left.
  - intros _ w3 _ Hw3 Hev3. destruct (Hev3 _ _ Hp1) as (x & Hx & _). apply launch_good; eauto.
Qed.

Lemma first_spare_ok w l : Forall (fun p => is_Some (w_heap w !! p)) l ->
  match first_spare w l with
  | Ret (Some p) => p ∈ l
  | Ret None => True
  | _ => False
  end.
Proof.
  induction 1 as [|p l [x Hp] _ IH]; cbn; [done|]. rewrite Hp. destruct (_ <? 1)%Z; [now left|].
  destruct (first_spare w l) as [[q|]| |]; [now right|done..].
Qed.

Lemma get_controlplane_good a r body k f w :
  cp_inv w -> is_Some (w_apps w !! a) -> good False (get_controlplane_process a r (CbInvoke body k f)) w.
Proof.
  intros Hw [app Happ]. pose proof Hw as [I1 I2 I3 I4 I5 I6 I7 I8]. unfold get_controlplane_process.
  apply good_bind; [unfold good; rewrite (get_app_some _ _ _ Happ); auto using evolves_refl|].
  intros app' w0 E _ _. rewrite (get_app_some _ _ _ Happ) in E. simplify_eq.
  apply good_bind; [now apply good_same|]. intros w1 w2 E _ _. injection E as <- <-.
  assert (Forall (fun p => is_Some (w_heap w0 !! p)) (ca_controlplane_processes app')) as Hl
    by (apply list.Forall_forall; eauto).
  pose proof (first_spare_ok w0 _ Hl) as Hs.
  apply good_bind; [apply good_same; auto; unfold lift; cbn; destruct (first_spare _ _); done|].
  intros spare w1 E _ _. injection E as E <-. rewrite E in Hs. destruct spare as [p|].
  - apply (good_quiet_on _ _ p); auto; [eauto|]. apply add_invocation_quiet.
  - set (x := set_pr_callback _ _ _). assert (process_ok x) as Hx.
    { destruct (Process_ctor_ok (controlplane_name (length (ca_controlplane_processes app'))) a r) as [H1 H2 H3 H4].
      now split. }
    destruct (new_process x w0) as [[p| |] w1] eqn:En; [|discriminate En|discriminate En].
    destruct (cp_inv_new _ _ _ _ Hw Hx ltac:(cbn; eauto) En) as (Hw1 & Hev1 & Hp1 & _ & _).
    apply good_bind; [unfold good; now rewrite En|]. intros p' w1' E' _ _. rewrite En in E'. simplify_eq.
    apply good_bind; [apply server_add_good; eauto|]. intros _ w2 _ Hw2 Hev2.
    destruct (Hev2 _ _ Hp1) as (y & Hy & _). apply allocate_good; eauto.
Qed.

(** an active process is active under its own name only *)
Lemma active_entry w a app n p x :
  cp_inv w -> w_apps w !! a = Some app -> ca_active_processes app !! n = Some p -> w_heap w !! p = Some x ->
  pr_name x = n /\ pr_application x = a /\ active_status (pr_status x).
Proof.
  intros Hw Ha Hn Hp. destruct (inv_active _ Hw _ _ _ _ Ha Hn) as (y & Hy & H1 & H2 & H3).
  assert (y = x) as -> by congruence. auto.
Qed.

Lemma swapped_entry w a app n p x :
  cp_inv w -> w_apps w !! a = Some app -> ca_swapped_processes app !! n = Some p -> w_heap w !! p = Some x ->
  pr_name x = n /\ pr_application x = a /\ swapped_status (pr_status x) /\ is_Some (pr_swap x).
Proof.
  intros Hw Ha Hn Hp. destruct (inv_swapped _ Hw _ _ _ _ Ha Hn) as (y & Hy & H1 & H2 & H3).
  assert (y = x) as -> by congruence. auto.
Qed.

(** entries are dropped *)
Lemma drop_active_good U w a app n :
  cp_inv w -> w_apps w !! a = Some app ->
  good U (update_app a (set_ca_active (delete n (ca_active_processes app)))) w.
Proof.
  intros Hw Ha. pose proof Hw as [I1 I2 I3 _ _ _ _ _]. apply (update_app_good _ _ _ _ app); cbn; eauto.
  intros m p Hm. apply lookup_delete_Some in Hm as [_ Hm]. eauto.
Qed.

Lemma drop_swapped_good U w a app n :
  cp_inv w -> w_apps w !! a = Some app ->
  good U (update_app a (set_ca_swapped (delete n (ca_swapped_processes app)))) w.
Proof.
  intros Hw Ha. pose proof Hw as [I1 I2 I3 _ _ _ _ _]. apply (update_app_good _ _ _ _ app); cbn; eauto.
  intros m p Hm. apply lookup_delete_Some in Hm as [_ Hm]. eauto.
Qed.

Lemma update_process_at w p x f :
  w_heap w !! p = Some x -> update_process p f w = (Ret tt, set_w_heap (<[p := f x]> (w_heap w)) w).
Proof. intros Hp. unfold update_process, modify. now rewrite (alter_process _ _ _ x Hp). Qed.

Lemma status_good U w p x f :
  cp_inv w -> w_heap w !! p = Some x -> pr_name (f x) = pr_name x -> pr_application (f x) = pr_application x ->
  process_ok (f x) -> star status_edge (pr_status x) (pr_status (f x)) ->
  (forall app, w_apps w !! pr_application x = Some app -> ca_active_processes app !! pr_name x = Some p ->
    active_status (pr_status (f x))) ->
  (forall app, w_apps w !! pr_application x = Some app -> ca_swapped_processes app !! pr_name x = Some p ->
    swapped_status (pr_status (f x)) /\ is_Some (pr_swap (f x))) ->
  good U (update_process p f) w.
Proof. intros. unfold good. rewrite (update_process_at _ _ x) by done. now apply (cp_inv_status _ _ x). Qed.

Lemma failed_ok x : process_ok x -> process_ok (set_status FAILURE x).
Proof.
  intros [H1 H2 H3 H4]. split; cbn; [done| |discriminate|].
  - intros [H|[H|H]]; discriminate.
  - intros [H|H]; discriminate.
Qed.

Lemma failed_good U w p x :
  cp_inv w -> w_heap w !! p = Some x -> pr_status x <> SWAPPED_OUT ->
  (forall app, w_apps w !! pr_application x = Some app -> ca_active_processes app !! pr_name x <> Some p) ->
  good U (update_process p (set_status FAILURE)) w.
Proof.
  intros Hw Hp Hs Hact. destruct (inv_process _ Hw _ _ Hp) as [Hok _].
  apply (status_good _ _ _ x); auto; [now apply failed_ok|now apply star_one, edge_fail| |].
  - intros app Ha Hn. now destruct (Hact app Ha).
  - intros app Ha Hn. destruct (swapped_entry _ _ _ _ _ _ Hw Ha Hn Hp) as (_ & _ & _ & Hsw).
    split; [now right; right|done].
Qed.

Lemma closed_process_good w p : cp_inv w -> is_Some (w_heap w !! p) -> good False (closed_process p) w.
Proof.
  intros Hw [x Hp]. destruct (inv_process _ Hw _ _ Hp) as [Hok [app Happ]]. unfold closed_process.
  apply good_bind; [unfold good; rewrite (deref_some _ _ _ Hp); auto using evolves_refl|].
  intros y w1 E _ _. rewrite (deref_some _ _ _ Hp) in E. simplify_eq.
  destruct (decide _) as [Hs|Hs].
  - apply (status_good _ _ _ y); auto.
    + destruct Hok as [H1 H2 H3 H4]. split; cbn; [done| |discriminate|].
      * intros [H|[H|H]]; discriminate.
      * intros [H|H]; discriminate.
    + cbn. rewrite Hs. apply star_one, edge_close.
    + intros app' Ha Hn. destruct (active_entry _ _ _ _ _ _ Hw Ha Hn Hp) as (_ & _ & [H|[H|H]]); congruence.
    + intros app' Ha Hn. destruct (swapped_entry _ _ _ _ _ _ Hw Ha Hn Hp) as (_ & _ & _ & Hsw).
      split; [now right; left|done].
  - assert (forall app', w_apps w1 !! pr_application y = Some app' -> app' = app) as Hu by (intros; congruence).
    assert (forall m : gmap string nat, m !! pr_name y = None ->
      (forall app', w_apps (set_w_apps (<[pr_application y := set_ca_active m app]> (w_apps w1)) w1) !! pr_application y = Some app' ->
        ca_active_processes app' !! pr_name y <> Some p)) as Hdel.
    { intros m Hm app'. cbn. rewrite lookup_insert_eq. intros [= <-]. cbn. rewrite Hm. discriminate. }
    destruct (ca_active_processes app !! pr_name y) as [q|] eqn:Ea.
    + enough (good False (update_app (pr_application y) (set_ca_active (delete (pr_name y) (ca_active_processes app)))
          ≫= fun _ => update_process p (set_status FAILURE)) w1) as Hg.
      { unfold good, mbind, M_bind, update_process, update_app, get_app, modify in *. cbn in *. now rewrite Happ, Ea. }
      apply good_bind; [now apply drop_active_good|]. intros [] w2 E2 Hw2 _.
      unfold update_app, modify in E2. rewrite (alter_app _ _ _ app Happ) in E2. injection E2 as E2. subst w2.
      apply (failed_good _ _ _ y); auto. apply Hdel. apply lookup_delete_eq.
    + destruct (ca_swapped_processes app !! pr_name y) as [q|] eqn:Es.
      * enough (good False (update_app (pr_application y) (set_ca_swapped (delete (pr_name y) (ca_swapped_processes app)))
          ≫= fun _ => update_process p (set_status FAILURE)) w1) as Hg.
        { unfold good, mbind, M_bind, update_process, update_app, get_app, modify in *. cbn in *. now rewrite Happ, Ea, Es. }
        apply good_bind; [now apply drop_swapped_good|]. intros [] w2 E2 Hw2 _.
        unfold update_app, modify in E2. rewrite (alter_app _ _ _ app Happ) in E2. injection E2 as E2. subst w2.
        apply (failed_good _ _ _ y); auto. cbn. intros app'. rewrite lookup_insert_eq. intros [= <-]. cbn. now rewrite Ea.
      * enough (good False (update_process p (set_status FAILURE)) w1) as Hg.
        { unfold good, mbind, M_bind, update_process, get_app, modify in *. cbn in *. now rewrite Happ, Ea, Es. }
        apply (failed_good _ _ _ y); auto. intros app' Ha'. rewrite (Hu _ Ha'), Ea. discriminate.
Qed.

Lemma deref_bind U {B} p x (f : Process -> M World B) w :
  w_heap w !! p = Some x -> good U (f x) w -> good U (deref p ≫= f) w.
Proof. intros Hp Hf. unfold good, mbind, M_bind, deref. now rewrite Hp. Qed.

Lemma get_app_bind U {B} a app (f : CpApplication -> M World B) w :
  w_apps w !! a = Some app -> good U (f app) w -> good U (get_app a ≫= f) w.
Proof. intros Ha Hf. unfold good, mbind, M_bind, get_app. now rewrite Ha. Qed.

Lemma evolves_some w w' p : evolves w w' -> is_Some (w_heap w !! p) -> is_Some (w_heap w' !! p).
Proof. intros Hev [x Hx]. destruct (Hev _ _ Hx) as (? & ? & _). eauto. Qed.

(** only the erasure of a failed allocation can miss its element *)
Lemma erase_active_good (U : Prop) w a n p :
  U -> cp_inv w -> is_Some (w_apps w !! a) -> good U (erase_active a n p) w.
Proof.
  intros HU Hw [app Ha]. apply (get_app_bind _ _ app); [done|].
  destruct (ca_active_processes app !! n) as [q|]; [|exact HU].
  destruct (decide _); [|exact HU]. now apply drop_active_good.
Qed.

(** the back end could not create the process *)
Definition reply_failed (reply : docker_reply) : Prop :=
  match reply with ReplyCreated _ _ _ => False | _ => True end.

Lemma post_callback_good w r reply :
  cp_inv w -> is_Some (w_heap w !! al_process r) -> good (reply_failed reply) (post_callback r reply) w.
Proof.
  intros Hw [x Hp]. destruct (inv_process _ Hw _ _ Hp) as [Hok Happ].
  unfold post_callback. apply (deref_bind _ _ x); [done|].
  destruct (docker_result (pr_name x) reply) as [instance|error] eqn:Ed.
  - apply good_bind.
    { eapply good_quiet_on; [done|eauto|]. apply quiet_on_update. intros y _. split_and!; auto. intros [H1 H2 H3 H4]. now split. }
    intros _ w1 _ Hw1 Hev1. apply good_bind.
    { eapply good_quiet_on; [done| |apply created_callback_quiet]. eapply evolves_some; eauto. }
    intros _ w2 _ Hw2 Hev2. destruct (al_controlplane r); [|now apply good_same].
    destruct (Hev1 _ _ Hp) as (x1 & Hx1 & _ & Ha1 & _). destruct (Hev2 _ _ Hx1) as (x2 & Hx2 & _ & Ha2 & _).
    destruct (inv_process _ Hw2 _ _ Hx2) as [_ [app Ha]]. rewrite Ha2, Ha1 in Ha.
    pose proof Hw2 as [I1 I2 I3 _ _ _ _ _]. apply (update_app_good _ _ _ _ app); cbn; eauto.
    intros q Hq. apply elem_of_app in Hq as [Hq|Hq]; [eauto|]. apply list_elem_of_singleton in Hq as ->. eauto.
  - apply good_bind; [destruct (al_controlplane r); [now apply good_same|apply erase_active_good; auto; now destruct reply]|].
    intros _ w1 _ Hw1 Hev1. eapply good_quiet_on; [done| |apply created_callback_quiet]. eapply evolves_some; eauto.
Qed.

Lemma post_completed_sound i reply : sound (reply_failed reply) (post_completed i reply).
Proof.
  intros w Hw. apply good_bind; [now apply good_same|]. intros posts w1 E _ _. injection E as <- <-.
  destruct (w_posts w !! i) as [r|] eqn:Er; [|now apply good_same].
  pose proof Hw as [I1 I2 I3 I4 I5 I6 I7 I8]. pose proof (proj1 (Forall_lookup _ _) I8 _ _ Er) as Hr. cbn in Hr.
  apply good_bind.
  - apply good_frame; auto. cbn. rewrite delete_take_drop. apply Forall_app.
    split; [now apply Forall_take|now apply Forall_drop].
  - intros _ w1 _ Hw1 Hev1. apply post_callback_good; [done|]. eapply evolves_some; eauto.
Qed.

Lemma get_process_bind U {B} a n (f : nat -> M World B) w :
  cp_inv w -> is_Some (w_apps w !! a) ->
  (forall app p, w_apps w !! a = Some app -> ca_active_processes app !! n = Some p -> good U (f p) w) ->
  good U (get_process a n ≫= f) w.
Proof.
  intros Hw [app Ha] Hf. unfold get_process, good, mbind, M_bind, get_app. rewrite Ha.
  destruct (ca_active_processes app !! n) as [p|] eqn:En; cbn; [now apply (Hf app p)|auto using evolves_refl].
Qed.

Lemma swap_ok x root : process_ok x -> pr_status x = ALLOCATED -> process_ok (set_pr_swap (Some root) (set_status SWAPPING_OUT x)).
Proof.
  intros [H1 H2 H3 H4] Hs. split; cbn; [done| |discriminate|eauto]. intros _. apply H2. now left.
Qed.

Lemma process_swap_good U p w x :
  cp_inv w -> w_heap w !! p = Some x -> is_Some (pr_swap x) -> connected_status (pr_status x) ->
  good U (process_swap p) w.
Proof.
  intros Hw Hp [path Hpath] Hs. destruct (inv_process _ Hw _ _ Hp) as [Hok _]. apply (deref_bind _ _ x); [done|].
  destruct (pr_connection x); [|now apply good_same]. rewrite Hpath.
  apply good_quiet; [done|]. refine (quiet_on_bind connected_status p _ _ _ _ w x Hp Hok Hs).
  - apply quiet_on_lift. unfold set_swap_path.
    match goal with |- context [set_string_field ?a ?b ?c ?d ?e] =>
      pose proof (set_field_defined a b c path e) as Hd; destruct (set_string_field a b c d e); done end.
  - intros msg. apply send_quiet.
Qed.

Lemma swap_process_good a n w :
  cp_inv w -> is_Some (w_apps w !! a) -> good False (swap_process a n) w.
Proof.
  intros Hw Ha. unfold swap_process. destruct (_ =? 0); [now apply good_same|].
  apply get_process_bind; auto. intros app p Happ Hn.
  destruct (inv_active _ Hw _ _ _ _ Happ Hn) as (x & Hp & Hname & Happl & _).
  destruct (inv_process _ Hw _ _ Hp) as [Hok _].
  apply (deref_bind _ _ x); [done|]. destruct (decide _) as [Hs|Hs]; [|now apply good_same].
  set (x' := set_pr_swap (Some cfg_swap_root) (set_status SWAPPING_OUT x)).
  assert (process_ok x') as Hok' by now apply swap_ok.
  assert (cp_inv (set_w_heap (<[p := x']> (w_heap w)) w) /\ evolves w (set_w_heap (<[p := x']> (w_heap w)) w)) as [Hw' Hev'].
  { apply (cp_inv_status _ _ x); auto; cbn.
    - rewrite Hs. apply star_one, edge_swap.
    - intros. now right; right.
    - intros app' Ha' Hn'. destruct (swapped_entry _ _ _ _ _ _ Hw Ha' Hn' Hp) as (_ & _ & [H|[H|H]] & _); congruence. }
  assert (good False (process_swap p) (set_w_heap (<[p := x']> (w_heap w)) w)) as Hg.
  { apply (process_swap_good _ _ _ x'); [done|cbn; apply lookup_insert_eq|cbn; eauto|right; now left]. }
  unfold good in *. unfold mbind, M_bind. rewrite (update_process_at _ _ x) by done.
  rewrite (update_process_at _ _ (set_status SWAPPING_OUT x)) by (cbn; apply lookup_insert_eq).
  cbn [w_heap set_w_heap]. rewrite insert_insert_eq. change (set_w_heap ?a (set_w_heap ?b ?c)) with (set_w_heap a c).
  destruct (process_swap p _) as [[] w2]; auto; destruct Hg; split; auto; eapply evolves_trans; eauto.
Qed.

Lemma swapped_process_good a n w :
  cp_inv w -> is_Some (w_apps w !! a) -> good False (swapped_process a n) w.
Proof.
  intros Hw Ha. apply get_process_bind; auto. intros app p Happ Hn.
  destruct (inv_active _ Hw _ _ _ _ Happ Hn) as (x & Hp & Hname & Happl & _).
  destruct (inv_process _ Hw _ _ Hp) as [Hok _].
  apply (deref_bind _ _ x); [done|]. destruct (decide _) as [Hs|Hs]; [|now apply good_same].
  pose proof Hok as [H1 H2 H3 H4].
  apply good_bind.
  { pose proof Hw as [I1 I2 I3 _ _ _ _ _]. apply (update_app_good _ _ _ _ app); cbn; eauto.
    intros m q Hm. apply lookup_delete_Some in Hm as [_ Hm]. eauto. }
  intros [] w1 E1 Hw1 _. unfold update_app, modify in E1. rewrite (alter_app _ _ _ app Happ) in E1.
  injection E1 as E1. subst w1.
  apply good_bind.
  { apply (status_good _ _ _ x); auto; cbn.
    - split; cbn; [done| |discriminate|].
      + intros _. apply H2. right. now left.
      + intros _. apply H4. now left.
    - rewrite Hs. apply star_one, edge_swapped.
    - intros app'. rewrite Happl, lookup_insert_eq. intros [= <-]. cbn. rewrite Hname, lookup_delete_eq. discriminate.
    - intros app' Ha' Hn'. destruct (swapped_entry _ _ _ _ _ _ Hw1 Ha' Hn' Hp) as (_ & _ & [H|[H|H]] & _); congruence. }
  intros [] w2 E2 Hw2 _. rewrite (update_process_at _ _ x) in E2 by done. injection E2 as E2. subst w2.
  pose proof Hw2 as [I1 I2 I3 _ _ _ _ _].
  apply (update_app_good _ _ _ _ (set_ca_active (delete n (ca_active_processes app)) app));
    [done|cbn; apply lookup_insert_eq|..]; cbn.
  - intros m q Hm. apply (I1 a (set_ca_active (delete n (ca_active_processes app)) app)); [apply lookup_insert_eq|done].
  - intros m q Hm. unfold insert_node in Hm.
    destruct (ca_swapped_processes app !! n) eqn:En.
    + apply (I2 a (set_ca_active (delete n (ca_active_processes app)) app)); [apply lookup_insert_eq|done].
    + apply lookup_insert_Some in Hm as [[<- <-]|[_ Hm]].
      * exists (set_status SWAPPED_OUT x). cbn. rewrite lookup_insert_eq. split_and!; auto; first [now left | apply H4; now left].
      * apply (I2 a (set_ca_active (delete n (ca_active_processes app)) app)); [apply lookup_insert_eq|done].
  - intros q Hq. apply (I3 a (set_ca_active (delete n (ca_active_processes app)) app)); [apply lookup_insert_eq|done].
Qed.

Lemma delete_process_good a n w :
  cp_inv w -> is_Some (w_apps w !! a) -> good False (delete_process a n) w.
Proof.
  intros Hw [app Ha]. unfold delete_process. destruct (_ =? 0); [now apply good_same|].
  apply good_bind.
  { apply (get_app_bind _ _ app); [done|]. destruct (ca_swapped_processes app !! n); now apply good_same. }
  intros p w1 E _ _. unfold get_swapped_process, mbind, M_bind, get_app in E. rewrite Ha in E.
  destruct (ca_swapped_processes app !! n) as [q|] eqn:En; [|discriminate E]. injection E as -> <-.
  destruct (inv_swapped _ Hw _ _ _ _ Ha En) as (x & Hp & _ & _ & _ & [path Hsw]).
  apply (deref_bind _ _ x); [done|]. rewrite Hsw.
  pose proof Hw as [I1 I2 I3 _ _ _ _ _]. apply (update_app_good _ _ _ _ app); cbn; eauto.
  intros m r Hm. apply lookup_delete_Some in Hm as [_ Hm]. eauto.
Qed.

Lemma add_application_sound n c : sound False (add_application n c).
Proof.
  intros w Hw. unfold add_application. destruct (_ =? 0); [now apply good_same|].
  apply good_bind; [now apply good_same|]. intros apps w1 E _ _. injection E as <- <-.
  destruct (w_apps w !! n); [now apply good_same|].
  apply cp_inv_app; cbn; auto.
  - intros m p. rewrite lookup_empty. discriminate.
  - intros m p. rewrite lookup_empty. discriminate.
  - intros p Hp. now apply not_elem_of_nil in Hp.
Qed.

(** *** Workers and HTTP *)
Lemma good_catching U {A} (m : M World A) h w : good U m w -> good U (catching m h) w.
Proof.
  unfold good, catching. destruct (m w) as [[a|e|] w']; auto. destruct (h e); auto.
Qed.

Lemma http_create_app_sound k a c : sound False (http_create_app k a c).
Proof.
  unfold http_create_app. destruct (_ =? 0); [apply sound_respond|].
  apply sound_bind; [|intros; apply sound_respond].
  intros w Hw. apply good_catching. apply good_bind; [now apply add_application_sound|].
  intros _ w1 _ Hw1 _. now apply sound_ret.
Qed.

Lemma http_create_process_sound k a n v m : sound False (http_create_process k a n v m).
Proof.
  unfold http_create_process. apply sound_bind.
  { destruct (_ || _)%bool; [apply sound_respond|apply sound_ret]. }
  intros _. apply sound_bind; [|intros; apply sound_ret].
  intros w Hw. apply good_bind; [now apply good_same|]. intros apps w1 E _ _. injection E as <- <-.
  destruct (w_apps w !! a) eqn:Ea; [|now apply good_same].
  apply good_bind; [apply add_process_sound; eauto|]. intros. now apply sound_ret.
Qed.

Lemma workers_handle_invocation_sound body k a f : sound False (workers_handle_invocation body k a f).
Proof.
  intros w Hw. apply good_bind; [now apply good_same|]. intros apps w1 E _ _. injection E as <- <-.
  destruct (w_apps w !! a) eqn:Ea; [|now apply sound_respond]. apply get_controlplane_good; eauto.
Qed.

(** a worker's operation on an application, its errors caught *)
Lemma worker_sound a (m : M World unit) h :
  (forall w, cp_inv w -> is_Some (w_apps w !! a) -> good False m w) ->
  sound False (apps ← gets w_apps;
    match apps !! a with
    | None => mret (Some "Application does not exist")
    | Some _ => catching (m ≫= fun _ => mret None) h
    end).
Proof.
  intros Hm w Hw. apply good_bind; [now apply good_same|]. intros apps w1 E _ _. injection E as <- <-.
  destruct (w_apps w !! a) eqn:Ea; [|now apply good_same].
  apply good_catching, good_bind; [eauto|]. intros. now apply sound_ret.
Qed.

Lemma http_delete_process_sound k a n : sound False (http_delete_process k a n).
Proof.
  apply sound_bind; [|intros; apply sound_respond]. apply worker_sound. intros. now apply delete_process_good.
Qed.

Lemma http_swap_process_sound k a n : sound False (http_swap_process k a n).
Proof.
  apply sound_bind; [|intros; apply sound_respond]. apply worker_sound. intros. now apply swap_process_good.
Qed.

Lemma process_names_good w m :
  cp_inv w -> (forall n p, m !! n = Some p -> is_Some (w_heap w !! p)) -> good False (process_names m) w.
Proof.
  intros Hw Hm. apply good_same; [done| |done]. unfold process_names. cbn.
  assert (Forall (fun '(_, p) => is_Some (w_heap w !! p)) (map_to_list m)) as Hl.
  { apply list.Forall_forall. intros [n p] Hin. apply elem_of_map_to_list in Hin. eauto. }
  induction Hl as [|[n p] l [x Hx] _ IH]; [discriminate|]. cbn [mapM]. rewrite Hx. cbn.
  destruct (mapM _ l); [discriminate|discriminate|done].
Qed.

Lemma workers_list_processes_sound a : sound False (workers_list_processes a).
Proof.
  intros w Hw. apply good_bind; [now apply good_same|]. intros apps w1 E _ _. injection E as <- <-.
  destruct (w_apps w !! a) as [app|] eqn:Ea; [|now apply good_same].
  pose proof Hw as [I1 I2 _ _ _ _ _ _].
  apply good_bind; [apply process_names_good; auto; intros n p Hn; destruct (I1 _ _ _ _ Ea Hn) as (x & ? & _); eauto|].
  intros active w1 _ Hw1 Hev.
  apply good_bind; [apply process_names_good; auto|intros; now apply good_same].
  intros n p Hn. destruct (I2 _ _ _ _ Ea Hn) as (x & Hx & _). eapply evolves_some; eauto.
Qed.

Lemma http_list_processes_sound k a : sound False (http_list_processes k a).
Proof.
  apply sound_bind; [apply workers_list_processes_sound|]. intros [[e|] l]; (apply sound_bind; [|intros; apply sound_respond]).
  - apply sound_respond.
  - intros w Hw. now apply good_same.
Qed.

(** *** The TCP server *)
Lemma counters_sound f g : sound False (modify (fun w => set_w_counters (f w) (g w) w)).
Proof. intros w Hw. pose proof Hw as [I1 I2 I3 I4 I5 I6 I7 I8]. now apply good_frame. Qed.

Lemma loop_task_sound : sound False loop_task.
Proof.
  intros w Hw. apply good_bind; [now apply good_same|]. intros tasks w1 E _ _. injection E as <- <-.
  pose proof Hw as [I1 I2 I3 I4 I5 I6 I7 I8].
  destruct (w_loop w) as [|p rest]; [now apply good_same|].
  apply List.Forall_cons_iff in I7 as [[x Hp] I7].
  apply good_bind; [now apply good_frame|]. intros [] w1 E Hw1 _. injection E as E. subst w1.
  apply (deref_bind _ _ x); [done|]. apply good_bind; [now apply good_same|].
  intros pending w2 E _ _. injection E as <- <-. cbn [w_pending_processes set_w_loop].
  destruct (w_pending_processes w !! pr_name x); [now apply good_same|].
  apply good_frame; auto. cbn. intros n q Hq. apply lookup_insert_Some in Hq as [[<- <-]|[_ Hq]]; eauto.
Qed.

Lemma process_connect_good w p t : cp_inv w -> is_Some (w_heap w !! p) -> good False (process_connect p t) w.
Proof.
  intros Hw [x Hp]. destruct (inv_process _ Hw _ _ Hp) as [Hok _]. apply (deref_bind _ _ x); [done|].
  destruct (decide _) as [Hs|Hs]; [|now apply good_same].
  set (f := fun x => set_status ALLOCATED (set_pr_connection (Some t) x)).
  assert (process_ok (f x)) as Hok'.
  { destruct Hok as [H1 H2 H3 H4]. split; cbn; [done|eauto|discriminate|]. intros [H|H]; discriminate. }
  apply good_bind.
  { apply (status_good _ _ _ x); auto; cbn.
    - rewrite Hs. apply star_one, edge_connect.
    - intros. now right; left.
    - intros app' Ha' Hn'. destruct (swapped_entry _ _ _ _ _ _ Hw Ha' Hn' Hp) as (_ & _ & [H|[H|H]] & _); congruence. }
  intros [] w1 E Hw1 _. rewrite (update_process_at _ _ x) in E by done. injection E as E. subst w1.
  assert (w_heap (set_w_heap (<[p := f x]> (w_heap w)) w) !! p = Some (f x)) as Hp1 by apply lookup_insert_eq.
  apply good_bind.
  { apply good_quiet; [done|]. apply (send_invocations_quiet p _ (f x)); auto. now left. }
  intros [] w2 _ Hw2 Hev2. eapply good_quiet_on; [done| |apply created_callback_quiet]. eapply evolves_some; eauto.
Qed.

Lemma cp_handle_connection_sound t m : sound False (cp_handle_connection t m).
Proof.
  intros w Hw. apply good_bind; [now apply good_same|]. intros pending w1 E _ _. injection E as <- <-.
  pose proof Hw as [I1 I2 I3 I4 I5 I6 I7 I8].
  destruct (w_pending_processes w !! sv_str (process_name m)) as [p|] eqn:Ep; [|now apply good_same].
  destruct (I5 _ _ Ep) as (x & Hp & _).
  apply good_bind.
  { apply good_frame; auto. cbn. intros n q Hq. apply lookup_delete_Some in Hq as [_ Hq]. eauto. }
  intros [] w1 _ Hw1 Hev1. apply good_bind.
  { pose proof Hw1 as [J1 J2 J3 J4 J5 J6 J7 J8]. apply good_frame; auto. cbn. intros s d Hd.
    apply lookup_insert_Some in Hd as [[_ <-]|[_ Hd]]; [|eauto]. cbn. split; [eapply evolves_some; eauto|lia]. }
  intros [] w2 _ Hw2 Hev2.
  assert (is_Some (w_heap w2 !! p)) as [x2 Hp2]
    by (eapply evolves_some; [exact Hev2|]; eapply evolves_some; eauto).
  apply (deref_bind _ _ x2); [done|]. apply good_bind.
  { pose proof Hw2 as [J1 J2 J3 J4 J5 J6 J7 J8]. now apply good_frame. }
  intros [] w3 _ Hw3 Hev3. apply good_bind.
  { apply process_connect_good; [done|]. eapply evolves_some; eauto. }
  intros [] w4 _ Hw4 _. now apply counters_sound.
Qed.

Lemma handle_disconnection_sound t : sound False (handle_disconnection t).
Proof.
  apply sound_bind; [apply counters_sound|]. intros [] w Hw.
  apply good_bind; [now apply good_same|]. intros contexts w1 E _ _. injection E as <- <-.
  destruct (w_contexts w !! t) as [d|] eqn:Et; [|now apply good_same].
  apply good_bind; [now apply counters_sound|]. intros [] w1 _ Hw1 Hev.
  apply closed_process_good; [done|]. eapply evolves_some; [exact Hev|]. now destruct (inv_contexts _ Hw _ _ Et).
Qed.

Lemma handle_swap_good w p : cp_inv w -> is_Some (w_heap w !! p) -> good False (handle_swap p) w.
Proof.
  intros Hw [x Hp]. apply (deref_bind _ _ x); [done|]. apply swapped_process_good; [done|].
  now destruct (inv_process _ Hw _ _ Hp).
Qed.

Lemma cp_set_context_good w t d :
  cp_inv w -> is_Some (w_heap w !! cd_process d) -> (0 <= cd_bytes_to_read d)%Z -> good False (cp_set_context t d) w.
Proof.
  intros Hw Hd Hz. pose proof Hw as [I1 I2 I3 I4 I5 I6 I7 I8]. apply good_frame; auto. cbn.
  intros s e He. apply lookup_insert_Some in He as [[_ <-]|[_ He]]; eauto.
Qed.

(** *** The message handlers, on the bytes of a connection *)
Definition goodb {A} (m : M (World * list byte) A) (w : World) (b : list byte) (Q : A -> list byte -> Prop) : Prop :=
  match m (w, b) with
  | (Undef, _) => False
  | (Ret a, (w', b')) => cp_inv w' /\ evolves w w' /\ Q a b'
  | (Throw _, (w', _)) => cp_inv w' /\ evolves w w'
  end.

Lemma goodb_bind {A B} (m : M (World * list byte) A) (f : A -> M (World * list byte) B) w b Q Q' :
  goodb m w b Q ->
  (forall a w' b', cp_inv w' -> evolves w w' -> Q a b' -> goodb (f a) w' b' Q') ->
  goodb (m ≫= f) w b Q'.
Proof.
  unfold goodb, mbind, M_bind. intros Hm Hf. destruct (m (w, b)) as [[a|e|] [w1 b1]]; auto.
  destruct Hm as (H1 & H2 & H3). specialize (Hf a w1 b1 H1 H2 H3).
  destruct (f a (w1, b1)) as [[c|e|] [w2 b2]]; auto.
  - destruct Hf as (? & ? & ?). split_and!; auto. eapply evolves_trans; eauto.
  - destruct Hf as (? & ?). split; auto. eapply evolves_trans; eauto.
Qed.

Lemma goodb_world {A} (m : M World A) w b : good False m w -> goodb (on_world m) w b (fun _ b' => b' = b).
Proof. unfold good, goodb, on_world, zoom. cbn. destruct (m w) as [[] w1]; cbn; naive_solver. Qed.

Lemma goodb_ret {A} (a : A) w b (Q : A -> list byte -> Prop) : cp_inv w -> Q a b -> goodb (mret a) w b Q.
Proof. unfold goodb. cbn. auto using evolves_refl. Qed.

Lemma goodb_lift {A} (o : outcome A) w b : cp_inv w -> o <> Undef -> goodb (lift o) w b (fun a b' => b' = b /\ o = Ret a).
Proof. unfold goodb, lift. destruct o; cbn; auto using evolves_refl. Qed.

Lemma goodb_peek w b : cp_inv w -> goodb peek w b (fun a b' => a = b /\ b' = b).
Proof. unfold goodb. cbn. auto using evolves_refl. Qed.

Lemma goodb_retrieve n w b : cp_inv w -> goodb (retrieve n) w b (fun _ b' => b' = drop n b).
Proof. unfold goodb. cbn. auto using evolves_refl. Qed.

(** a consumed message has taken bytes of the buffer *)
Definition took (b : list byte) (consumed : bool) (b' : list byte) : Prop :=
  consumed = true -> length b' < length b \/ length b' = 0.

Lemma took_drop n b : 0 < n -> took b true (drop n b).
Proof. intros Hn _. rewrite length_drop. lia. Qed.

Lemma goodb_header (m : M World unit) w b :
  good False m w -> goodb (on_world m ≫= fun _ => retrieve BUF_SIZE ≫= fun _ => mret true) w b (took b).
Proof.
  intros Hm. eapply goodb_bind; [now apply goodb_world|]. intros [] w1 b1 Hw1 _ ->.
  eapply goodb_bind; [now apply goodb_retrieve|]. intros [] w2 b2 Hw2 _ ->.
  apply goodb_ret; [done|]. apply took_drop. unfold BUF_SIZE. lia.
Qed.

Lemma handle_invocation_result_goodb t d req w b :
  cp_inv w -> w_contexts w !! t = Some d ->
  goodb (handle_invocation_result t d req) w b (took b).
Proof.
  intros Hw Ht. destruct (inv_contexts _ Hw _ _ Ht) as [Hp Hd]. unfold handle_invocation_result.
  set (first := (cd_bytes_to_read d =? 0)%Z).
  set (to_read := if first then wrap_u64 (total_length req) else cd_bytes_to_read d).
  eapply (goodb_bind _ _ _ _ (fun _ b1 => b1 = if first then drop BUF_SIZE b else b)).
  { destruct first; [|now apply goodb_ret].
    eapply goodb_bind; [apply goodb_world, cp_set_context_good; auto; apply Z.mod_pos_bound; lia|]. intros [] w1 b1 Hw1 _ ->.
    now apply goodb_retrieve. }
  intros [] w1 b1 Hw1 Hev1 ->.
  eapply goodb_bind; [now apply goodb_peek|]. intros b1 w2 b2 Hw2 Hev2 [-> ->].
  destruct (Z.leb_spec to_read (Z.of_nat (length (if first then drop BUF_SIZE b else b)))) as [Hle|Hlt];
    [|now apply goodb_ret].
  eapply goodb_bind.
  { apply goodb_world. eapply good_quiet_on; [done| |apply finish_invocation_quiet].
    eapply evolves_some; [exact Hev2|]. eapply evolves_some; eauto. }
  intros [] w3 b3 Hw3 Hev3 ->.
  eapply goodb_bind; [now apply goodb_retrieve|]. intros [] w4 b4 Hw4 Hev4 ->.
  eapply goodb_bind.
  { apply goodb_world. apply cp_set_context_good; [done| |cbn; lia]. cbn.
    eapply evolves_some; [exact Hev4|]. eapply evolves_some; [exact Hev3|].
    eapply evolves_some; [exact Hev2|]. eapply evolves_some; eauto. }
  intros [] w5 b5 Hw5 _ ->. apply goodb_ret; [done|]. intros _.
  unfold to_read in *. destruct first eqn:Ef.
  - rewrite !length_drop in *. unfold BUF_SIZE. lia.
  - apply Z.eqb_neq in Ef. rewrite length_drop. lia.
Qed.

Lemma visit_message_goodb t d now msg w b :
  cp_inv w -> w_contexts w !! t = Some d ->
  goodb (visit_message t d now msg) w b (took b).
Proof.
  intros Hw Ht. destruct (inv_contexts _ Hw _ _ Ht) as [Hp Hd].
  assert (goodb (retrieve BUF_SIZE ≫= fun _ => mret true) w b (took b)) as Hskip.
  { eapply goodb_bind; [now apply goodb_retrieve|]. intros [] w2 b2 Hw2 _ ->.
    apply goodb_ret; [done|]. apply took_drop. unfold BUF_SIZE. lia. }
  destruct msg; cbn [visit_message]; try exact Hskip.
  - apply goodb_header. now apply handle_swap_good.
  - now apply handle_invocation_result_goodb.
  - apply goodb_header. eapply good_quiet_on; eauto. apply update_metrics_quiet.
  - apply goodb_header. now apply handle_disconnection_sound.
Qed.

Lemma goodb_peek_bind {A} (f : list byte -> M (World * list byte) A) w b Q : goodb (f b) w b Q -> goodb (peek ≫= f) w b Q.
Proof. done. Qed.

Lemma goodb_get_bind {A} (f : World -> M (World * list byte) A) w b Q : goodb (f w) w b Q -> goodb (on_world get ≫= f) w b Q.
Proof. done. Qed.

Lemma cp_handle_message_goodb fuel t now w b :
  cp_inv w -> length b < fuel -> goodb (cp_handle_message fuel t now) w b (fun _ _ => True).
Proof.
  revert w b. induction fuel as [|fuel IH]; intros w b Hw Hf; [lia|].
  cbn [cp_handle_message]. apply goodb_get_bind.
  assert (forall w2 b2, cp_inv w2 -> length b2 < length b \/ length b2 = 0 ->
    goodb (if 0 <? length b2 then cp_handle_message fuel t now else mret tt) w2 b2 (fun _ _ => True)) as Hrest.
  { intros w2 b2 Hw2 Hl. destruct (Nat.ltb_spec 0 (length b2)); [|now apply goodb_ret].
    apply IH; [done|]. destruct Hl; lia. }
  destruct (w_contexts w !! t) as [d|] eqn:Et; apply goodb_peek_bind.
  - assert (forall m, m <> Undef -> goodb (msg ← lift m; visit_message t d now msg) w b (took b)) as Hvisit.
    { intros m Hm. destruct m as [v|e|]; [|exact (conj Hw (evolves_refl w))|done].
      now apply (visit_message_goodb t d now v w b). }
    eapply (goodb_bind _ _ _ _ (took b)).
    + destruct (0 <? cd_bytes_to_read d)%Z; [apply Hvisit, parse_not_undef|].
      destruct (_ <? _); [now apply goodb_ret|apply Hvisit, parse_not_undef].
    + intros consumed w1 b1 Hw1 _ Hl. apply goodb_peek_bind. destruct consumed; [|now apply goodb_ret].
      now apply Hrest, Hl.
  - destruct (_ <? _); [now apply goodb_ret|].
    eapply goodb_bind; [apply goodb_lift; [done|apply parse_not_undef]|]. intros v w1 b1 Hw1 _ [-> _].
    eapply (goodb_bind _ _ _ _ (fun _ b' => b' = b)).
    { destruct v; try now apply goodb_ret. apply goodb_world. now apply cp_handle_connection_sound. }
    intros [] w2 b2 Hw2 _ ->. eapply goodb_bind; [now apply goodb_retrieve|]. intros [] w3 b3 Hw3 _ ->.
    apply goodb_peek_bind. apply Hrest; [done|]. rewrite length_drop. unfold BUF_SIZE. lia.
Qed.

(** *** Every event *)
Definition allocation_failed (e : cp_event) : Prop :=
  match e with EvPostCompleted _ reply => reply_failed reply | _ => False end.

Lemma handle_sound e : sound (allocation_failed e) (handle e).
Proof.
  destruct e; cbn [handle allocation_failed].
  - apply http_create_app_sound.
  - apply http_create_process_sound.
  - apply workers_handle_invocation_sound.
  - apply http_delete_process_sound.
  - apply http_swap_process_sound.
  - apply http_list_processes_sound.
  - apply post_completed_sound.
  - apply loop_task_sound.
  - apply counters_sound.
  - intros w Hw. pose proof (cp_handle_message_goodb (S (length buffer)) t now w buffer Hw ltac:(lia)) as Hg.
    unfold good, goodb, cp_receive in *. rewrite (M_bind_eq peek _ (w, buffer) buffer (w, buffer)) by reflexivity.
    destruct (cp_handle_message _ t now (w, buffer)) as [[[]|e|] [w1 b1]]; [|done|done]. naive_solver.
  - apply handle_disconnection_sound.
Qed.

Lemma cp_inv_init : cp_inv World_init.
Proof.
  split; cbn; try (intros ?; rewrite ?lookup_empty; intros; discriminate); try constructor; intros *; rewrite lookup_empty; discriminate.
Qed.

Lemma cp_step_inv w w' : cp_inv w -> cp_step w w' -> cp_inv w' /\ evolves w w'.
Proof.
  intros Hw (e & r & E & Hr). pose proof (handle_sound e w Hw) as Hg. unfold good in Hg. rewrite E in Hg.
  destruct r; [done|done|congruence].
Qed.

Lemma cp_steps_inv w w' : star cp_step w w' -> cp_inv w -> cp_inv w' /\ evolves w w'.
Proof.
  induction 1 as [w|w w1 w2 Hs _ IH]; intros Hw; [auto using evolves_refl|].
  destruct (cp_step_inv _ _ Hw Hs) as [Hw1 Hev]. destruct (IH Hw1) as [Hw2 Hev2].
  split; [done|]. eapply evolves_trans; eauto.
Qed.

(** C13: after any sequence of events - requests, replies of the back end, tasks,
    registrations, messages cut anywhere, disconnections, each with or without
    an exception - the tables of the control plane are consistent (the
    invariant [cp_inv]: every process listed as active or swapped exists under
    its own name, belongs to the application and is in a status that allows
    it, counts its invocations, and has the connection and the swap location
    its status promises), and no further event has undefined behaviour, unless
    it is the failure of an allocation. *)
Theorem control_plane_invariant w e :
  star cp_step World_init w -> cp_inv w /\ ((handle e w).1 = Undef -> allocation_failed e).
Proof.
  intros Hs. destruct (cp_steps_inv _ _ Hs cp_inv_init) as [Hw _]. split; [done|]. intros Hu.
  pose proof (handle_sound e w Hw) as Hg. unfold good in Hg. destruct (handle e w) as [[] w']; naive_solver.
Qed.

(** C30: the life cycle of a process: between any two states the control plane
    goes through, a process keeps its name and its application, and its status
    has moved along the edges: allocating, allocated, swapping out, swapped
    out, closed, or failed from any status but swapped out; it is never
    registered twice, and never leaves the failed status. *)
Theorem process_life_cycle w w' p x :
  star cp_step World_init w -> star cp_step w w' -> w_heap w !! p = Some x ->
  exists x', w_heap w' !! p = Some x' /\ pr_name x' = pr_name x /\ pr_application x' = pr_application x /\
    star status_edge (pr_status x) (pr_status x').
Proof.
  intros H1 H2 Hp. destruct (cp_steps_inv _ _ H1 cp_inv_init) as [Hw _].
  destruct (cp_steps_inv _ _ H2 Hw) as [_ Hev]. now apply Hev.
Qed.
End operations.
