(* ===== verification/CpProtocol.v ===== *)
(** * CpProtocol: what the control plane does for its clients

    Invocations from the request to the process and back, with the process's
    own decoder ([decode_stream] of Remote.v) at the other end of the
    connection; and behaviours the tables of CpInvariant.v do not rule out. *)

From S2P Require Import Prelude Memory Messages Buffers WorkQueue Controller Remote.
From S2P Require Import CpProcess CpApplication CpServer CpInvariant.

(** ** Invocations on their way to the process *)

Definition invocation_ok (i : PInvocation) : Prop :=
  fits NAME_LENGTH (pi_function_name i) /\ fits ID_LENGTH (String.substring 0 16 (pi_invocation_id i)) /\
  (Z.of_nat (length (pi_body i)) < 2 ^ 31)%Z.

(** the header of the invocation [i] *)
Definition invocation_frame (i : PInvocation) (hdr : mem) : Prop :=
  length hdr = BUF_SIZE /\ exists m, parse hdr = Ret (VInvocationRequest m) /\
    sv_str (function_name m) = pi_function_name i /\
    sv_str (invocation_id m) = String.substring 0 16 (pi_invocation_id i) /\
    payload_size m = Z.of_nat (length (pi_body i)).

(** what the process is told: its controller gets the request with the body *)
Definition invocation_call (hdr : mem) (i : PInvocation) : ctl_call :=
  CallControlplane hdr {| buf_ptr := Some (pi_body i); buf_size := length (pi_body i); buf_len := length (pi_body i) |}.

Definition sent_to (t : nat) (w : World) : list byte := concat (snd <$> filter (fun x => x.1 = t) (w_sent w)).

Lemma invocation_header i :
  invocation_ok i -> exists hdr, invocation_frame i hdr /\
    (r ← set_function_name (sv_of_string (pi_function_name i)) InvocationRequestData;
     r ← set_invocation_id (sv_of_string (String.substring 0 16 (pi_invocation_id i))) r;
     r ← set_payload_size (wrap_i32 (Z.of_nat (length (pi_body i)))) r;
     Ret (bytes (set_total_length (wrap_i32 (Z.of_nat (length (pi_body i)))) r))) = Ret hdr.
Proof.
  intros (Hf & Hid & Hb). assert (i32_range (Z.of_nat (length (pi_body i)))) as Hr by (unfold i32_range; lia).
  apply cview_fits in Hf, Hid.
  destruct (InvocationRequest_parse' _ _ (Z.of_nat (length (pi_body i))) _ Hf Hid ltac:(lia) Hr Hr)
    as (r & Er & Hlen & m & Hm & H1 & H2 & H3 & _).
  rewrite !sv_str_of_string in *. exists (bytes (set_total_length (Z.of_nat (length (pi_body i))) r)).
  split; [split; [done|eauto]|]. rewrite wrap_i32_id by done.
  apply bind_ret_inv in Er as (r1 & -> & Er). cbn [mbind outcome_bind].
  apply bind_ret_inv in Er as (r2 & -> & Er). cbn [mbind outcome_bind]. now rewrite Er.
Qed.

Lemma decode_invocation i hdr rest :
  invocation_ok i -> invocation_frame i hdr ->
  decode_stream CONTROL_PLANE None (hdr ++ pi_body i ++ rest) =
    and_then [invocation_call hdr i] (decode_stream CONTROL_PLANE None rest).
Proof.
  intros (_ & _ & Hb) (Hlen & m & Hp & _ & _ & Hs).
  apply (decode_message CONTROL_PLANE None hdr _ true _ rest _ Hlen Hp).
  - cbn. rewrite Hs, wrap_u64_id; [done|unfold u64_range; lia].
  - cbn. unfold invocation_call, payload_buffer. now rewrite firstn_all.
Qed.

Lemma decode_invocations l hdrs :
  Forall invocation_ok l -> Forall2 invocation_frame l hdrs ->
  decode_stream CONTROL_PLANE None (concat (zip_with (fun hdr i => hdr ++ pi_body i) hdrs l)) =
    (zip_with invocation_call hdrs l, [], Ret tt).
Proof.
  intros Hok Hf. induction Hf as [|i hdr l hdrs Hi Hf IH]; [reflexivity|].
  apply List.Forall_cons_iff in Hok as [Hi1 Hok]. cbn [zip_with concat]. rewrite <-app_assoc.
  rewrite (decode_invocation i) by done. rewrite IH by done. reflexivity.
Qed.

Lemma sent_to_app t w l : sent_to t (set_w_sent (w_sent w ++ l) w) = sent_to t w ++ concat (snd <$> filter (fun x => x.1 = t) l).
Proof. unfold sent_to. cbn. now rewrite list.filter_app, fmap_app, concat_app. Qed.

(** one invocation is sent *)
Definition sent_invocation (t : nat) (hdr : mem) (i : PInvocation) : list (nat * list byte) := [(t, hdr); (t, pi_body i)].

Lemma send_at p x t data w :
  w_heap w !! p = Some x -> pr_connection x = Some t ->
  send p data w = (Ret tt, set_w_sent (w_sent w ++ [(t, data)]) w).
Proof. intros Hp Ht. unfold send. rewrite (M_bind_eq _ _ _ _ _ (deref_some _ _ _ Hp)). now rewrite Ht. Qed.

Lemma send_invocation_run p n w x t i :
  w_heap w !! p = Some x -> pr_connection x = Some t -> pr_invocations x !! n = Some i -> invocation_ok i ->
  exists hdr, invocation_frame i hdr /\
    send_invocation p n w = (Ret tt, set_w_heap (<[p := set_pr_invocations (pr_active_invocations x)
        (alter set_submitted n (pr_invocations x)) x]> (w_heap w))
      (set_w_sent (w_sent w ++ sent_invocation t hdr i) w)).
Proof.
  intros Hp Ht Hi Hok. destruct (invocation_header i Hok) as (hdr & Hf & E). exists hdr. split; [done|].
  unfold send_invocation. rewrite (M_bind_eq _ _ _ _ _ (deref_some _ _ _ Hp)). rewrite Hi.
  apply bind_ret_inv in E as (r1 & E1 & E). apply bind_ret_inv in E as (r2 & E2 & E).
  apply bind_ret_inv in E as (r3 & E3 & E). injection E as <-.
  rewrite E1. erewrite M_bind_eq by reflexivity. rewrite E2. erewrite M_bind_eq by reflexivity.
  rewrite E3. erewrite M_bind_eq by reflexivity.
  rewrite (M_bind_eq _ _ _ _ _ (send_at p x t _ w Hp Ht)).
  rewrite (M_bind_eq _ _ _ _ _ (send_at p x t _ (set_w_sent _ w) Hp Ht)).
  unfold update_process, modify. cbn [w_heap set_w_sent w_sent]. rewrite (alter_process _ _ _ x Hp).
  unfold sent_invocation. rewrite <-app_assoc. reflexivity.
Qed.

(** the bytes of a list of invocations *)
Definition invocation_stream (hdrs : list mem) (l : list PInvocation) : list byte :=
  concat (zip_with (fun hdr i => hdr ++ pi_body i) hdrs l).

Lemma sent_to_invocation t w hdr i h :
  sent_to t (set_w_heap h (set_w_sent (w_sent w ++ sent_invocation t hdr i) w)) = sent_to t w ++ hdr ++ pi_body i.
Proof.
  transitivity (sent_to t (set_w_sent (w_sent w ++ sent_invocation t hdr i) w)); [reflexivity|].
  rewrite sent_to_app. f_equal. unfold sent_invocation.
  rewrite filter_cons_True, filter_cons_True by done. cbn. now rewrite app_nil_r.
Qed.

Lemma send_loop_run p t rest done w x :
  w_heap w !! p = Some x -> pr_connection x = Some t -> pr_invocations x = done ++ rest ->
  Forall invocation_ok rest -> Forall (fun i => pi_submitted i = false) rest ->
  exists hdrs w', Forall2 invocation_frame rest hdrs /\
    for_each (fun i => x ← deref p;
      match pr_invocations x !! i with
      | Some invoc => if pi_submitted invoc then mret tt else send_invocation p i
      | None => mret tt
      end) (seq (length done) (length rest)) w = (Ret tt, w') /\
    w_heap w' !! p = Some (set_pr_invocations (pr_active_invocations x) (done ++ (set_submitted <$> rest)) x) /\
    sent_to t w' = sent_to t w ++ invocation_stream hdrs rest /\ w_uuids w' = w_uuids w.
Proof.
  intros Hp Ht Hi Hok Hun. revert done w x Hp Ht Hi Hun.
  induction Hok as [|i rest Hoki Hok IH]; intros done w x Hp Ht Hi Hun.
  - exists [], w. split_and!; auto; [|now rewrite app_nil_r].
    rewrite Hp. f_equal. cbn [fmap list_fmap]. rewrite <-Hi. now destruct x.
  - apply List.Forall_cons_iff in Hun as [Hu Hun].
    assert (pr_invocations x !! length done = Some i) as Hn by (rewrite Hi; apply list_lookup_middle; done).
    destruct (send_invocation_run p (length done) w x t i Hp Ht Hn Hoki) as (hdr & Hf & E).
    set (x1 := set_pr_invocations _ _ x) in E. set (w1 := set_w_heap _ _) in E.
    assert (pr_invocations x1 = (done ++ [set_submitted i]) ++ rest) as Hi1.
    { cbn. rewrite Hi, <-app_assoc. cbn. rewrite alter_app_r_alt by lia. now rewrite Nat.sub_diag. }
    destruct (IH (done ++ [set_submitted i]) w1 x1) as (hdrs & w' & H1 & H2 & H3 & H4 & H5); auto.
    { cbn. apply lookup_insert_eq. }
    exists (hdr :: hdrs), w'. split_and!.
    + now constructor.
    + cbn [length seq for_each]. unfold mbind at 1, M_bind at 1.
      rewrite (M_bind_eq _ _ _ _ _ (deref_some _ _ _ Hp)). rewrite Hn, Hu, E.
      rewrite length_app in H2. cbn [length] in H2. rewrite Nat.add_1_r in H2. exact H2.
    + rewrite H3. f_equal. cbn. unfold x1, set_pr_invocations. cbn. now rewrite <-app_assoc.
    + rewrite H4. unfold w1. rewrite sent_to_invocation. unfold invocation_stream. cbn [zip_with concat].
      now rewrite <-!app_assoc.
    + exact H5.
Qed.

Section uuids.
Context {uu : UuidGenerator}.

(** the invocation a creation callback adds when the process is ready *)
Definition callback_invocation (n : nat) (x : Process) : list PInvocation :=
  match pr_creation_callback x, pr_handle x with
  | Some (CbInvoke body k f), Some _ =>
      [{| pi_body := body; pi_callback := k; pi_function_name := f; pi_invocation_id := uuid_text n;
          pi_submitted := false |}]
  | _, _ => []
  end.

Lemma add_invocation_run p w x t i k f body :
  i = {| pi_body := body; pi_callback := k; pi_function_name := f; pi_invocation_id := uuid_text (w_uuids w);
         pi_submitted := false |} ->
  w_heap w !! p = Some x -> pr_connection x = Some t -> pr_status x = ALLOCATED -> invocation_ok i ->
  exists hdr w', invocation_frame i hdr /\ add_invocation p body k f w = (Ret tt, w') /\
    w_heap w' !! p = Some (set_pr_invocations (pr_active_invocations x + 1) (pr_invocations x ++ [set_submitted i]) x) /\
    sent_to t w' = sent_to t w ++ hdr ++ body /\ w_contexts w' = w_contexts w.
Proof.
  intros Hi Hp Ht Hs Hok. set (x1 := set_pr_invocations (pr_active_invocations x + 1) (pr_invocations x ++ [i]) x).
  set (w1 := set_w_heap (<[p := x1]> (w_heap w)) (set_w_uuids (S (w_uuids w)) w)).
  assert (w_heap w1 !! p = Some x1) as Hp1 by apply lookup_insert_eq.
  destruct (send_invocation_run p (length (pr_invocations x1) - 1) w1 x1 t i Hp1 Ht) as (hdr & Hf & E); [|done|].
  { cbn. rewrite length_app. cbn. rewrite Nat.add_sub. apply list_lookup_middle. done. }
  eexists hdr, _. split; [done|]. split; [|split_and!].
  - unfold add_invocation. erewrite M_bind_eq by reflexivity. erewrite M_bind_eq by reflexivity. rewrite <-Hi.
    assert (update_process p (fun x => set_pr_invocations (pr_active_invocations x + 1) (pr_invocations x ++ [i]) x)
      (set_w_uuids (S (w_uuids w)) w) = (Ret tt, w1)) as Eu
      by (unfold update_process, modify; cbn [w_heap set_w_uuids]; now rewrite (alter_process _ _ _ x Hp)).
    rewrite (M_bind_eq _ _ _ _ _ Eu). rewrite (M_bind_eq _ _ _ _ _ (deref_some _ _ _ Hp1)).
    rewrite decide_True by done. exact E.
  - cbn. rewrite lookup_insert_eq. f_equal. unfold x1, set_pr_invocations. cbn. f_equal.
    rewrite length_app. cbn. rewrite Nat.add_sub. rewrite alter_app_r_alt by lia. now rewrite Nat.sub_diag.
  - rewrite sent_to_invocation. now subst i.
  - reflexivity.
Qed.

(** the creation callback of a process that is ready *)
Lemma created_callback_run p t w x :
  w_heap w !! p = Some x -> pr_connection x = Some t -> pr_status x = ALLOCATED ->
  Forall invocation_ok (callback_invocation (w_uuids w) x) ->
  exists hdrs w' x', created_callback p None w = (Ret tt, w') /\
    Forall2 invocation_frame (callback_invocation (w_uuids w) x) hdrs /\
    sent_to t w' = sent_to t w ++ invocation_stream hdrs (callback_invocation (w_uuids w) x) /\
    w_heap w' !! p = Some x' /\ pr_status x' = ALLOCATED /\
    pr_invocations x' = pr_invocations x ++ (set_submitted <$> callback_invocation (w_uuids w) x).
Proof.
  intros Hp Ht Hs Hc. unfold created_callback. rewrite (M_bind_eq _ _ _ _ _ (deref_some _ _ _ Hp)).
  unfold callback_invocation in *.
  destruct (pr_creation_callback x) as [cb|] eqn:Ecb; [|exists [], w, x; rewrite !app_nil_r; now split_and!].
  destruct (pr_handle x) as [h|] eqn:Eh; [|destruct cb; exists [], w, x; rewrite !app_nil_r; now split_and!].
  rewrite bool_decide_true, andb_false_r by done.
  destruct cb as [k|body k f]; cbn [run_callback].
  - exists [], (set_w_heap (<[p := set_pr_callback None (pr_wait_for_allocation x) x]> (w_heap w))
      (respond k (RespProcess (pr_name x) (in_ip_address h) (in_port h)) w).2),
      (set_pr_callback None (pr_wait_for_allocation x) x).
    rewrite !app_nil_r. split_and!; auto; [|apply lookup_insert_eq].
    unfold mbind at 1, M_bind at 1. rewrite (M_bind_eq _ _ _ _ _ (deref_some _ _ _ Hp)).
    rewrite Eh. unfold respond, modify, clear_callback, update_process, modify.
    cbn [w_heap set_w_responses fst snd]. now rewrite (alter_process _ _ _ x Hp).
  - apply List.Forall_cons_iff in Hc as [Hc _].
    destruct (add_invocation_run p w x t _ k f body eq_refl Hp Ht Hs Hc) as (hdr & w3 & Hf3 & E3 & Hp3 & Hs3 & _).
    set (x3 := set_pr_invocations _ _ x) in Hp3.
    exists [hdr], (set_w_heap (<[p := set_pr_callback None (pr_wait_for_allocation x3) x3]> (w_heap w3)) w3),
      (set_pr_callback None (pr_wait_for_allocation x3) x3).
    split_and!; auto.
    + rewrite (M_bind_eq _ _ _ _ _ E3). unfold clear_callback, update_process, modify.
      now rewrite (alter_process _ _ _ x3 Hp3).
    + transitivity (sent_to t w3); [reflexivity|]. rewrite Hs3. unfold invocation_stream. cbn. now rewrite app_nil_r.
    + apply lookup_insert_eq.
Qed.

Lemma process_connect_run p t w x :
  w_heap w !! p = Some x -> process_ok x -> pr_status x = ALLOCATING ->
  Forall invocation_ok (pr_invocations x ++ callback_invocation (w_uuids w) x) ->
  exists w' hdrs x', process_connect p t w = (Ret tt, w') /\
    let all := pr_invocations x ++ callback_invocation (w_uuids w) x in
    Forall2 invocation_frame all hdrs /\
    sent_to t w' = sent_to t w ++ invocation_stream hdrs all /\
    decode_stream CONTROL_PLANE None (invocation_stream hdrs all) = (zip_with invocation_call hdrs all, [], Ret tt) /\
    w_heap w' !! p = Some x' /\ pr_status x' = ALLOCATED /\ pr_invocations x' = set_submitted <$> all.
Proof.
  intros Hp Hok Hs Hall. destruct (ok_allocating _ Hok Hs) as [_ Hun].
  pose proof Hall as Hall'. apply Forall_app in Hall as [Hq Hc].
  set (x1 := set_status ALLOCATED (set_pr_connection (Some t) x)).
  set (w1 := set_w_heap (<[p := x1]> (w_heap w)) w).
  assert (w_heap w1 !! p = Some x1) as Hp1 by apply lookup_insert_eq.
  destruct (send_loop_run p t (pr_invocations x) [] w1 x1) as (hdrs & w2 & Hf & E2 & Hp2 & Hsent & Hu); auto.
  change (w_uuids w1) with (w_uuids w) in Hu.
  set (x2 := set_pr_invocations _ _ x1) in Hp2.
  destruct (created_callback_run p t w2 x2 Hp2 eq_refl eq_refl) as (hdrs' & w3 & x3 & E3 & Hf3 & Hsent3 & Hp3 & Hs3 & Hi3);
    [now rewrite Hu|]. rewrite Hu in Hf3, Hsent3, Hi3.
  exists w3, (hdrs ++ hdrs'), x3. split.
  - unfold process_connect. rewrite (M_bind_eq _ _ _ _ _ (deref_some _ _ _ Hp)). rewrite decide_True by done.
    rewrite (M_bind_eq _ _ _ _ _ (update_process_at _ _ x _ Hp)).
    assert (send_invocations p w1 = (Ret tt, w2)) as Es
      by (unfold send_invocations; rewrite (M_bind_eq _ _ _ _ _ (deref_some _ _ _ Hp1)); exact E2).
    rewrite (M_bind_eq _ _ _ _ _ Es). exact E3.
  - assert (Forall2 invocation_frame (pr_invocations x ++ callback_invocation (w_uuids w) x) (hdrs ++ hdrs')) as Hff
      by now apply Forall2_app.
    split_and!; auto.
    + rewrite Hsent3, Hsent. unfold invocation_stream. rewrite zip_with_app by (symmetry; eapply Forall2_length; eauto).
      rewrite concat_app, app_assoc. reflexivity.
    + now apply decode_invocations.
    + rewrite Hi3. cbn. now rewrite fmap_app.
Qed.

(** No invocation is lost while a process starts: the invocations queued for
    it, and the one that waits for its creation, are sent in order as soon as
    it registers, and the bytes on its connection are cut by the controller of
    the process into exactly these requests, each with its function, its id
    and its payload; all are marked as submitted. *)
Theorem queued_invocations_reach_process p t w x :
  w_heap w !! p = Some x -> process_ok x -> pr_status x = ALLOCATING ->
  Forall invocation_ok (pr_invocations x ++ callback_invocation (w_uuids w) x) ->
  exists w' hdrs x', process_connect p t w = (Ret tt, w') /\
    let all := pr_invocations x ++ callback_invocation (w_uuids w) x in
    Forall2 invocation_frame all hdrs /\
    sent_to t w' = sent_to t w ++ invocation_stream hdrs all /\
    decode_stream CONTROL_PLANE None (invocation_stream hdrs all) = (zip_with invocation_call hdrs all, [], Ret tt) /\
    w_heap w' !! p = Some x' /\ pr_status x' = ALLOCATED /\ pr_invocations x' = set_submitted <$> all.
Proof. apply process_connect_run. Qed.

Context {st : StdStod} {cf : CpConfig}.

(** ** Results *)

Lemma finish_invocation_run p id code buf w x :
  w_heap w !! p = Some x ->
  finish_invocation p id code buf w = (Ret tt,
    match list_find (fun obj => String.substring 0 16 (pi_invocation_id obj) = id) (pr_invocations x) with
    | Some (i, invoc) =>
        set_w_heap (<[p := set_pr_invocations (pr_active_invocations x - 1) (delete i (pr_invocations x)) x]> (w_heap w))
          (set_w_responses (w_responses w ++ [(pi_callback invoc, RespResult (pi_function_name invoc) id code buf)]) w)
    | None => w
    end).
Proof.
  intros Hp. unfold finish_invocation. rewrite (M_bind_eq _ _ _ _ _ (deref_some _ _ _ Hp)).
  destruct (list_find _ _) as [[i invoc]|]; [|reflexivity].
  erewrite M_bind_eq by reflexivity. unfold update_process, modify. cbn [w_heap set_w_responses].
  now rewrite (alter_process _ _ _ x Hp).
Qed.

(** the last message of a buffer *)
Lemma cp_handle_last fuel t now w b d v w' :
  w_contexts w !! t = Some d -> cd_bytes_to_read d = 0%Z -> BUF_SIZE <= length b -> parse (take BUF_SIZE b) = Ret v ->
  visit_message t d now v (w, b) = (Ret true, (w', [])) ->
  cp_handle_message (S fuel) t now (w, b) = (Ret tt, (w', [])).
Proof.
  intros Ht Hz Hb Hp Hv. cbn [cp_handle_message]. erewrite M_bind_eq by reflexivity. cbn [fst]. rewrite Ht.
  erewrite M_bind_eq by reflexivity. rewrite Hz. change (0 <? 0)%Z with false. cbn iota. cbn [snd].
  rewrite (proj2 (Nat.ltb_ge _ _)) by done. rewrite Hp. unfold mbind, M_bind, lift. now rewrite Hv.
Qed.

Lemma receive_result_run t d x hdr m body now w :
  w_contexts w !! t = Some d -> cd_bytes_to_read d = 0%Z -> w_heap w !! cd_process d = Some x ->
  length hdr = BUF_SIZE -> parse hdr = Ret (VInvocationResult m) ->
  total_length m = Z.of_nat (length body) -> (Z.of_nat (length body) < 2 ^ 31)%Z ->
  exists w', cp_receive t now (w, hdr ++ body) = (Ret tt, (w', [])) /\ w_apps w' = w_apps w /\
    match list_find (fun obj => String.substring 0 16 (pi_invocation_id obj) = sv_str (result_invocation_id m))
            (pr_invocations x) with
    | Some (i, invoc) =>
        w_responses w' = w_responses w ++ [(pi_callback invoc,
          RespResult (pi_function_name invoc) (sv_str (result_invocation_id m)) (return_code m) body)] /\
        w_heap w' = <[cd_process d := set_pr_invocations (pr_active_invocations x - 1)
                        (delete i (pr_invocations x)) x]> (w_heap w)
    | None => w_responses w' = w_responses w /\ w_heap w' = w_heap w
    end.
Proof.
  intros Ht Hz Hp Hlen Hm Htl Hb.
  set (w1 := (cp_set_context t {| cd_process := cd_process d; cd_cur_msg := bytes m;
                                  cd_bytes_to_read := wrap_u64 (total_length m) |} w).2).
  pose proof (finish_invocation_run (cd_process d) (sv_str (result_invocation_id m)) (return_code m) body w1 x Hp) as Ef.
  set (w2 := match list_find _ _ with Some _ => _ | None => _ end) in Ef.
  exists (cp_set_context t {| cd_process := cd_process d; cd_cur_msg := bytes m; cd_bytes_to_read := 0 |} w2).2.
  split.
  - unfold cp_receive. erewrite M_bind_eq by reflexivity. cbn [snd].
    apply (cp_handle_last _ t now w (hdr ++ body) d (VInvocationResult m)); auto.
    { rewrite length_app. lia. }
    { now rewrite take_app_length' by done. }
    cbn [visit_message]. unfold handle_invocation_result. rewrite Hz. change (0 =? 0)%Z with true. cbn iota.
    assert ((on_world (cp_set_context t {| cd_process := cd_process d; cd_cur_msg := bytes m;
        cd_bytes_to_read := wrap_u64 (total_length m) |}) ≫= fun _ => retrieve BUF_SIZE) (w, hdr ++ body) =
        (Ret tt, (w1, body))) as E1.
    { transitivity (Ret tt, (w1, drop BUF_SIZE (hdr ++ body))); [reflexivity|].
      now rewrite drop_app_length' by done. }
    rewrite (M_bind_eq _ _ _ _ _ E1). erewrite M_bind_eq by reflexivity. cbn [snd].
    rewrite Htl, wrap_u64_id by (unfold u64_range; lia). rewrite Z.leb_refl, Nat2Z.id.
    assert (on_world (finish_invocation (cd_process d) (sv_str (result_invocation_id m)) (return_code m)
      (take (length body) body)) (w1, body) = (Ret tt, (w2, body))) as E2
      by (rewrite firstn_all; unfold on_world, zoom; cbn [fst]; now rewrite Ef).
    rewrite (M_bind_eq _ _ _ _ _ E2).
    assert (retrieve (length body) (w2, body) = (Ret tt, (w2, []))) as E3
      by (unfold retrieve, modify; now rewrite drop_all).
    rewrite (M_bind_eq _ _ _ _ _ E3). reflexivity.
  - unfold w2. destruct (list_find _ _) as [[i invoc]|]; now split_and!.
Qed.

(** When the bytes of a result arrive from a process, the HTTP client whose
    invocation has that id - and no other - is answered with the function, the
    id, the return code and the payload, and the invocation is removed and no
    longer counted; a result with an unknown id changes no process and answers
    nobody. *)
Theorem result_answers_client t d x hdr m body now w :
  w_contexts w !! t = Some d -> cd_bytes_to_read d = 0%Z -> w_heap w !! cd_process d = Some x ->
  length hdr = BUF_SIZE -> parse hdr = Ret (VInvocationResult m) ->
  total_length m = Z.of_nat (length body) -> (Z.of_nat (length body) < 2 ^ 31)%Z ->
  exists w', cp_receive t now (w, hdr ++ body) = (Ret tt, (w', [])) /\ w_apps w' = w_apps w /\
    match list_find (fun obj => String.substring 0 16 (pi_invocation_id obj) = sv_str (result_invocation_id m))
            (pr_invocations x) with
    | Some (i, invoc) =>
        w_responses w' = w_responses w ++ [(pi_callback invoc,
          RespResult (pi_function_name invoc) (sv_str (result_invocation_id m)) (return_code m) body)] /\
        w_heap w' = <[cd_process d := set_pr_invocations (pr_active_invocations x - 1)
                        (delete i (pr_invocations x)) x]> (w_heap w)
    | None => w_responses w' = w_responses w /\ w_heap w' = w_heap w
    end.
Proof. apply receive_result_run. Qed.

(** ** Swapped processes *)

(** A swapped process is lost when it ends its connection itself: its
    closure message and the disconnection that follows are both handled as the
    end of the connection, so the swapped process is first closed, then taken
    for one that failed and removed from the table, and the number of
    registered processes drops by two. *)
Theorem closing_forgets_swapped_process t d x app hdr c now w :
  w_contexts w !! t = Some d -> cd_bytes_to_read d = 0%Z -> w_heap w !! cd_process d = Some x ->
  pr_status x = SWAPPED_OUT -> w_apps w !! pr_application x = Some app ->
  ca_active_processes app !! pr_name x = None -> is_Some (ca_swapped_processes app !! pr_name x) ->
  length hdr = BUF_SIZE -> parse hdr = Ret (VProcessClosure c) ->
  exists w1 w2 app2 x2, cp_receive t now (w, hdr) = (Ret tt, (w1, [])) /\ w_apps w1 = w_apps w /\
    handle_disconnection t w1 = (Ret tt, w2) /\
    w_apps w2 !! pr_application x = Some app2 /\ ca_swapped_processes app2 !! pr_name x = None /\
    w_heap w2 !! cd_process d = Some x2 /\ pr_status x2 = FAILURE /\
    w_num_registered w2 = (w_num_registered w - 2)%Z.
Proof.
  intros Ht Hz Hp Hs Ha Hact [q Hsw] Hlen Hc.
  set (x1 := set_pr_connection None (set_status CLOSED x)).
  set (w0 := set_w_counters (w_num_connected w - 1) (w_num_registered w - 1) w).
  set (w1 := set_w_heap (<[cd_process d := x1]> (w_heap w)) w0).
  assert (handle_disconnection t w = (Ret tt, w1)) as E1.
  { unfold handle_disconnection. erewrite M_bind_eq by reflexivity. erewrite M_bind_eq by reflexivity.
    cbn [w_contexts set_w_counters]. rewrite Ht. erewrite M_bind_eq by reflexivity.
    unfold closed_process. rewrite (M_bind_eq _ _ _ x w0) by (apply deref_some; exact Hp).
    rewrite decide_True by done. unfold close_connection. now rewrite (update_process_at _ _ x). }
  assert (w_heap w1 !! cd_process d = Some x1) as Hp1 by apply lookup_insert_eq.
  set (w0' := set_w_counters (w_num_connected w1 - 1) (w_num_registered w1 - 1) w1).
  set (x2 := set_status FAILURE x1).
  set (app2 := set_ca_swapped (delete (pr_name x) (ca_swapped_processes app)) app).
  exists w1, (set_w_apps (<[pr_application x := app2]> (w_apps w)) (set_w_heap (<[cd_process d := x2]> (w_heap w1)) w0')), app2, x2.
  split_and!; auto.
  - unfold cp_receive. erewrite M_bind_eq by reflexivity. cbn [snd].
    apply (cp_handle_last _ t now w hdr d (VProcessClosure c)); auto; [lia|now rewrite take_ge by lia|].
    cbn [visit_message]. unfold handle_closure, on_world, zoom, retrieve, modify, mbind, M_bind. cbn [fst snd].
    rewrite E1. now rewrite drop_ge by lia.
  - unfold handle_disconnection. erewrite M_bind_eq by reflexivity. erewrite M_bind_eq by reflexivity.
    cbn [w_contexts set_w_counters w1 w0 set_w_heap]. rewrite Ht. erewrite M_bind_eq by reflexivity.
    unfold closed_process. rewrite (M_bind_eq _ _ _ x1 w0') by (apply deref_some; exact Hp1).
    rewrite decide_False by discriminate.
    rewrite (M_bind_eq _ _ _ _ _ (update_process_at w0' _ x1 _ Hp1)).
    rewrite (M_bind_eq _ _ _ app _) by (apply get_app_some; exact Ha).
    cbn [pr_name pr_application x1 set_pr_connection set_status]. rewrite Hact, Hsw.
    unfold update_app, modify. cbn [w_apps set_w_heap w0' w1 w0 set_w_counters].
    now rewrite (alter_app _ _ _ app Ha).
  - cbn. apply lookup_insert_eq.
  - cbn. apply lookup_delete_eq.
  - cbn. apply lookup_insert_eq.
  - cbn. lia.
Qed.

(** ** Names *)

Lemma new_process_eq x w :
  let p := base.fresh (dom (w_heap w) : gset nat) in
  new_process x w = (Ret p, set_w_heap (<[p := x]> (w_heap w)) w) /\ w_heap w !! p = None.
Proof. split; [reflexivity|]. apply not_elem_of_dom, is_fresh. Qed.

(** an invocation when no process of the control plane has capacity *)
Lemma invoke_allocates body k a f app w :
  w_apps w !! a = Some app -> ca_controlplane_processes app = [] ->
  exists p x w', workers_handle_invocation body k a f w = (Ret tt, w') /\
    pr_name x = controlplane_name 0 /\ w_heap w !! p = None /\ w_heap w' = <[p := x]> (w_heap w) /\
    w_apps w' = w_apps w /\ w_loop w' = w_loop w ++ [p] /\
    w_pending_processes w' = w_pending_processes w /\ w_contexts w' = w_contexts w.
Proof.
  intros Ha Hc. set (r := {| vcpus := "1"; memory := "2048"; sandbox_id := EmptyString |}).
  set (x := set_pr_callback (Some (CbInvoke body k f)) true (Process_ctor (controlplane_name 0) a r)).
  destruct (new_process_eq x w) as [En Hnone]. set (p := base.fresh _) in *.
  exists p, x. eexists. split; [|split; [|split; [exact Hnone|]]]; [|reflexivity|].
  - unfold workers_handle_invocation. erewrite M_bind_eq by reflexivity. rewrite Ha.
    unfold get_controlplane_process. rewrite (M_bind_eq _ _ _ _ _ (get_app_some _ _ _ Ha)). rewrite Hc.
    erewrite M_bind_eq by reflexivity. cbn [first_spare]. erewrite M_bind_eq by reflexivity.
    cbn [length]. fold r. fold x.
    rewrite (M_bind_eq _ _ _ _ _ En). erewrite M_bind_eq by reflexivity.
    unfold allocate_process. erewrite M_bind_eq by (apply (deref_some _ _ x); cbn; apply lookup_insert_eq).
    erewrite M_bind_eq by (apply (get_app_some _ _ app); exact Ha). reflexivity.
  - split_and!; reflexivity.
Qed.

Lemma loop_task_run p rest x w :
  w_loop w = p :: rest -> w_heap w !! p = Some x ->
  loop_task w = match w_pending_processes w !! pr_name x with
    | Some _ => (Throw (ObjectExists ("Cannot add process " +:+ pr_name x +:+ " again to the server!")), set_w_loop rest w)
    | None => (Ret tt, set_w_pending_processes (<[pr_name x := p]> (w_pending_processes w)) (set_w_loop rest w))
    end.
Proof.
  intros Hl Hp. unfold loop_task. erewrite M_bind_eq by reflexivity. rewrite Hl.
  erewrite M_bind_eq by reflexivity. rewrite (M_bind_eq _ _ _ x (set_w_loop rest w)) by (now apply deref_some).
  erewrite M_bind_eq by reflexivity. cbn [w_pending_processes set_w_loop].
  now destruct (w_pending_processes w !! pr_name x).
Qed.

(** The processes the control plane starts for invocations are named after
    the number of those that are ready: two applications - or two invocations of
    one - that start their first at the same time choose the same name; both
    are asked of the back end, but the event loop throws when it is to
    remember the second, so only one of them can ever register, and the client
    of the other waits in vain. *)
Theorem controlplane_names_collide body1 k1 a1 f1 app1 body2 k2 a2 f2 app2 w :
  w_apps w !! a1 = Some app1 -> ca_controlplane_processes app1 = [] ->
  w_apps w !! a2 = Some app2 -> ca_controlplane_processes app2 = [] ->
  w_loop w = [] -> w_pending_processes w !! controlplane_name 0 = None ->
  exists w1 w2 w3 w4 p1 p2 x2 msg, workers_handle_invocation body1 k1 a1 f1 w = (Ret tt, w1) /\
    workers_handle_invocation body2 k2 a2 f2 w1 = (Ret tt, w2) /\
    w_heap w2 !! p2 = Some x2 /\ pr_name x2 = controlplane_name 0 /\ p1 <> p2 /\
    loop_task w2 = (Ret tt, w3) /\ loop_task w3 = (Throw (ObjectExists msg), w4) /\
    w_loop w4 = [] /\ w_pending_processes w4 !! controlplane_name 0 = Some p1.
Proof.
  intros Ha1 Hc1 Ha2 Hc2 Hl Hn.
  destruct (invoke_allocates body1 k1 a1 f1 app1 w Ha1 Hc1) as (p1 & x1 & w1 & E1 & Hx1 & Hp1 & Hh1 & Happ1 & Hl1 & Hpe1 & _).
  assert (w_apps w1 !! a2 = Some app2) as Ha2' by congruence.
  destruct (invoke_allocates body2 k2 a2 f2 app2 w1 Ha2' Hc2) as (p2 & x2 & w2 & E2 & Hx2 & Hp2 & Hh2 & Happ2 & Hl2 & Hpe2 & _).
  assert (p1 <> p2) as Hne by (intros ->; rewrite Hh1, lookup_insert_eq in Hp2; discriminate).
  assert (w_heap w2 !! p1 = Some x1) as Hx1' by (rewrite Hh2, lookup_insert_ne, Hh1, lookup_insert_eq by done; done).
  assert (w_heap w2 !! p2 = Some x2) as Hx2' by (rewrite Hh2; apply lookup_insert_eq).
  assert (w_loop w2 = [p1; p2]) as Hl3 by (rewrite Hl2, Hl1, Hl; done).
  pose proof (loop_task_run p1 [p2] x1 w2 Hl3 Hx1') as E3. rewrite Hpe2, Hpe1, Hx1, Hn in E3.
  set (w3 := set_w_pending_processes _ _) in E3.
  pose proof (loop_task_run p2 [] x2 w3 eq_refl Hx2') as E4. cbn [w3 w_pending_processes set_w_pending_processes] in E4.
  rewrite Hx2, lookup_insert_eq in E4.
  eexists w1, w2, w3, _, p1, p2, x2, _. split_and!; [done|done|done|done|done|exact E3|exact E4|reflexivity|].
  cbn. apply lookup_insert_eq.
Qed.

(** A failed allocation reports its error to the client and removes the
    process from the active ones, but the TCP server still remembers it: a new
    process of that name can be asked for again, and the event loop then
    throws, so the new process can never register. *)
Theorem failed_allocation_blocks_name i r reply error k x app w :
  w_posts w !! i = Some r -> al_controlplane r = false -> w_heap w !! al_process r = Some x ->
  w_apps w !! pr_application x = Some app -> ca_active_processes app !! pr_name x = Some (al_process r) ->
  pr_creation_callback x = Some (CbCreate k) -> docker_result (pr_name x) reply = inr error ->
  w_pending_processes w !! pr_name x = Some (al_process r) -> w_loop w = [] ->
  exists w1 app1, post_completed i reply w = (Ret tt, w1) /\
    w_responses w1 = w_responses w ++ [(k, RespFailed error 500)] /\
    w_apps w1 !! pr_application x = Some app1 /\ ca_active_processes app1 !! pr_name x = None /\
    forall resources cb wait w2, add_process (pr_application x) (pr_name x) resources cb wait w1 = (Ret tt, w2) ->
      exists e w3, loop_task w2 = (Throw (ObjectExists e), w3).
Proof.
  intros Hi Hc Hp Ha Hact Hcb Hr Hpend Hl. set (p := al_process r) in *.
  set (app1 := set_ca_active (delete (pr_name x) (ca_active_processes app)) app).
  set (w0 := set_w_apps (<[pr_application x := app1]> (w_apps w)) (set_w_posts (delete i (w_posts w)) w)).
  set (w1 := set_w_heap (<[p := set_pr_callback None (pr_wait_for_allocation x) x]> (w_heap w))
               (respond k (RespFailed error 500) w0).2).
  exists w1, app1. split_and!; [|reflexivity|apply lookup_insert_eq|apply lookup_delete_eq|].
  - unfold post_completed. erewrite M_bind_eq by reflexivity. rewrite Hi. erewrite M_bind_eq by reflexivity.
    unfold post_callback. fold p. rewrite (M_bind_eq _ _ _ x _) by (apply deref_some; exact Hp).
    rewrite Hr, Hc. unfold erase_active.
    assert ((app ← get_app (pr_application x);
       match ca_active_processes app !! pr_name x with
       | Some p' => if decide (p' = p) then update_app (pr_application x) (set_ca_active (delete (pr_name x) (ca_active_processes app))) else undef
       | None => undef
       end) (set_w_posts (delete i (w_posts w)) w) = (Ret tt, w0)) as Ee.
    { rewrite (M_bind_eq _ _ _ app _) by (apply get_app_some; exact Ha). rewrite Hact, decide_True by done.
      unfold update_app, modify. cbn [w_apps set_w_posts]. now rewrite (alter_app _ _ _ app Ha). }
    rewrite (M_bind_eq _ _ _ _ _ Ee). unfold created_callback.
    rewrite (M_bind_eq _ _ _ x _) by (apply deref_some; exact Hp). rewrite Hcb. cbn [run_callback].
    erewrite M_bind_eq by reflexivity. unfold clear_callback. rewrite (update_process_at _ _ x) by exact Hp. reflexivity.
  - intros resources cb wait w2 E. unfold add_process in E.
    destruct (_ =? 0); [discriminate E|].
    apply M_bind_ret in E as (d1 & v1 & E1 & E). unfold lift_stod in E1. destruct (stod _); [|discriminate E1].
    injection E1 as -> <-. destruct (_ || _)%bool; [discriminate E|].
    apply M_bind_ret in E as (d2 & v1 & E1 & E). unfold lift_stod in E1. destruct (stod _); [|discriminate E1].
    injection E1 as -> <-. destruct (_ || _)%bool; [discriminate E|].
    destruct (new_process_eq (Process_ctor (pr_name x) (pr_application x) resources) w1) as [En Hnone].
    set (q := base.fresh _) in *. rewrite (M_bind_eq _ _ _ _ _ En) in E.
    rewrite (M_bind_eq _ _ _ app1 _) in E by (apply get_app_some, lookup_insert_eq).
    replace (ca_active_processes app1 !! pr_name x) with (@None nat) in E by (symmetry; apply lookup_delete_eq).
    erewrite M_bind_eq in E by reflexivity. erewrite M_bind_eq in E by reflexivity.
    erewrite M_bind_eq in E by reflexivity.
    set (v := set_w_heap (alter (set_pr_callback (Some cb) wait) q _) _) in E.
    assert (exists y, w_heap v !! q = Some y /\ pr_name y = pr_name x) as (y & Hy & Hname).
    { unfold v. cbn. rewrite lookup_alter_eq, lookup_insert_eq. cbn. eauto. }
    assert (exists z, w2 = set_w_posts z v) as [z ->].
    { unfold allocate_process in E. rewrite (M_bind_eq _ _ _ _ _ (deref_some _ _ _ Hy)) in E.
      apply M_bind_ret in E as (b & v2 & E1 & E). unfold get_app in E1. destruct (w_apps v !! pr_application y); [|discriminate E1].
      injection E1 as -> <-. injection E as <-. eauto. }
    eexists _, _. rewrite (loop_task_run q [] y); [|cbn; now rewrite Hl|exact Hy].
    rewrite Hname. cbn [w_pending_processes set_w_posts v set_w_heap set_w_loop w1 respond].
    replace (w_pending_processes _ !! pr_name x) with (Some p) by (symmetry; exact Hpend). reflexivity.
Qed.
End uuids.

(** ** Witnesses *)
#[local] Instance demo_uuid : UuidGenerator := {| uuid_text _ := "01234567-89ab-cdef-0123-456789abcdef" |}.
#[local] Instance demo_stod : StdStod := {| stod _ := Some (DFinite (QArith_base.Qmake 1 1)) |}.
#[local] Instance demo_config : CpConfig := {| cfg_swap_root := "/swaps"; cfg_tcp_address := "10.0.0.1:6000" |}.

Fixpoint run_events (es : list cp_event) (w : World) : World :=
  match es with [] => w | e :: es' => run_events es' (handle e w).2 end.
Fixpoint all_defined (es : list cp_event) (w : World) : bool :=
  match es with
  | [] => true
  | e :: es' => match (handle e w).1 with Undef => false | _ => all_defined es' (handle e w).2 end
  end.

Lemma run_events_steps es w : all_defined es w = true -> star cp_step w (run_events es w).
Proof.
  revert w. induction es as [|e es IH]; intros w Hd; [constructor|]. cbn in *.
  destruct (handle e w) as [r w'] eqn:E. cbn in *. destruct r; [| |discriminate].
  - econstructor; [exists e, (Ret a); split; [exact E|discriminate]|now apply IH].
  - econstructor; [exists e, (Throw e0); split; [exact E|discriminate]|now apply IH].
Qed.

Definition demo_registration : mem := from_ret [] (encode (WProcessConnection "proc")).
Definition demo_create : list cp_event := [EvCreateApp 1 "app" "image"; EvCreateProcess 2 "app" "proc" "1" "512"].
Definition demo_start : list cp_event :=
  [EvLoopTask; EvPostCompleted 0 (ReplyCreated "c0" "10.0.0.5" 8000); EvConnected; EvReceived 7 demo_registration 0].

Definition demo_status (p : nat) (w : World) : option PStatus := pr_status <$> w_heap w !! p.

(** a process is created, registers, is asked to swap, and is listed *)
Lemma control_plane_invariant_witness :
  let w := run_events (demo_create ++ demo_start ++ [EvSwapProcess 3 "app" "proc"]) World_init in
  demo_status 0 w = Some SWAPPING_OUT /\
  cp_inv w /\ ((handle (EvDisconnected 7) w).1 = Undef -> allocation_failed (EvDisconnected 7)).
Proof.
  split; [vm_compute; reflexivity|].
  apply (control_plane_invariant (run_events (demo_create ++ demo_start ++ [EvSwapProcess 3 "app" "proc"]) World_init)
           (EvDisconnected 7)).
  apply run_events_steps. vm_compute. reflexivity.
Defined.

Lemma process_life_cycle_witness :
  let w := run_events demo_create World_init in
  let w' := run_events demo_start w in
  demo_status 0 w = Some ALLOCATING /\ demo_status 0 w' = Some ALLOCATED /\
  exists x x', w_heap w !! 0 = Some x /\ w_heap w' !! 0 = Some x' /\ pr_name x' = pr_name x /\
    pr_application x' = pr_application x /\ star status_edge (pr_status x) (pr_status x').
Proof.
  cbv zeta. split; [vm_compute; reflexivity|]. split; [vm_compute; reflexivity|].
  destruct (w_heap (run_events demo_create World_init) !! 0) as [x|] eqn:E; [|vm_compute in E; discriminate E].
  exists x. assert (star cp_step World_init (run_events demo_create World_init)) as H1
    by (apply run_events_steps; vm_compute; reflexivity).
  assert (star cp_step (run_events demo_create World_init) (run_events demo_start (run_events demo_create World_init))) as H2
    by (apply run_events_steps; vm_compute; reflexivity).
  destruct (process_life_cycle _ _ 0 x H1 H2 E) as (x' & Hx). exists x'. split; [reflexivity|exact Hx].
Defined.

Definition demo_invocation : PInvocation :=
  {| pi_body := [x61]; pi_callback := 5; pi_function_name := "f"; pi_invocation_id := "00000000-0000-0000-0000-000000000001";
     pi_submitted := false |}.
(** a process that starts: an invocation is queued, and another waits for its creation *)
Definition demo_starting : Process :=
  set_pr_invocations 1 [demo_invocation] (set_pr_handle (Some {| in_ip_address := "10.0.0.5"; in_port := 8000; in_container_id := "c0" |})
    (set_pr_callback (Some (CbInvoke [x62; x63] 6 "g")) true
       (Process_ctor "proc" "app" {| vcpus := "1"; memory := "512"; sandbox_id := EmptyString |}))).

Lemma demo_starting_ok : process_ok demo_starting.
Proof.
  split; cbn; [reflexivity| | |].
  - intros [H|[H|H]]; discriminate H.
  - intros _. split; [reflexivity|]. repeat constructor.
  - intros [H|H]; discriminate H.
Qed.

Lemma demo_invocations_ok :
  Forall invocation_ok (pr_invocations demo_starting ++ callback_invocation 0 demo_starting).
Proof.
  repeat (apply List.Forall_cons || apply List.Forall_nil);
    (split_and!; [split; [apply (bool_decide_eq_true_1 _); vm_compute; reflexivity|apply Nat.leb_le; reflexivity]..|cbn; lia]).
Qed.

Lemma queued_invocations_reach_process_witness :
  exists w' hdrs x', process_connect 0 7 (set_w_heap {[0 := demo_starting]} World_init) = (Ret tt, w') /\
    let all := pr_invocations demo_starting ++ callback_invocation 0 demo_starting in
    Forall2 invocation_frame all hdrs /\
    sent_to 7 w' = invocation_stream hdrs all /\
    decode_stream CONTROL_PLANE None (invocation_stream hdrs all) = (zip_with invocation_call hdrs all, [], Ret tt) /\
    w_heap w' !! 0 = Some x' /\ pr_status x' = ALLOCATED /\ pr_invocations x' = set_submitted <$> all.
Proof.
  exact (queued_invocations_reach_process 0 7 (set_w_heap {[0 := demo_starting]} World_init) demo_starting
           eq_refl demo_starting_ok eq_refl demo_invocations_ok).
Defined.

Definition demo_context : ConnectionData := {| cd_process := 0; cd_cur_msg := MessageData; cd_bytes_to_read := 0 |}.
Definition demo_world (x : Process) (app : CpApplication) : World :=
  set_w_contexts {[7 := demo_context]} (set_w_apps {["app" := app]} (set_w_heap {[0 := x]} World_init)).
Definition demo_app : CpApplication :=
  {| ca_name := "app"; ca_code_resource_name := "image"; ca_active_processes := ∅; ca_swapped_processes := ∅;
     ca_controlplane_processes := [] |}.
Definition demo_result_header : mem := from_ret [] (encode (WInvocationResult "00000000-0000-00" 0 2)).
Definition demo_result : InvocationResult :=
  match parse demo_result_header with Ret (VInvocationResult m) => m | _ => InvocationResultData end.

Lemma result_answers_client_witness :
  exists w', cp_receive 7 0 (demo_world demo_starting demo_app, demo_result_header ++ [x64; x65]) = (Ret tt, (w', [])) /\
    w_responses w' = [(5, RespResult "f" "00000000-0000-00" 0 [x64; x65])].
Proof.
  assert (parse demo_result_header = Ret (VInvocationResult demo_result)) as Hp by (vm_compute; reflexivity).
  assert (length demo_result_header = BUF_SIZE) as Hl by (vm_compute; reflexivity).
  assert (total_length demo_result = Z.of_nat (length [x64; x65])) as Ht by (vm_compute; reflexivity).
  destruct (result_answers_client 7 demo_context demo_starting demo_result_header demo_result [x64; x65] 0
    (demo_world demo_starting demo_app) eq_refl eq_refl eq_refl Hl Hp Ht ltac:(cbn; lia)) as (w' & E & _ & Hr).
  exists w'. split; [exact E|]. revert Hr.
  replace (list_find (fun obj => String.substring 0 16 (pi_invocation_id obj) = sv_str (result_invocation_id demo_result))
    (pr_invocations demo_starting)) with (Some (0, demo_invocation)) by (vm_compute; reflexivity).
  intros [-> _]. vm_compute. reflexivity.
Defined.

Definition demo_closure : mem := pcl_msg ProcessClosureData.
Definition demo_swapped : Process :=
  set_status SWAPPED_OUT (set_pr_connection (Some 7) (set_pr_swap (Some "/swaps") demo_starting)).
Definition demo_swapped_app : CpApplication := set_ca_swapped {["proc" := 0]} demo_app.

Lemma closing_forgets_swapped_process_witness :
  let w := demo_world demo_swapped demo_swapped_app in
  exists w1 w2 app2 x2, cp_receive 7 0 (w, demo_closure) = (Ret tt, (w1, [])) /\ w_apps w1 = w_apps w /\
    handle_disconnection 7 w1 = (Ret tt, w2) /\
    w_apps w2 !! "app" = Some app2 /\ ca_swapped_processes app2 !! "proc" = None /\
    w_heap w2 !! 0 = Some x2 /\ pr_status x2 = FAILURE /\ w_num_registered w2 = (-2)%Z.
Proof.
  assert (parse demo_closure = Ret (VProcessClosure {| pcl_msg := demo_closure |})) as Hp by (vm_compute; reflexivity).
  assert (length demo_closure = BUF_SIZE) as Hl by (vm_compute; reflexivity).
  exact (closing_forgets_swapped_process 7 demo_context demo_swapped demo_swapped_app demo_closure
    {| pcl_msg := demo_closure |} 0 (demo_world demo_swapped demo_swapped_app) eq_refl eq_refl eq_refl eq_refl eq_refl
    eq_refl (ex_intro _ 0 eq_refl) Hl Hp).
Defined.

Lemma controlplane_names_collide_witness :
  let w := demo_world demo_starting demo_app in
  exists w1 w2 w3 w4 p1 p2 x2 msg, workers_handle_invocation [x61] 1 "app" "f" w = (Ret tt, w1) /\
    workers_handle_invocation [x62] 2 "app" "g" w1 = (Ret tt, w2) /\
    w_heap w2 !! p2 = Some x2 /\ pr_name x2 = controlplane_name 0 /\ p1 <> p2 /\
    loop_task w2 = (Ret tt, w3) /\ loop_task w3 = (Throw (ObjectExists msg), w4) /\
    w_loop w4 = [] /\ w_pending_processes w4 !! controlplane_name 0 = Some p1.
Proof.
  exact (controlplane_names_collide [x61] 1 "app" "f" demo_app [x62] 2 "app" "g" demo_app
    (demo_world demo_starting demo_app) eq_refl eq_refl eq_refl eq_refl eq_refl eq_refl).
Defined.

(** a process whose allocation is under way *)
Definition demo_requested : Process := set_pr_callback (Some (CbCreate 2)) true demo_starting.
Definition demo_request : alloc_request :=
  {| al_process := 0; al_controlplane := false; al_container := "image"; al_address := "10.0.0.1:6000" |}.
Definition demo_allocating : World :=
  set_w_pending_processes {["proc" := 0]} (set_w_posts [demo_request]
    (demo_world demo_requested (set_ca_active {["proc" := 0]} demo_app))).

Lemma failed_allocation_blocks_name_witness :
  exists w1 app1, post_completed 0 ReplyFailed demo_allocating = (Ret tt, w1) /\
    w_responses w1 = [(2, RespFailed "Unknown error!" 500)] /\
    w_apps w1 !! "app" = Some app1 /\ ca_active_processes app1 !! "proc" = None /\
    forall resources cb wait w2, add_process "app" "proc" resources cb wait w1 = (Ret tt, w2) ->
      exists e w3, loop_task w2 = (Throw (ObjectExists e), w3).
Proof.
  exact (failed_allocation_blocks_name 0 demo_request ReplyFailed "Unknown error!" 2 demo_requested
    (set_ca_active {["proc" := 0]} demo_app) demo_allocating eq_refl eq_refl eq_refl eq_refl eq_refl eq_refl eq_refl
    eq_refl eq_refl).
Defined.
