(* ===== verification/Threads.v ===== *)
(** * Threads: programs that take locks, and their interleavings

    [std::shared_mutex] with [std::unique_lock] and [std::shared_lock]: a
    thread is a program whose steps change the shared state or take and release
    locks; a lock that another thread holds in a conflicting mode blocks it, and
    an exception releases what the thread holds.  The threads of a program run
    interleaved, step by step.  When every thread takes its locks in the order of
    a ranking, no run gets stuck ([runs_complete]). *)

From S2P Require Import Prelude.

(** ** Programs with locks *)

(** how a [std::shared_mutex] is held *)
Inductive lmode : Type := LShared | LExclusive.
#[export] Instance lmode_eq_dec : EqDecision lmode.
Proof. solve_decision. Defined.

Section threads.
Context {W L : Type} `{EqDecision L}.

(** what is left of a thread: [PStep] is one uninterrupted access to the state *)
Inductive prog : Type :=
  | PDone (r : outcome unit)
  | PLock (l : L) (m : lmode) (k : prog)
  | PUnlock (l : L) (k : prog)
  | PStep (f : W -> prog * W).

(** one step that runs [m]; an exception ends the thread *)
Definition act {A} (m : M W A) (k : A -> prog) : prog := PStep (fun w =>
  match m w with
  | (Ret a, w') => (k a, w')
  | (Throw e, w') => (PDone (Throw e), w')
  | (Undef, w') => (PDone Undef, w')
  end).

Definition finish_prog : prog := PDone (Ret tt).

(** the program run by itself, where every lock is free *)
Fixpoint alone (p : prog) (w : W) : outcome unit * W :=
  match p with
  | PDone r => (r, w)
  | PLock _ _ k | PUnlock _ k => alone k w
  | PStep f => let '(k, w') := f w in alone k w'
  end.

Lemma alone_act {A} (m : M W A) k w :
  alone (act m k) w = (m ≫= fun a => alone (k a)) w.
Proof. unfold act, mbind, M_bind. cbn. destruct (m w) as [[a|e|] w']; reflexivity. Qed.

(** ** Threads *)
Record thread : Type := MkThread { th_held : list (L * lmode); th_prog : prog }.
Record system : Type := MkSystem { sy_state : W; sy_threads : list thread }.

Definition spawn (p : prog) : thread := {| th_held := []; th_prog := p |}.

(** nobody else holds [l] in a conflicting mode *)
Definition compatible (m m' : lmode) : bool :=
  match m, m' with LShared, LShared => true | _, _ => false end.
Definition admits (l : L) (m : lmode) (t : thread) : bool :=
  forallb (fun x => negb (bool_decide (x.1 = l)) || compatible m x.2) (th_held t).
Definition holds (l : L) (t : thread) : bool := existsb (fun x => bool_decide (x.1 = l)) (th_held t).

Definition release (l : L) (held : list (L * lmode)) : list (L * lmode) := filter (fun x => x.1 <> l) held.

(** one step of a thread: none if it is blocked or has ended.  A thread that locks
    what it holds already waits for itself; one that ends releases its locks. *)
Definition thread_step (others : list thread) (t : thread) (w : W) : option (thread * W) :=
  match th_prog t with
  | PDone r => match th_held t with [] => None | _ => Some (spawn (PDone r), w) end
  | PLock l m k =>
      if negb (holds l t) && forallb (admits l m) others
      then Some ({| th_held := (l, m) :: th_held t; th_prog := k |}, w) else None
  | PUnlock l k => Some ({| th_held := release l (th_held t); th_prog := k |}, w)
  | PStep f => let '(k, w') := f w in Some ({| th_held := th_held t; th_prog := k |}, w')
  end.

Definition sys_step (i : nat) (s : system) : option system :=
  match sy_threads s !! i with
  | None => None
  | Some t =>
      match thread_step (delete i (sy_threads s)) t (sy_state s) with
      | None => None
      | Some (t', w) => Some {| sy_state := w; sy_threads := <[i := t']> (sy_threads s) |}
      end
  end.

(** a run: which thread makes each step *)
Fixpoint run (schedule : list nat) (s : system) : option system :=
  match schedule with
  | [] => Some s
  | i :: schedule' => match sys_step i s with Some s' => run schedule' s' | None => None end
  end.

Definition ended (t : thread) : Prop := th_held t = [] /\ exists r, th_prog t = PDone r.
Definition all_ended (s : system) : Prop := Forall ended (sy_threads s).
#[export] Instance ended_dec t : Decision (ended t).
Proof.
  unfold ended. destruct (th_held t); [|right; intros [? _]; done].
  destruct (th_prog t) as [r| | |]; [left; eauto|right; intros [_ [? ?]]; done..].
Defined.
(** some thread has not ended, and none can make a step *)
Definition deadlocked (s : system) : Prop := ~ all_ended s /\ forall i, sys_step i s = None.

Lemma run_app sch1 sch2 s s' s'' :
  run sch1 s = Some s' -> run sch2 s' = Some s'' -> run (sch1 ++ sch2) s = Some s''.
Proof.
  revert s. induction sch1 as [|i sch IH]; intros s; cbn.
  - now intros [= ->].
  - destruct (sys_step i s) as [s1|]; [|done]. apply IH.
Qed.

Lemma run_step i s s1 schedule s' :
  sys_step i s = Some s1 -> run schedule s1 = Some s' -> run (i :: schedule) s = Some s'.
Proof. intros Hs. cbn. now rewrite Hs. Qed.

Lemma sys_step_act {A} i held (m : M W A) k a ts w w' :
  ts !! i = Some {| th_held := held; th_prog := act m k |} -> m w = (Ret a, w') ->
  sys_step i {| sy_state := w; sy_threads := ts |} =
  Some {| sy_state := w'; sy_threads := <[i := {| th_held := held; th_prog := k a |}]> ts |}.
Proof. intros Ht Hm. unfold sys_step. cbn. rewrite Ht. unfold thread_step, act. cbn. rewrite Hm. reflexivity. Qed.

Lemma sys_step_lock i held l m k ts w :
  ts !! i = Some {| th_held := held; th_prog := PLock l m k |} ->
  Forall (fun x => x.1 <> l) held -> forallb (admits l m) (delete i ts) = true ->
  sys_step i {| sy_state := w; sy_threads := ts |} =
  Some {| sy_state := w; sy_threads := <[i := {| th_held := (l, m) :: held; th_prog := k |}]> ts |}.
Proof.
  intros Ht Hh Ha. assert (existsb (fun x => bool_decide (x.1 = l)) held = false) as Hx.
  { clear Ht Ha. induction Hh as [|x xs Hx Hxs IH]; [done|]. cbn. now rewrite bool_decide_eq_false_2. }
  unfold sys_step. cbn [sy_threads sy_state]. rewrite Ht. unfold thread_step, holds. cbn [th_prog th_held].
  rewrite Ha, Hx. reflexivity.
Qed.

Lemma sys_step_unlock i held l k ts w :
  ts !! i = Some {| th_held := held; th_prog := PUnlock l k |} ->
  sys_step i {| sy_state := w; sy_threads := ts |} =
  Some {| sy_state := w; sy_threads := <[i := {| th_held := release l held; th_prog := k |}]> ts |}.
Proof. intros Ht. unfold sys_step. cbn. rewrite Ht. reflexivity. Qed.

(** programs that have not started hold nothing *)
Lemma spawned_admit l m (ps : list prog) : forallb (admits l m) (spawn <$> ps) = true.
Proof. induction ps as [|p ps IH]; [done|exact IH]. Qed.

(** two threads that wait for each other's locks wait for ever, whatever the
    others do *)
Lemma embrace i j t1 t2 l1 m1 k1 l2 m2 k2 s :
  i <> j -> sy_threads s !! i = Some t1 -> sy_threads s !! j = Some t2 ->
  th_prog t1 = PLock l1 m1 k1 -> th_prog t2 = PLock l2 m2 k2 ->
  admits l1 m1 t2 = false -> admits l2 m2 t1 = false ->
  forall schedule s', run schedule s = Some s' -> sy_threads s' !! i = Some t1 /\ sy_threads s' !! j = Some t2.
Proof.
  intros Hij Hi Hj Hp1 Hp2 Ha1 Ha2 schedule. revert s Hi Hj. induction schedule as [|n schedule IH]; intros s Hi Hj s'; cbn [run].
  { now intros [= <-]. }
  assert (forall a b ta tb l m k, a <> b -> sy_threads s !! a = Some ta -> sy_threads s !! b = Some tb ->
    th_prog ta = PLock l m k -> admits l m tb = false -> sys_step a s = None) as Hstuck.
  { intros a b ta tb l m k Hab Ha Hb Hp Had. unfold sys_step. rewrite Ha. unfold thread_step. rewrite Hp.
    assert (forallb (admits l m) (delete a (sy_threads s)) = false) as ->; [|now rewrite andb_false_r].
    apply not_true_iff_false. rewrite forallb_forall. intros Hall.
    assert (In tb (delete a (sy_threads s))) as Hin; [|specialize (Hall tb Hin); congruence].
    apply list_elem_of_In, list_elem_of_lookup. destruct (decide (b < a)).
    - exists b. now rewrite list_lookup_delete_lt.
    - exists (pred b). rewrite list_lookup_delete_ge by lia. now replace (S (pred b)) with b by lia. }
  destruct (decide (n = i)) as [->|Hni]; [now rewrite (Hstuck i j t1 t2 l1 m1 k1)|].
  destruct (decide (n = j)) as [->|Hnj]; [now rewrite (Hstuck j i t2 t1 l2 m2 k2)|].
  destruct (sys_step n s) as [s1|] eqn:Es; [|done]. apply IH; unfold sys_step in Es;
    destruct (sy_threads s !! n) as [tn|]; try done; destruct (thread_step _ tn _) as [[tn' w]|]; try done;
    injection Es as <-; cbn; now rewrite list_lookup_insert_ne.
Qed.

(** ** The order of locks *)
Variable rank : L -> nat.

(** a program that holds [held], makes at most [n] steps, and only takes locks of
    a higher rank than those it holds *)
Inductive orderly : list (L * lmode) -> nat -> prog -> Prop :=
  | orderly_done held n r : orderly held n (PDone r)
  | orderly_lock held n l m k : Forall (fun x => rank x.1 < rank l) held ->
      orderly ((l, m) :: held) n k -> orderly held (S n) (PLock l m k)
  | orderly_unlock held n l k : orderly (release l held) n k -> orderly held (S n) (PUnlock l k)
  | orderly_step held n f : (forall w, orderly held n (f w).1) -> orderly held (S n) (PStep f).

Lemma orderly_act_ret {A} held n (m : M W A) k :
  (forall w a w', m w = (Ret a, w') -> orderly held n (k a)) -> orderly held (S n) (act m k).
Proof. intros Hk. constructor. intros w. destruct (m w) as [[a|e|] w'] eqn:E; cbn; [eapply Hk; exact E|constructor|constructor]. Qed.

Lemma orderly_act {A} held n (m : M W A) k :
  (forall a, orderly held n (k a)) -> orderly held (S n) (act m k).
Proof. intros Hk. apply orderly_act_ret. auto. Qed.

Lemma orderly_weaken held n n' p : orderly held n p -> n <= n' -> orderly held n' p.
Proof.
  intros Hp. revert n'. induction Hp; intros [|n'] Hn; try lia; constructor; auto with lia.
Qed.

(** ** Progress *)

(** the thread waits for [l] *)
Definition waits_for (l : L) (t : thread) : Prop := exists m k, th_prog t = PLock l m k.

Lemma admits_false l m t : admits l m t = false -> holds l t = true.
Proof.
  unfold admits, holds. induction (th_held t) as [|x xs IH]; [done|]. cbn.
  destruct (bool_decide (x.1 = l)); cbn; [done|exact IH].
Qed.

Lemma forallb_false {A} (f : A -> bool) l : forallb f l = false -> exists x, x ∈ l /\ f x = false.
Proof.
  induction l as [|x l IH]; [done|]. cbn. destruct (f x) eqn:E; cbn.
  - intros H. destruct (IH H) as (y&Hy&Ey). exists y. split; [by right|done].
  - intros _. exists x. split; [by left|done].
Qed.

(** a thread that cannot make a step has ended, or waits for a lock that is held *)
Lemma stuck_thread i s t :
  sy_threads s !! i = Some t -> sys_step i s = None ->
  ended t \/ exists l, waits_for l t /\ exists j t', sy_threads s !! j = Some t' /\ holds l t' = true.
Proof.
  intros Ht. unfold sys_step. rewrite Ht. unfold thread_step.
  destruct (th_prog t) as [r|l m k|l k|f] eqn:Ep.
  - destruct (th_held t) eqn:Eh; [|done]. intros _. left. split; eauto.
  - intros H. right. exists l. split; [exists m, k; exact Ep|].
    destruct (holds l t) eqn:Eo; [eauto|]. cbn in H.
    destruct (forallb (admits l m) (delete i (sy_threads s))) eqn:Ef; [done|].
    apply forallb_false in Ef as (t'&Hin&Ha). apply list_elem_of_lookup in Hin as [j Hj].
    rewrite list_lookup_delete in Hj. apply admits_false in Ha. case_decide; eauto.
  - done.
  - destruct (f (sy_state s)). done.
Qed.

(** at most [n] steps are left *)
Definition sized (n : nat) (t : thread) : Prop :=
  ended t \/ exists m, m < n /\ orderly (th_held t) m (th_prog t).

Lemma spawn_sized n p : orderly [] n p -> sized (S n) (spawn p).
Proof. intros H. right. exists n. split; [lia|exact H]. Qed.

Lemma ended_not_holds l t : ended t -> holds l t = false.
Proof. intros [Hh _]. unfold holds. now rewrite Hh. Qed.

Lemma step_sized others n t w t' w' :
  sized n t -> thread_step others t w = Some (t', w') -> exists n', n = S n' /\ sized n' t'.
Proof.
  unfold thread_step. intros [[Hh [r Hr]]|(m&Hm&Ho)].
  { rewrite Hr, Hh. done. }
  destruct n as [|n]; [lia|]. intros Hs. exists n. split; [done|]. unfold sized. revert Hs.
  inversion Ho as [held m' r Eh En Ep|held m' l md k Hf Hk Eh En Ep|held m' l k Hk Eh En Ep|held m' f Hk Eh En Ep];
    subst; clear Ho.
  - destruct (th_held t); [done|]. intros [= <- <-]. left. split; [done|]. eexists. reflexivity.
  - destruct (_ && _); [|done]. intros [= <- <-]. right. exists m'. split; [lia|exact Hk].
  - intros [= <- <-]. right. exists m'. split; [lia|exact Hk].
  - specialize (Hk w). destruct (f w) as [k w1]. intros [= <- <-]. right. exists m'. split; [lia|exact Hk].
Qed.

Lemma sys_step_sized ns i s s' :
  Forall2 sized ns (sy_threads s) -> sys_step i s = Some s' ->
  exists ns', Forall2 sized ns' (sy_threads s') /\ S (sum_list ns') = sum_list ns.
Proof.
  intros Hn. unfold sys_step. destruct (sy_threads s !! i) as [t|] eqn:Ht; [|done].
  destruct (thread_step _ _ _) as [[t' w]|] eqn:Es; [|done]. intros [= <-]. cbn.
  destruct (Forall2_lookup_r _ _ _ _ _ Hn Ht) as (n&Hni&Hsz).
  destruct (step_sized _ _ _ _ _ _ Hsz Es) as (n'&->&Hsz').
  exists (<[i := n']> ns). split; [now apply Forall2_insert|].
  pose proof (take_drop_middle _ _ _ Hni) as Hm.
  rewrite insert_take_drop by (eapply lookup_lt_Some; eauto). rewrite <-Hm at 3.
  rewrite !sum_list_with_app. cbn. unfold sum_list. lia.
Qed.

(** every thread that waits for a lock makes another one wait for a higher one *)
Lemma waiting_climbs ns s :
  Forall2 sized ns (sy_threads s) -> (forall i, sys_step i s = None) -> ~ all_ended s ->
  forall b, exists t l, t ∈ sy_threads s /\ waits_for l t /\ b <= rank l.
Proof.
  intros Hn Hs He.
  assert (forall t, t ∈ sy_threads s -> ~ ended t ->
    exists l, waits_for l t /\ exists t', t' ∈ sy_threads s /\ holds l t' = true) as Hstuck.
  { intros t [i Hi]%list_elem_of_lookup Hne. destruct (stuck_thread i s t Hi (Hs i)) as [|(l&Hw&j&t'&Hj&Hh)]; [done|].
    exists l. split; [done|]. exists t'. split; [|done]. eapply list_elem_of_lookup_2; eauto. }
  induction b as [|b (t&l&Hin&Hw&Hb)].
  - apply (not_Forall_Exists _) in He. apply Exists_exists in He as (t&Hin%list_elem_of_In&Hne).
    destruct (Hstuck t Hin Hne) as (l&Hw&_). exists t, l. split_and!; auto with lia.
  - destruct (Hstuck t Hin) as (l'&Hw'&t2&Hin2&Hh2).
    { intros [_ [r Hr]]. destruct Hw as (m&k&Hp). congruence. }
    assert (l' = l) as ->.
    { destruct Hw as (m&k&Hp), Hw' as (m'&k'&Hp'). congruence. }
    destruct (Hstuck t2 Hin2) as (l2&Hw2&_); [intros He2; now rewrite (ended_not_holds l t2 He2) in Hh2|].
    exists t2, l2. split_and!; auto. destruct Hw2 as (m2&k2&Hp2).
    apply list_elem_of_lookup in Hin2 as [j Hj]. destruct (Forall2_lookup_r _ _ _ _ _ Hn Hj) as (n&_&Hsz).
    destruct Hsz as [[_ [r Hr]]|(m&_&Ho)]; [congruence|]. rewrite Hp2 in Ho.
    inversion Ho as [|held n' l0 m0 k0 Hf| |]; subst. unfold holds in Hh2.
    apply existsb_exists in Hh2 as (x&Hx%list_elem_of_In&Ex%bool_decide_eq_true). subst l.
    rewrite list.Forall_forall in Hf. specialize (Hf x Hx). lia.
Qed.

(** ** No run gets stuck *)
Definition wanted_rank (t : thread) : nat := match th_prog t with PLock l _ _ => rank l | _ => 0 end.

Lemma sized_progress ns s :
  Forall2 sized ns (sy_threads s) -> all_ended s \/ exists i s', sys_step i s = Some s'.
Proof.
  intros Hn. destruct (decide (all_ended s)) as [|Hne]; [by left|]. right.
  destruct (list_find (fun i => is_Some (sys_step i s)) (seq 0 (length (sy_threads s)))) as [[j i]|] eqn:Ef.
  { apply list_find_Some in Ef as (_&[s' Hs]&_). eauto. }
  exfalso. apply list_find_None in Ef.
  assert (forall i, sys_step i s = None) as Hs.
  { intros i. destruct (decide (i < length (sy_threads s))) as [Hi|Hi].
    - rewrite list.Forall_forall in Ef. apply eq_None_not_Some, Ef. apply list_elem_of_In, in_seq. lia.
    - unfold sys_step. now rewrite lookup_ge_None_2 by lia. }
  destruct (waiting_climbs ns s Hn Hs Hne (S (max_list (wanted_rank <$> sy_threads s)))) as (t&l&Hin&(m&k&Hw)&Hb).
  assert (wanted_rank t <= max_list (wanted_rank <$> sy_threads s)) as Hle.
  { apply max_list_elem_of_le, list_elem_of_fmap_2, Hin. }
  unfold wanted_rank at 1 in Hle. rewrite Hw in Hle. lia.
Qed.

Lemma run_sized schedule : forall ns s s',
  Forall2 sized ns (sy_threads s) -> run schedule s = Some s' ->
  exists ns', Forall2 sized ns' (sy_threads s') /\ length schedule + sum_list ns' = sum_list ns.
Proof.
  induction schedule as [|i schedule IH]; intros ns s s' Hn; cbn [run].
  - intros [= <-]. eauto.
  - destruct (sys_step i s) as [s1|] eqn:Es; [|done]. intros Hr.
    destruct (sys_step_sized _ _ _ _ Hn Es) as (ns1&Hn1&E1). destruct (IH _ _ _ Hn1 Hr) as (ns'&Hn'&E').
    exists ns'. split; [done|]. cbn. lia.
Qed.

Lemma sized_ends n : forall ns s, sum_list ns = n -> Forall2 sized ns (sy_threads s) ->
  exists schedule s', run schedule s = Some s' /\ all_ended s'.
Proof.
  induction n as [|n IH]; intros ns s E Hn; destruct (sized_progress ns s Hn) as [He|(i&s1&Hs)];
    try (exists [], s; split; [reflexivity|exact He]).
  all: destruct (sys_step_sized _ _ _ _ Hn Hs) as (ns1&Hn1&E1); try lia.
  destruct (IH ns1 s1) as (sch&s'&Hr&He); [lia|done|].
  exists (i :: sch), s'. split; [cbn; now rewrite Hs|exact He].
Qed.

(** Threads that take their locks in order, with [n] steps at most: every run is
    bounded, never deadlocks, and can be continued until all have ended. *)
Lemma runs_complete n (progs : list prog) w schedule s :
  Forall (orderly [] n) progs ->
  run schedule {| sy_state := w; sy_threads := spawn <$> progs |} = Some s ->
  length schedule <= length progs * S n /\ ~ deadlocked s /\
  exists rest s', run rest s = Some s' /\ all_ended s'.
Proof.
  intros Hp Hr. assert (Forall2 sized (replicate (length progs) (S n)) (spawn <$> progs)) as Hn.
  { clear Hr. induction Hp as [|p ps H Hps IH]; cbn; [constructor|]. constructor; [now apply spawn_sized|exact IH]. }
  assert (sum_list (replicate (length progs) (S n)) = length progs * S n) as Hsum.
  { clear. induction progs as [|p ps IH]; [done|]. cbn [length replicate sum_list]. unfold sum_list in *. cbn in *. lia. }
  destruct (run_sized schedule _ {| sy_state := w; sy_threads := spawn <$> progs |} s Hn Hr) as (ns&Hns&E). rewrite Hsum in E. split; [lia|].
  split; [|now apply (sized_ends (sum_list ns) ns)].
  intros [Hd Hs]. destruct (sized_progress ns s Hns) as [|(i&s'&Hi)]; [done|]. congruence.
Qed.
End threads.
Arguments prog : clear implicits.
Arguments thread : clear implicits.
Arguments system : clear implicits.

(** ** Runs made step by step *)
Lemma release_same {L} `{EqDecision L} (l : L) m held : release l ((l, m) :: held) = release l held.
Proof. unfold release. rewrite filter_cons_False; [done|]. cbn. tauto. Qed.
Lemma release_other {L} `{EqDecision L} (l l' : L) m held : l' <> l -> release l ((l', m) :: held) = (l', m) :: release l held.
Proof. intros Hl. unfold release. now rewrite filter_cons_True. Qed.
Lemma release_nil {L} `{EqDecision L} (l : L) : release l [] = [].
Proof. reflexivity. Qed.

Ltac orderly_release := rewrite ?release_same; repeat (rewrite release_other by done); rewrite ?release_same, ?release_nil.

(** a run begins with a step, and goes on *)
Lemma run_then {W L} `{EqDecision L} (i : nat) (s s1 : system W L) schedule (P : system W L -> Prop) :
  sys_step i s = Some s1 -> (exists s', run schedule s1 = Some s' /\ P s') -> exists s', run (i :: schedule) s = Some s' /\ P s'.
Proof. intros Hs (s'&Hr&HP). exists s'. split; [|exact HP]. exact (run_step _ _ _ _ _ Hs Hr). Qed.

Lemma run_app_then {W L} `{EqDecision L} sch1 sch2 (s s1 : system W L) (P : system W L -> Prop) :
  run sch1 s = Some s1 -> (exists s', run sch2 s1 = Some s' /\ P s') -> exists s', run (sch1 ++ sch2) s = Some s' /\ P s'.
Proof. intros H1 (s'&H2&HP). exists s'. split; [exact (run_app _ _ _ _ _ H1 H2)|exact HP]. Qed.

(** the next step takes a lock, releases one, or is the computation of [E] *)
Ltac next_lock := eapply run_then;
  [eapply sys_step_lock; [reflexivity|repeat first [apply List.Forall_nil|apply List.Forall_cons; [done|]]
    |repeat progress (unfold delete; cbn); rewrite ?bool_decide_eq_false_2 by done; reflexivity]|]; cbn [insert list_insert].
Ltac next_unlock := eapply run_then; [eapply sys_step_unlock; reflexivity|]; cbn [insert list_insert]; orderly_release.
Ltac next_act E := eapply run_then; [eapply sys_step_act; [reflexivity|exact E]|]; cbn [insert list_insert]; clear E.
(** the next step is a computation whose result [tac] finds *)
Tactic Notation "next_by" tactic3(tac) :=
  eapply run_then; [eapply sys_step_act; [reflexivity|tac]|]; cbn [insert list_insert].
