(* ===== verification/CpThreads.v ===== *)
(** * CpThreads: the threads and the locks of the control plane

    The operations of CpApplication.v and CpServer.v run on several threads: the
    tasks of HTTP requests on the workers' pool, the connections of processes on
    the loops of the TCP server, the replies of the back end on the loops of the
    HTTP client.  Here each operation is a program that takes the locks of
    [application.cpp], [worker.cpp] and [tcpserver.cpp] where the code takes
    them; run by itself it is the operation of the other files.  Then: which
    operations can run together without a deadlock, and which cannot. *)

From S2P Require Import Prelude Memory Messages CpProcess CpApplication CpServer CpInvariant CpProtocol Threads.

(** the locks: the accessor of an application in the table of [Resources], the
    three mutexes of an application, the two of a process *)
Inductive cp_lock : Type :=
  | LAccessor (a : string) | LControlplane (a : string) | LActive (a : string) | LSwapped (a : string)
  | LProc (p : nat) | LMetrics (p : nat).
#[export] Instance cp_lock_eq_dec : EqDecision cp_lock.
Proof. solve_decision. Defined.

Abbreviation cp_prog := (prog World cp_lock) (only parsing).

(** a status that is tested before an operation *)
Definition require_status (p : nat) (s : PStatus) (e : exn) : M World unit :=
  x ← deref p; if decide (pr_status x = s) then mret tt else throw e.

Section locked.
Context `{UuidGenerator} `{StdStod} `{CpConfig}.

(** [Application::swap_process] *)
Definition swap_process_locked (a process_name : string) : cp_prog :=
  if String.length process_name =? 0
  then act (A := unit) (throw (InvalidConfigurationError "Application name cannot be empty")) (fun _ => finish_prog)
  else
    PLock (LActive a) LShared (
    act (get_process a process_name) (fun p =>
    PLock (LProc p) LExclusive (
    act (require_status p ALLOCATED (InvalidProcessState "Cannot swap a non-allocated process")) (fun _ =>
    PUnlock (LActive a) (
    act (update_process p (set_status SWAPPING_OUT)) (fun _ =>
    act (update_process p (set_pr_swap (Some cfg_swap_root))) (fun _ =>
    act (process_swap p) (fun _ =>
    PUnlock (LProc p) finish_prog)))))))).

(** [Application::swapped_process] *)
Definition swapped_process_locked (a process_name : string) : cp_prog :=
  PLock (LActive a) LExclusive (
  act (get_process a process_name) (fun p =>
  PLock (LProc p) LExclusive (
  act (require_status p SWAPPING_OUT (InvalidProcessState "Cannot confirm a swap of non-swapping process")) (fun _ =>
  act (update_app a (fun app => set_ca_active (delete process_name (ca_active_processes app)) app)) (fun _ =>
  PUnlock (LActive a) (
  act (update_process p (set_status SWAPPED_OUT)) (fun _ =>
  PLock (LSwapped a) LExclusive (
  act (update_app a (fun app => set_ca_swapped (insert_node process_name p (ca_swapped_processes app)) app)) (fun _ =>
  PUnlock (LSwapped a) (
  PUnlock (LProc p) finish_prog)))))))))).

(** the search and the erasure in [Application::closed_process], where only
    [_active_mutex] is held *)
Definition forget_process (a name : string) : M World unit :=
  app ← get_app a;
  match ca_active_processes app !! name with
  | Some _ => update_app a (set_ca_active (delete name (ca_active_processes app)))
  | None =>
      match ca_swapped_processes app !! name with
      | Some _ => update_app a (set_ca_swapped (delete name (ca_swapped_processes app)))
      | None => mret tt
      end
  end.

Definition closed_process_locked (p : nat) : cp_prog :=
  PLock (LProc p) LExclusive (
  act (deref p) (fun x =>
  if decide (pr_status x = SWAPPED_OUT) then act (close_connection p) (fun _ => PUnlock (LProc p) finish_prog)
  else
    act (update_process p (set_status FAILURE)) (fun _ =>
    PLock (LActive (pr_application x)) LExclusive (
    act (forget_process (pr_application x) (pr_name x)) (fun _ =>
    PUnlock (LActive (pr_application x)) (
    PUnlock (LProc p) finish_prog)))))).

(** [Application::delete_process] *)
Definition delete_process_locked (a process_name : string) : cp_prog :=
  if String.length process_name =? 0
  then act (A := unit) (throw (InvalidConfigurationError "Process name cannot be empty")) (fun _ => finish_prog)
  else
    PLock (LSwapped a) LExclusive (
    act (delete_process a process_name) (fun _ =>
    PUnlock (LSwapped a) finish_prog)).

(** [get_processes], [get_swapped_processes] *)
Definition get_processes_locked (a : string) (k : list string -> cp_prog) : cp_prog :=
  PLock (LActive a) LShared (
  act (app ← get_app a; process_names (ca_active_processes app)) (fun names =>
  PUnlock (LActive a) (k names))).
Definition get_swapped_processes_locked (a : string) (k : list string -> cp_prog) : cp_prog :=
  PLock (LSwapped a) LShared (
  act (app ← get_app a; process_names (ca_swapped_processes app)) (fun names =>
  PUnlock (LSwapped a) (k names))).

(** [Process::add_invocation]: the invocation is stored and counted, then the
    status decides whether it is sent *)
Definition push_invocation (p : nat) (body : list byte) (callback : nat) (function_name : string) : M World unit :=
  n ← gets w_uuids;
  modify (set_w_uuids (S n)) ≫= fun _ =>
  let invoc := {| pi_body := body; pi_callback := callback; pi_function_name := function_name;
                  pi_invocation_id := uuid_text n; pi_submitted := false |} in
  update_process p (fun x => set_pr_invocations (pr_active_invocations x + 1) (pr_invocations x ++ [invoc]) x).
Definition submit_last (p : nat) : M World unit :=
  x ← deref p;
  if decide (pr_status x = ALLOCATED) then send_invocation p (length (pr_invocations x) - 1) else mret tt.

(** A creation callback.  [proc_ptr->write_lock();] makes a lock and discards
    it: it is released before [add_invocation] is called. *)
Definition run_callback_locked (cb : creation_callback) (proc : option nat) (error_msg : option string) (k : cp_prog) : cp_prog :=
  match proc, cb with
  | Some p, CbInvoke body c function_name =>
      PLock (LProc p) LExclusive (PUnlock (LProc p) (
      act (push_invocation p body c function_name) (fun _ =>
      act (submit_last p) (fun _ => k))))
  | _, _ => act (run_callback cb proc error_msg) (fun _ => k)
  end.

(** [Process::created_callback]: whether the callback is due, and with what *)
Definition callback_due (p : nat) (error_msg : option string) : M World (option (creation_callback * option nat)) :=
  x ← deref p;
  mret (match pr_creation_callback x with
  | None => None
  | Some cb =>
      match error_msg with
      | Some _ => Some (cb, None)
      | None =>
          match pr_handle x with
          | None => None
          | Some _ =>
              if pr_wait_for_allocation x && negb (bool_decide (pr_status x = ALLOCATED)) then None else Some (cb, Some p)
          end
      end
  end).
Definition created_callback_locked (p : nat) (error_msg : option string) (k : cp_prog) : cp_prog :=
  act (callback_due p error_msg) (fun due =>
  match due with
  | None => k
  | Some (cb, proc) => run_callback_locked cb proc error_msg (act (clear_callback p) (fun _ => k))
  end).

(** [Process::connect] *)
Definition connect_locked (p t : nat) (k : cp_prog) : cp_prog :=
  act (require_status p ALLOCATING (InvalidProcessState "Can't register process")) (fun _ =>
  act (update_process p (set_pr_connection (Some t))) (fun _ =>
  act (update_process p (set_status ALLOCATED)) (fun _ =>
  act (send_invocations p) (fun _ =>
  created_callback_locked p None k)))).

(** [Application::add_process]: the sizes, then the entry of the table *)
Definition check_resources (name : string) (resources : PResources) : M World unit :=
  if String.length name =? 0 then throw (InvalidConfigurationError "Empty name")
  else
    mem ← lift_stod (memory resources);
    if double_le mem 0 || double_gt mem max_memory
    then throw (InvalidConfigurationError "Incorrect memory size {}")
    else
      cpus ← lift_stod (vcpus resources);
      if double_le cpus 0 || double_gt cpus max_vcpus
      then throw (InvalidConfigurationError "Incorrect number of vCPUs {}")
      else mret tt.
Definition emplace_process (a name : string) (resources : PResources) : M World nat :=
  p ← new_process (Process_ctor name a resources);
  app ← get_app a;
  match ca_active_processes app !! name with
  | Some _ => throw (ObjectExists name)
  | None => update_app a (set_ca_active (<[name := p]> (ca_active_processes app))) ≫= fun _ => mret p
  end.
Definition add_process_locked (a name : string) (resources : PResources) (callback : creation_callback)
    (wait_for_allocation : bool) : cp_prog :=
  act (check_resources name resources) (fun _ =>
  PLock (LActive a) LExclusive (
  act (emplace_process a name resources) (fun p =>
  PUnlock (LActive a) (
  act (server_add_process p) (fun _ =>
  act (update_process p (set_pr_callback (Some callback) wait_for_allocation)) (fun _ =>
  act (allocate_process p false) (fun _ => finish_prog))))))).

(** [Application::get_controlplane_process]: the callback runs under the lock; the
    size that makes the name is read without it *)
Definition get_controlplane_process_locked (a : string) (resources : PResources) (callback : creation_callback) : cp_prog :=
  PLock (LControlplane a) LShared (
  act (app ← get_app a; w ← get; lift (first_spare w (ca_controlplane_processes app))) (fun spare =>
  match spare with
  | Some p => run_callback_locked callback (Some p) None (PUnlock (LControlplane a) finish_prog)
  | None =>
      PUnlock (LControlplane a) (
      act (app ← get_app a;
           new_process (set_pr_callback (Some callback) true
             (Process_ctor (controlplane_name (length (ca_controlplane_processes app))) a resources))) (fun p =>
      act (server_add_process p) (fun _ =>
      act (allocate_process p true) (fun _ => finish_prog))))
  end)).

(** the callbacks passed to [allocate_process] *)
Definition post_callback_locked (r : alloc_request) (reply : docker_reply) : cp_prog :=
  let p := al_process r in
  act (deref p) (fun x =>
  match docker_result (pr_name x) reply with
  | inl instance =>
      act (update_process p (set_pr_handle (Some instance))) (fun _ =>
      created_callback_locked p None (
      if al_controlplane r
      then
        PLock (LControlplane (pr_application x)) LExclusive (
        act (update_app (pr_application x) (fun app => set_ca_controlplane (ca_controlplane_processes app ++ [p]) app))
          (fun _ => PUnlock (LControlplane (pr_application x)) finish_prog))
      else finish_prog))
  | inr error =>
      if al_controlplane r then created_callback_locked p (Some error) finish_prog
      else
        PLock (LActive (pr_application x)) LExclusive (
        act (erase_active (pr_application x) (pr_name x) p) (fun _ =>
        created_callback_locked p (Some error) (PUnlock (LActive (pr_application x)) finish_prog)))
  end).

(** ** The calls of the threads *)

(** a task of [Workers] on an application: with the accessor of the table, if it is there *)
Definition with_accessor (a : string) (m : lmode) (missing : M World unit) (k : cp_prog) : cp_prog :=
  act (gets w_apps) (fun apps =>
  match apps !! a with
  | None => act missing (fun _ => finish_prog)
  | Some _ => PLock (LAccessor a) m k
  end).

(** [_processes.emplace], the context and the erased entry in [handle_connection]:
    the process that registers, if it is expected *)
Definition take_pending (t : nat) (name : string) : M World (option nat) :=
  pending ← gets w_pending_processes;
  match pending !! name with
  | None => mret None
  | Some p =>
      modify (set_w_pending_processes (delete name pending)) ≫= fun _ =>
      modify (fun w => set_w_contexts (<[t := {| cd_process := p; cd_cur_msg := MessageData;
                                                 cd_bytes_to_read := 0 |}]> (w_contexts w)) w) ≫= fun _ =>
      x ← deref p;
      modify (fun w => set_w_processes (insert_node (pr_name x) t (w_processes w)) w) ≫= fun _ =>
      mret (Some p)
  end.

(** the counters and the context in [handle_disconnection]: the process, if there is one *)
Definition disconnected_process (t : nat) : M World (option nat) :=
  modify (fun w => set_w_counters (w_num_connected w - 1) (w_num_registered w) w) ≫= fun _ =>
  contexts ← gets w_contexts;
  match contexts !! t with
  | None => mret None
  | Some data =>
      modify (fun w => set_w_counters (w_num_connected w) (w_num_registered w - 1) w) ≫= fun _ =>
      mret (Some (cd_process data))
  end.

Inductive cp_call : Type :=
  (* tasks of the workers' pool *)
  | CallSwap (a name : string)
  | CallDelete (a name : string)
  | CallList (a : string)
  | CallCreateProcess (a name : string) (resources : PResources) (callback : creation_callback)
  | CallInvoke (a : string) (body : list byte) (k : nat) (function_name : string)
  (* messages and connections of processes *)
  | CallRegister (t : nat) (msg : ProcessConnection)
  | CallResult (p : nat) (invocation_id : string) (return_code : Z) (buf : list byte)
  | CallMetrics (p : nat) (time invocations timestamp now : Z)
  | CallSwapped (p : nat)
  | CallDisconnected (t : nat)
  (* replies of the back end *)
  | CallAllocated (r : alloc_request) (reply : docker_reply).

Definition call_prog (c : cp_call) : cp_prog :=
  match c with
  | CallSwap a name => with_accessor a LExclusive (mret tt) (swap_process_locked a name)
  | CallDelete a name => with_accessor a LExclusive (mret tt) (delete_process_locked a name)
  | CallList a =>
      with_accessor a LShared (mret tt)
        (get_processes_locked a (fun _ => get_swapped_processes_locked a (fun _ => finish_prog)))
  | CallCreateProcess a name resources callback =>
      with_accessor a LExclusive (mret tt) (add_process_locked a name resources callback true)
  | CallInvoke a body k function_name =>
      with_accessor a LExclusive (respond k (RespFailed "App unknown" 404))
        (get_controlplane_process_locked a {| vcpus := "1"; memory := "2048"; sandbox_id := EmptyString |}
          (CbInvoke body k function_name))
  | CallRegister t msg =>
      act (take_pending t (sv_str (process_name msg))) (fun p =>
      match p with
      | None => finish_prog
      | Some p =>
          PLock (LProc p) LExclusive (PUnlock (LProc p) (
          connect_locked p t (
          act (modify (fun w => set_w_counters (w_num_connected w) (w_num_registered w + 1) w)) (fun _ => finish_prog))))
      end)
  | CallResult p invocation_id return_code buf =>
      PLock (LProc p) LExclusive (PUnlock (LProc p) (
      act (finish_invocation p invocation_id return_code buf) (fun _ => finish_prog)))
  | CallMetrics p time invocations timestamp now =>
      PLock (LMetrics p) LExclusive (
      act (update_metrics p time invocations timestamp now) (fun _ => PUnlock (LMetrics p) finish_prog))
  | CallSwapped p => act (deref p) (fun x => swapped_process_locked (pr_application x) (pr_name x))
  | CallDisconnected t =>
      act (disconnected_process t) (fun p =>
      match p with None => finish_prog | Some p => closed_process_locked p end)
  | CallAllocated r reply => post_callback_locked r reply
  end.

(** what the other files call the operation *)
Definition call_alone (c : cp_call) : M World unit :=
  match c with
  | CallSwap a name => _ ← workers_swap_process a name; mret tt
  | CallDelete a name => _ ← workers_delete_process a name; mret tt
  | CallList a => _ ← workers_list_processes a; mret tt
  | CallCreateProcess a name resources callback => _ ← create_process a name resources callback; mret tt
  | CallInvoke a body k function_name => workers_handle_invocation body k a function_name
  | CallRegister t msg => cp_handle_connection t msg
  | CallResult p invocation_id return_code buf => finish_invocation p invocation_id return_code buf
  | CallMetrics p time invocations timestamp now => update_metrics p time invocations timestamp now
  | CallSwapped p => handle_swap p
  | CallDisconnected t => handle_disconnection t
  | CallAllocated r reply => post_callback r reply
  end.
End locked.

(** ** Moving applications and processes

    The move operations of [application.hpp] and [process.hpp] lock the objects.
    [std::lock] locks its arguments one by one; [lock()] of a [unique_lock] that
    owns its mutex throws. *)
Definition deadlock_error : exn := StdException "resource_deadlock_would_occur".
Definition std_lock {W L} (locks : list (L * bool)) (k : prog W L) : prog W L :=
  if existsb snd locks then PDone (Throw deadlock_error) else foldr (fun l k => PLock l.1 LExclusive k) k locks.

(** a function that is [noexcept] *)
Definition terminate : exn := StdException "terminate".
Definition noexcept {W} (x : outcome unit * W) : outcome unit * W :=
  match x with (Throw _, w) => (Throw terminate, w) | _ => x end.

(** the mutexes of the object that is assigned or made, and of the one that is moved *)
Inductive move_lock : Type := ThisActive | ThisSwapped | ObjActive | ObjSwapped | ThisProc | ObjProc.

(** The members that are moved; the state is the object that is assigned.  What
    is left of the other one is not looked at. *)
Definition take_application (obj : CpApplication) (this : CpApplication) : CpApplication :=
  {| ca_name := ca_name obj; ca_code_resource_name := ca_code_resource_name obj;
     ca_active_processes := ca_active_processes obj; ca_swapped_processes := ca_swapped_processes obj;
     ca_controlplane_processes := ca_controlplane_processes this |}.
(** [Application()] *)
Definition Application_default : CpApplication :=
  {| ca_name := EmptyString; ca_code_resource_name := EmptyString; ca_active_processes := ∅;
     ca_swapped_processes := ∅; ca_controlplane_processes := [] |}.

(** [Application(Application&& obj)]: the two locks own their mutexes when they
    are passed to [std::lock] *)
Definition Application_move_ctor (obj : CpApplication) : prog CpApplication move_lock :=
  PLock ObjActive LExclusive (PLock ObjSwapped LExclusive (
  std_lock [(ObjActive, true); (ObjSwapped, true)] (
  act (modify (take_application obj)) (fun _ => finish_prog)))).
(** [operator=(Application&&)]; [self]: [this == &obj] *)
Definition Application_move_assign (self : bool) (obj : CpApplication) : prog CpApplication move_lock :=
  if self then finish_prog
  else
    std_lock [(ThisActive, false); (ThisSwapped, false); (ObjActive, false); (ObjSwapped, false)] (
    act (modify (take_application obj)) (fun _ => finish_prog)).

(** [Process(Process&&)]; [junk] is the application of a process, which the
    constructor does not set *)
Definition Process_move_ctor (obj : Process) (junk : string) : prog Process move_lock :=
  PLock ObjProc LExclusive (
  act (put (set_status (pr_status obj) (set_pr_handle (pr_handle obj) (Process_ctor (pr_name obj) junk (pr_resources obj)))))
    (fun _ => finish_prog)).
(** [operator=(Process&&)] *)
Definition Process_move_assign (self : bool) (obj : Process) : prog Process move_lock :=
  if self then finish_prog
  else
    std_lock [(ThisProc, false); (ObjProc, false)] (
    act (modify (fun this =>
      {| pr_name := pr_name obj; pr_application := pr_application this; pr_status := pr_status obj;
         pr_resources := pr_resources obj; pr_metrics := pr_metrics this; pr_connection := pr_connection this;
         pr_swap := pr_swap this; pr_wait_for_allocation := pr_wait_for_allocation this;
         pr_creation_callback := pr_creation_callback this; pr_handle := pr_handle obj;
         pr_active_invocations := pr_active_invocations this; pr_invocations := pr_invocations this |}))
      (fun _ => finish_prog)).

(** The move constructor of an application ends the program, whatever it moves: its
    [std::lock] throws.  The assignment, which [Resources::add_application] uses
    on a new entry, takes over the name, the resource and the two tables, but not
    the processes of the control plane; the entry is then the one CpApplication.v
    adds for a new application. *)
Theorem application_moves obj this name resource :
  noexcept (alone (Application_move_ctor obj) this) = (Throw terminate, this) /\
  alone (Application_move_assign false obj) this = (Ret tt, take_application obj this) /\
  (forall w, name <> EmptyString -> w_apps w !! name = None ->
     let fresh := MkCpApplication name resource ∅ ∅ [] in
     add_application name resource w =
       (Ret tt, set_w_apps (<[name := (alone (Application_move_assign false fresh) Application_default).2]> (w_apps w)) w)).
Proof.
  split; [reflexivity|]. split; [reflexivity|]. intros w Hn Hw fresh. unfold add_application.
  rewrite (proj2 (Nat.eqb_neq _ _)) by (destruct name; [done|cbn; lia]).
  rewrite (M_bind_eq (gets w_apps) _ w (w_apps w) w eq_refl), Hw. reflexivity.
Qed.

(** ** Run by themselves *)
Ltac run_alone :=
  unfold finish_prog, act, get_process, get_swapped_process, require_status, update_process, update_app, get_app, deref,
    gets, get, modify, put, throw, undef, lift, mret, M_ret, mbind, M_bind;
  cbn; repeat (case_match; simplify_eq/=; try done);
  repeat match goal with u : unit |- _ => destruct u end; try done.

Section alone.
Context `{UuidGenerator} `{StdStod} `{CpConfig}.

Lemma swap_process_alone a name w : alone (swap_process_locked a name) w = swap_process a name w.
Proof. unfold swap_process_locked, swap_process. destruct (_ =? 0); [reflexivity|]. run_alone. Qed.
Lemma swapped_process_alone a name w : alone (swapped_process_locked a name) w = swapped_process a name w.
Proof. unfold swapped_process_locked, swapped_process. run_alone. Qed.
Lemma closed_process_alone p w : alone (closed_process_locked p) w = closed_process p w.
Proof. unfold closed_process_locked, closed_process, close_connection, forget_process. run_alone. Qed.
Lemma delete_process_alone a name w : alone (delete_process_locked a name) w = delete_process a name w.
Proof. unfold delete_process_locked, delete_process. destruct (_ =? 0); [reflexivity|]. run_alone. Qed.

Lemma push_submit p body c f w : (push_invocation p body c f ≫= fun _ => submit_last p) w = add_invocation p body c f w.
Proof. unfold push_invocation, submit_last, add_invocation. run_alone. Qed.

Lemma run_callback_alone cb proc e k w :
  alone (run_callback_locked cb proc e k) w = (run_callback cb proc e ≫= fun _ => alone k) w.
Proof.
  destruct proc as [p|]; [|apply alone_act]. destruct cb as [c|body c f]; [apply alone_act|].
  cbn [run_callback_locked alone run_callback]. rewrite alone_act. unfold mbind at 2, M_bind at 2. rewrite <-push_submit.
  unfold mbind, M_bind. destruct (push_invocation p body c f w) as [[[]| |] w1]; try done. rewrite alone_act.
  unfold mbind, M_bind. destruct (submit_last p w1) as [[[]| |] w2]; done.
Qed.

Lemma created_callback_alone p e k w :
  alone (created_callback_locked p e k) w = (created_callback p e ≫= fun _ => alone k) w.
Proof.
  unfold created_callback_locked. rewrite alone_act. unfold callback_due, created_callback.
  unfold mbind at 1 2 3 4, M_bind at 1 2 3 4, deref, mret, M_ret. destruct (w_heap w !! p) as [x|]; [|done]. cbn.
  destruct (pr_creation_callback x) as [cb|]; [|done].
  assert (forall proc, alone (run_callback_locked cb proc e (act (clear_callback p) (fun _ => k))) w =
    ((run_callback cb proc e ≫= fun _ => clear_callback p) ≫= fun _ => alone k) w) as Hrun.
  { intros proc. rewrite run_callback_alone. unfold mbind, M_bind.
    destruct (run_callback cb proc e w) as [[[]| |] w1]; done. }
  destruct e as [e|]; [apply Hrun|]. destruct (pr_handle x); [|done]. destruct (_ && _); [done|apply Hrun].
Qed.

Lemma connect_status p t w :
  (update_process p (set_pr_connection (Some t)) ≫= fun _ => update_process p (set_status ALLOCATED)) w =
  update_process p (fun x => set_status ALLOCATED (set_pr_connection (Some t) x)) w.
Proof.
  unfold update_process, modify, mbind, M_bind, mret, M_ret. unfold set_w_heap. cbn.
  rewrite alter_alter_eq. reflexivity.
Qed.

Lemma connect_alone p t k w : alone (connect_locked p t k) w = (process_connect p t ≫= fun _ => alone k) w.
Proof.
  unfold connect_locked, process_connect. rewrite alone_act. unfold require_status. rewrite !M_bind_assoc.
  unfold mbind at 1 3, M_bind at 1 3, deref. destruct (w_heap w !! p) as [x|]; [|done].
  destruct (decide _); [|done]. erewrite M_bind_eq by reflexivity. rewrite alone_act, !M_bind_assoc.
  rewrite <-(M_bind_congr _ _ _ _ (connect_status p t w)), M_bind_assoc. apply M_bind_ext. intros _ w1.
  rewrite alone_act. apply M_bind_ext. intros _ w2. rewrite alone_act, M_bind_assoc. apply M_bind_ext. intros _ w3.
  apply created_callback_alone.
Qed.

Lemma add_process_alone a name r cb wait w :
  alone (add_process_locked a name r cb wait) w = add_process a name r cb wait w.
Proof.
  unfold add_process_locked, add_process, check_resources, emplace_process. rewrite alone_act.
  destruct (_ =? 0); [reflexivity|]. ext_bind mem w1. destruct (_ || _); [reflexivity|]. ext_bind cpus w2.
  destruct (_ || _); [reflexivity|]. erewrite M_bind_eq by reflexivity. cbn [alone]. rewrite alone_act.
  ext_bind p w3. ext_bind app w4. destruct (_ !! name); [reflexivity|]. ext_bind u w5.
  erewrite M_bind_eq by reflexivity. cbn [alone]. rewrite alone_act.
  ext_bind u' w6. rewrite alone_act. ext_bind u'' w7. rewrite alone_act. apply M_bind_tt.
Qed.

Lemma get_controlplane_process_alone a r cb w :
  alone (get_controlplane_process_locked a r cb) w = get_controlplane_process a r cb w.
Proof.
  unfold get_controlplane_process_locked, get_controlplane_process. cbn [alone]. rewrite alone_act, M_bind_assoc.
  destruct (w_apps w !! a) as [app|] eqn:Ea.
  2:{ unfold get_app, mbind, M_bind. now rewrite Ea. }
  assert (forall w', w_apps w' = w_apps w -> get_app a w' = (Ret app, w')) as Hg.
  { intros w' E. unfold get_app. now rewrite E, Ea. }
  rewrite !(M_bind_eq _ _ _ _ _ (Hg w eq_refl)), M_bind_assoc. erewrite !(M_bind_eq get) by reflexivity.
  destruct (first_spare w _) as [spare| |] eqn:Es; [|reflexivity..].
  rewrite !(M_bind_eq (lift (Ret spare)) _ w spare w eq_refl). destruct spare as [p|].
  - rewrite run_callback_alone. apply M_bind_tt.
  - cbn [alone]. rewrite alone_act, M_bind_assoc, (M_bind_eq _ _ _ _ _ (Hg w eq_refl)).
    ext_bind p w1. rewrite alone_act. ext_bind u w2. rewrite alone_act. apply M_bind_tt.
Qed.

Lemma post_callback_alone r reply w : alone (post_callback_locked r reply) w = post_callback r reply w.
Proof.
  unfold post_callback_locked, post_callback. rewrite alone_act. apply M_bind_ext. intros x w1.
  destruct (docker_result _ _) as [instance|error].
  - rewrite alone_act. apply M_bind_ext. intros _ w2. rewrite created_callback_alone. apply M_bind_ext. intros _ w3.
    destruct (al_controlplane r); [|reflexivity]. cbn [alone]. rewrite alone_act. apply M_bind_tt.
  - destruct (al_controlplane r).
    + rewrite created_callback_alone. apply M_bind_tt.
    + cbn [alone]. rewrite alone_act. apply M_bind_ext. intros _ w2. rewrite created_callback_alone. apply M_bind_tt.
Qed.

Lemma register_alone t msg w : alone (call_prog (CallRegister t msg)) w = cp_handle_connection t msg w.
Proof.
  cbn [call_prog]. rewrite alone_act. unfold take_pending, cp_handle_connection. rewrite M_bind_assoc.
  apply M_bind_ext. intros pending w1. destruct (pending !! sv_str (process_name msg)) as [p|]; [|reflexivity].
  rewrite !M_bind_assoc. apply M_bind_ext. intros _ w2. rewrite M_bind_assoc. apply M_bind_ext. intros _ w3.
  rewrite M_bind_assoc. apply M_bind_ext. intros x w4. rewrite M_bind_assoc. apply M_bind_ext. intros _ w5.
  erewrite M_bind_eq by reflexivity. cbn [alone]. rewrite connect_alone. apply M_bind_ext. intros _ w6.
  rewrite alone_act. apply M_bind_tt.
Qed.

Lemma disconnected_alone t w : alone (call_prog (CallDisconnected t)) w = handle_disconnection t w.
Proof.
  cbn [call_prog]. rewrite alone_act. unfold disconnected_process, handle_disconnection. rewrite M_bind_assoc.
  apply M_bind_ext. intros _ w1. rewrite M_bind_assoc. apply M_bind_ext. intros contexts w2.
  destruct (contexts !! t) as [data|]; [|reflexivity]. rewrite M_bind_assoc. apply M_bind_ext. intros _ w3.
  erewrite M_bind_eq by reflexivity. apply closed_process_alone.
Qed.

Lemma accessor_alone a m missing k w :
  alone (with_accessor a m missing k) w = match w_apps w !! a with None => missing w | Some _ => alone k w end.
Proof.
  unfold with_accessor. rewrite alone_act, (M_bind_eq (gets w_apps) _ w (w_apps w) w eq_refl).
  destruct (w_apps w !! a); [reflexivity|]. rewrite alone_act. apply M_bind_tt.
Qed.

(** an operation whose exceptions a task may catch *)
Definition same_but_caught (x y : outcome unit * World) : Prop :=
  x.2 = y.2 /\ (x.1 = y.1 \/ exists e, x.1 = Throw e /\ y.1 = Ret tt).

Lemma same_refl x y : x = y -> same_but_caught x y.
Proof. intros ->. split; auto. Qed.

Lemma caught_alone {A} (m : M World unit) (r : A) h w :
  same_but_caught (m w) ((catching (m ≫= fun _ => mret r) h ≫= fun _ => mret tt) w).
Proof.
  unfold same_but_caught, catching, mbind, M_bind, mret, M_ret. destruct (m w) as [[[]|e|] w']; cbn; [auto| |auto].
  destruct (h e); cbn; eauto.
Qed.

(** The programs with locks, run by themselves, are the operations of the other files. *)
Lemma call_prog_alone c w : same_but_caught (alone (call_prog c) w) (call_alone c w).
Proof.
  destruct c as [a name|a name|a|a name r cb|a body k f|t msg|p id rc buf|p time inv ts now|p|t|r reply];
    cbn [call_prog call_alone].
  - rewrite accessor_alone. unfold workers_swap_process. rewrite M_bind_assoc, (M_bind_eq (gets w_apps) _ w (w_apps w) w eq_refl).
    destruct (w_apps w !! a); [|now apply same_refl]. rewrite swap_process_alone. apply caught_alone.
  - rewrite accessor_alone. unfold workers_delete_process. rewrite M_bind_assoc, (M_bind_eq (gets w_apps) _ w (w_apps w) w eq_refl).
    destruct (w_apps w !! a); [|now apply same_refl]. rewrite delete_process_alone. apply caught_alone.
  - rewrite accessor_alone. unfold workers_list_processes, get_processes_locked, get_swapped_processes_locked.
    rewrite M_bind_assoc, (M_bind_eq (gets w_apps) _ w (w_apps w) w eq_refl).
    destruct (w_apps w !! a) as [app|] eqn:Ea; [|now apply same_refl]. apply same_refl. cbn [alone].
    assert (get_app a w = (Ret app, w)) as Hg by (unfold get_app; now rewrite Ea).
    rewrite alone_act, M_bind_assoc, (M_bind_eq _ _ _ _ _ Hg), M_bind_assoc. unfold process_names, mbind, M_bind.
    destruct (mapM _ (map_to_list (ca_active_processes app))); try reflexivity. cbn. rewrite Hg.
    destruct (mapM _ (map_to_list (ca_swapped_processes app))); reflexivity.
  - rewrite accessor_alone. unfold create_process. rewrite M_bind_assoc, (M_bind_eq (gets w_apps) _ w (w_apps w) w eq_refl).
    destruct (w_apps w !! a); [|now apply same_refl]. apply same_refl. rewrite add_process_alone, M_bind_assoc.
    symmetry. apply M_bind_tt.
  - rewrite accessor_alone. unfold workers_handle_invocation. rewrite (M_bind_eq (gets w_apps) _ w (w_apps w) w eq_refl).
    apply same_refl. destruct (w_apps w !! a); [|done]. apply get_controlplane_process_alone.
  - apply same_refl, register_alone.
  - apply same_refl. cbn [alone]. rewrite alone_act. apply M_bind_tt.
  - apply same_refl. cbn [alone]. rewrite alone_act. apply M_bind_tt.
  - apply same_refl. rewrite alone_act. unfold handle_swap. apply M_bind_ext. intros x w1. apply swapped_process_alone.
  - apply same_refl, disconnected_alone.
  - apply same_refl, post_callback_alone.
Qed.
End alone.

(** ** The order of the locks *)

(** without the end of a connection: the table before the process *)
Definition swap_rank (l : cp_lock) : nat :=
  match l with LAccessor _ => 0 | LControlplane _ => 1 | LActive _ => 2 | LProc _ => 3 | LSwapped _ => 4 | LMetrics _ => 5 end.
(** without swapping: the process before the table *)
Definition close_rank (l : cp_lock) : nat :=
  match l with LAccessor _ => 0 | LControlplane _ => 1 | LProc _ => 2 | LActive _ => 3 | LSwapped _ => 4 | LMetrics _ => 5 end.

Definition closes (c : cp_call) : bool := match c with CallDisconnected _ => true | _ => false end.
Definition swaps (c : cp_call) : bool := match c with CallSwap _ _ | CallSwapped _ => true | _ => false end.

Section orderly.
Context `{UuidGenerator} `{StdStod} `{CpConfig}.

(** a failure is told without a lock *)
Lemma failed_callback_orderly rank held n p error k :
  orderly rank held n k -> orderly rank held (S (S (S n))) (created_callback_locked p (Some error) k).
Proof.
  intros Hk. apply orderly_act_ret. intros w due w' E. unfold callback_due, deref, mbind, M_bind in E.
  destruct (w_heap w !! p) as [x|]; [|done]. injection E as <- <-. destruct (pr_creation_callback x) as [cb|].
  - do 2 (apply orderly_act; intros _). exact Hk.
  - apply orderly_weaken with n; [exact Hk|lia].
Qed.

Ltac orderly_go := repeat first
  [ apply orderly_done
  | apply orderly_lock; [repeat constructor; cbn; lia|]
  | apply orderly_unlock; orderly_release
  | apply failed_callback_orderly
  | progress unfold run_callback_locked
  | apply orderly_act; intros ?
  | case_match; simplify_eq ].

Lemma call_orderly c :
  (closes c = false -> orderly swap_rank [] 20 (call_prog c)) /\ (swaps c = false -> orderly close_rank [] 20 (call_prog c)).
Proof.
  split; intros Hc; destruct c; try discriminate Hc; cbn [call_prog];
    unfold with_accessor, swap_process_locked, delete_process_locked, get_processes_locked, get_swapped_processes_locked,
      add_process_locked, get_controlplane_process_locked, swapped_process_locked, closed_process_locked,
      post_callback_locked, connect_locked, run_callback_locked;
    orderly_go.
Qed.

(** the next step of a run, where the others hold no locks *)
Ltac step_act := eapply run_step; [eapply sys_step_act; reflexivity|]; cbn [insert list_insert].
Ltac step_lock := eapply run_step;
  [eapply sys_step_lock; [reflexivity|repeat first [apply List.Forall_nil|apply List.Forall_cons; [done|]]|repeat progress (unfold delete; cbn); rewrite ?spawned_admit; rewrite ?bool_decide_eq_false_2 by done; reflexivity]|];
  cbn [insert list_insert].

(** the calls, each on a thread of its own *)
Definition threads_of (w : World) (calls : list cp_call) : system World cp_lock :=
  {| sy_state := w; sy_threads := spawn <$> (call_prog <$> calls) |}.

(** C16: calls of the control plane that run at the same time never deadlock,
    unless a swap and the end of a connection are among them: however the
    threads are scheduled, the run is bounded, some thread can always go on,
    and the run can be completed until every call has ended. *)
Theorem calls_complete calls w schedule s :
  Forall (fun c => closes c = false) calls \/ Forall (fun c => swaps c = false) calls ->
  run schedule (threads_of w calls) = Some s ->
  length schedule <= length calls * 21 /\ ~ deadlocked s /\
  exists rest s', run rest s = Some s' /\ all_ended s'.
Proof.
  intros Hc Hr. rewrite <-(length_fmap call_prog calls).
  destruct Hc as [Hc|Hc]; [apply (runs_complete swap_rank 20 (call_prog <$> calls) w)|apply (runs_complete close_rank 20 (call_prog <$> calls) w)];
    try exact Hr; apply Forall_fmap; eapply Forall_impl; try exact Hc; intros c Hcc; now apply call_orderly.
Qed.

(** C17: a request to swap a process and the end of its connection can block
    each other for ever: [swap_process] holds the table of the application and
    waits for the process, [closed_process] holds the process and waits for the
    table.  Whatever other threads do, neither ends; the accessor of the
    application and the loop of the connection stay blocked with them. *)
Theorem swap_and_close_deadlock a name t data x app others w :
  name <> EmptyString -> w_apps w !! a = Some app -> ca_active_processes app !! name = Some (cd_process data) ->
  w_contexts w !! t = Some data -> w_heap w !! cd_process data = Some x -> pr_application x = a ->
  pr_status x <> SWAPPED_OUT ->
  exists schedule s, run schedule (threads_of w (CallSwap a name :: CallDisconnected t :: others)) = Some s /\
    forall rest s', run rest s = Some s' -> exists t0 t1,
      sy_threads s' !! 0 = Some t0 /\ sy_threads s' !! 1 = Some t1 /\ ~ ended t0 /\ ~ ended t1 /\
      th_held t0 = [(LActive a, LShared); (LAccessor a, LExclusive)] /\
      th_held t1 = [(LProc (cd_process data), LExclusive)].
Proof.
  intros Hn Ha Hact Ht Hx Happ Hst. exists [0; 0; 0; 0; 1; 1; 1; 1]. eexists.
  assert (get_process a name w = (Ret (cd_process data), w)) as Hget.
  { unfold get_process, get_app, mbind, M_bind. rewrite Ha. cbn. now rewrite Hact. }
  unfold threads_of. cbn [fmap list_fmap call_prog]. unfold with_accessor, swap_process_locked.
  rewrite (proj2 (Nat.eqb_neq _ _)) by (destruct name; [done|cbn; lia]). split.
  - step_act. rewrite Ha. step_lock. step_lock.
    eapply run_step; [eapply sys_step_act; [reflexivity|exact Hget]|]. cbn [insert list_insert].
    eapply run_step; [eapply sys_step_act; [reflexivity|]|]; cbn [insert list_insert].
    { unfold disconnected_process, mbind, M_bind. cbn. rewrite Ht. reflexivity. }
    step_lock.
    eapply run_step; [eapply sys_step_act; [reflexivity|]|]; cbn [insert list_insert].
    { unfold deref. cbn. rewrite Hx. reflexivity. }
    rewrite decide_False by done. step_act. reflexivity.
  - intros rest s' Hr. eapply (embrace 0 1) in Hr as [H0' H1']; [|done|reflexivity|reflexivity|reflexivity|reflexivity|..].
    + do 2 eexists. split; [exact H0'|]. split; [exact H1'|]. cbn.
      split; [intros [? _]; done|]. split; [intros [? _]; done|]. auto.
    + unfold admits. cbn. now rewrite bool_decide_eq_true_2.
    + unfold admits. cbn. rewrite Happ. now rewrite bool_decide_eq_true_2.
Qed.
End orderly.

(** ** Witnesses: an application with a process that runs *)
#[local] Existing Instance demo_uuid.
#[local] Existing Instance demo_stod.
#[local] Existing Instance demo_config.

Definition demo_running : World := run_events (demo_create ++ demo_start) World_init.

Lemma calls_complete_witness :
  exists s, run [0; 1; 0; 1; 1; 1] (threads_of demo_running [CallSwap "app" "proc"; CallSwapped 0]) = Some s /\ ~ deadlocked s.
Proof.
  destruct (run [0; 1; 0; 1; 1; 1] (threads_of demo_running [CallSwap "app" "proc"; CallSwapped 0])) as [s|] eqn:E.
  - exists s. split; [reflexivity|].
    assert (Forall (fun c => closes c = false) [CallSwap "app" "proc"; CallSwapped 0]) as Hc by (repeat constructor).
    exact (proj1 (proj2 (calls_complete [CallSwap "app" "proc"; CallSwapped 0] demo_running _ s (or_introl Hc) E))).
  - exfalso. assert ((if run [0; 1; 0; 1; 1; 1] (threads_of demo_running [CallSwap "app" "proc"; CallSwapped 0])
      then true else false) = true) as Hrun by (vm_compute; reflexivity).
    rewrite E in Hrun. discriminate Hrun.
Defined.

Lemma swap_and_close_deadlock_witness :
  exists schedule s, run schedule (threads_of demo_running [CallSwap "app" "proc"; CallDisconnected 7]) = Some s /\ ~ all_ended s.
Proof.
  destruct (w_contexts demo_running !! 7) as [data|] eqn:Ed; [|vm_compute in Ed; discriminate Ed].
  destruct (w_apps demo_running !! "app") as [ap|] eqn:Ea; [|vm_compute in Ea; discriminate Ea].
  destruct (w_heap demo_running !! cd_process data) as [x|] eqn:Ex;
    [|vm_compute in Ed; injection Ed as <-; vm_compute in Ex; discriminate Ex].
  destruct (swap_and_close_deadlock "app" "proc" 7 data x ap [] demo_running) as (sch&s&Hr&Hs); [discriminate|exact Ea| |exact Ed|exact Ex|..].
  - vm_compute in Ea, Ed. injection Ea as <-. injection Ed as <-. reflexivity.
  - vm_compute in Ed. injection Ed as <-. vm_compute in Ex. injection Ex as <-. reflexivity.
  - vm_compute in Ed. injection Ed as <-. vm_compute in Ex. injection Ex as <-. discriminate.
  - exists sch, s. split; [exact Hr|]. intros He. destruct (Hs [] s eq_refl) as (t0&t1&H0&_&Hne&_).
    apply Hne. exact (Forall_lookup_1 _ _ _ _ He H0).
Defined.
