(* ===== verification/CpRaces.v ===== *)
(** * CpRaces: operations of the control plane that overlap

    [handle_connection], [handle_invocation_result] and the callback of
    [handle_invocation] write [process->write_lock();] as a statement: the lock is
    released before the operation it is meant for, and [created_callback] has no
    lock at all.  What can happen then is shown on schedules of CpThreads.v; an
    access to the process is taken as one step. *)

From S2P Require Import Prelude Memory Messages Controller CpProcess CpApplication CpServer CpInvariant CpProtocol Threads CpThreads.

(** what the two schedules look at: the process, what was sent and answered *)
Record view : Type := MkView {
  v_process : Process; v_sent : list (nat * list byte); v_responses : list (nat * http_response); v_uuids : nat;
}.
Definition shows (p : nat) (v : view) (apps : gmap string CpApplication) (w : World) : Prop :=
  w_heap w !! p = Some (v_process v) /\ w_sent w = v_sent v /\ w_responses w = v_responses v /\ w_uuids w = v_uuids v /\
  w_apps w = apps.

(** [m] returns [a] and changes the view *)
Definition moves {A} (p : nat) (apps : gmap string CpApplication) (m : M World A) (a : A) (v v' : view) : Prop :=
  forall w, shows p v apps w -> exists w', m w = (Ret a, w') /\ shows p v' apps w'.

Definition with_process (f : Process -> Process) (v : view) : view :=
  {| v_process := f (v_process v); v_sent := v_sent v; v_responses := v_responses v; v_uuids := v_uuids v |}.

Lemma shows_update p v apps w f : shows p v apps w ->
  shows p (with_process f v) apps (set_w_heap (alter f p (w_heap w)) w).
Proof. intros (Hp&Hs&Hr&Hu&Ha). unfold shows. cbn. rewrite lookup_alter_eq, Hp. auto. Qed.

Lemma update_moves p apps f v : moves p apps (update_process p f) tt v (with_process f v).
Proof. intros w Hw. eexists. split; [reflexivity|]. now apply shows_update. Qed.

Section races.
Context `{UuidGenerator} `{StdStod} `{CpConfig}.

Lemma require_moves p apps s e v : pr_status (v_process v) = s -> moves p apps (require_status p s e) tt v v.
Proof.
  intros Hs w Hw. exists w. split; [|done]. destruct Hw as (Hp&_).
  unfold require_status. rewrite (M_bind_eq _ _ _ _ _ (deref_some _ _ _ Hp)). now rewrite decide_True.
Qed.

Lemma due_moves p apps due v :
  (forall w, shows p v apps w -> callback_due p None w = (Ret due, w)) -> moves p apps (callback_due p None) due v v.
Proof. intros Hd w Hw. exists w. auto. Qed.

(** an invocation as [add_invocation] stores it *)
Definition new_invocation (n : nat) (body : list byte) (k : nat) (function_name : string) : PInvocation :=
  {| pi_body := body; pi_callback := k; pi_function_name := function_name; pi_invocation_id := uuid_text n; pi_submitted := false |}.

Definition pushed (i : PInvocation) (x : Process) : Process :=
  set_pr_invocations (pr_active_invocations x + 1) (pr_invocations x ++ [i]) x.

Lemma push_moves p apps body k f v :
  moves p apps (push_invocation p body k f) tt v
    {| v_process := pushed (new_invocation (v_uuids v) body k f) (v_process v); v_sent := v_sent v;
       v_responses := v_responses v; v_uuids := S (v_uuids v) |}.
Proof.
  intros w (Hp&Hs&Hr&Hu&Ha). eexists. split; [unfold push_invocation, mbind, M_bind; cbn; reflexivity|].
  unfold shows. cbn. rewrite lookup_alter_eq, Hp, Hu. auto.
Qed.

(** [submit_last] sends the last invocation of the vector, whoever stored it *)
Lemma submit_last_sends p apps t v l i w :
  shows p v apps w -> pr_status (v_process v) = ALLOCATED -> pr_connection (v_process v) = Some t ->
  pr_invocations (v_process v) = l ++ [i] -> invocation_ok i ->
  exists hdr w', invocation_frame i hdr /\ submit_last p w = (Ret tt, w') /\
    shows p {| v_process := set_pr_invocations (pr_active_invocations (v_process v)) (l ++ [set_submitted i]) (v_process v);
               v_sent := v_sent v ++ sent_invocation t hdr i; v_responses := v_responses v; v_uuids := v_uuids v |} apps w'.
Proof.
  intros (Hp&Hs&Hr&Hu&Ha) Hst Ht Hl Hok. assert (pr_invocations (v_process v) !! length l = Some i) as Hj.
  { now rewrite Hl, lookup_app_r, Nat.sub_diag by lia. }
  destruct (send_invocation_run p (length l) w _ t i Hp Ht Hj Hok) as (hdr&Hf&E). exists hdr. eexists.
  split; [exact Hf|]. split.
  - unfold submit_last. rewrite (M_bind_eq _ _ _ _ _ (deref_some _ _ _ Hp)), decide_True by done.
    rewrite Hl, length_app. cbn [length]. replace (length l + 1 - 1) with (length l) by lia. exact E.
  - unfold shows. cbn. rewrite lookup_insert_eq, Hl, Hs.
    replace (length l) with (length l + 0) at 1 by lia. rewrite alter_app_r. auto.
Qed.

(** [run] does a step that [moves] the view *)
Lemma run_moves {A} i (held : list (cp_lock * lmode)) (m : M World A) k a p apps v v' ts w :
  ts !! i = Some {| th_held := held; th_prog := act m k |} -> moves p apps m a v v' -> shows p v apps w ->
  exists w', sys_step i {| sy_state := w; sy_threads := ts |} =
      Some {| sy_state := w'; sy_threads := <[i := {| th_held := held; th_prog := k a |}]> ts |} /\ shows p v' apps w'.
Proof.
  intros Ht Hm Hw. destruct (Hm w Hw) as (w'&E&Hw'). exists w'. split; [|done]. exact (sys_step_act _ _ _ _ _ _ _ _ Ht E).
Qed.

Lemma take_pending_run p v apps t name w :
  shows p v apps w -> w_pending_processes w !! name = Some p ->
  exists w', take_pending t name w = (Ret (Some p), w') /\ shows p v apps w'.
Proof.
  intros Hw Hpend. unfold take_pending. rewrite (M_bind_eq (gets w_pending_processes) _ w (w_pending_processes w) w eq_refl), Hpend.
  erewrite M_bind_eq by reflexivity. erewrite M_bind_eq by reflexivity.
  erewrite M_bind_eq by (unfold deref; cbn; rewrite (proj1 Hw); reflexivity). erewrite M_bind_eq by reflexivity.
  eexists. split; [reflexivity|exact Hw].
Qed.

Lemma send_nothing p v apps w : shows p v apps w -> pr_invocations (v_process v) = [] -> send_invocations p w = (Ret tt, w).
Proof.
  intros (Hp&_) Hn. unfold send_invocations. rewrite (M_bind_eq _ _ _ _ _ (deref_some _ _ _ Hp)), Hn. reflexivity.
Qed.

Lemma due_run p v apps cb h w :
  shows p v apps w -> pr_creation_callback (v_process v) = Some cb -> pr_handle (v_process v) = Some h ->
  pr_status (v_process v) = ALLOCATED -> callback_due p None w = (Ret (Some (cb, Some p)), w).
Proof.
  intros (Hp&_) Hc Hh Hs. unfold callback_due. rewrite (M_bind_eq _ _ _ _ _ (deref_some _ _ _ Hp)), Hc, Hh, Hs.
  rewrite bool_decide_eq_true_2 by done. now rewrite andb_false_r.
Qed.

Lemma spare_run p v apps a app l w :
  shows p v apps w -> apps !! a = Some app -> ca_controlplane_processes app = p :: l ->
  (pr_active_invocations (v_process v) < 1)%Z ->
  (app ← get_app a; w ← get; lift (first_spare w (ca_controlplane_processes app))) w = (Ret (Some p), w).
Proof.
  intros (Hp&_&_&_&Ha) Happ Hl Hact. erewrite M_bind_eq by (unfold get_app; rewrite Ha, Happ; reflexivity).
  erewrite M_bind_eq by reflexivity. rewrite Hl. cbn. rewrite Hp, (proj2 (Z.ltb_lt _ _) Hact). reflexivity.
Qed.

(** C18: an invocation can get lost.  A process that was allocated for one
    invocation registers while a second request picks it: both store their
    invocation before either sends [_invocations.back()].  There is a schedule
    that ends both calls normally, sends the first invocation twice and the second
    one never - it stays in the list, unsent, and its client is not answered. *)
Theorem invocation_lost a p t x ap l msg body k f b0 k0 f0 h w :
  w_apps w !! a = Some ap -> ca_controlplane_processes ap = p :: l -> w_heap w !! p = Some x ->
  (pr_active_invocations x < 1)%Z -> pr_status x = ALLOCATING -> pr_invocations x = [] -> pr_handle x = Some h ->
  pr_creation_callback x = Some (CbInvoke b0 k0 f0) -> w_pending_processes w !! sv_str (process_name msg) = Some p ->
  let i1 := new_invocation (w_uuids w) body k f in
  let i0 := new_invocation (S (w_uuids w)) b0 k0 f0 in
  invocation_ok i0 ->
  exists schedule s, run schedule (threads_of w [CallInvoke a body k f; CallRegister t msg]) = Some s /\
    sy_threads s = [spawn (PDone (Ret tt)); spawn (PDone (Ret tt))] /\
    (exists hdr hdr', invocation_frame i0 hdr /\ invocation_frame i0 hdr' /\
       w_sent (sy_state s) = w_sent w ++ sent_invocation t hdr i0 ++ sent_invocation t hdr' i0) /\
    pr_invocations <$> w_heap (sy_state s) !! p = Some [i1; set_submitted i0] /\ w_responses (sy_state s) = w_responses w.
Proof.
  intros Ha Hl Hx Hact Hst Hinv Hh Hcb Hpend i1 i0 Hok.
  exists ([1;1;1;1;1;1;1;1;1;1] ++ [0;0;0;0;0;0;0] ++ [1;0;1;0;0;1;1]).
  set (v := {| v_process := x; v_sent := w_sent w; v_responses := w_responses w; v_uuids := w_uuids w |}).
  assert (shows p v (w_apps w) w) as Hw by (unfold shows; auto).
  unfold threads_of. cbn [fmap list_fmap call_prog app]. unfold with_accessor, get_controlplane_process_locked.
  destruct (take_pending_run _ _ _ t _ _ Hw Hpend) as (w1&E&Hw1). next_act E. next_lock. next_unlock.
  destruct (require_moves p (w_apps w) ALLOCATING (InvalidProcessState "Can't register process") v Hst w1 Hw1) as (w2&E&Hw2).
  next_act E. destruct (update_moves p (w_apps w) (set_pr_connection (Some t)) v w2 Hw2) as (w3&E&Hw3). next_act E.
  destruct (update_moves p (w_apps w) (set_status ALLOCATED) _ w3 Hw3) as (w4&E&Hw4). next_act E.
  pose proof (send_nothing _ _ _ _ Hw4 Hinv) as E. next_act E.
  pose proof (due_run _ _ _ _ _ _ Hw4 Hcb Hh eq_refl) as E. next_act E. cbn [run_callback_locked]. next_lock. next_unlock.
  (* the second invocation finds the process *)
  eapply run_then; [eapply sys_step_act; reflexivity|]. cbn [insert list_insert].
  assert (w_apps w4 = w_apps w) as Ha4 by apply Hw4. rewrite Ha4, Ha. next_lock. next_lock.
  pose proof (spare_run _ _ _ _ _ _ _ Hw4 Ha Hl Hact) as E. next_act E. cbn [run_callback_locked]. next_lock. next_unlock.
  destruct (push_moves p (w_apps w) body k f _ w4 Hw4) as (w5&E&Hw5). next_act E.
  destruct (push_moves p (w_apps w) b0 k0 f0 _ w5 Hw5) as (w6&E&Hw6). next_act E.
  assert (pr_invocations x ++ [i1] = [i1]) as Hi1 by now rewrite Hinv.
  destruct (submit_last_sends p (w_apps w) t _ [i1] i0 w6 Hw6) as (hdr&w7&Hf&E&Hw7); [reflexivity|reflexivity| |exact Hok|].
  { cbn. now rewrite Hinv. }
  next_act E.
  destruct (submit_last_sends p (w_apps w) t _ [i1] (set_submitted i0) w7 Hw7) as (hdr'&w8&Hf'&E&Hw8);
    [reflexivity|reflexivity|reflexivity|exact Hok|].
  next_act E. next_unlock.
  eapply run_then; [reflexivity|]. cbn [insert list_insert].
  destruct (update_moves p (w_apps w) (fun x => set_pr_callback None (pr_wait_for_allocation x) x) _ w8 Hw8) as (w9&E&Hw9).
  next_act E. eapply run_then; [eapply sys_step_act; reflexivity|]. cbn [insert list_insert].
  eexists. split; [reflexivity|]. destruct Hw9 as (Hp&Hs&Hr&_). split; [reflexivity|]. split_and!.
  - exists hdr, hdr'. split_and!; [exact Hf|exact Hf'|]. cbn. rewrite Hs. cbn. now rewrite <-app_assoc.
  - cbn. now rewrite Hp.
  - cbn. exact Hr.
Qed.

(** [run_callback] of a client that asked for a process *)
Lemma created_answer_run p v apps k h w :
  shows p v apps w -> pr_handle (v_process v) = Some h ->
  exists w', run_callback (CbCreate k) (Some p) None w = (Ret tt, w') /\
    shows p {| v_process := v_process v; v_sent := v_sent v; v_uuids := v_uuids v;
               v_responses := v_responses v ++ [(k, RespProcess (pr_name (v_process v)) (in_ip_address h) (in_port h))] |} apps w'.
Proof.
  intros (Hp&Hs&Hr&Hu&Ha) Hh. eexists. split.
  - cbn [run_callback]. rewrite (M_bind_eq _ _ _ _ _ (deref_some _ _ _ Hp)), Hh. reflexivity.
  - unfold shows. cbn. now rewrite Hp, Hs, Hr.
Qed.

(** C19: the client that created a process can be answered twice: when the reply
    of the back end and the registration of the process overlap, both find that
    process and instance are there and that the callback has not run; there is a
    schedule in which both run it, and both calls end normally. *)
Theorem creation_answered_twice r reply instance p t x msg k w :
  al_process r = p -> al_controlplane r = false -> w_heap w !! p = Some x ->
  docker_result (pr_name x) reply = inl instance -> pr_status x = ALLOCATING -> pr_invocations x = [] ->
  pr_creation_callback x = Some (CbCreate k) -> w_pending_processes w !! sv_str (process_name msg) = Some p ->
  let answer := RespProcess (pr_name x) (in_ip_address instance) (in_port instance) in
  exists schedule s, run schedule (threads_of w [CallAllocated r reply; CallRegister t msg]) = Some s /\
    sy_threads s = [spawn (PDone (Ret tt)); spawn (PDone (Ret tt))] /\
    w_responses (sy_state s) = w_responses w ++ [(k, answer); (k, answer)].
Proof.
  intros <- Hcp Hx Hd Hst Hinv Hcb Hpend answer. set (p := al_process r) in *.
  exists ([0; 0] ++ [1; 1; 1; 1; 1; 1; 1; 1] ++ [0; 0; 1; 0; 1; 1]).
  set (v := {| v_process := x; v_sent := w_sent w; v_responses := w_responses w; v_uuids := w_uuids w |}).
  assert (shows p v (w_apps w) w) as Hw by (unfold shows; auto).
  unfold threads_of. cbn [fmap list_fmap call_prog]. unfold post_callback_locked. fold p.
  pose proof (deref_some _ _ _ Hx) as E. next_act E. rewrite Hd, Hcp.
  assert (exists w1, update_process p (set_pr_handle (Some instance)) w = (Ret tt, w1) /\
    shows p (with_process (set_pr_handle (Some instance)) v) (w_apps w) w1 /\
    w_pending_processes w1 !! sv_str (process_name msg) = Some p) as (w1&E&Hw1&Hpend1).
  { destruct (update_moves p (w_apps w) (set_pr_handle (Some instance)) v w Hw) as (w1&E&Hw1). exists w1.
    split; [exact E|]. split; [exact Hw1|]. injection E as <-. exact Hpend. }
  next_act E. destruct (take_pending_run _ _ _ t _ _ Hw1 Hpend1) as (w2&E&Hw2). next_act E. next_lock. next_unlock.
  destruct (require_moves p (w_apps w) ALLOCATING (InvalidProcessState "Can't register process")
    (with_process (set_pr_handle (Some instance)) v) Hst w2 Hw2) as (w3&E&Hw3).
  next_act E. destruct (update_moves p (w_apps w) (set_pr_connection (Some t)) _ w3 Hw3) as (w4&E&Hw4). next_act E.
  destruct (update_moves p (w_apps w) (set_status ALLOCATED) _ w4 Hw4) as (w5&E&Hw5). next_act E.
  pose proof (send_nothing _ _ _ _ Hw5 Hinv) as E. next_act E.
  pose proof (due_run _ _ _ _ _ _ Hw5 Hcb eq_refl eq_refl) as E. next_act E.
  pose proof (due_run _ _ _ _ _ _ Hw5 Hcb eq_refl eq_refl) as E. next_act E. cbn [run_callback_locked].
  destruct (created_answer_run p _ _ k instance w5 Hw5 eq_refl) as (w6&E&Hw6). next_act E.
  destruct (created_answer_run p _ _ k instance w6 Hw6 eq_refl) as (w7&E&Hw7). next_act E.
  set (clear := fun x => set_pr_callback None (pr_wait_for_allocation x) x).
  destruct (update_moves p (w_apps w) clear _ w7 Hw7) as (w8&E&Hw8). next_act E.
  destruct (update_moves p (w_apps w) clear _ w8 Hw8) as (w9&E&Hw9). next_act E.
  eapply run_then; [eapply sys_step_act; reflexivity|]. cbn [insert list_insert].
  eexists. split; [reflexivity|]. split; [reflexivity|]. destruct Hw9 as (_&_&Hr&_). cbn. rewrite Hr. cbn.
  now rewrite <-app_assoc.
Qed.
End races.

(** ** Witnesses *)
#[local] Existing Instance demo_uuid.
#[local] Existing Instance demo_stod.
#[local] Existing Instance demo_config.

(** a process was allocated for an invocation, and has not registered yet *)
Definition demo_allocated : World :=
  run_events [EvCreateApp 1 "app" "image"; EvInvoke [x61] 2 "app" "f"; EvLoopTask;
              EvPostCompleted 0 (ReplyCreated "c0" "10.0.0.5" 8000)] World_init.
Definition demo_registers (name : string) : ProcessConnection :=
  match parse (from_ret [] (encode (WProcessConnection name))) with Ret (VProcessConnection m) => m | _ => ProcessConnectionData end.

Lemma invocation_lost_witness :
  exists schedule s, run schedule (threads_of demo_allocated [CallInvoke "app" [x62] 3 "g"; CallRegister 7 (demo_registers "controlplane-0")]) = Some s /\
    (pr_invocations <$> w_heap (sy_state s) !! 0) =
      Some [new_invocation 0 [x62] 3 "g"; set_submitted (new_invocation 1 [x61] 2 "f")].
Proof.
  destruct (w_apps demo_allocated !! "app") as [ap|] eqn:Ea; [|vm_compute in Ea; discriminate Ea].
  destruct (w_heap demo_allocated !! 0) as [x|] eqn:Ex; [|vm_compute in Ex; discriminate Ex].
  assert (ca_controlplane_processes ap = [0]) as Hl by (vm_compute in Ea; injection Ea as <-; reflexivity).
  vm_compute in Ex. pose proof Ex as Ex'. injection Ex' as Ex'.
  destruct (invocation_lost "app" 0 7 x ap [] (demo_registers "controlplane-0") [x62] 3 "g" [x61] 2 "f"
    {| in_ip_address := "10.0.0.5"; in_port := 8000; in_container_id := "c0" |} demo_allocated Ea Hl)
    as (sch&s&Hr&_&_&Hp&_); try (subst x; reflexivity).
  - split_and!; [split; [apply (bool_decide_eq_true_1 _); vm_compute; reflexivity|apply Nat.leb_le; reflexivity]..|cbn; lia].
  - exists sch, s. split; [exact Hr|exact Hp].
Defined.

Definition demo_requested_again : World := run_events [EvLoopTask] (run_events demo_create World_init).

Lemma creation_answered_twice_witness :
  exists schedule s r, w_posts demo_requested_again !! 0 = Some r /\
    run schedule (threads_of demo_requested_again
      [CallAllocated r (ReplyCreated "c0" "10.0.0.5" 8000); CallRegister 7 (demo_registers "proc")]) = Some s /\
    w_responses (sy_state s) = w_responses demo_requested_again ++
      [(2, RespProcess "proc" "10.0.0.5" 8000); (2, RespProcess "proc" "10.0.0.5" 8000)].
Proof.
  destruct (w_posts demo_requested_again !! 0) as [r|] eqn:Er; [|vm_compute in Er; discriminate Er].
  destruct (w_heap demo_requested_again !! 0) as [x|] eqn:Ex; [|vm_compute in Ex; discriminate Ex].
  vm_compute in Er. injection Er as Er'. vm_compute in Ex. pose proof Ex as Ex'. injection Ex' as Ex'.
  destruct (creation_answered_twice r (ReplyCreated "c0" "10.0.0.5" 8000)
    {| in_ip_address := "10.0.0.5"; in_port := 8000; in_container_id := "c0" |} 0 7 x (demo_registers "proc") 2 demo_requested_again)
    as (sch&s&Hr&_&Hp); try (subst r x; reflexivity).
  - exists sch, s, r. split; [reflexivity|]. split; [exact Hr|]. rewrite Hp. subst x. reflexivity.
Defined.
