(* ===== verification/CpPool.v ===== *)
(** * CpPool: the workers' pool of the control plane

    [worker.hpp] and the other half of [http.cpp]: a handler of the HTTP server
    answers at once what it can answer at once, and leaves the rest as a task to
    the threads of a pool, where it waits for its turn while other requests, the
    replies of the back end and the connections of processes are served.  The
    events of CpServer.v are the special case of a pool that is idle
    ([request_at_once]); here the tasks wait and run in any order.

    A task is one step, as in CpServer.v; CpThreads.v is about tasks that
    overlap.  The pool itself is a library: of it we only assume that each task
    is run once by one of its threads, in whatever order they start them. *)

From S2P Require Import Prelude Memory Messages CpProcess CpApplication CpServer CpInvariant.

(** What the pool does with an exception that a task lets out: it goes on, or the
    thread has no handler for it and the program ends. *)
Class ThreadPool : Type := { pool_catches : bool }.

(** ** Requests and tasks *)
Inductive http_request : Type :=
  | ReqCreateApp (k : client) (app_name cloud_resource_name : string)
  | ReqCreateProcess (k : client) (app_name process_name vcpus_str memory_str : string)
  | ReqInvoke (body : list byte) (k : client) (app_name function_name : string)
  | ReqDeleteProcess (k : client) (app_name process_name : string)
  | ReqSwapProcess (k : client) (app_name process_name : string)
  | ReqListProcesses (k : client) (app_name : string).

(** a closure of [add_task] *)
Inductive cp_task : Type :=
  | TaskCreateApp (k : client) (app_name cloud_resource_name : string)
  | TaskCreateProcess (app_name proc_id : string) (resources : PResources) (callback : creation_callback)
  | TaskInvoke (body : list byte) (k : client) (app_id function_name : string)
  | TaskDeleteProcess (k : client) (app_name process_name : string)
  | TaskSwapProcess (k : client) (app_name process_name : string)
  | TaskListProcesses (k : client) (app_name : string).

(** the event of CpServer.v *)
Definition request_event (r : http_request) : cp_event :=
  match r with
  | ReqCreateApp k app resource => EvCreateApp k app resource
  | ReqCreateProcess k app name vcpus memory => EvCreateProcess k app name vcpus memory
  | ReqInvoke body k app fname => EvInvoke body k app fname
  | ReqDeleteProcess k app name => EvDeleteProcess k app name
  | ReqSwapProcess k app name => EvSwapProcess k app name
  | ReqListProcesses k app => EvListProcesses k app
  end.
Definition is_request (e : cp_event) : bool :=
  match e with
  | EvCreateApp _ _ _ | EvCreateProcess _ _ _ _ _ | EvInvoke _ _ _ _ | EvDeleteProcess _ _ _ | EvSwapProcess _ _ _
  | EvListProcesses _ _ => true
  | _ => false
  end.

Section pool.
Context `{UuidGenerator} `{StdStod} `{CpConfig} `{ThreadPool}.

(** The handlers of the HTTP server: what they answer themselves, and the tasks
    they add.  [create_process] has no [return] behind its answer. *)
Definition http_handler (r : http_request) : M World (list cp_task) :=
  match r with
  | ReqCreateApp k app resource =>
      if String.length resource =? 0
      then respond k (RespFailed "Missing arguments!" 500) ≫= fun _ => mret []
      else mret [TaskCreateApp k app resource]
  | ReqCreateProcess k app name vcpus_str memory_str =>
      (if (String.length vcpus_str =? 0) || (String.length memory_str =? 0)
       then respond k (RespFailed "Missing arguments!" 500) else mret tt) ≫= fun _ =>
      mret [TaskCreateProcess app name {| vcpus := vcpus_str; memory := memory_str; sandbox_id := EmptyString |} (CbCreate k)]
  | ReqInvoke body k app fname => mret [TaskInvoke body k app fname]
  | ReqDeleteProcess k app name => mret [TaskDeleteProcess k app name]
  | ReqSwapProcess k app name => mret [TaskSwapProcess k app name]
  | ReqListProcesses k app => mret [TaskListProcesses k app]
  end.

(** the body of a task *)
Definition run_task (t : cp_task) : M World unit :=
  match t with
  | TaskCreateApp k app resource =>
      created ← create_application app resource;
      respond k (if created : bool then RespCorrect "Created" else RespFailed "Failed to create" 500)
  | TaskCreateProcess app name resources callback =>
      _ ← create_process app name resources callback;
      mret tt
  | TaskInvoke body k app fname => workers_handle_invocation body k app fname
  | TaskDeleteProcess k app name => http_delete_process k app name
  | TaskSwapProcess k app name => http_swap_process k app name
  | TaskListProcesses k app => http_list_processes k app
  end.

(** ** The pool *)
Record CpWorkers : Type := MkCpWorkers {
  cw_world : World;
  cw_tasks : list cp_task;
  cw_threads : list (option cp_task);
  cw_ended : bool;
}.
Definition set_cw_world (x : World) (s : CpWorkers) : CpWorkers :=
  {| cw_world := x; cw_tasks := cw_tasks s; cw_threads := cw_threads s; cw_ended := cw_ended s |}.

(** [Workers(config, ...)]: [threads] threads that wait *)
Definition CpWorkers_ctor (threads : nat) (w : World) : CpWorkers :=
  {| cw_world := w; cw_tasks := []; cw_threads := replicate threads None; cw_ended := false |}.

(** [add_task]; the first argument, [this], is left out *)
Definition add_task (t : cp_task) (s : CpWorkers) : CpWorkers :=
  {| cw_world := cw_world s; cw_tasks := cw_tasks s ++ [t]; cw_threads := cw_threads s; cw_ended := cw_ended s |}.

(** the thread [i], which is idle, takes the task at [j] *)
Definition take_task (i j : nat) (s : CpWorkers) : option CpWorkers :=
  match cw_threads s !! i, cw_tasks s !! j with
  | Some None, Some t =>
      Some {| cw_world := cw_world s; cw_tasks := delete j (cw_tasks s); cw_threads := <[i := Some t]> (cw_threads s); cw_ended := cw_ended s |}
  | _, _ => None
  end.

(** a thread runs its task *)
Definition run_thread (i : nat) (s : CpWorkers) : option (outcome unit * CpWorkers) :=
  match cw_threads s !! i with
  | Some (Some t) =>
      let '(r, w) := run_task t (cw_world s) in
      Some (r, {| cw_world := w; cw_tasks := cw_tasks s; cw_threads := <[i := None]> (cw_threads s);
                  cw_ended := match r with Throw _ => negb pool_catches | _ => cw_ended s end |})
  | _ => None
  end.

(** ** The control plane with its pool *)
Inductive pool_event : Type :=
  | PoolRequest (r : http_request)
  | PoolTake (i j : nat)
  | PoolRun (i : nat)
  | PoolOther (e : cp_event).

(** none: the event cannot happen in this state *)
Definition pool_step (e : pool_event) (s : CpWorkers) : option (outcome unit * CpWorkers) :=
  if cw_ended s then None
  else match e with
  | PoolRequest r =>
      match http_handler r (cw_world s) with
      | (Ret ts, w) => Some (Ret tt, foldl (fun s t => add_task t s) (set_cw_world w s) ts)
      | (Throw e, w) => Some (Throw e, set_cw_world w s)
      | (Undef, w) => Some (Undef, set_cw_world w s)
      end
  | PoolTake i j => s' ← take_task i j s; Some (Ret tt, s')
  | PoolRun i => run_thread i s
  | PoolOther e => if is_request e then None else let '(r, w) := handle e (cw_world s) in Some (r, set_cw_world w s)
  end.

(** a sequence of events, none of which has undefined behaviour *)
Fixpoint pool_run (es : list pool_event) (s : CpWorkers) : option CpWorkers :=
  match es with
  | [] => Some s
  | e :: es' =>
      match pool_step e s with
      | None | Some (Undef, _) => None
      | Some (_, s') => pool_run es' s'
      end
  end.

(** the tasks in the hands of the threads *)
Definition busy (s : CpWorkers) : list cp_task := omap id (cw_threads s).

(** the tasks that an event adds, has a thread take, and runs *)
Definition added_by (e : pool_event) (s : CpWorkers) : list cp_task :=
  match e with PoolRequest r => match (http_handler r (cw_world s)).1 with Ret ts => ts | _ => [] end | _ => [] end.
Definition taken_by (e : pool_event) (s : CpWorkers) : list cp_task :=
  match e with PoolTake _ j => option_list (cw_tasks s !! j) | _ => [] end.
Definition ran_by (e : pool_event) (s : CpWorkers) : list cp_task :=
  match e with PoolRun i => match cw_threads s !! i with Some (Some t) => [t] | _ => [] end | _ => [] end.
Fixpoint tasks_of (f : pool_event -> CpWorkers -> list cp_task) (es : list pool_event) (s : CpWorkers) : list cp_task :=
  match es with
  | [] => []
  | e :: es' => f e s ++ match pool_step e s with Some (_, s') => tasks_of f es' s' | None => [] end
  end.

(** ** The events of CpServer.v *)

(** a request whose task runs at once is the event of CpServer.v *)
Lemma handler_then_task r w : (ts ← http_handler r; for_each run_task ts) w = handle (request_event r) w.
Proof.
  destruct r as [k app resource|k app name vcpus_str memory_str|body k app fname|k app name|k app name|k app];
    cbn [http_handler request_event handle]; try (erewrite M_bind_eq by reflexivity; apply M_bind_tt).
  - unfold http_create_app. destruct (_ =? 0).
    + rewrite M_bind_assoc. erewrite !M_bind_eq by reflexivity. reflexivity.
    + erewrite M_bind_eq by reflexivity. apply M_bind_tt.
  - unfold http_create_process. ext_bind u w1. erewrite M_bind_eq by reflexivity. apply M_bind_tt.
Qed.

Lemma add_tasks ts : forall s, foldl (fun s t => add_task t s) s ts =
  {| cw_world := cw_world s; cw_tasks := cw_tasks s ++ ts; cw_threads := cw_threads s; cw_ended := cw_ended s |}.
Proof.
  induction ts as [|t ts IH]; intros [w q th e]; cbn [foldl].
  - now rewrite app_nil_r.
  - rewrite IH. cbn. now rewrite <-app_assoc.
Qed.

(** the handlers neither throw nor have undefined behaviour, and add one task at most *)
Lemma http_handler_adds r w : exists ts w', http_handler r w = (Ret ts, w') /\ length ts <= 1.
Proof.
  destruct r as [k app resource|k app name vcpus_str memory_str|body k app fname|k app name|k app name|k app]; cbn [http_handler].
  - destruct (_ =? 0); eexists _, _; (split; [reflexivity|cbn; lia]).
  - destruct (_ || _)%bool; eexists _, _; (split; [reflexivity|cbn; lia]).
  - eexists _, _; split; [reflexivity|cbn; lia].
  - eexists _, _; split; [reflexivity|cbn; lia].
  - eexists _, _; split; [reflexivity|cbn; lia].
  - eexists _, _; split; [reflexivity|cbn; lia].
Qed.

(** ** What a step keeps *)
Lemma http_handler_sound r : sound False (http_handler r).
Proof.
  destruct r; cbn [http_handler]; try apply sound_ret.
  - destruct (_ =? 0); [|apply sound_ret]. apply sound_bind; [apply sound_respond|intros; apply sound_ret].
  - apply sound_bind; [|intros; apply sound_ret]. destruct (_ || _)%bool; [apply sound_respond|apply sound_ret].
Qed.

Lemma create_process_sound app name resources callback : sound False (create_process app name resources callback).
Proof.
  intros w Hw. apply good_bind; [now apply good_same|]. intros apps w1 E _ _. injection E as <- <-.
  destruct (w_apps w !! app) eqn:Ea; [|now apply good_same].
  apply good_bind; [apply add_process_sound; eauto|]. intros. now apply sound_ret.
Qed.

Lemma create_application_sound app resource : sound False (create_application app resource).
Proof.
  intros w Hw. apply good_catching. apply good_bind; [now apply add_application_sound|].
  intros _ w1 _ Hw1 _. now apply sound_ret.
Qed.

Lemma run_task_sound t : sound False (run_task t).
Proof.
  destruct t; cbn [run_task].
  - apply sound_bind; [apply create_application_sound|intros; apply sound_respond].
  - apply sound_bind; [apply create_process_sound|intros; apply sound_ret].
  - apply workers_handle_invocation_sound.
  - apply http_delete_process_sound.
  - apply http_swap_process_sound.
  - apply http_list_processes_sound.
Qed.

Definition pool_allocation_failed (e : pool_event) : Prop := match e with PoolOther e => allocation_failed e | _ => False end.

(** a step of the pool is sound for the tables *)
Lemma pool_step_sound e s o s' :
  cp_inv (cw_world s) -> pool_step e s = Some (o, s') ->
  match o with Undef => pool_allocation_failed e | _ => cp_inv (cw_world s') /\ evolves (cw_world s) (cw_world s') end.
Proof.
  intros Hw. unfold pool_step. destruct (cw_ended s); [done|]. destruct e as [r|i j|i|e]; cbn [pool_allocation_failed].
  - pose proof (http_handler_sound r _ Hw) as Hg. unfold good in Hg. destruct (http_handler r (cw_world s)) as [[ts|e|] w1];
      intros [= <- <-]; [rewrite add_tasks|..]; exact Hg.
  - unfold take_task. destruct (cw_threads s !! i) as [[t|]|]; [done| |done]. destruct (cw_tasks s !! j); [|done].
    intros [= <- <-]. split; [exact Hw|apply evolves_refl].
  - unfold run_thread. destruct (cw_threads s !! i) as [[t|]|]; [|done..].
    pose proof (run_task_sound t _ Hw) as Hg. unfold good in Hg. destruct (run_task t (cw_world s)) as [[[]|e|] w1];
      intros [= <- <-]; exact Hg.
  - destruct (is_request e); [done|]. pose proof (handle_sound e _ Hw) as Hg. unfold good in Hg.
    destruct (handle e (cw_world s)) as [[[]|x|] w1]; intros [= <- <-]; exact Hg.
Qed.

(** where the tasks are, after a step: each in one place *)
Lemma busy_insert i o (ts : list (option cp_task)) t :
  ts !! i = Some t -> option_list t ++ omap id (<[i := o]> ts) ≡ₚ option_list o ++ omap id ts.
Proof.
  revert i. induction ts as [|x ts IH]; intros [|i]; cbn; [done|done| |].
  - intros [= ->]. destruct t, o; cbn; [apply perm_swap|reflexivity..].
  - intros Hi. specialize (IH i Hi). destruct x; cbn; [|exact IH]. rewrite <-!Permutation_middle. now rewrite IH.
Qed.

Lemma pool_step_tasks e s o s' :
  pool_step e s = Some (o, s') ->
  taken_by e s ++ cw_tasks s' ≡ₚ cw_tasks s ++ added_by e s /\
  ran_by e s ++ busy s' ≡ₚ busy s ++ taken_by e s /\ length (cw_threads s') = length (cw_threads s).
Proof.
  unfold pool_step. destruct (cw_ended s); [done|]. destruct e as [r|i j|i|e]; cbn [added_by taken_by ran_by].
  - destruct (http_handler_adds r (cw_world s)) as (ts&w1&E&_). rewrite E. intros [= <- <-]. rewrite add_tasks. cbn.
    split_and!; [done|now rewrite app_nil_r|done].
  - unfold take_task. destruct (cw_threads s !! i) as [[t|]|] eqn:Ei; [done| |done]. destruct (cw_tasks s !! j) as [t|] eqn:Et; [|done].
    intros [= <- <-]. cbn [cw_tasks cw_threads option_list]. unfold busy. cbn [cw_threads]. split_and!.
    + rewrite app_nil_r. symmetry. now apply delete_Permutation.
    + pose proof (busy_insert i (Some t) _ None Ei) as Hb. cbn in Hb. cbn [app]. rewrite Hb. apply Permutation_cons_append.
    + apply length_insert.
  - unfold run_thread. destruct (cw_threads s !! i) as [[t|]|] eqn:Ei; [|done..].
    destruct (run_task t (cw_world s)) as [r w1]. intros [= <- <-]. cbn [cw_tasks cw_threads]. unfold busy. cbn [cw_threads].
    rewrite !app_nil_r. split_and!; [done|exact (busy_insert i None _ (Some t) Ei)|apply length_insert].
  - destruct (is_request e); [done|]. destruct (handle e (cw_world s)) as [r w1]. intros [= <- <-]. cbn.
    rewrite !app_nil_r. now split_and!.
Qed.

Lemma pool_run_sound es : forall s s',
  cp_inv (cw_world s) -> pool_run es s = Some s' -> cp_inv (cw_world s') /\ evolves (cw_world s) (cw_world s').
Proof.
  induction es as [|e es IH]; intros s s' Hw; cbn [pool_run].
  - intros [= <-]. auto using evolves_refl.
  - destruct (pool_step e s) as [[o s1]|] eqn:E; [|done]. pose proof (pool_step_sound e s o s1 Hw E) as Hs.
    destruct o as [[]|x|]; [| |done]; destruct Hs as [Hw1 Hev1]; intros Hr; destruct (IH _ _ Hw1 Hr) as [Hw' Hev'];
      (split; [done|eapply evolves_trans; eauto]).
Qed.

Lemma pool_run_threads es : forall s s', pool_run es s = Some s' -> length (cw_threads s') = length (cw_threads s).
Proof.
  induction es as [|e es IH]; intros s s'; cbn [pool_run]; [now intros [= <-]|].
  destruct (pool_step e s) as [[o s1]|] eqn:E; [|done]. destruct (pool_step_tasks _ _ _ _ E) as (_&_&Hl).
  destruct o as [[]|x|]; [| |done]; intros Hr; rewrite <-Hl; eauto.
Qed.

(** The tables of the control plane are safe however the tasks of its pool wait and
    run.  After any requests, steps of the pool's threads, replies of the back
    end, and messages and disconnections of processes, in any order, the
    invariant of the control plane holds; processes follow their state machine;
    and no further event has undefined behaviour, unless it is the failure of
    an allocation. *)
Theorem pool_invariant n es s :
  pool_run es (CpWorkers_ctor n World_init) = Some s ->
  cp_inv (cw_world s) /\
  (forall e s', pool_step e s = Some (Undef, s') -> pool_allocation_failed e) /\
  (forall es' s' p x, pool_run es' s = Some s' -> w_heap (cw_world s) !! p = Some x ->
     exists x', w_heap (cw_world s') !! p = Some x' /\ pr_name x' = pr_name x /\ pr_application x' = pr_application x /\
       star status_edge (pr_status x) (pr_status x')).
Proof.
  intros Hr. destruct (pool_run_sound _ (CpWorkers_ctor n World_init) _ cp_inv_init Hr) as [Hw _]. split_and!; [done| |].
  - intros e s' E. exact (pool_step_sound e s Undef s' Hw E).
  - intros es' s' p x Hr' Hp. destruct (pool_run_sound _ _ _ Hw Hr') as [_ Hev]. now apply Hev.
Qed.

(** The pool loses no task and runs none twice. *)
Theorem pool_runs_tasks_once es : forall s s',
  pool_run es s = Some s' ->
  tasks_of taken_by es s ++ cw_tasks s' ≡ₚ cw_tasks s ++ tasks_of added_by es s /\
  tasks_of ran_by es s ++ busy s' ≡ₚ busy s ++ tasks_of taken_by es s.
Proof.
  induction es as [|e es IH]; intros s s'; cbn [pool_run tasks_of].
  - intros [= <-]. now rewrite !app_nil_r.
  - destruct (pool_step e s) as [[o s1]|] eqn:E; [|done]. destruct (pool_step_tasks _ _ _ _ E) as (X1&X2&_). intros Hr.
    destruct (IH s1 s') as [IH1 IH2]; [destruct o as [[]|x|]; [exact Hr|exact Hr|discriminate Hr]|]. split.
    + rewrite <-app_assoc, IH1, !app_assoc. now rewrite X1.
    + rewrite <-app_assoc, IH2, !app_assoc. now rewrite X2.
Qed.

(** A pool that takes the first task that waits starts them in the order in which
    the requests added them. *)
Definition takes_first (e : pool_event) : Prop := match e with PoolTake _ j => j = 0 | _ => True end.
Theorem pool_in_order es : forall s s',
  Forall takes_first es -> pool_run es s = Some s' ->
  tasks_of taken_by es s ++ cw_tasks s' = cw_tasks s ++ tasks_of added_by es s.
Proof.
  induction es as [|e es IH]; intros s s' Hf; cbn [pool_run tasks_of].
  - intros [= <-]. now rewrite app_nil_r.
  - apply List.Forall_cons_iff in Hf as [He Hf]. destruct (pool_step e s) as [[o s1]|] eqn:E; [|done]. intros Hr.
    assert (taken_by e s ++ cw_tasks s1 = cw_tasks s ++ added_by e s) as X1.
    { clear Hr. unfold pool_step in E. destruct (cw_ended s); [done|]. destruct e as [r|i j|i|e]; cbn [taken_by added_by] in *.
      - destruct (http_handler_adds r (cw_world s)) as (ts&w1&Eh&_). rewrite Eh in *. injection E as <- <-. now rewrite add_tasks.
      - cbn in He. subst j. unfold take_task in E. destruct (cw_threads s !! i) as [[t|]|]; [done| |done].
        destruct (cw_tasks s) as [|t ts]; [done|]. injection E as <- <-. cbn. now rewrite app_nil_r.
      - unfold run_thread in E. destruct (cw_threads s !! i) as [[t|]|]; [|done..].
        destruct (run_task t (cw_world s)). injection E as <- <-. cbn. now rewrite app_nil_r.
      - destruct (is_request e); [done|]. destruct (handle e (cw_world s)). injection E as <- <-. cbn. now rewrite app_nil_r. }
    rewrite <-app_assoc, (IH s1 s' Hf), !app_assoc; [now rewrite X1|]. destruct o as [[]|x|]; [exact Hr|exact Hr|discriminate Hr].
Qed.

(** ** Every task runs *)
Definition pool_internal (e : pool_event) : Prop := match e with PoolTake _ _ | PoolRun _ => True | _ => False end.

(** the steps that are left *)
Definition work_left (s : CpWorkers) : nat := 2 * length (cw_tasks s) + length (busy s).

Lemma internal_step e s o s' : pool_internal e -> pool_step e s = Some (o, s') -> work_left s = S (work_left s').
Proof.
  intros He E. destruct (pool_step_tasks _ _ _ _ E) as (X1%Permutation_length&X2%Permutation_length&_).
  rewrite !length_app in *. unfold work_left. unfold pool_step in E. destruct (cw_ended s); [done|].
  destruct e as [r|i j|i|e]; try done; cbn [added_by taken_by ran_by] in *; cbn [length] in *.
  - unfold take_task in E. destruct (cw_threads s !! i) as [[t|]|]; [done| |done]. destruct (cw_tasks s !! j) as [t|]; [|done].
    cbn in *. lia.
  - unfold run_thread in E. destruct (cw_threads s !! i) as [[t|]|]; [|done..]. cbn in *. rewrite ?take_0 in *. cbn in *. lia.
Qed.

Lemma pool_progress s :
  cw_ended s = false -> 0 < length (cw_threads s) -> 0 < work_left s ->
  exists e o s', pool_internal e /\ pool_step e s = Some (o, s').
Proof.
  intros He Hn Hl. destruct (decide (Exists (fun t => t <> None) (cw_threads s))) as [Hb|Hb].
  - apply Exists_exists in Hb as ([t|]&[i Hi]%list_elem_of_In%list_elem_of_lookup&Ht); [|done].
    destruct (run_task t (cw_world s)) as [r w] eqn:E. exists (PoolRun i). eexists _, _. split; [done|].
    unfold pool_step, run_thread. rewrite He, Hi, E. reflexivity.
  - assert (Forall (fun t => t = None) (cw_threads s)) as Hall.
    { apply list.Forall_forall. intros [t|] Hin; [|done]. exfalso. apply Hb, Exists_exists. exists (Some t). split; [|done].
      now apply list_elem_of_In. }
    assert (busy s = []) as Hbusy.
    { unfold busy. clear -Hall. induction Hall as [|t ts -> _ IH]; [done|exact IH]. }
    unfold work_left in Hl. rewrite Hbusy in Hl. cbn in Hl. destruct (cw_tasks s) as [|t ts] eqn:Et; [cbn in Hl; lia|].
    destruct (cw_threads s) as [|t0 ths] eqn:Eth; [cbn in Hn; lia|]. apply List.Forall_cons_iff in Hall as [-> _].
    exists (PoolTake 0 0). eexists _, _. split; [done|]. unfold pool_step, take_task. rewrite He, Et, Eth. reflexivity.
Qed.

Lemma pool_drains_from k : forall s, work_left s = k -> cp_inv (cw_world s) -> 0 < length (cw_threads s) ->
  exists es s', Forall pool_internal es /\ pool_run es s = Some s' /\ (cw_ended s' = true \/ work_left s' = 0).
Proof.
  induction k as [|k IH]; intros s Hk Hw Hn.
  - exists [], s. split_and!; [constructor|done|by right].
  - destruct (cw_ended s) eqn:He; [exists [], s; split_and!; [constructor|done|by left]|].
    destruct (pool_progress s He Hn ltac:(lia)) as (e&o&s1&Hi&E). pose proof (internal_step _ _ _ _ Hi E) as Hl.
    pose proof (pool_step_sound e s o s1 Hw E) as Hs.
    assert (o <> Undef) as Ho by (intros ->; now destruct e).
    destruct (IH s1) as (es&s'&Hes&Hr&Hd); [lia|now destruct o as [[]|x|]|now rewrite (proj2 (proj2 (pool_step_tasks _ _ _ _ E)))|].
    exists (e :: es), s'. split_and!; [by constructor| |done]. cbn [pool_run]. rewrite E. now destruct o as [[]|x|].
Qed.


(** A request that finds the pool idle, when nothing else happens until its task has
    run, is the event of CpServer.v: the same state, and the same outcome. *)
Theorem request_at_once r s i :
  cw_ended s = false -> cw_tasks s = [] -> cw_threads s !! i = Some None -> cp_inv (cw_world s) ->
  exists es s', pool_run es s = Some s' /\ cw_world s' = (handle (request_event r) (cw_world s)).2 /\
    cw_tasks s' = [] /\ cw_threads s' = cw_threads s /\
    cw_ended s' = match (handle (request_event r) (cw_world s)).1 with Throw _ => negb pool_catches | _ => false end.
Proof.
  intros He Ht Hi Hw. rewrite <-(handler_then_task r (cw_world s)).
  destruct (http_handler_adds r (cw_world s)) as (ts&w1&E&Hlen). rewrite (M_bind_eq _ _ _ _ _ E).
  assert (pool_step (PoolRequest r) s = Some (Ret tt, {| cw_world := w1; cw_tasks := ts; cw_threads := cw_threads s; cw_ended := false |})) as Es.
  { unfold pool_step. rewrite He, E, add_tasks. cbn. now rewrite Ht, He. }
  pose proof (pool_step_sound _ _ _ _ Hw Es) as [Hw1 _]. cbn [cw_world] in Hw1.
  destruct ts as [|t [|]]; [| |cbn in Hlen; lia].
  - eexists [PoolRequest r], _. cbn [pool_run]. rewrite Es. cbn. now split_and!.
  - pose proof (run_task_sound t w1 Hw1) as Hg. unfold good in Hg. exists [PoolRequest r; PoolTake i 0; PoolRun i].
    cbn [pool_run]. rewrite Es. unfold pool_step at 1, take_task. cbn [cw_ended cw_threads cw_tasks]. rewrite Hi. change ([t] !! 0) with (Some t). cbn [mbind option_bind].
    unfold pool_step, run_thread. cbn [cw_ended cw_threads cw_world cw_tasks].
    rewrite list_lookup_insert_eq by (eapply lookup_lt_Some; eauto).
    assert (for_each run_task [t] w1 = run_task t w1) as -> by apply M_bind_tt. destruct (run_task t w1) as [[[]|x|] w2]; [| |done];
      (eexists; split; [reflexivity|]; cbn; rewrite list_insert_insert_eq, list_insert_id by done; now split_and!).
Qed.

(** ** A task that throws *)

(** the resources that [Application::add_process] accepts *)
Definition resources_accepted (r : PResources) : Prop := exists mem cpus,
  stod (memory r) = Some mem /\ double_le mem 0 = false /\ double_gt mem max_memory = false /\
  stod (vcpus r) = Some cpus /\ double_le cpus 0 = false /\ double_gt cpus max_vcpus = false.

(** its exception for a name that is taken *)
Lemma create_process_taken a name resources cb w app p :
  name <> EmptyString -> resources_accepted resources -> w_apps w !! a = Some app -> ca_active_processes app !! name = Some p ->
  exists w', run_task (TaskCreateProcess a name resources cb) w = (Throw (ObjectExists name), w') /\
    w_responses w' = w_responses w /\ w_apps w' = w_apps w /\ w_posts w' = w_posts w /\ w_loop w' = w_loop w.
Proof.
  intros Hn (mem&cpus&Hm&Hm1&Hm2&Hc&Hc1&Hc2) Ha Hp.
  assert (exists w', add_process a name resources cb true w = (Throw (ObjectExists name), w') /\
    w_responses w' = w_responses w /\ w_apps w' = w_apps w /\ w_posts w' = w_posts w /\ w_loop w' = w_loop w) as (w'&E&Hrest).
  { unfold add_process. rewrite (proj2 (Nat.eqb_neq _ _)) by (destruct name; [done|cbn; lia]).
    unfold lift_stod. rewrite Hm. erewrite M_bind_eq by reflexivity. rewrite Hm1, Hm2. cbn [orb]. rewrite Hc.
    erewrite M_bind_eq by reflexivity. rewrite Hc1, Hc2. cbn [orb]. erewrite M_bind_eq by reflexivity.
    erewrite M_bind_eq by (apply get_app_some; exact Ha). rewrite Hp. eexists. split; [reflexivity|]. now split_and!. }
  exists w'. split; [|exact Hrest]. cbn [run_task]. unfold create_process.
  rewrite M_bind_assoc, (M_bind_eq (gets w_apps) _ w (w_apps w) w eq_refl), Ha.
  unfold mbind, M_bind. now rewrite E.
Qed.

(** [Workers::create_process] catches nothing: a request for a process whose name is
    taken throws in a thread of the pool.  Its client is never answered; if the
    pool does not catch it, the control plane ends. *)
Theorem taken_name_in_the_pool s i k a name resources app p :
  cw_ended s = false -> cw_threads s !! i = Some (Some (TaskCreateProcess a name resources (CbCreate k))) ->
  name <> EmptyString -> resources_accepted resources ->
  w_apps (cw_world s) !! a = Some app -> ca_active_processes app !! name = Some p ->
  exists s', pool_step (PoolRun i) s = Some (Throw (ObjectExists name), s') /\
    w_responses (cw_world s') = w_responses (cw_world s) /\ w_apps (cw_world s') = w_apps (cw_world s) /\
    cw_threads s' = <[i := None]> (cw_threads s) /\
    (pool_catches = false -> forall e, pool_step e s' = None).
Proof.
  intros He Hi Hn Hr Ha Hp.
  destruct (create_process_taken a name _ (CbCreate k) _ app p Hn Hr Ha Hp) as (w'&E&X1&X2&_).
  eexists. unfold pool_step at 1, run_thread. rewrite He, Hi, E. split; [reflexivity|]. cbn. split_and!; [done|done|done|].
  intros Hpc e. unfold pool_step. cbn. now rewrite Hpc.
Qed.

(** ** Who is answered *)

(** the client of a task that answers by itself *)
Definition task_client (t : cp_task) : option client :=
  match t with TaskCreateApp k _ _ | TaskDeleteProcess k _ _ | TaskSwapProcess k _ _ => Some k | _ => None end.

Definition silent {A} (m : M World A) : Prop := forall R, keeps (fun w => w_responses w = R) m.

Ltac silent_solve := intros ?; repeat first
  [apply keeps_ret | apply keeps_lift | apply keeps_gets | apply keeps_get
  |apply keeps_modify; now intros | apply keeps_bind; [|intros ?] | case_match].

Lemma silent_deref p : silent (deref p).
Proof. intros R w r w' Hw. unfold deref. now destruct (w_heap w !! p); intros [= <- <-]. Qed.
Lemma silent_get_app a : silent (get_app a).
Proof. intros R w r w' Hw. unfold get_app. now destruct (w_apps w !! a); intros [= <- <-]. Qed.
Lemma silent_throw {A} e : silent (throw e : M World A).
Proof. intros R w r w' Hw. now intros [= <- <-]. Qed.
Lemma silent_undef {A} : silent (undef : M World A).
Proof. intros R w r w' Hw. now intros [= <- <-]. Qed.
Lemma silent_catching {A} (m : M World A) h : silent m -> silent (catching m h).
Proof.
  intros Hm R w r w' Hw. unfold catching. destruct (m w) as [[a|e|] w1] eqn:E; pose proof (Hm R w _ _ Hw E) as Hw1; cbn in Hw1.
  - now intros [= <- <-].
  - destruct (h e); now intros [= <- <-].
  - now intros [= <- <-].
Qed.

Lemma silent_create_application a r : silent (create_application a r).
Proof. apply silent_catching. unfold add_application. silent_solve; apply silent_throw. Qed.
Lemma silent_delete a n : silent (workers_delete_process a n).
Proof.
  intros R. unfold workers_delete_process. apply keeps_bind; [apply keeps_gets|intros apps]. destruct (apps !! a); [|apply keeps_ret].
  apply silent_catching. unfold delete_process, get_swapped_process, update_app.
  silent_solve; first [apply silent_throw|apply silent_undef|apply silent_deref|apply silent_get_app].
Qed.
Lemma silent_swap a n : silent (workers_swap_process a n).
Proof.
  intros R. unfold workers_swap_process. apply keeps_bind; [apply keeps_gets|intros apps]. destruct (apps !! a); [|apply keeps_ret].
  apply silent_catching. unfold swap_process, get_process, update_process, process_swap, send.
  silent_solve; first [apply silent_throw|apply silent_undef|apply silent_deref|apply silent_get_app].
Qed.

(** a task of these kinds answers its client once when it returns, and not at all
    when it throws *)
Lemma answered_once {A} (m : M World A) (f : A -> http_response) k w :
  silent m ->
  match (a ← m; respond k (f a)) w with
  | (Ret _, w') => exists r, w_responses w' = w_responses w ++ [(k, r)]
  | (_, w') => w_responses w' = w_responses w
  end.
Proof.
  intros Hm. unfold mbind, M_bind. destruct (m w) as [[a|e|] w1] eqn:E; pose proof (Hm (w_responses w) w _ _ eq_refl E) as Hw1; cbn in Hw1.
  - cbn. exists (f a). cbn. now rewrite Hw1.
  - exact Hw1.
  - exact Hw1.
Qed.
Theorem task_answers t k w :
  task_client t = Some k ->
  match run_task t w with
  | (Ret _, w') => exists r, w_responses w' = w_responses w ++ [(k, r)]
  | (_, w') => w_responses w' = w_responses w
  end.
Proof.
  destruct t; cbn; intros Hk; simplify_eq.
  - apply (answered_once _ (fun created : bool => if created then RespCorrect "Created" else RespFailed "Failed to create" 500)), silent_create_application.
  - apply (answered_once _ (fun response => match response with Some error => RespFailed error 400 | None => _ end)), silent_delete.
  - apply (answered_once _ (fun response => match response with Some error => RespFailed error 400 | None => _ end)), silent_swap.
Qed.
End pool.

(** ** Witnesses *)
#[local] Instance pool_uuid : UuidGenerator := {| uuid_text _ := "01234567-89ab-cdef-0123-456789abcdef" |}.
#[local] Instance pool_stod : StdStod := {| stod _ := Some (DFinite (QArith_base.Qmake 1 1)) |}.
#[local] Instance pool_config : CpConfig := {| cfg_swap_root := "/swaps"; cfg_tcp_address := "10.0.0.1:6000" |}.
#[local] Instance demo_thread_pool : ThreadPool := {| pool_catches := false |}.

(** an application; then two requests for one process and a list, on two threads *)
Definition demo_pool_events : list pool_event :=
  [PoolRequest (ReqCreateApp 1 "app" "image"); PoolTake 0 0; PoolRun 0;
   PoolRequest (ReqCreateProcess 2 "app" "proc" "1" "512"); PoolRequest (ReqListProcesses 3 "app");
   PoolRequest (ReqCreateProcess 4 "app" "proc" "1" "512");
   PoolTake 1 0; PoolTake 0 0; PoolRun 0; PoolOther EvConnected; PoolRun 1; PoolTake 1 0; PoolOther EvLoopTask].
Definition demo_pool : CpWorkers := default (CpWorkers_ctor 0 World_init) (pool_run demo_pool_events (CpWorkers_ctor 2 World_init)).
Lemma demo_pool_run : pool_run demo_pool_events (CpWorkers_ctor 2 World_init) = Some demo_pool.
Proof. vm_compute. reflexivity. Qed.

(** the list was answered before the process was there *)
Lemma pool_invariant_witness :
  fst <$> w_responses (cw_world demo_pool) = [1; 3] /\ busy demo_pool = [TaskCreateProcess "app" "proc" (MkPResources "1" "512" "") (CbCreate 4)] /\
  cp_inv (cw_world demo_pool) /\
  (forall e s', pool_step e demo_pool = Some (Undef, s') -> pool_allocation_failed e).
Proof.
  split; [vm_compute; reflexivity|]. split; [vm_compute; reflexivity|].
  destruct (pool_invariant 2 demo_pool_events demo_pool demo_pool_run) as (H1&H2&_). split; [exact H1|exact H2].
Defined.

Lemma pool_runs_tasks_once_witness :
  length (tasks_of ran_by demo_pool_events (CpWorkers_ctor 2 World_init)) = 3 /\
  tasks_of ran_by demo_pool_events (CpWorkers_ctor 2 World_init) ++ busy demo_pool ≡ₚ
    tasks_of taken_by demo_pool_events (CpWorkers_ctor 2 World_init).
Proof.
  split; [vm_compute; reflexivity|].
  exact (proj2 (pool_runs_tasks_once demo_pool_events (CpWorkers_ctor 2 World_init) demo_pool demo_pool_run)).
Defined.

Lemma pool_in_order_witness :
  tasks_of taken_by demo_pool_events (CpWorkers_ctor 2 World_init) ++ cw_tasks demo_pool =
    tasks_of added_by demo_pool_events (CpWorkers_ctor 2 World_init).
Proof.
  exact (pool_in_order demo_pool_events (CpWorkers_ctor 2 World_init) demo_pool ltac:(repeat constructor) demo_pool_run).
Defined.


(** a list of an unknown application, which is answered twice *)
Lemma request_at_once_witness :
  exists es s', pool_run es (CpWorkers_ctor 1 World_init) = Some s' /\
    fst <$> w_responses (cw_world s') = [1; 1] /\ cw_tasks s' = [].
Proof.
  destruct (request_at_once (ReqListProcesses 1 "app") (CpWorkers_ctor 1 World_init) 0 eq_refl eq_refl eq_refl cp_inv_init)
    as (es&s'&Hr&Hw&Ht&_).
  exists es, s'. split; [exact Hr|]. split; [rewrite Hw; vm_compute; reflexivity|exact Ht].
Defined.

(** the second request for the process ends the control plane *)
Lemma taken_name_in_the_pool_witness :
  exists s', pool_step (PoolRun 1) demo_pool = Some (Throw (ObjectExists "proc"), s') /\
    w_responses (cw_world s') = w_responses (cw_world demo_pool) /\ forall e, pool_step e s' = None.
Proof.
  destruct (w_apps (cw_world demo_pool) !! "app") as [app|] eqn:Ea; [|vm_compute in Ea; discriminate Ea].
  assert (ca_active_processes app !! "proc" = Some 0) as Hp.
  { transitivity (w_apps (cw_world demo_pool) !! "app" ≫= fun app => ca_active_processes app !! "proc");
      [now rewrite Ea|vm_compute; reflexivity]. }
  destruct (taken_name_in_the_pool demo_pool 1 4 "app" "proc" (MkPResources "1" "512" "") app 0) as (s'&E&Hs&_&_&Hn).
  1-3: vm_compute; first [reflexivity|discriminate].
  - exists (DFinite (QArith_base.Qmake 1 1)), (DFinite (QArith_base.Qmake 1 1)). vm_compute. repeat split.
  - exact Ea.
  - exact Hp.
  - exists s'. split; [exact E|]. split; [exact Hs|]. exact (Hn eq_refl).
Defined.

Lemma task_answers_witness :
  exists r, w_responses (run_task (TaskDeleteProcess 9 "app" "proc") (cw_world demo_pool)).2 =
    w_responses (cw_world demo_pool) ++ [(9, r)].
Proof.
  pose proof (task_answers (TaskDeleteProcess 9 "app" "proc") 9 (cw_world demo_pool) eq_refl) as H.
  destruct (run_task _ _) as [[[]|e|] w] eqn:E; [exact H|exfalso..];
    assert ((run_task (TaskDeleteProcess 9 "app" "proc") (cw_world demo_pool)).1 = Ret tt) as Hr by (vm_compute; reflexivity);
    rewrite E in Hr; discriminate Hr.
Defined.
