(* ===== verification/RemoteThreads.v ===== *)
(** * RemoteThreads: the two threads of a process and its connections

    The operations of [remote.cpp] run on two threads: the loop of the controller
    sends results, puts and requests, the loop of the network library serves
    the connections.  [_conn_mutex] protects the table, but not the callbacks of
    the clients of [_connect], nor what is sent after the lock is released.  Here
    each operation is a program that takes the lock where the code takes it; run
    by itself it is the operation of Remote.v ([remote_alone]).  No run of such
    programs deadlocks, and each can go on until all have ended
    ([remote_runs_complete]).  Then what happens when the two threads overlap: a
    put can get lost while a connection is established ([put_lost]), and one can
    be torn apart by the answer to a registration, so that its receiver gets
    other bytes ([put_torn]).

    A put is built before the connection is looked at, which the code does
    after it; what is built belongs to the thread alone.  A send is one step. *)

From S2P Require Import Prelude Memory Messages Buffers Application WorkQueue Controller Remote Threads.

(** [_conn_mutex] *)
Inductive conn_lock : Type := LConn.
#[export] Instance conn_lock_eq_dec : EqDecision conn_lock.
Proof. solve_decision. Defined.

Abbreviation srv_prog := (prog TCPServer conn_lock) (only parsing).

(** ** The thread of the controller *)

(** the end of [invocation_result], without the lock *)
Definition send_result (l : loc) (invocation_id : string_view) (return_code : Z) (payload : BufferAccessor) : srv_prog :=
  act (lift (set_result_invocation_id invocation_id InvocationResultData)) (fun req =>
  let req := set_total_length (wrap_i32 (Z.of_nat (acc_len payload))) (set_return_code return_code req) in
  act (conn_send l (bytes req)) (fun _ =>
  if 0 <? acc_len payload then act (conn_send l (accessor_data payload)) (fun _ => finish_prog) else finish_prog)).
Definition invocation_result_locked (source : RemoteType) (remote_process : option string) (invocation_id : string_view)
    (return_code : Z) (payload : BufferAccessor) : srv_prog :=
  PLock LConn LExclusive (
  act (gets (result_recipient source remote_process)) (fun conn =>
  PUnlock LConn (
  match conn with None => finish_prog | Some l => send_result l invocation_id return_code payload end))).

(** what [put_message] and [invocation_request] share: [conn->conn] is read, and
    the message is stored or sent, while the lock is held *)
Definition send_or_store_locked (l : loc) (msg : mem) (payload : Buffer) : srv_prog :=
  act (deref l) (fun c =>
  match cn_conn c with
  | None =>
      act (update_conn l (fun c => set_cn_pendings_msgs (cn_pendings_msgs c ++ [(msg, payload)]) c)) (fun _ =>
      act (deref l) (fun c =>
      match cn_status c with
      | DISCONNECTED => act (connect l) (fun _ => PUnlock LConn finish_prog)
      | _ => PUnlock LConn finish_prog
      end))
  | Some _ =>
      act (conn_send l msg) (fun _ =>
      act (conn_send l (buffer_data payload)) (fun _ => PUnlock LConn finish_prog))
  end).
Definition put_message_locked (process_id name : string_view) (payload : Buffer) : srv_prog :=
  PLock LConn LExclusive (
  act (gets (fun s => ts_connection_data s !! sv_str process_id)) (fun iter =>
  match iter with
  | None => PUnlock LConn finish_prog
  | Some l =>
      act (gets ts_process_id) (fun my_id =>
      act (lift (put_req ← set_put_name name PutMessageData;
                 put_req ← set_put_process_id (sv_of_string my_id) put_req;
                 Ret (bytes (set_total_length (wrap_i32 (Z.of_nat (buf_len payload))) put_req)))) (fun msg =>
      send_or_store_locked l msg payload))
  end)).
Definition invocation_request_locked (process_id function_name invocation_id : string_view) (payload : Buffer) : srv_prog :=
  PLock LConn LExclusive (
  act (gets (fun s => ts_connection_data s !! sv_str process_id)) (fun iter =>
  match iter with
  | None => PUnlock LConn finish_prog
  | Some l =>
      act (lift (req ← set_invocation_id invocation_id InvocationRequestData;
                 req ← set_function_name function_name req;
                 req ← set_payload_size (wrap_i32 (Z.of_nat (buf_len payload))) req;
                 Ret (bytes (set_total_length (wrap_i32 (Z.of_nat (buf_len payload))) req)))) (fun msg =>
      send_or_store_locked l msg payload)
  end)).

(** ** The thread of the network *)

(** the loop over [pendings_msgs] in the callback of [_connect]: every send is a step *)
Fixpoint flush (t : tcp) (pending : list (mem * Buffer)) (k : srv_prog) : srv_prog :=
  match pending with
  | [] => k
  | (msg, buf) :: pending' =>
      act (tcp_send t msg) (fun _ =>
      if 0 <? buf_len buf then act (tcp_send t (buffer_data buf)) (fun _ => flush t pending' k) else flush t pending' k)
  end.
Definition client_connected_unlocked (l : loc) (t : tcp) : srv_prog :=
  act (update_conn l (set_cn_status CONNECTED)) (fun _ =>
  act (gets ts_process_id) (fun my_id =>
  act (lift (set_process_name (sv_of_string my_id) ProcessConnectionData)) (fun req =>
  act (tcp_send t (bytes req)) (fun _ =>
  act (update_conn l (set_cn_conn (Some t))) (fun _ =>
  act (deref l) (fun c =>
  flush t (cn_pendings_msgs c) (
  act (update_conn l (set_cn_pendings_msgs [])) (fun _ => finish_prog)))))))).

(** the part of [_handle_connection] that holds the lock *)
Definition register_connection (t : tcp) (name : string) : M TCPServer unit :=
  find_iter ← gets (fun s => ts_connection_data s !! name);
  match find_iter with
  | Some l =>
      update_conn l (fun c => set_cn_status CONNECTED (set_cn_conn (Some t) c)) ≫= fun _ =>
      (if decide (name = DATAPLANE_ID) then modify (set_ts_data_plane (Some l))
       else if decide (name = CONTROLPLANE_ID) then modify (set_ts_control_plane (Some l))
       else mret tt) ≫= fun _ =>
      set_context t l
  | None =>
      l ← (if decide (name = DATAPLANE_ID) then
             l ← alloc_conn (Connection_make CONNECTED DATA_PLANE None (Some t));
             modify (set_ts_data_plane (Some l)) ≫= fun _ => mret l
           else if decide (name = CONTROLPLANE_ID) then
             l ← alloc_conn (Connection_make CONNECTED CONTROL_PLANE None (Some t));
             modify (set_ts_control_plane (Some l)) ≫= fun _ => mret l
           else alloc_conn (Connection_make CONNECTED PROCESS (Some name) (Some t)));
      modify (fun s => set_ts_connection_data (<[name := l]> (ts_connection_data s)) s) ≫= fun _ =>
      set_context t l
  end.
Definition handle_connection_locked (t : tcp) (msg : ProcessConnection) : srv_prog :=
  PLock LConn LExclusive (
  act (register_connection t (sv_str (process_name msg))) (fun _ =>
  PUnlock LConn (
  act (lift (set_process_name (sv_of_string "CORRECT") ProcessConnectionData)) (fun req =>
  act (tcp_send t (bytes req)) (fun _ => finish_prog))))).

(** [_handle_app_update]: the part that holds the lock *)
Definition update_address (msg : ApplicationUpdateMsg) : M TCPServer unit :=
  let process_id := sv_str (update_process_id msg) in
  iter ← gets (fun s => ts_connection_data s !! process_id);
  match iter with
  | Some l => update_conn l (set_cn_address (sv_str (ip_address msg)) (update_port msg))
  | None =>
      l ← alloc_conn (set_cn_address (sv_str (ip_address msg)) (update_port msg)
                        (Connection_make DISCONNECTED PROCESS (Some process_id) None));
      modify (fun s => set_ts_connection_data (<[process_id := l]> (ts_connection_data s)) s)
  end.
Definition handle_app_update_locked (msg : ApplicationUpdateMsg) : srv_prog :=
  act (call_controller (CallUpdate (Status_of_Z (status_change msg)) (sv_str (update_process_id msg)))) (fun _ =>
  PLock LConn LExclusive (
  act (update_address msg) (fun _ => PUnlock LConn finish_prog))).

(** ** The calls *)
Inductive srv_call : Type :=
  | SendResult (source : RemoteType) (remote_process : option string) (invocation_id : string_view) (return_code : Z)
      (payload : BufferAccessor)
  | SendPut (process_id name : string_view) (payload : Buffer)
  | SendRequest (process_id function_name invocation_id : string_view) (payload : Buffer)
  | OnConnected (l : loc) (t : tcp)
  | OnDisconnected (l : loc)
  | OnControlPlane (l : loc) (t : tcp)
  | OnRegistration (t : tcp) (msg : ProcessConnection)
  | OnUpdate (msg : ApplicationUpdateMsg).

Definition srv_call_prog (c : srv_call) : srv_prog :=
  match c with
  | SendResult source process id code payload => invocation_result_locked source process id code payload
  | SendPut process name payload => put_message_locked process name payload
  | SendRequest process fname id payload => invocation_request_locked process fname id payload
  | OnConnected l t => client_connected_unlocked l t
  | OnDisconnected l => act (client_disconnected l) (fun _ => finish_prog)
  | OnControlPlane l t => act (control_plane_connected l t) (fun _ => finish_prog)
  | OnRegistration t msg => handle_connection_locked t msg
  | OnUpdate msg => handle_app_update_locked msg
  end.

(** the operation of Remote.v *)
Definition srv_call_run (c : srv_call) : M TCPServer unit :=
  match c with
  | SendResult source process id code payload => tcp_invocation_result source process id code payload
  | SendPut process name payload => tcp_put_message process name payload
  | SendRequest process fname id payload => tcp_invocation_request process fname id payload
  | OnConnected l t => client_connected l t
  | OnDisconnected l => client_disconnected l
  | OnControlPlane l t => control_plane_connected l t
  | OnRegistration t msg => handle_connection t msg
  | OnUpdate msg => handle_app_update msg
  end.

(** ** By themselves *)
Lemma send_or_store_alone l msg payload s : alone (send_or_store_locked l msg payload) s = send_or_store l msg payload s.
Proof.
  unfold send_or_store_locked, send_or_store. rewrite alone_act. destruct (ts_heap s !! l) as [c|] eqn:Hc.
  2:{ unfold deref, mbind, M_bind. now rewrite Hc. }
  rewrite !(M_bind_eq _ _ _ _ _ (deref_at l c s Hc)). destruct (cn_conn c).
  - rewrite alone_act. ext_bind u w. rewrite alone_act. apply M_bind_tt.
  - rewrite alone_act. unfold update_conn, modify. erewrite !M_bind_eq by reflexivity. rewrite alone_act.
    rewrite (alter_insert_eq _ _ _ c Hc). erewrite M_bind_eq.
    2:{ unfold deref. cbn. rewrite lookup_insert_eq. reflexivity. }
    cbn. destruct (cn_status c); [|reflexivity..]. rewrite alone_act. apply M_bind_tt.
Qed.

Lemma flush_alone t pend k s :
  alone (flush t pend k) s =
  (for_each (fun '(msg, buf) => tcp_send t msg ≫= fun _ => if 0 <? buf_len buf then tcp_send t (buffer_data buf) else mret tt)
     pend ≫= fun _ => alone k) s.
Proof.
  revert s. induction pend as [|[msg buf] pend IH]; intros s; [reflexivity|]. cbn [flush for_each].
  rewrite alone_act, !M_bind_assoc. apply M_bind_ext. intros _ s1. destruct (0 <? buf_len buf).
  - rewrite alone_act. ext_bind u s2. apply IH.
  - rewrite IH. reflexivity.
Qed.

(** Each operation, when nothing runs between its steps, is the operation of
    Remote.v. *)
Theorem remote_alone c s : alone (srv_call_prog c) s = srv_call_run c s.
Proof.
  destruct c as [source process id code payload|process name payload|process fname id payload|l t|l|l t|t msg|msg];
    cbn [srv_call_prog srv_call_run].
  - unfold invocation_result_locked, tcp_invocation_result. cbn [alone]. rewrite alone_act. ext_bind r w.
    destruct r as [l|]; [|reflexivity]. unfold send_result. cbn [alone]. rewrite alone_act. ext_bind req w1.
    rewrite alone_act. ext_bind u w2. destruct (0 <? acc_len payload); [|reflexivity]. rewrite alone_act. apply M_bind_tt.
  - unfold put_message_locked, tcp_put_message. cbn [alone]. rewrite alone_act. ext_bind r w.
    destruct r as [l|]; [|reflexivity]. rewrite alone_act. ext_bind id w1. rewrite alone_act.
    rewrite (M_bind_congr _ _ _ _ (lift_bind _ _ w1)). ext_bind r1 w2.
    rewrite (M_bind_congr _ _ _ _ (lift_bind _ _ w2)). ext_bind r2 w3.
    erewrite M_bind_eq by reflexivity. apply send_or_store_alone.
  - unfold invocation_request_locked, tcp_invocation_request. cbn [alone]. rewrite alone_act. ext_bind r w.
    destruct r as [l|]; [|reflexivity]. rewrite alone_act.
    rewrite (M_bind_congr _ _ _ _ (lift_bind _ _ w)). ext_bind r1 w2.
    rewrite (M_bind_congr _ _ _ _ (lift_bind _ _ w2)). ext_bind r2 w3.
    rewrite (M_bind_congr _ _ _ _ (lift_bind _ _ w3)). ext_bind r3 w4.
    erewrite M_bind_eq by reflexivity. apply send_or_store_alone.
  - unfold client_connected_unlocked, client_connected. rewrite alone_act. ext_bind u1 w1. rewrite alone_act. ext_bind id w2.
    rewrite alone_act. ext_bind req w3. rewrite alone_act. ext_bind u2 w4. rewrite alone_act. ext_bind u3 w5.
    rewrite alone_act. ext_bind c w6. rewrite flush_alone. ext_bind u4 w7. rewrite alone_act. apply M_bind_tt.
  - rewrite alone_act. apply M_bind_tt.
  - rewrite alone_act. apply M_bind_tt.
  - unfold handle_connection_locked. cbn [alone]. rewrite alone_act.
    assert (forall w, handle_connection t msg w = (register_connection t (sv_str (process_name msg)) ≫= fun _ =>
      req ← lift (set_process_name (sv_of_string "CORRECT") ProcessConnectionData); tcp_send t (bytes req)) w) as ->.
    { intros w. unfold handle_connection, register_connection. rewrite M_bind_assoc. reflexivity. }
    ext_bind u w. cbn [alone]. rewrite alone_act. ext_bind req w1. rewrite alone_act. apply M_bind_tt.
  - unfold handle_app_update_locked, handle_app_update. rewrite alone_act. ext_bind u w. cbn [alone]. rewrite alone_act. apply M_bind_tt.
Qed.

(** ** One lock at a time

    Nothing is locked while [_conn_mutex] is held; then no run gets stuck. *)
Inductive one_lock : bool -> srv_prog -> Prop :=
  | one_lock_done b r : one_lock b (PDone r)
  | one_lock_lock k : one_lock true k -> one_lock false (PLock LConn LExclusive k)
  | one_lock_unlock b k : one_lock false k -> one_lock b (PUnlock LConn k)
  | one_lock_step b f : (forall w, one_lock b (f w).1) -> one_lock b (PStep f).

Lemma one_lock_act {A} b (m : M TCPServer A) k : (forall a, one_lock b (k a)) -> one_lock b (act m k).
Proof. intros Hk. constructor. intros w. destruct (m w) as [[a|e|] w']; cbn; [apply Hk|constructor|constructor]. Qed.

Ltac one_lock_solve := repeat first [progress intros|apply one_lock_act|case_match|constructor].

Lemma srv_call_one_lock c : one_lock false (srv_call_prog c).
Proof.
  destruct c as [| | |l t|l|l t|t msg|msg]; cbn [srv_call_prog];
    unfold invocation_result_locked, send_result, put_message_locked, invocation_request_locked, send_or_store_locked,
      handle_connection_locked, handle_app_update_locked, finish_prog;
    [one_lock_solve..| |one_lock_solve|one_lock_solve|one_lock_solve|one_lock_solve].
  unfold client_connected_unlocked, finish_prog. do 6 (apply one_lock_act; intros ?).
  match goal with |- one_lock _ (flush _ ?l _) => induction l as [|[msg buf] pend IH] end; cbn [flush]; [one_lock_solve|].
  apply one_lock_act. intros _. destruct (0 <? buf_len buf); [|exact IH]. now apply one_lock_act.
Qed.

Definition held_of (b : bool) : list (conn_lock * lmode) := if b then [(LConn, LExclusive)] else [].
Definition conn_thread (b : bool) (p : srv_prog) : thread TCPServer conn_lock := {| th_held := held_of b; th_prog := p |}.

(** at most one thread holds the lock *)
Definition sys_ok (s : system TCPServer conn_lock) : Prop :=
  Forall (fun t => exists b p, t = conn_thread b p /\ one_lock b p) (sy_threads s) /\
  forall i j ti tj, i <> j -> sy_threads s !! i = Some ti -> sy_threads s !! j = Some tj -> th_held ti = [] \/ th_held tj = [].

Lemma admits_free b p : admits LConn LExclusive (conn_thread b p) = true -> b = false.
Proof. destruct b; cbn; [|done]. now rewrite bool_decide_eq_true_2. Qed.

(** a step of the thread [i] *)
Lemma thread_step_ok b p others w t' w' :
  one_lock b p -> thread_step others (conn_thread b p) w = Some (t', w') ->
  exists b' p', t' = conn_thread b' p' /\ one_lock b' p' /\
    (b' = true -> b = true \/ forallb (admits LConn LExclusive) others = true).
Proof.
  intros Hp. unfold thread_step. destruct Hp as [b r|k Hk|b k Hk|b f Hf]; cbn [th_prog th_held conn_thread].
  - destruct b; cbn; [|done]. intros [= <- <-]. exists false, (PDone r). split_and!; [done|constructor|done].
  - cbn. destruct (forallb _ _) eqn:Ea; [|done]. intros [= <- <-]. exists true, k. split_and!; [done|done|]. now right.
  - intros [= <- <-]. exists false, k. split_and!; [|done|done]. unfold conn_thread. f_equal. now destruct b.
  - specialize (Hf w). destruct (f w) as [k w1]. intros [= <- <-]. exists b, k. split_and!; [done|done|]. now left.
Qed.

Lemma sys_step_ok i s s' : sys_ok s -> sys_step i s = Some s' -> sys_ok s'.
Proof.
  intros [Hok Hex]. unfold sys_step. destruct (sy_threads s !! i) as [t|] eqn:Ht; [|done].
  destruct (thread_step _ t _) as [[t' w]|] eqn:Es; [|done]. intros [= <-].
  destruct (Forall_lookup_1 _ _ _ _ Hok Ht) as (b&p&->&Hp).
  destruct (thread_step_ok _ _ _ _ _ _ Hp Es) as (b'&p'&->&Hp'&Hb'). split; cbn [sy_threads].
  - apply Forall_insert; [exact Hok|eauto].
  - assert (forall j tj, j <> i -> sy_threads s !! j = Some tj -> th_held (conn_thread b' p') = [] \/ th_held tj = []) as Hi.
    { intros j tj Hj Htj. destruct b'; [|by left]. right. destruct (Hb' eq_refl) as [->|Hall].
      - destruct (Hex i j _ _ (not_eq_sym Hj) Ht Htj) as [Hf|Hf]; [done|exact Hf].
      - destruct (Forall_lookup_1 _ _ _ _ Hok Htj) as (bj&pj&->&_). rewrite forallb_forall in Hall.
        rewrite (admits_free bj pj); [done|]. apply Hall, list_elem_of_In, list_elem_of_lookup.
        destruct (decide (j < i)); [exists j; now rewrite list_lookup_delete_lt|].
        exists (pred j). rewrite list_lookup_delete_ge by lia. now replace (S (pred j)) with j by lia. }
    intros j k tj tk Hjk. destruct (decide (j = i)) as [->|Hj], (decide (k = i)) as [->|Hk]; [done| | |].
    + rewrite list_lookup_insert_eq by (eapply lookup_lt_Some; eauto). rewrite list_lookup_insert_ne by done.
      intros [= <-]. now apply Hi.
    + rewrite list_lookup_insert_eq by (eapply lookup_lt_Some; eauto). rewrite list_lookup_insert_ne by done.
      intros Htj [= <-]. destruct (Hi j tj Hj Htj); auto.
    + rewrite !list_lookup_insert_ne by done. now apply Hex.
Qed.

Lemma run_ok schedule : forall s s', sys_ok s -> run schedule s = Some s' -> sys_ok s'.
Proof.
  induction schedule as [|i schedule IH]; intros s s' Hs; cbn [run]; [now intros [= <-]|].
  destruct (sys_step i s) as [s1|] eqn:E; [|done]. apply IH. eapply sys_step_ok; eauto.
Qed.

Definition idle_others (i : nat) (ts : list (thread TCPServer conn_lock)) : Prop :=
  forall j t, j <> i -> ts !! j = Some t -> th_held t = [].

Lemma idle_admit i ts : idle_others i ts -> forallb (admits LConn LExclusive) (delete i ts) = true.
Proof.
  intros Hi. apply forallb_forall. intros t [j Hj]%list_elem_of_In%list_elem_of_lookup. rewrite list_lookup_delete in Hj.
  unfold admits. case_decide; [rewrite (Hi j t ltac:(lia) Hj)|rewrite (Hi (S j) t ltac:(lia) Hj)]; reflexivity.
Qed.

(** a thread runs to its end while the others hold nothing *)
Lemma finish_thread b p : one_lock b p -> forall i w ts, ts !! i = Some (conn_thread b p) -> idle_others i ts ->
  exists rest w' r, run rest {| sy_state := w; sy_threads := ts |} =
    Some {| sy_state := w'; sy_threads := <[i := conn_thread false (PDone r)]> ts |}.
Proof.
  assert (forall i w w1 ts t1, sys_step i {| sy_state := w; sy_threads := ts |} = Some {| sy_state := w1; sy_threads := <[i := t1]> ts |} ->
    (exists rest w' r, run rest {| sy_state := w1; sy_threads := <[i := t1]> ts |} =
      Some {| sy_state := w'; sy_threads := <[i := conn_thread false (PDone r)]> (<[i := t1]> ts) |}) ->
    exists rest w' r, run rest {| sy_state := w; sy_threads := ts |} =
      Some {| sy_state := w'; sy_threads := <[i := conn_thread false (PDone r)]> ts |}) as Hthen.
  { intros i w w1 ts t1 Hs (rest&w'&r&Hr). exists (i :: rest), w', r. rewrite list_insert_insert_eq in Hr.
    exact (run_step _ _ _ _ _ Hs Hr). }
  assert (forall i ts (t : thread TCPServer conn_lock), idle_others i ts -> idle_others i (<[i := t]> ts)) as Hidle.
  { intros i ts t Hi j tj Hj. rewrite list_lookup_insert_ne by done. now apply Hi. }
  induction 1 as [b r|k Hk IH|b k Hk IH|b f Hf IH]; intros i w ts Ht Hi; pose proof (lookup_lt_Some _ _ _ Ht) as Hlt.
  - destruct b.
    + exists [i], w, r. cbn. unfold sys_step. cbn. rewrite Ht. reflexivity.
    + exists [], w, r. cbn. now rewrite list_insert_id.
  - eapply Hthen; [eapply sys_step_lock; [exact Ht|constructor|now apply idle_admit]|].
    apply IH; [now apply list_lookup_insert_eq|now apply Hidle].
  - eapply Hthen; [eapply sys_step_unlock; exact Ht|].
    apply IH; [rewrite list_lookup_insert_eq by done; now destruct b|now apply Hidle].
  - specialize (IH w). destruct (f w) as [k w1] eqn:E. cbn [fst] in IH.
    apply (Hthen i w w1 ts (conn_thread b k)); [unfold sys_step; cbn; rewrite Ht; cbn; now rewrite E|].
    apply IH; [now apply list_lookup_insert_eq|now apply Hidle].
Qed.

Lemma finish_all n : forall s, sys_ok s -> (forall j t, sy_threads s !! j = Some t -> n <= j -> ended t) ->
  (forall j t, sy_threads s !! j = Some t -> th_held t = []) -> exists rest s', run rest s = Some s' /\ all_ended s'.
Proof.
  induction n as [|n IH]; intros s Hok Hend Hheld.
  - exists [], s. split; [done|]. apply Forall_lookup. intros j t Hj. apply (Hend j t Hj). lia.
  - destruct (sy_threads s !! n) as [t|] eqn:Ht.
    2:{ apply IH; [done| |done]. intros j t Hj Hn. apply lookup_ge_None_1 in Ht. apply lookup_lt_Some in Hj. lia. }
    destruct (Forall_lookup_1 _ _ _ _ (proj1 Hok) Ht) as (b&p&->&Hp). destruct s as [w ts]. cbn [sy_threads] in *.
    destruct (finish_thread b p Hp n w ts Ht) as (rest&w'&r&Hr); [intros j t _; apply Hheld|].
    pose proof (run_ok _ _ _ Hok Hr) as Hok'.
    assert (forall j t, <[n := conn_thread false (PDone r)]> ts !! j = Some t -> j = n /\ t = conn_thread false (PDone r) \/ j <> n /\ ts !! j = Some t) as Hins.
    { intros j t. destruct (decide (j = n)) as [->|Hj].
      - rewrite list_lookup_insert_eq by (eapply lookup_lt_Some; eauto). intros [= <-]. now left.
      - rewrite list_lookup_insert_ne by done. now right. }
    destruct (IH _ Hok') as (rest'&s'&Hr'&He); cbn [sy_threads].
    + intros j t Hj Hle. destruct (Hins j t Hj) as [[-> ->]|[Hne Hj']]; [split; [done|eauto]|]. apply (Hend j t Hj'). lia.
    + intros j t Hj. destruct (Hins j t Hj) as [[-> ->]|[Hne Hj']]; [done|]. now apply (Hheld j).
    + exists (rest ++ rest'), s'. split; [exact (run_app _ _ _ _ _ Hr Hr')|exact He].
Qed.

Lemma sys_ok_completes s : sys_ok s -> exists rest s', run rest s = Some s' /\ all_ended s'.
Proof.
  intros Hok. destruct (decide (Exists (fun t => th_held t <> []) (sy_threads s))) as [He|He].
  - apply Exists_exists in He as (t&[i Hi]%list_elem_of_In%list_elem_of_lookup&Hh).
    destruct (Forall_lookup_1 _ _ _ _ (proj1 Hok) Hi) as (b&p&->&Hp). destruct s as [w ts]. cbn [sy_threads] in *.
    assert (idle_others i ts) as Hidle.
    { intros j t Hj Ht. destruct (proj2 Hok i j _ _ (not_eq_sym Hj) Hi Ht); [done|auto]. }
    destruct (finish_thread b p Hp i w ts Hi Hidle) as (rest&w'&r&Hr).
    destruct (finish_all (length ts) _ (run_ok _ _ _ Hok Hr)) as (rest'&s'&Hr'&Hend); cbn [sy_threads].
    + intros j t Hj Hle. apply lookup_lt_Some in Hj. rewrite length_insert in Hj. lia.
    + intros j t Hj. destruct (decide (j = i)) as [->|Hji].
      * rewrite list_lookup_insert_eq in Hj by (eapply lookup_lt_Some; eauto). now injection Hj as <-.
      * rewrite list_lookup_insert_ne in Hj by done. exact (Hidle j t Hji Hj).
    + exists (rest ++ rest'), s'. split; [exact (run_app _ _ _ _ _ Hr Hr')|exact Hend].
  - apply (finish_all (length (sy_threads s))); [exact Hok| |].
    + intros j t Hj Hle. apply lookup_lt_Some in Hj. lia.
    + intros j t Hj. destruct (th_held t) eqn:E; [done|]. exfalso. apply He, Exists_exists. exists t.
      split; [apply list_elem_of_In; eapply list_elem_of_lookup_2; eauto|]. now rewrite E.
Qed.

(** C20: however the operations of the two threads of the TCP server overlap, at most one thread holds [_conn_mutex], no
    run deadlocks, and every run can go on until all operations have ended. *)
Theorem remote_runs_complete calls w schedule s :
  run schedule {| sy_state := w; sy_threads := spawn <$> (srv_call_prog <$> calls) |} = Some s ->
  (forall i j ti tj, i <> j -> sy_threads s !! i = Some ti -> sy_threads s !! j = Some tj ->
     holds LConn ti = true -> holds LConn tj = false) /\
  ~ deadlocked s /\ exists rest s', run rest s = Some s' /\ all_ended s'.
Proof.
  intros Hr. assert (sys_ok s) as Hok.
  { eapply run_ok; [|exact Hr]. split; cbn [sy_threads].
    - rewrite <-list_fmap_compose. apply Forall_fmap, Forall_true. intros c. exists false, (srv_call_prog c).
      split; [reflexivity|apply srv_call_one_lock].
    - intros i j ti tj _ Hi _. left. rewrite !list_lookup_fmap in Hi. destruct (calls !! i); [|done]. now injection Hi as <-. }
  pose proof (sys_ok_completes s Hok) as (rest&s'&Hrest&He). split_and!; [| |eauto].
  - intros i j ti tj Hij Hi Hj Hh. unfold holds in *. destruct (proj2 Hok i j ti tj Hij Hi Hj) as [E|E]; rewrite E in *; done.
  - intros [Hne Hstuck]. destruct rest as [|i rest]; cbn in Hrest; [injection Hrest as <-; done|]. now rewrite Hstuck in Hrest.
Qed.

(** ** Overlapping *)

(** the messages of [pendings_msgs], as they are sent *)
Definition pending_bytes (pend : list (mem * Buffer)) : list byte := concat ((fun p => p.1 ++ buffer_data p.2) <$> pend).
Definition pending_ok (pend : list (mem * Buffer)) : Prop := Forall (fun p => length (buffer_data p.2) = buf_len p.2) pend.

(** the steps of the loop of the callback *)
Definition flush_steps (pend : list (mem * Buffer)) : nat :=
  sum_list_with (fun p => if 0 <? buf_len p.2 then 2 else 1) pend.

Lemma flush_run i held t pend k ts s s' :
  for_each (fun '(msg, buf) =>
      tcp_send t msg ≫= fun _ => if 0 <? buf_len buf then tcp_send t (buffer_data buf) else mret tt) pend s = (Ret tt, s') ->
  ts !! i = Some {| th_held := held; th_prog := flush t pend k |} ->
  run (replicate (flush_steps pend) i) {| sy_state := s; sy_threads := ts |} =
  Some {| sy_state := s'; sy_threads := <[i := {| th_held := held; th_prog := k |}]> ts |}.
Proof.
  revert s ts. induction pend as [|[msg buf] pend IH]; intros s ts Hs Ht.
  - injection Hs as <-. cbn. now rewrite list_insert_id.
  - assert (i < length ts) as Hi by (eapply lookup_lt_Some; eauto).
    cbn [flush_steps sum_list_with snd]. fold (flush_steps pend). rewrite replicate_add. cbn [flush] in Ht.
    assert (forall w, (for_each (fun '(msg, buf) =>
      tcp_send t msg ≫= fun _ => if 0 <? buf_len buf then tcp_send t (buffer_data buf) else mret tt) pend w = (Ret tt, s')) ->
      forall ts', ts' !! i = Some {| th_held := held; th_prog := flush t pend k |} ->
        (forall th, <[i := th]> ts' = <[i := th]> ts) ->
        run (replicate (flush_steps pend) i) {| sy_state := w; sy_threads := ts' |} =
        Some {| sy_state := s'; sy_threads := <[i := {| th_held := held; th_prog := k |}]> ts |}) as Hrest.
    { intros w Hw ts' Ht' Hins. rewrite (IH w ts' Hw Ht'). now rewrite Hins. }
    cbn [for_each] in Hs. destruct (0 <? buf_len buf) eqn:Eb.
    + eapply run_app.
      * cbn [replicate]. eapply run_step; [eapply sys_step_act; [exact Ht|reflexivity]|].
        eapply run_step; [eapply sys_step_act; [apply list_lookup_insert_eq, Hi|reflexivity]|]. reflexivity.
      * apply Hrest; [exact Hs| |].
        -- apply list_lookup_insert_eq. now rewrite length_insert.
        -- intros th. now rewrite !list_insert_insert_eq.
    + eapply run_app.
      * cbn [replicate]. eapply run_step; [eapply sys_step_act; [exact Ht|reflexivity]|]. reflexivity.
      * apply Hrest; [exact Hs|now apply list_lookup_insert_eq|].
        intros th. now rewrite list_insert_insert_eq.
Qed.


Lemma connection_of peer l s : ts_connection_data s !! sv_str peer = Some l ->
  gets (fun s => ts_connection_data s !! sv_str peer) s = (Ret (Some l), s).
Proof. intros Hl. unfold gets. now rewrite Hl. Qed.

(** the connection of the callback, when it is done *)
Definition connected (t : tcp) (c : Connection) : Connection := set_cn_conn (Some t) (set_cn_status CONNECTED c).

(** connecting changes neither the table nor the name of the process *)
Lemma client_connected_keeps l t d i :
  keeps (fun s => ts_connection_data s = d /\ ts_process_id s = i) (client_connected l t).
Proof.
  unfold client_connected, update_conn, tcp_send.
  repeat first [apply keeps_bind; [|intros ?]|apply keeps_modify; now intros|apply keeps_gets|apply keeps_lift
    |apply keeps_for_each; intros [msg buf] _|case_match|apply keeps_ret].
  unfold deref. intros s r s' Hs. now destruct (ts_heap s !! l); intros [= <- <-].
Qed.

(** one after the other, in either order, the put is sent *)
Lemma put_around_connection peer l t c s p order :
  cview NAME_LENGTH (sv_of_string (ts_process_id s)) -> put_ok p ->
  ts_connection_data s !! sv_str peer = Some l -> ts_heap s !! l = Some c ->
  cn_conn c = None -> pending_ok (cn_pendings_msgs c) ->
  order ≡ₚ [OnConnected l t; SendPut peer p.1 p.2] ->
  exists reg hdr s', put_frame (ts_process_id s) p hdr /\ length reg = BUF_SIZE /\
    for_each srv_call_run order s = (Ret tt, s') /\
    sent_on t s' = sent_on t s ++ reg ++ pending_bytes (cn_pendings_msgs c) ++ frame_bytes hdr p.
Proof.
  intros Hid Hp Hl Hc Hn Hpe Ho. symmetry in Ho. apply Permutation_length_2_inv in Ho as [->| ->]; cbn [for_each srv_call_run].
  - destruct (client_connected_flush l c s t) as (reg&s1&E1&Hlen&_&Hs1&Hc1&_); auto.
    assert (ts_connection_data s1 = ts_connection_data s /\ ts_process_id s1 = ts_process_id s) as [Hd1 Hi1].
    { now apply (client_connected_keeps l t _ _ s _ s1 (conj eq_refl eq_refl) E1). }
    destruct (put_header (ts_process_id s) p) as (hdr&Hf&Eh); auto. rewrite <-Hi1 in Eh.
    destruct (put_over_connection peer l _ t s1 p hdr Eh ltac:(now rewrite Hd1) Hc1 eq_refl) as (s2&E2&Hs2).
    exists reg, hdr, s2. rewrite (M_bind_eq _ _ _ _ _ E1). erewrite M_bind_eq by exact E2.
    split_and!; auto. rewrite Hs2, Hs1. now rewrite <-!app_assoc.
  - destruct (tcp_put_message_stored peer l c s p) as (hdr&Hf&E1); auto.
    set (c1 := (match cn_status c with DISCONNECTED => set_cn_status CONNECTING | _ => fun c => c end)
                 (set_cn_pendings_msgs (cn_pendings_msgs c ++ [(hdr, p.2)]) c)).
    set (s1 := stored l hdr p c s) in *.
    assert (ts_heap s1 !! l = Some c1 /\ sent_on t s1 = sent_on t s /\ ts_process_id s1 = ts_process_id s /\
      cn_pendings_msgs c1 = cn_pendings_msgs c ++ [(hdr, p.2)]) as (Hc1&Hs1&Hi1&Hp1).
    { unfold s1, c1, stored. destruct (cn_status c); cbn; rewrite lookup_insert_eq; now split_and!. }
    destruct (client_connected_flush l c1 s1 t) as (reg&s2&E2&Hlen&_&Hs2&_); [now rewrite Hi1|done| |].
    { rewrite Hp1. apply Forall_app_2; [done|]. constructor; [apply Hp|constructor]. }
    exists reg, hdr, s2. rewrite (M_bind_eq _ _ _ _ _ E1). erewrite M_bind_eq by exact E2.
    split_and!; auto. rewrite Hs2, Hs1, Hp1, fmap_app, concat_app. cbn. now rewrite app_nil_r.
Qed.

(** C21: a put that overlaps with the callback of [_connect] can get lost: it sees that
    there is no connection, the callback sends what is stored, the put is stored,
    and the callback clears the list.  One after the other, in either order, the
    put is sent. *)
Theorem put_lost peer l t c s p :
  cview NAME_LENGTH (sv_of_string (ts_process_id s)) -> put_ok p ->
  ts_connection_data s !! sv_str peer = Some l -> ts_heap s !! l = Some c ->
  cn_conn c = None -> pending_ok (cn_pendings_msgs c) ->
  let calls := [OnConnected l t; SendPut peer p.1 p.2] in
  (forall order, order ≡ₚ calls ->
    exists reg hdr s', put_frame (ts_process_id s) p hdr /\ length reg = BUF_SIZE /\
      for_each srv_call_run order s = (Ret tt, s') /\
      sent_on t s' = sent_on t s ++ reg ++ pending_bytes (cn_pendings_msgs c) ++ frame_bytes hdr p) /\
  exists reg schedule, length reg = BUF_SIZE /\ exists s',
    run schedule {| sy_state := s; sy_threads := spawn <$> (srv_call_prog <$> calls) |} = Some s' /\ all_ended s' /\
    sent_on t (sy_state s') = sent_on t s ++ reg ++ pending_bytes (cn_pendings_msgs c) /\
    ts_heap (sy_state s') !! l = Some (set_cn_pendings_msgs [] (connected t c)) /\
    ts_connects (sy_state s') = ts_connects s.
Proof.
  intros Hid Hp Hl Hc Hn Hpe calls. split; [intros order; now apply put_around_connection with (c := c)|].
  destruct (ProcessConnection_parse _ Hid) as (reg&Er&Hlen&_).
  destruct (put_header _ _ Hid Hp) as (hdr&_&Eh). exists (bytes reg).
  exists ([1; 1; 1; 1; 1; 0; 0; 0; 0; 0; 0] ++ replicate (flush_steps (cn_pendings_msgs c)) 0 ++ [1; 0; 1; 1]).
  split; [exact Hlen|].
  unfold calls. cbn [fmap list_fmap srv_call_prog app]. unfold put_message_locked, client_connected_unlocked, spawn.
  next_lock. next_by (exact (connection_of peer l s Hl)). next_by reflexivity. next_by (apply lift_eq, Eh).
  unfold send_or_store_locked at 1. next_by (exact (deref_at l c s Hc)). rewrite Hn.
  next_by (exact (update_conn_eq l _ c s Hc)). set (s1 := set_ts_heap _ s).
  next_by reflexivity. next_by (apply lift_eq, Er). next_by reflexivity. set (s2 := set_ts_sent _ s1).
  assert (ts_heap s2 !! l = Some (set_cn_status CONNECTED c)) as Hc2 by apply lookup_insert_eq.
  next_by (exact (update_conn_eq l _ _ s2 Hc2)). set (s3 := set_ts_heap _ s2).
  assert (ts_heap s3 !! l = Some (connected t c)) as Hc3 by apply lookup_insert_eq.
  next_by (exact (deref_at l _ s3 Hc3)). change (cn_pendings_msgs (connected t c)) with (cn_pendings_msgs c).
  destruct (flush_pending t (cn_pendings_msgs c) s3 Hpe) as (s4&Ef&Hsent&Hheap&Hcn).
  eapply run_app_then; [eapply flush_run; [exact Ef|reflexivity]|]. cbn [insert list_insert].
  rewrite <-Hheap in Hc3. next_by (exact (update_conn_eq l _ _ s4 Hc3)). set (s5 := set_ts_heap _ s4).
  next_by (apply update_conn_eq, lookup_insert_eq). set (s6 := set_ts_heap _ s5).
  next_by (apply deref_at, lookup_insert_eq). cbn [cn_status set_cn_pendings_msgs connected set_cn_conn set_cn_status].
  next_unlock. eexists. split; [reflexivity|]. cbn [sy_threads sy_state]. split_and!; [|  |apply lookup_insert_eq|exact Hcn].
  - repeat constructor; eexists; reflexivity.
  - transitivity (sent_on t s4); [reflexivity|]. rewrite Hsent.
    transitivity (sent_on t (tcp_send t (bytes reg) s1).2 ++ pending_bytes (cn_pendings_msgs c)); [reflexivity|].
    rewrite sent_on_send. now rewrite <-app_assoc.
Qed.

(** ** The answer to a registration *)

(** the state after the part of [_handle_connection] that holds the lock *)
Definition registered (t : tcp) (l : loc) (c : Connection) (s : TCPServer) : TCPServer :=
  set_ts_contexts (<[t := l]> (ts_contexts s)) (set_ts_heap (<[l := connected t c]> (ts_heap s)) s).

Lemma register_known t name l c s :
  ts_connection_data s !! name = Some l -> ts_heap s !! l = Some c -> name <> DATAPLANE_ID -> name <> CONTROLPLANE_ID ->
  register_connection t name s = (Ret tt, registered t l c s).
Proof.
  intros Hl Hc H1 H2. unfold register_connection. erewrite M_bind_eq by reflexivity. rewrite Hl.
  rewrite (M_bind_eq _ _ _ _ _ (update_conn_eq l _ c s Hc)). rewrite !decide_False by done. reflexivity.
Qed.

Lemma ack_bytes : exists req, set_process_name (sv_of_string "CORRECT") ProcessConnectionData = Ret req /\ bytes req = ack.
Proof. eexists. split; [reflexivity|reflexivity]. Qed.

(** The registration, then the put: the answer and the frame. *)
Lemma put_after_registration peer msg l t c s p hdr :
  (r ← set_put_name p.1 PutMessageData; r ← set_put_process_id (sv_of_string (ts_process_id s)) r;
   Ret (bytes (set_total_length (wrap_i32 (Z.of_nat (buf_len p.2))) r))) = Ret hdr ->
  sv_str (process_name msg) = sv_str peer -> sv_str peer <> DATAPLANE_ID -> sv_str peer <> CONTROLPLANE_ID ->
  ts_connection_data s !! sv_str peer = Some l -> ts_heap s !! l = Some c ->
  exists s', for_each srv_call_run [OnRegistration t msg; SendPut peer p.1 p.2] s = (Ret tt, s') /\
    sent_on t s' = sent_on t s ++ ack ++ frame_bytes hdr p.
Proof.
  intros Eh Hm H1 H2 Hl Hc. destruct ack_bytes as (req&Er&Hack).
  set (s1 := (tcp_send t ack (registered t l c s)).2).
  assert (srv_call_run (OnRegistration t msg) s = (Ret tt, s1)) as E1.
  { rewrite <-remote_alone. cbn [srv_call_prog]. unfold handle_connection_locked. cbn [alone]. rewrite alone_act, Hm.
    rewrite (M_bind_eq _ _ _ _ _ (register_known t _ l c s Hl Hc H1 H2)). cbn [alone]. rewrite alone_act.
    rewrite (M_bind_eq _ _ _ _ _ (lift_eq _ _ _ Er)), alone_act, Hack. reflexivity. }
  destruct (put_over_connection peer l (connected t c) t s1 p hdr Eh Hl) as (s2&E2&Hs2);
    [apply lookup_insert_eq|reflexivity|].
  exists s2. cbn [for_each]. rewrite (M_bind_eq _ _ _ _ _ E1). cbn [srv_call_run]. erewrite M_bind_eq by exact E2.
  split; [reflexivity|]. rewrite Hs2. unfold s1. rewrite sent_on_send, <-app_assoc. reflexivity.
Qed.

(** The put between the registration and its answer. *)
Lemma put_within_registration peer msg l t c s p hdr :
  (r ← set_put_name p.1 PutMessageData; r ← set_put_process_id (sv_of_string (ts_process_id s)) r;
   Ret (bytes (set_total_length (wrap_i32 (Z.of_nat (buf_len p.2))) r))) = Ret hdr ->
  sv_str (process_name msg) = sv_str peer -> sv_str peer <> DATAPLANE_ID -> sv_str peer <> CONTROLPLANE_ID ->
  ts_connection_data s !! sv_str peer = Some l -> ts_heap s !! l = Some c ->
  exists s', run [0; 0; 0; 1; 1; 1; 1; 1; 1; 0; 0; 1; 1]
      {| sy_state := s; sy_threads := spawn <$> (srv_call_prog <$> [OnRegistration t msg; SendPut peer p.1 p.2]) |} = Some s' /\
    all_ended s' /\ sent_on t (sy_state s') = sent_on t s ++ hdr ++ ack ++ buffer_data p.2.
Proof.
  intros Eh Hm H1 H2 Hl Hc. destruct ack_bytes as (req&Er&Hack).
  cbn [fmap list_fmap srv_call_prog]. unfold put_message_locked, handle_connection_locked, spawn. rewrite Hm.
  next_lock. next_by (exact (register_known t _ l c s Hl Hc H1 H2)). set (s1 := registered t l c s). next_unlock.
  next_lock. next_by (exact (connection_of peer l s1 Hl)). next_by reflexivity. next_by (apply lift_eq, Eh).
  unfold send_or_store_locked at 1.
  assert (forall w, ts_heap w = ts_heap s1 -> deref l w = (Ret (connected t c), w)) as Hderef.
  { intros w Hw. apply deref_at. rewrite Hw. apply lookup_insert_eq. }
  next_by (exact (Hderef s1 eq_refl)). cbn [cn_conn connected set_cn_conn].
  assert (forall w data, ts_heap w = ts_heap s1 -> conn_send l data w = (Ret tt, (tcp_send t data w).2)) as Hsend.
  { intros w data Hw. unfold conn_send. now rewrite (M_bind_eq _ _ _ _ _ (Hderef w Hw)). }
  next_by (exact (Hsend s1 hdr eq_refl)). next_by (apply lift_eq, Er). rewrite Hack. next_by reflexivity.
  next_by (apply Hsend; reflexivity). next_unlock. eexists. split; [reflexivity|]. cbn [sy_state]. split.
  - repeat constructor; eexists; reflexivity.
  - etransitivity; [apply sent_on_send|]. etransitivity; [apply f_equal2; [apply sent_on_send|reflexivity]|].
    cbn [fst snd]. etransitivity; [apply f_equal2; [apply f_equal2; [apply sent_on_send|reflexivity]|reflexivity]|].
    rewrite <-!app_assoc. reflexivity.
Qed.

(** ** What the receiver makes of it

    It has opened the connection itself, so the connection has no context until
    the answer comes. *)
Lemma handle_message_no_context fuel t s b v :
  ts_contexts s !! t = None -> BUF_SIZE <= length b -> parse (take BUF_SIZE b) = Ret v ->
  (forall m, v <> VProcessConnection m) ->
  handle_message (S fuel) t (s, b) =
  (if 0 <? length (drop BUF_SIZE b) then handle_message fuel t else mret tt) (s, drop BUF_SIZE b).
Proof.
  intros Ht Hlen Hv Hne. cbn [handle_message]. erewrite M_bind_eq by reflexivity. cbn [fst]. rewrite Ht.
  erewrite M_bind_eq by reflexivity. cbn [snd]. rewrite (proj2 (Nat.ltb_ge _ _)) by done. rewrite Hv.
  erewrite M_bind_eq by reflexivity. destruct v as [|m0| | | | | | | |]; try reflexivity. now destruct (Hne m0).
Qed.

Lemma handle_message_answer fuel t s b m s' :
  ts_contexts s !! t = None -> BUF_SIZE <= length b -> parse (take BUF_SIZE b) = Ret (VProcessConnection m) ->
  handle_connection t m s = (Ret tt, s') ->
  handle_message (S fuel) t (s, b) =
  (if 0 <? length (drop BUF_SIZE b) then handle_message fuel t else mret tt) (s', drop BUF_SIZE b).
Proof.
  intros Ht Hlen Hv Hc. cbn [handle_message]. erewrite M_bind_eq by reflexivity. cbn [fst]. rewrite Ht.
  erewrite M_bind_eq by reflexivity. cbn [snd]. rewrite (proj2 (Nat.ltb_ge _ _)) by done. rewrite Hv.
  erewrite M_bind_eq by reflexivity. unfold mbind, M_bind, on_srv, zoom. cbn [fst snd]. now rewrite Hc.
Qed.

(** the answer registers the connection under the name it carries *)
Lemma answer_registers t s :
  ts_contexts s !! t = None -> ts_connection_data s !! "CORRECT" = None ->
  exists m s1 l, parse ack = Ret (VProcessConnection m) /\ handle_connection t m s = (Ret tt, s1) /\ ts_calls s1 = ts_calls s /\
    conn_at t l PROCESS (Some "CORRECT") (Connection_make CONNECTED PROCESS (Some "CORRECT") (Some t)) s1.
Proof.
  intros Ht Hn. destruct ack_parse as (m&Hm&Hname). destruct (handle_connection_new t m s) as (s1&l&E&Hx&Hh&_); rewrite ?Hname; try done.
  exists m, s1, l. rewrite Hname in Hh. split_and!; auto.
  - revert E. unfold handle_connection. erewrite M_bind_eq by reflexivity. rewrite Hname, Hn, !decide_False by done. now intros [= <-].
  - unfold conn_at. rewrite Hx, lookup_insert_eq. now split_and!.
Qed.

(** what follows the answer is read as the messages of the process "CORRECT" *)
Lemma read_after_answer fuel t s b :
  ts_contexts s !! t = None -> ts_connection_data s !! "CORRECT" = None -> length b < fuel ->
  exists s' b' l, handle_message (S fuel) t (s, ack ++ b) = ((decode_stream PROCESS (Some "CORRECT") b).2, (s', b')) /\
    ts_calls s' = ts_calls s ++ (decode_stream PROCESS (Some "CORRECT") b).1.1 /\
    ((decode_stream PROCESS (Some "CORRECT") b).2 = Ret tt ->
     receiving t l PROCESS (Some "CORRECT") (decode_stream PROCESS (Some "CORRECT") b).1.2 s' b').
Proof.
  intros Ht Hn Hf. destruct (answer_registers t s Ht Hn) as (m&s1&l&Hm&E&Hk&Hat).
  rewrite (handle_message_answer fuel t s (ack ++ b) m s1 Ht); [|rewrite length_app, length_ack; lia| |exact E].
  2:{ replace (take BUF_SIZE (ack ++ b)) with ack by (rewrite <-length_ack, take_app_length; reflexivity). exact Hm. }
  replace (drop BUF_SIZE (ack ++ b)) with b by (rewrite <-length_ack, drop_app_length; reflexivity).
  pose proof (handle_message_rest t l PROCESS (Some "CORRECT") fuel s1 b ltac:(lia) ltac:(eexists; split; [exact Hat|reflexivity])) as Hr.
  destruct (handle_message_at t l PROCESS (Some "CORRECT") fuel _ s1 b Hf Hat eq_refl) as (s'&b'&E'&Hk'&Hrec).
  exists s', b', l. rewrite <-E', <-Hk, <-Hk'. split_and!; [exact Hr|reflexivity|exact Hrec].
Qed.

(** In order: the put is delivered. *)
Lemma put_read_after_answer id p hdr t s :
  put_ok p -> put_frame id p hdr -> ts_contexts s !! t = None -> ts_connection_data s !! "CORRECT" = None ->
  exists s' b' l, handle_bytes t (s, ack ++ frame_bytes hdr p) = (Ret tt, (s', b')) /\
    ts_calls s' = ts_calls s ++ [put_call "CORRECT" hdr p] /\ receiving t l PROCESS (Some "CORRECT") [] s' b'.
Proof.
  intros Hp (Hlen&m&Hm&_&_&Htl) Ht Hn. unfold handle_bytes. erewrite M_bind_eq by reflexivity. cbn [snd].
  assert (decode_stream PROCESS (Some "CORRECT") (frame_bytes hdr p) = ([put_call "CORRECT" hdr p], [], Ret tt)) as Hd.
  { destruct Hp as (_&Hb&Hlt). rewrite <-(app_nil_r (frame_bytes hdr p)). unfold frame_bytes. rewrite <-app_assoc.
    rewrite (decode_message PROCESS (Some "CORRECT") hdr (VPutMessage m) false _ [] (put_call "CORRECT" hdr p) Hlen Hm).
    - now rewrite decode_stream_short by (cbn; unfold BUF_SIZE; lia).
    - cbn. rewrite Htl, Hb, wrap_u64_id; [done|unfold u64_range; lia].
    - cbn. unfold put_call, payload_buffer. now rewrite firstn_all, Hb. }
  destruct (read_after_answer (length (ack ++ frame_bytes hdr p)) t s (frame_bytes hdr p) Ht Hn) as (s'&b'&l&E&Hk&Hr).
  { rewrite length_app, length_ack. unfold BUF_SIZE. lia. }
  exists s', b', l. rewrite Hd in *. split_and!; [exact E|exact Hk|now apply Hr].
Qed.

(** Torn apart: its header is ignored, and its payload is the beginning of the next message. *)
Lemma torn_put_read id p hdr t s :
  put_ok p -> put_frame id p hdr -> buf_len p.2 < BUF_SIZE ->
  ts_contexts s !! t = None -> ts_connection_data s !! "CORRECT" = None ->
  exists s' b' l, handle_bytes t (s, hdr ++ ack ++ buffer_data p.2) = (Ret tt, (s', b')) /\
    ts_calls s' = ts_calls s /\ receiving t l PROCESS (Some "CORRECT") (buffer_data p.2) s' b'.
Proof.
  intros (_&Hb&_) (Hlen&m&Hm&_) Hlt Ht Hn. unfold handle_bytes. erewrite M_bind_eq by reflexivity. cbn [snd].
  assert (drop BUF_SIZE (hdr ++ ack ++ buffer_data p.2) = ack ++ buffer_data p.2) as Hdrop by (rewrite <-Hlen; apply drop_app_length).
  rewrite (handle_message_no_context _ t s _ (VPutMessage m) Ht); [|rewrite length_app; lia| |done].
  2:{ rewrite <-Hlen, take_app_length. exact Hm. }
  rewrite Hdrop, (proj2 (Nat.ltb_lt 0 _)) by (rewrite length_app, length_ack; unfold BUF_SIZE; lia).
  assert (length (hdr ++ ack ++ buffer_data p.2) = S (pred (length (hdr ++ ack ++ buffer_data p.2)))) as ->.
  { rewrite length_app, Hlen. unfold BUF_SIZE. lia. }
  destruct (read_after_answer (pred (length (hdr ++ ack ++ buffer_data p.2))) t s (buffer_data p.2) Ht Hn) as (s'&b'&l&E&Hk&Hr).
  { rewrite !length_app, length_ack, Hlen. unfold BUF_SIZE. lia. }
  rewrite decode_stream_short in * by (rewrite Hb; exact Hlt). cbn [fst snd] in *. rewrite app_nil_r in Hk.
  exists s', b', l. split_and!; [exact E|exact Hk|now apply Hr].
Qed.

(** Before a registration is answered the lock is released: a put of the other
    thread then writes its header before the answer and its payload after it.
    The peer, which knows no sender before the answer, ignores the header and
    takes the payload for the beginning of the next message, whatever follows;
    after the answer, it would have delivered the put. *)
Theorem put_torn peer msg l t c s p (id := ts_process_id s) (calls := [OnRegistration t msg; SendPut peer p.1 p.2]) :
  cview NAME_LENGTH (sv_of_string id) -> put_ok p -> buf_len p.2 < BUF_SIZE ->
  sv_str (process_name msg) = sv_str peer -> sv_str peer <> DATAPLANE_ID -> sv_str peer <> CONTROLPLANE_ID ->
  ts_connection_data s !! sv_str peer = Some l -> ts_heap s !! l = Some c ->
  exists hdr, put_frame id p hdr /\
    (exists s', for_each srv_call_run calls s = (Ret tt, s') /\ sent_on t s' = sent_on t s ++ ack ++ frame_bytes hdr p) /\
    (exists schedule s', run schedule {| sy_state := s; sy_threads := spawn <$> (srv_call_prog <$> calls) |} = Some s' /\
      all_ended s' /\ sent_on t (sy_state s') = sent_on t s ++ hdr ++ ack ++ buffer_data p.2) /\
    forall t2 s2, ts_contexts s2 !! t2 = None -> ts_connection_data s2 !! "CORRECT" = None ->
      (exists s' b' l', handle_bytes t2 (s2, ack ++ frame_bytes hdr p) = (Ret tt, (s', b')) /\
        ts_calls s' = ts_calls s2 ++ [put_call "CORRECT" hdr p] /\ receiving t2 l' PROCESS (Some "CORRECT") [] s' b') /\
      (exists s' b' l', handle_bytes t2 (s2, hdr ++ ack ++ buffer_data p.2) = (Ret tt, (s', b')) /\
        ts_calls s' = ts_calls s2 /\ receiving t2 l' PROCESS (Some "CORRECT") (buffer_data p.2) s' b').
Proof.
  intros Hid Hp Hlt Hm H1 H2 Hl Hc. destruct (put_header _ _ Hid Hp) as (hdr&Hf&Eh). exists hdr. split; [exact Hf|].
  split; [exact (put_after_registration peer msg l t c s p hdr Eh Hm H1 H2 Hl Hc)|]. split.
  - eexists. exact (put_within_registration peer msg l t c s p hdr Eh Hm H1 H2 Hl Hc).
  - intros t2 s2 Ht Hn. split; [now apply (put_read_after_answer id)|now apply (torn_put_read id)].
Qed.

(** ** Witnesses *)

(** "peer" is being connected to; one put is stored *)
Definition demo_connecting : TCPServer :=
  demo_server (set_cn_pendings_msgs [(demo_put_header, buffer_of_bytes [x61])]
    (set_cn_address "10.0.0.2" 8000 (Connection_make CONNECTING PROCESS (Some "peer") None))).
Definition demo_late_put : string_view * Buffer := (sv_of_string "late", buffer_of_bytes [x62]).

Lemma put_lost_witness :
  exists reg schedule, length reg = BUF_SIZE /\ exists s',
    run schedule {| sy_state := demo_connecting;
      sy_threads := spawn <$> (srv_call_prog <$> [OnConnected 0 7; SendPut (sv_of_string "peer") demo_late_put.1 demo_late_put.2]) |}
      = Some s' /\ sent_on 7 (sy_state s') = reg ++ demo_put_header ++ [x61].
Proof.
  destruct (put_lost (sv_of_string "peer") 0 7 _ demo_connecting demo_late_put ltac:(now apply cview_sample)
    ltac:(split; [now apply cview_sample|split; [reflexivity|cbn; lia]]) eq_refl eq_refl eq_refl
    ltac:(repeat constructor)) as (_&reg&schedule&Hlen&s'&H1&_&H2&_).
  exists reg, schedule. split; [exact Hlen|]. exists s'. split; [exact H1|exact H2].
Defined.

(** the registration of "peer", as it arrives *)
Definition demo_peer_registration : ProcessConnection := ProcessConnection_ctor (from_ret [] (encode (WProcessConnection "peer"))).

Lemma put_torn_witness :
  exists hdr, put_frame "me" demo_late_put hdr /\
    (exists schedule s', run schedule {| sy_state := demo_known;
       sy_threads := spawn <$> (srv_call_prog <$>
         [OnRegistration 7 demo_peer_registration; SendPut (sv_of_string "peer") demo_late_put.1 demo_late_put.2]) |} = Some s' /\
      sent_on 7 (sy_state s') = hdr ++ ack ++ [x62]) /\
    exists s' b' l', handle_bytes 5 (TCPServer_ctor "peer", hdr ++ ack ++ [x62]) = (Ret tt, (s', b')) /\
      ts_calls s' = [] /\ receiving 5 l' PROCESS (Some "CORRECT") [x62] s' b'.
Proof.
  destruct (put_torn (sv_of_string "peer") demo_peer_registration 0 7 _ demo_known demo_late_put ltac:(now apply cview_sample)
    ltac:(split; [now apply cview_sample|split; [reflexivity|cbn; lia]]) ltac:(cbn; unfold BUF_SIZE; lia)
    ltac:(vm_compute; reflexivity) ltac:(vm_compute; discriminate) ltac:(vm_compute; discriminate) eq_refl eq_refl)
    as (hdr&Hf&_&(schedule&s'&Hr&_&Hs)&Hrecv).
  exists hdr. split; [exact Hf|]. split; [exists schedule, s'; split; [exact Hr|exact Hs]|].
  exact (proj2 (Hrecv 5 (TCPServer_ctor "peer") eq_refl eq_refl)).
Defined.

(** the put has looked at the connection, the callback has begun *)
Lemma remote_runs_complete_witness :
  exists s, run [1; 1; 1; 1; 1; 0; 0; 0] {| sy_state := demo_connecting;
      sy_threads := spawn <$> (srv_call_prog <$> [OnConnected 0 7; SendPut (sv_of_string "peer") demo_late_put.1 demo_late_put.2]) |}
      = Some s /\ ~ deadlocked s /\ exists rest s', run rest s = Some s' /\ all_ended s'.
Proof.
  destruct (run _ _) as [s|] eqn:E.
  - destruct (remote_runs_complete [OnConnected 0 7; SendPut (sv_of_string "peer") demo_late_put.1 demo_late_put.2]
      demo_connecting [1; 1; 1; 1; 1; 0; 0; 0] s E) as (_&Hd&Hc).
    exists s. split; [reflexivity|]. split; [exact Hd|exact Hc].
  - exfalso. match type of E with ?r = None => assert (match r with Some _ => true | None => false end = true) as H by (vm_compute; reflexivity) end.
    now rewrite E in H.
Defined.
