(* ===== verification/Invoker.v ===== *)
(** * Invoker: the worker process's end of the channel

    [runtime/internal/invoker.hpp] and [runtime/src/internal/invoker.cpp]: a
    worker takes invocations from the controller and returns their results over
    two message queues, and keeps the status of the application up to date.
    [runtime/buffer.hpp] and [invocation.hpp]: what a function gets to see.

    The arguments of an invocation point into the input buffer of the invoker:
    a pointer is a block of memory and an offset.  The invoker's calls to its
    queues block; [shutdown] is called by the signal handler. *)

From S2P Require Import Prelude Memory IpcMessages Buffers Channel Application Functions WorkQueue.

(** a null pointer, or one into the invoker's input buffer or into an array of
    the heap of Context.v *)
Inductive block : Type := BInput | BHeap (l : nat).
Inductive pointer : Type := NullPtr | Ptr (b : block) (off : Z).
#[export] Instance block_eq_dec : EqDecision block.
Proof. solve_decision. Defined.
#[export] Instance pointer_eq_dec : EqDecision pointer.
Proof. solve_decision. Defined.

(** [ptr += n]; a null pointer only moves by 0 *)
Definition ptr_add (p : pointer) (n : Z) : pointer :=
  match p with NullPtr => NullPtr | Ptr b off => Ptr b (wrap_u64 (off + n)) end.

(** [runtime::Buffer], a view *)
Record RBuffer : Type := MkRBuffer { rb_ptr : pointer; rb_len : Z; rb_size : Z }.
Definition RBuffer_null : RBuffer := {| rb_ptr := NullPtr; rb_len := 0; rb_size := 0 |}.

(** [runtime::Invocation] *)
Record RInvocation : Type := MkRInvocation {
  rinv_key : string; rinv_function_name : string; rinv_args : list RBuffer;
}.
Definition RInvocation_empty : RInvocation :=
  {| rinv_key := EmptyString; rinv_function_name := EmptyString; rinv_args := [] |}.

Section invoker.
Context `{Allocator} `{PosixMQ}.

Record Invoker : Type := MkInvoker {
  iv_process_id : string;
  iv_input : Buffer;
  iv_app_status : Application;
  iv_ending : bool;
  iv_ipc_channel_read : option POSIXMQChannel;
  iv_ipc_channel_write : option POSIXMQChannel;
}.

(** the constructor, after the queues were opened with messages of [read_size]
    and [write_size] bytes *)
Definition Invoker_ctor (process_id : string) (read write : mqd) (read_size write_size : Z) : Invoker :=
  {| iv_process_id := process_id; iv_input := buffer_null_value;
     iv_app_status := {| active_processes := [process_id]; swapped_processes := [] |}; iv_ending := false;
     iv_ipc_channel_read := Some (POSIXMQChannel_ctor read read_size);
     iv_ipc_channel_write := Some (POSIXMQChannel_ctor write write_size) |}.

Definition set_iv_input (b : Buffer) (s : Invoker) : Invoker :=
  {| iv_process_id := iv_process_id s; iv_input := b; iv_app_status := iv_app_status s;
     iv_ending := iv_ending s; iv_ipc_channel_read := iv_ipc_channel_read s;
     iv_ipc_channel_write := iv_ipc_channel_write s |}.
Definition set_iv_app_status (a : Application) (s : Invoker) : Invoker :=
  {| iv_process_id := iv_process_id s; iv_input := iv_input s; iv_app_status := a;
     iv_ending := iv_ending s; iv_ipc_channel_read := iv_ipc_channel_read s;
     iv_ipc_channel_write := iv_ipc_channel_write s |}.
Definition set_iv_read (c : option POSIXMQChannel) (s : Invoker) : Invoker :=
  {| iv_process_id := iv_process_id s; iv_input := iv_input s; iv_app_status := iv_app_status s;
     iv_ending := iv_ending s; iv_ipc_channel_read := c;
     iv_ipc_channel_write := iv_ipc_channel_write s |}.
Definition set_iv_write (c : option POSIXMQChannel) (s : Invoker) : Invoker :=
  {| iv_process_id := iv_process_id s; iv_input := iv_input s; iv_app_status := iv_app_status s;
     iv_ending := iv_ending s; iv_ipc_channel_read := iv_ipc_channel_read s;
     iv_ipc_channel_write := c |}.

(** [_ipc_channel_read->m] and [_ipc_channel_write->m] *)
Definition on_read {A} (m : M POSIXMQChannel A) : M Invoker A := fun s =>
  match iv_ipc_channel_read s with
  | None => (Undef, s)
  | Some c => let '(r, c') := m c in (r, set_iv_read (Some c') s)
  end.
Definition on_write {A} (m : M POSIXMQChannel A) : M Invoker A := fun s =>
  match iv_ipc_channel_write s with
  | None => (Undef, s)
  | Some c => let '(r, c') := m c in (r, set_iv_write (Some c') s)
  end.

(** ** poll *)

(** the arguments: consecutive views from [ptr] on *)
Fixpoint arg_views (ptr : pointer) (lens : list Z) : list RBuffer :=
  match lens with
  | [] => []
  | l :: lens' =>
      let len := wrap_u64 l in
      {| rb_ptr := ptr; rb_len := len; rb_size := len |} :: arg_views (ptr_add ptr len) lens'
  end.

Definition input_ptr (input : Buffer) : pointer :=
  match buf_ptr input with None => NullPtr | Some _ => Ptr BInput 0 end.

(** the case of an invocation request *)
Definition take_invocation_request (req : IpcInvocationRequest) (invoc : RInvocation) : M Invoker RInvocation :=
  lens ← lift (read_lengths 0 (Z.to_nat (buffers req)) req);
  input ← gets iv_input;
  if (Z.of_nat (buf_len input) <? wrap_u64 (foldr Z.add 0 lens))%Z
  then throw (PraaSException "Header declared {} bytes, but we only received {}!")
  else mret {| rinv_key := sv_str (ipc_invocation_id req); rinv_function_name := sv_str (ipc_function_name req);
               rinv_args := rinv_args invoc ++ arg_views (input_ptr input) lens |}.

(** the body of the loop: whether an invocation was received *)
Definition poll_once (invoc : RInvocation) : M Invoker (RInvocation * bool) :=
  input ← gets iv_input;
  r ← on_read (blocking_receive input);
  modify (set_iv_input r.2) ≫= fun _ =>
  if negb (r.1 : bool) then throw (PraaSException "Did not receive a full buffer - failed receive!")
  else
    msg ← on_read (gets ch_msg);
    parsed_msg ← lift (parse_message msg);
    match parsed_msg with
    | VInvocationRequestParsed req => invoc ← take_invocation_request req invoc; mret (invoc, true)
    | VApplicationUpdateParsed req =>
        modify (fun s => set_iv_app_status
          (update (Status_of_Z (ipc_status_change req)) (sv_str (ipc_update_process_id req)) (iv_app_status s)) s) ≫= fun _ =>
        mret (invoc, false)
    | _ => mret (invoc, false)
    end.

(** [poll()].  The loop ends with the next invocation or with an error; fuel
    counts the messages taken. *)
Fixpoint poll_loop (fuel : nat) (invoc : RInvocation) : M Invoker (option RInvocation) := fun s =>
  if iv_ending s then (Ret (Some invoc), s)
  else
    match fuel with
    | O => (Undef, s)
    | S fuel' =>
        match poll_once invoc s with
        | (Ret (invoc', true), s') => (Ret (Some invoc'), s')
        | (Ret (invoc', false), s') => poll_loop fuel' invoc' s'
        | (Throw e, s') =>
            if is_praas_exception e then
              if iv_ending s' then poll_loop fuel' invoc s' else (Ret None, s')
            else (Throw e, s')
        | (Undef, s') => (Undef, s')
        end
    end.
Definition poll (fuel : nat) : M Invoker (option RInvocation) := poll_loop fuel RInvocation_empty.

(** ** Results and requests *)

(** [finish(invocation_id, output, return_code)] *)
Definition invoker_finish (invocation_id : string_view) (output : BufferAccessor) (return_code : Z) : M Invoker unit :=
  let msg := set_ipc_return_code return_code IpcInvocationResult_ctor in
  let msg := set_ipc_buffer_length (wrap_i32 (Z.of_nat (acc_len output))) msg in
  msg ← lift (set_ipc_result_id invocation_id msg);
  _ ← on_write (send_accessor (irs_msg msg) output);
  mret tt.

(** [finish(invocation_id, error_message)] *)
Definition invoker_finish_error (invocation_id : string_view) (error_message : list byte) : M Invoker unit :=
  invoker_finish invocation_id {| acc_ptr := Some error_message; acc_len := length error_message |} (-1).

(** [put(msg, payload)]: the message with its length set *)
Definition invoker_put (msg : mem) (payload : BufferAccessor) : M Invoker mem := on_write (send_accessor msg payload).

(** [get<MsgType>()]: [holds] is [std::get_if<MsgType>] *)
Definition invoker_receive {T} (holds : IpcVariants -> option T) : M Invoker (T * Buffer) :=
  r ← on_read receive;
  if negb (r.1 : bool) then throw (FunctionGetFailure "Failed get - forgot to send reason")
  else
    msg ← on_read (gets ch_msg);
    parsed_msg ← lift (parse_message msg);
    match holds parsed_msg with
    | None => throw (FunctionGetFailure "Received incorrect message!")
    | Some req => mret (req, r.2)
    end.

Definition get_if_get (v : IpcVariants) : option GenericRequest :=
  match v with VGetRequestParsed x => Some x | _ => None end.
Definition get_if_result (v : IpcVariants) : option IpcInvocationResult :=
  match v with VInvocationResultParsed x => Some x | _ => None end.
Definition get_if_state_keys (v : IpcVariants) : option mem :=
  match v with VStateKeysResultParsed x => Some x | _ => None end.

(** [get(msg)]: the request with its length set, the reply and its payload *)
Definition invoker_get (msg : mem) : M Invoker (mem * (GenericRequest * Buffer)) :=
  msg ← on_write (send_accessor msg {| acc_ptr := None; acc_len := 0 |});
  r ← invoker_receive get_if_get;
  mret (msg, r).

Definition invoker_shutdown : M Invoker unit :=
  modify (fun s => {| iv_process_id := iv_process_id s; iv_input := iv_input s; iv_app_status := iv_app_status s;
                      iv_ending := true; iv_ipc_channel_read := None; iv_ipc_channel_write := None |}).
End invoker.

(** ** The channel between messages *)
Section idle.
Context `{Allocator} `{PosixMQLaws}.

Lemma checked_write_length off m d d' : checked_write off m d = Ret d' -> length d' = length d.
Proof. unfold checked_write. case_decide; [|done]. intros [= <-]. now apply length_write_at. Qed.

Lemma recv_loop_length fuel : forall pos len q d r q' d',
  recv_loop fuel pos len (q, d) = (r, (q', d')) -> length d' = length d.
Proof.
  induction fuel as [|fuel IH]; intros pos len q d r q' d'; cbn [recv_loop]; destruct (_ <? _)%Z;
    try (intros [= <- <- <-]; done).
  destruct (mq_receive q) as [[m| |] q1]; try (intros [= <- <- <-]; done).
  destruct (checked_write pos m d) eqn:E; [|intros [= <- <- <-]; done..].
  intros Hr. apply IH in Hr. rewrite Hr. eapply checked_write_length; eauto.
Qed.

(** what a blocking receive leaves alone *)
Lemma blocking_receive_keeps buf c r c' :
  blocking_receive buf c = (r, c') ->
  ch_msg_size c' = ch_msg_size c /\ ch_buffers c' = ch_buffers c /\ ch_msg_read c' = ch_msg_read c /\
  ch_msg_payload c' = ch_msg_payload c /\ length (ch_msg_buffer c') = length (ch_msg_buffer c).
Proof.
  unfold blocking_receive, recv_header. unfold mbind, M_bind. cbv beta.
  match goal with |- context [recv_loop ?a ?b ?d ?e] => destruct (recv_loop a b d e) as [r1 [q1 b1]] eqn:E end.
  apply recv_loop_length in E. destruct r1 as [n| |]; [|intros [= <- <-]; done..].
  destruct (_ <? _); [intros [= <- <-]; done|]. unfold copy_header. destruct (_ <=? _); [|intros [= <- <-]; done].
  unfold get. destruct (_ <? _)%Z; [intros [= <- <-]; done|]. cbv zeta.
  set (b := if _ <? _ then _ else _). destruct (buf_ptr b) as [bs|].
  - match goal with |- context [recv_loop ?a ?b ?d ?e] => destruct (recv_loop a b d e) as [r2 [q2 b2]] eqn:E2 end.
    destruct r2; intros [= <- <-]; done.
  - destruct (decide _); intros [= <- <-]; done.
Qed.

(** [fs] are still to be delivered, and nothing of them was read *)
Definition idle_rx (fs : list frame) (c : POSIXMQChannel) : Prop :=
  receiver_inv fs c /\ ch_msg_read c = false.

Lemma idle_rx_next f fs c : idle_rx (f :: fs) c -> frame_ok f /\ Forall frame_ok fs.
Proof. intros [(_&_&_&_&Hf&_) _]. now apply List.Forall_cons_iff in Hf. Qed.

Lemma idle_rx_ctor q ms : (Z.of_nat IPC_BUF_SIZE <= ms)%Z -> mq_messages q = [] -> idle_rx [] (POSIXMQChannel_ctor q ms).
Proof.
  intros Hms Hq. split; [|done]. unfold receiver_inv. split_and!.
  - done.
  - apply length_fresh.
  - apply pool_ok_ctor.
  - apply pool_large_ctor. unfold BUFFER_ELEMS, BUFFER_SIZE. lia.
  - constructor.
  - unfold rx_payload. cbn. auto.
Qed.

(** a message sent by the other side *)
Lemma idle_rx_extend fs f c q :
  idle_rx fs c -> frame_ok f -> mq_messages q = mq_messages (ch_queue c) ++ frame_wire f ->
  idle_rx (fs ++ [f]) (set_ch_queue q c).
Proof. intros [Hi Hr] Hf Hq. split; [now apply receiver_inv_extend|done]. Qed.

Hypothesis mq_receive_reliable : forall q q', mq_receive q <> (MqError, q').
Hypothesis never_empty : ~ ran_empty.

Lemma idle_blocking_receive f fs buf c :
  idle_rx (f :: fs) c -> buffer_ok buf ->
  exists b c', blocking_receive buf c = (Ret (true, b), c') /\ buffer_ok b /\ buffer_data b = f_payload f /\
    ch_msg c' = f_header f /\ idle_rx fs c'.
Proof.
  intros [(Hms&Hmb&Hpo&Hpl&Hfs&Hrx) Hrd] Hb. unfold rx_payload in Hrx. rewrite Hrd in Hrx.
  destruct Hrx as [Hp Hq]. apply List.Forall_cons_iff in Hfs as [Hf Hfs].
  destruct (blocking_receive buf c) as [r c'] eqn:E.
  destruct (blocking_receive_keeps _ _ _ _ E) as (K1&K2&K3&K4&K5).
  destruct (blocking_receive_spec mq_receive_reliable f (frames_wire fs) buf c r c' Hms Hmb Hf Hq Hb never_empty E)
    as (b&->&Hb'&Hd&Hm&Hq').
  exists b, c'. split_and!; auto. split; [|congruence]. unfold receiver_inv, rx_payload.
  rewrite K1, K2, K3, K4, K5, Hrd. split_and!; auto.
Qed.

Lemma receive_payload_done c b c' : receive_payload c = (Ret (true, b), c') -> ch_msg_read c' = false.
Proof.
  unfold receive_payload. unfold_monad. destruct (_ <? _)%Z; [|intros [= <- <-]; done]. cbv zeta.
  destruct (buffer_null _); [destruct (retrieve_buffer _ _) as [b0 q]|].
  all: destruct (recv_payload _ _) as [[n| |] c1]; try (intros; discriminate).
  all: destruct (_ =? _)%Z; [|intros; discriminate].
  all: match goal with |- context [move_buffer ?p] => destruct (move_buffer p) end; intros [= <- <-]; done.
Qed.

Lemma receive_done c b c' : receive c = (Ret (true, b), c') -> ch_msg_read c' = false.
Proof.
  unfold receive. unfold mbind, M_bind at 1, get. destruct (negb _); [|apply receive_payload_done].
  unfold M_bind. destruct (recv_header c) as [[n| |] c1]; try (intros; discriminate).
  destruct (decide _); [intros; discriminate|]. destruct (_ <? _); [intros; discriminate|].
  destruct (copy_header c1) as [[[]| |] c2]; try (intros; discriminate). unfold modify. apply receive_payload_done.
Qed.

Lemma idle_receive f fs c :
  idle_rx (f :: fs) c ->
  exists b c', receive c = (Ret (true, b), c') /\ buffer_ok b /\ buffer_data b = f_payload f /\ ch_msg c' = f_header f /\
    idle_rx fs c'.
Proof.
  intros [Hi Hrd]. destruct (receive c) as [r c'] eqn:E. pose proof E as Hd.
  apply (receive_spec mq_receive_reliable _ _ _ _ Hi) in E as [(g&gs&b&[= <- <-]&->&Hok&Hb&Hm&Hi')|(_&_&[Hn|Hn])]; [|done..].
  exists b, c'. split_and!; auto. split; [done|]. now apply receive_done in Hd.
Qed.
End idle.

(** ** Messages and their headers *)

Lemma drop_write_at_disj k off bs m :
  off + length bs <= k -> off + length bs <= length m -> drop k (write_at off bs m) = drop k m.
Proof.
  intros H1 H2. unfold write_at. rewrite drop_app_ge by (rewrite length_take; lia).
  rewrite drop_app_ge by (rewrite length_take; lia). rewrite drop_drop, length_take. f_equal. lia.
Qed.

(** the total length is not part of what the message says *)
Lemma ipc_decode_total_length n m :
  length m = IPC_BUF_SIZE -> ipc_decode (set_ipc_total_length n m) = ipc_decode m.
Proof.
  intros Hm. unfold IPC_BUF_SIZE in Hm. unfold set_ipc_total_length, write_i32. set (bs := le_bytes 4 n).
  assert (length bs = 4) as Hbs by apply length_le_bytes.
  assert (forall k, 6 <= k -> drop k (write_at 2 bs m) = drop k m) as Hd
    by (intros; apply drop_write_at_disj; lia).
  assert (forall k j, 6 <= k -> bytes_at k j (write_at 2 bs m) = bytes_at k j m) as Hb
    by (intros; unfold bytes_at; now rewrite Hd).
  assert (forall k, 6 <= k -> read_i32 k (write_at 2 bs m) = read_i32 k m) as Hi
    by (intros; unfold read_i32; now rewrite Hb).
  assert (length (write_at 2 bs m) = length m) as Hl by (apply length_write_at; lia).
  assert (forall j i, read_lengths i j (InvocationRequestParsed (write_at 2 bs m)) =
    read_lengths i j (InvocationRequestParsed m)) as Hr.
  { induction j as [|j IH]; intros i; cbn [read_lengths]; [done|]. rewrite IH. unfold buffers_length. cbn [iir_msg InvocationRequestParsed].
    rewrite Hl. case_decide; [|done]. now rewrite Hi by (unfold_ipc_layout; lia). }
  assert (buffers (InvocationRequestParsed (write_at 2 bs m)) = buffers (InvocationRequestParsed m)) as Hbf
    by (unfold buffers; apply Hi; unfold_ipc_layout; lia).
  unfold ipc_decode, parse_message.
  assert (read_i16 0 (write_at 2 bs m) = read_i16 0 m) as ->
    by (unfold read_i16; now rewrite bytes_at_write_at_disj by lia).
  destruct (_ || _); [done|]. destruct (IpcType_of_Z _); cbn; auto.
  all: unfold mret, outcome_ret, generic_process_id, generic_name, generic_state, data_len, ipc_invocation_id,
    ipc_function_name, ipc_process_id, ipc_result_id, ipc_buffer_length, ipc_return_code, ipc_update_process_id,
    ipc_status_change, state_keys_buffer_length, sv_at;
    cbn [gr_msg gr_id_len gr_name_len GenericRequestParsed iir_msg iir_id_len iir_name_len iir_process_id_len
      InvocationRequestParsed irs_msg irs_id_len InvocationResultParsed iau_msg iau_id_len ApplicationUpdateParsed].
  all: rewrite ?Hbf, ?Hr, ?Hi, ?Hd, ?Hb by (unfold_ipc_layout; lia); reflexivity.
Qed.

Lemma ipc_decode_invocation m id f p lens :
  ipc_decode m = Ret (IInvocation id f p lens) -> exists x, parse_message m = Ret (VInvocationRequestParsed x) /\
    read_lengths 0 (Z.to_nat (buffers x)) x = Ret lens /\
    sv_str (ipc_invocation_id x) = id /\ sv_str (ipc_function_name x) = f.
Proof.
  unfold ipc_decode. destruct (parse_message m) as [[]| |]; cbn; try discriminate.
  destruct (read_lengths _ _ _) as [ls| |] eqn:E; cbn; try discriminate. intros [= <- <- <- <-]. eauto.
Qed.

Lemma ipc_decode_update m p st :
  ipc_decode m = Ret (IUpdate p st) -> exists x, parse_message m = Ret (VApplicationUpdateParsed x) /\
    sv_str (ipc_update_process_id x) = p /\ ipc_status_change x = st.
Proof.
  unfold ipc_decode. destruct (parse_message m) as [[]| |]; cbn; try discriminate.
  - destruct (read_lengths _ _ _); cbn; discriminate.
  - intros [= <- <-]. eauto.
Qed.

Lemma ipc_decode_get m p n st len :
  ipc_decode m = Ret (IGet p n st len) -> exists x, parse_message m = Ret (VGetRequestParsed x) /\
    sv_str (generic_process_id x) = p /\ sv_str (generic_name x) = n.
Proof.
  unfold ipc_decode. destruct (parse_message m) as [[]| |]; cbn; try discriminate.
  - intros [= <- <- <- <-]. eauto.
  - destruct (read_lengths _ _ _); cbn; discriminate.
Qed.

Lemma ipc_decode_result m id len code :
  ipc_decode m = Ret (IResult id len code) -> exists x, parse_message m = Ret (VInvocationResultParsed x) /\
    sv_str (ipc_result_id x) = id /\ ipc_return_code x = code.
Proof.
  unfold ipc_decode. destruct (parse_message m) as [[]| |]; cbn; try discriminate.
  - destruct (read_lengths _ _ _); cbn; discriminate.
  - intros [= <- <- <-]. eauto.
Qed.

(** the message [w] with the payload [p] *)
Definition frame_says (f : frame) (w : ipc_wire) (p : list byte) : Prop :=
  ipc_decode (f_header f) = Ret w /\ f_payload f = p.

(** how the sending side makes it *)
Lemma frame_of_says ms w m ps :
  ipc_encode w = Ret m -> ipc_wire_ok w -> (0 < ms)%Z -> i32_range (Z.of_nat (length (concat ps))) ->
  frame_says (frame_of ms m ps) w (concat ps) /\ frame_ok (frame_of ms m ps).
Proof.
  intros Hm Hw Hms Hps. destruct (ipc_wire_decodes w Hw) as (m'&Hm'&Hl&Hd).
  assert (m' = m) as -> by congruence. destruct (frame_of_ok ms m ps) as [Hok Hp]; auto.
  split; [|done]. split; [|done]. cbn [f_header frame_of]. now rewrite ipc_decode_total_length.
Qed.

(** ** Polling *)
Section polling.
Context `{Allocator} `{PosixMQLaws}.

(** what a view shows *)
Definition view_bytes (s : Invoker) (v : RBuffer) : option (list byte) :=
  match rb_ptr v with
  | NullPtr => if decide (rb_len v = 0%Z) then Some [] else None
  | Ptr BInput off =>
      bs ← buf_ptr (iv_input s);
      if decide (off + rb_len v <= Z.of_nat (length bs))%Z
      then Some (take (Z.to_nat (rb_len v)) (drop (Z.to_nat off) bs)) else None
  | Ptr (BHeap _) _ => None
  end.

Definition byte_lengths (ps : list (list byte)) : list Z := map (fun p => Z.of_nat (length p)) ps.

Lemma sum_byte_lengths ps : foldr Z.add 0%Z (byte_lengths ps) = Z.of_nat (length (concat ps)).
Proof. induction ps as [|p ps IH]; [done|].
  change (foldr Z.add 0 (byte_lengths (p :: ps)))%Z with (Z.of_nat (length p) + foldr Z.add 0 (byte_lengths ps))%Z.
  cbn [concat]. rewrite length_app, IH. lia. Qed.

Lemma arg_views_bytes s bs ps : forall off,
  buf_ptr (iv_input s) = Some bs -> off + length (concat ps) <= length bs ->
  (Z.of_nat (off + length (concat ps)) < 2 ^ 64)%Z ->
  take (length (concat ps)) (drop off bs) = concat ps ->
  mapM (view_bytes s) (arg_views (Ptr BInput (Z.of_nat off)) (byte_lengths ps)) = Some ps.
Proof.
  induction ps as [|p ps IH]; intros off Hb Hl Hu Ht; [done|].
  cbn [byte_lengths map arg_views mapM concat] in *. rewrite length_app in *.
  rewrite wrap_u64_id by (unfold u64_range; lia). fold (byte_lengths ps).
  assert (take (length p) (drop off bs) = p) as Hp.
  { rewrite <-(take_app_length p (concat ps)) at 2. rewrite <-Ht, take_take. f_equal. lia. }
  match goal with |- (view_bytes s ?v ≫= _) = _ => assert (view_bytes s v = Some p) as -> end.
  { unfold view_bytes. cbn [rb_ptr rb_len]. rewrite Hb. cbn [mbind option_bind].
    rewrite decide_True by lia. now rewrite !Nat2Z.id, Hp. }
  cbn [ptr_add]. rewrite wrap_u64_id by (unfold u64_range; lia). rewrite <-Nat2Z.inj_add.
  cbn [mbind option_bind]. rewrite IH; auto; [lia..|].
  rewrite <-(drop_app_length p (concat ps)) at 2. rewrite <-Ht, skipn_firstn_comm, drop_drop.
    f_equal. lia.
Qed.

Lemma arg_views_empty s ps :
  concat ps = [] -> mapM (view_bytes s) (arg_views NullPtr (byte_lengths ps)) = Some ps.
Proof.
  induction ps as [|p ps IH]; [done|]. cbn [concat]. intros [-> Hps]%app_nil. cbn [byte_lengths map arg_views mapM].
  fold (byte_lengths ps). change (ptr_add NullPtr _) with NullPtr.
  match goal with |- (view_bytes s ?v ≫= _) = _ => change (view_bytes s v) with (Some ([] : list byte)) end.
  cbn [mbind option_bind]. now rewrite IH.
Qed.

Lemma input_views s b ps :
  iv_input s = b -> buffer_ok b -> buffer_data b = concat ps -> (Z.of_nat (length (concat ps)) < 2 ^ 64)%Z ->
  mapM (view_bytes s) (arg_views (input_ptr b) (byte_lengths ps)) = Some ps.
Proof.
  intros <- Hok Hd Hu. unfold input_ptr, buffer_ok, buffer_data in *. destruct (buf_ptr (iv_input s)) as [bs|] eqn:Eb.
  - destruct Hok as [Hl Hle]. apply (arg_views_bytes s bs ps 0); auto.
    + rewrite <-Hd, length_take. lia.
    + rewrite <-Hd, drop_0, length_take, Nat.min_l by lia. done.
  - apply arg_views_empty. done.
Qed.

Hypothesis mq_receive_reliable : forall q q', mq_receive q <> (MqError, q').
Hypothesis never_empty : ~ ran_empty.

(** one message is taken, and put into the input buffer *)
Lemma poll_once_receives f fs s c :
  iv_ipc_channel_read s = Some c -> idle_rx (f :: fs) c -> buffer_ok (iv_input s) ->
  exists b c', buffer_ok b /\ buffer_data b = f_payload f /\ idle_rx fs c' /\
    let s' := set_iv_input b (set_iv_read (Some c') s) in
    forall invoc, poll_once invoc s =
      (parsed_msg ← lift (parse_message (f_header f));
       match parsed_msg with
       | VInvocationRequestParsed req => invoc ← take_invocation_request req invoc; mret (invoc, true)
       | VApplicationUpdateParsed req =>
           modify (fun s => set_iv_app_status
             (update (Status_of_Z (ipc_status_change req)) (sv_str (ipc_update_process_id req)) (iv_app_status s)) s) ≫= fun _ =>
           mret (invoc, false)
       | _ => mret (invoc, false)
       end) s'.
Proof.
  intros Hc Hi Hb. destruct (idle_blocking_receive mq_receive_reliable never_empty f fs (iv_input s) c Hi Hb)
    as (b&c'&E&Hb'&Hd&Hm&Hi').
  exists b, c'. split_and!; auto. intros s' invoc. unfold poll_once.
  assert (on_read (blocking_receive (iv_input s)) s = (Ret (true, b), set_iv_read (Some c') s)) as E1
    by (unfold on_read; now rewrite Hc, E).
  assert (on_read (gets ch_msg) s' = (Ret (f_header f), s')) as E2
    by (unfold on_read, s'; cbn; now rewrite Hm).
  rewrite (M_bind_eq _ _ _ _ _ (eq_refl : gets iv_input s = (Ret (iv_input s), s))).
  rewrite (M_bind_eq _ _ _ _ _ E1). erewrite M_bind_eq by reflexivity. cbn [negb fst snd]. fold s'.
  now rewrite (M_bind_eq _ _ _ _ _ E2).
Qed.

Definition update_of (u : string * Z) : ApplicationUpdate :=
  {| upd_status := Status_of_Z u.2; upd_process_id := u.1 |}.
Definition update_frame (u : string * Z) (f : frame) : Prop := frame_says f (IUpdate u.1 u.2) [].

Lemma poll_once_update u f fs s c invoc :
  iv_ipc_channel_read s = Some c -> idle_rx (f :: fs) c -> buffer_ok (iv_input s) -> update_frame u f ->
  exists b c', buffer_ok b /\ idle_rx fs c' /\
    poll_once invoc s = (Ret (invoc, false), set_iv_app_status (apply_update (iv_app_status s) (update_of u))
                          (set_iv_input b (set_iv_read (Some c') s))).
Proof.
  intros Hc Hi Hb [Hd _]. destruct (poll_once_receives f fs s c Hc Hi Hb) as (b&c'&Hb'&_&Hi'&E).
  exists b, c'. split_and!; auto. rewrite E. apply ipc_decode_update in Hd as (x&->&Hx1&Hx2). unfold apply_update, update_of. cbn [upd_status upd_process_id].
  now rewrite <-Hx1, <-Hx2.
Qed.

Lemma frame_payload_range f : frame_ok f -> (Z.of_nat (length (f_payload f)) < 2 ^ 31)%Z.
Proof.
  intros (Hl&_&Ht). pose proof (read_i32_range 2 (f_header f)) as Hr. unfold ipc_total_length in Ht.
  rewrite Ht in Hr. unfold i32_range in Hr. apply Hr. rewrite Hl. unfold IPC_BUF_SIZE. lia.
Qed.

Lemma poll_once_invocation key fname pid ps f fs s c :
  iv_ipc_channel_read s = Some c -> idle_rx (f :: fs) c -> buffer_ok (iv_input s) ->
  frame_says f (IInvocation key fname pid (byte_lengths ps)) (concat ps) ->
  exists b c' args, buffer_ok b /\ idle_rx fs c' /\
    let s' := set_iv_input b (set_iv_read (Some c') s) in
    poll_once RInvocation_empty s =
      (Ret ({| rinv_key := key; rinv_function_name := fname; rinv_args := args |}, true), s') /\
    mapM (view_bytes s') args = Some ps.
Proof.
  intros Hc Hi Hb [Hd Hp]. destruct (poll_once_receives f fs s c Hc Hi Hb) as (b&c'&Hb'&Hbd&Hi'&E).
  destruct (idle_rx_next _ _ _ Hi) as [Hf _]. pose proof (frame_payload_range f Hf) as Hr.
  exists b, c', (arg_views (input_ptr b) (byte_lengths ps)). split_and!; auto. cbv zeta in *.
  rewrite Hp in Hbd, Hr. split.
  - rewrite E. apply ipc_decode_invocation in Hd as (x&->&Hlens&<-&<-).
    rewrite (M_bind_eq _ _ _ _ _ (eq_refl : lift (Ret (VInvocationRequestParsed x)) _ = _)).
    unfold take_invocation_request. unfold mbind, M_bind, lift, gets. rewrite Hlens. cbn [iv_input set_iv_input].
    rewrite sum_byte_lengths, wrap_u64_id by (unfold u64_range; lia).
    assert (length (concat ps) <= buf_len b) as Hle.
    { rewrite <-Hbd. unfold buffer_ok, buffer_data in *. destruct (buf_ptr b); rewrite ?length_take; cbn; lia. }
    rewrite (proj2 (Z.ltb_ge _ _)) by lia. reflexivity.
  - eapply (input_views _ b); auto. lia.
Qed.

(** The next invocation reaches the function: whatever updates of the
    application are ahead of it in the queue, [poll] applies them in order and
    then returns the invocation with its key, its function and one argument
    for every payload buffer of the request, which shows exactly the bytes of
    that buffer; the queue keeps what follows. *)
Lemma poll_returns_invocation us fus key fname pid ps f fs : forall fuel s c,
  iv_ending s = false -> iv_ipc_channel_read s = Some c -> buffer_ok (iv_input s) ->
  idle_rx (fus ++ f :: fs) c -> Forall2 update_frame us fus ->
  frame_says f (IInvocation key fname pid (byte_lengths ps)) (concat ps) -> length us < fuel ->
  exists inv s' c', poll fuel s = (Ret (Some inv), s') /\
    rinv_key inv = key /\ rinv_function_name inv = fname /\ mapM (view_bytes s') (rinv_args inv) = Some ps /\
    iv_app_status s' = apply_updates (iv_app_status s) (update_of <$> us) /\
    iv_ipc_channel_read s' = Some c' /\ idle_rx fs c' /\
    iv_ipc_channel_write s' = iv_ipc_channel_write s /\ buffer_ok (iv_input s') /\ iv_ending s' = false.
Proof.
  unfold poll. intros fuel s c He Hc Hb Hi Hus. revert fuel s c He Hc Hb Hi.
  induction Hus as [|u fu us fus Hu Hus IH]; intros [|fuel] s c He Hc Hb Hi Hf Hfuel; [cbn in Hfuel; lia| |cbn in Hfuel; lia|].
  - destruct (poll_once_invocation key fname pid ps f fs s c Hc Hi Hb Hf) as (b&c'&args&Hb'&Hi'&E&Hv).
    eexists _, _, c'. cbn [poll_loop]. rewrite He, E. split; [reflexivity|]. split_and!; auto.
  - destruct (poll_once_update u fu (fus ++ f :: fs) s c RInvocation_empty Hc Hi Hb Hu) as (b&c'&Hb'&Hi'&E).
    cbn in Hfuel. cbn [poll_loop]. rewrite He, E.
    match type of E with _ = (_, ?s1) => destruct (IH fuel s1 c' He eq_refl Hb' Hi' Hf) as (inv&s'&c''&E'&H'); [lia|] end.
    exists inv, s', c''. rewrite E'. split; [done|]. exact H'.
Qed.
End polling.

(** ** From the work queue of the controller to the worker *)

(** the request of an invocation the work queue made, once its payload lengths are in it *)
Lemma invocation_request_decodes fname key trigger source inv lens x :
  Invocation_ctor fname key trigger source = Ret inv -> names_fit fname key ->
  length lens <= BUFFERS_CAPACITY -> Forall i32_range lens -> set_buffers lens (inv_req inv) = Ret x ->
  length (iir_msg x) = IPC_BUF_SIZE /\ ipc_decode (iir_msg x) = Ret (IInvocation key fname "" lens).
Proof.
  intros Hi [Hf%ipc_cview_fits Hid%ipc_cview_fits] Hlens Hr Hx. revert Hi.
  unfold Invocation_ctor, set_ipc_function_name, set_ipc_invocation_id. ipc_build. intros [= <-]. cbn [inv_req] in Hx.
  match type of Hx with set_buffers lens ?y = _ => set (z := y) in Hx end.
  assert (length (iir_msg z) = IPC_BUF_SIZE) as Hz by (subst z; cbn; ipc_len).
  destruct (set_buffers_ok lens z Hz Hlens) as (d&Hd&Hlen&Hfr&Hn&Hv).
  assert (x = with_iir_msg z d) as -> by congruence. cbn [iir_msg with_iir_msg]. split; [done|].
  unfold ipc_decode. rewrite (parse_message_typed _ IPC_INVOCATION_REQUEST); [|..|done].
  2:{ unfold read_i16. rewrite Hfr by (unfold_ipc_layout; lia). fold (read_i16 0 (iir_msg z)).
      subst z; cbn. ipc_type. }
  assert (length lens <= 13) as Hl13 by exact Hlens.
  assert (buffers (InvocationRequestParsed d) = Z.of_nat (length lens)) as Hb.
  { unfold buffers, read_i32; cbn. rewrite Hn. apply ipc_signed_le_bytes. unfold i32_range. lia. }
  cbn. rewrite Hb, Nat2Z.id, (read_lengths_ok lens) by (cbn; auto with lia).
  cbn. unfold ipc_invocation_id, ipc_function_name, ipc_process_id; cbn.
  rewrite !sv_str_sv_at. unfold field_text. rewrite !Hfr by (unfold_ipc_layout; lia).
  subst z; cbn. ipc_read.
  fold (sv_str (sv_of_string key)). rewrite !sv_str_of_string.
  change (S (S (S (S (S (S IPC_ID_LENGTH)))))) with (IPC_HEADER_OFFSET + IPC_ID_LENGTH). ipc_read.
  fold (sv_str (sv_of_string fname)). now rewrite sv_str_of_string.
Qed.

Section pipeline.
Context `{Allocator} `{PosixMQLaws}.
Hypothesis mq_receive_reliable : forall q q', mq_receive q <> (MqError, q').
Hypothesis never_empty : ~ ran_empty.

#[local] Instance pipeline_ipc : IpcChannel | 0 := mq_ipc.

(** the payloads of an invocation *)
Definition with_payload (data : list Buffer) (inv : Invocation) : Invocation :=
  {| inv_req := inv_req inv; inv_payload := data; inv_trigger := inv_trigger inv; inv_active := inv_active inv;
     inv_source := inv_source inv |}.

Lemma buffer_lengths data :
  Forall buffer_ok data -> i32_range (Z.of_nat (total_len data)) ->
  (fun b => wrap_i32 (Z.of_nat (buf_len b))) <$> data = byte_lengths (buffer_data <$> data).
Proof.
  unfold i32_range. intros Hok. induction Hok as [|b data Hb Hok IH]; intros Hr; [done|].
  cbn [total_len foldr] in Hr. fold (total_len data) in Hr. cbn [fmap list_fmap byte_lengths map].
  f_equal; [|apply IH; lia]. rewrite (length_buffer_data b Hb). apply wrap_i32_id. unfold i32_range. lia.
Qed.

(** the message [send] makes of it *)
Lemma request_frame fname key trigger source inv data req tx m tx' :
  Invocation_ctor fname key trigger source = Ret inv -> names_fit fname key ->
  Forall buffer_ok data -> length data <= BUFFERS_CAPACITY -> i32_range (Z.of_nat (total_len data)) ->
  (Z.of_nat IPC_BUF_SIZE <= ch_msg_size tx)%Z ->
  set_buffers ((fun b => wrap_i32 (Z.of_nat (buf_len b))) <$> data) (inv_req inv) = Ret req ->
  send_buffers (iir_msg req) data tx = (Ret m, tx') ->
  exists f, frame_ok f /\ mq_messages (ch_queue tx') = mq_messages (ch_queue tx) ++ frame_wire f /\
    frame_says f (IInvocation key fname "" (byte_lengths (buffer_data <$> data))) (concat (buffer_data <$> data)).
Proof.
  intros Hctor Hfit Hok Hcap Htot Hms Hreq Es.
  assert (Forall i32_range ((fun b => wrap_i32 (Z.of_nat (buf_len b))) <$> data)) as Hrange
    by (apply Forall_fmap, list.Forall_true; intros; apply wrap_i32_range).
  rewrite (buffer_lengths data Hok Htot) in Hreq, Hrange.
  assert (length (byte_lengths (buffer_data <$> data)) <= BUFFERS_CAPACITY) as Hcap'
    by (unfold byte_lengths; now rewrite length_map, length_fmap).
  destruct (invocation_request_decodes _ _ _ _ _ _ _ Hctor Hfit Hcap' Hrange Hreq) as [Hlen Hdec].
  apply send_buffers_sent in Es as (r'&Hsn&Hr'&_); [|done..].
  destruct Hsn as [[-> Hq']|[[e ->] _]]; [|done]. rewrite total_len_concat in Htot by done.
  destruct (frame_of_ok (ch_msg_size tx) (iir_msg req) (map buffer_data data)) as [Hfo Hpay];
    [unfold IPC_BUF_SIZE in Hms; lia|done|done|].
  exists (frame_of (ch_msg_size tx) (iir_msg req) (map buffer_data data)). split_and!; [done|done|].
  split; [|done]. cbn [f_header frame_of]. now rewrite ipc_decode_total_length.
Qed.

Lemma mq_ipc_send_inv msg data ch ch' :
  ipc_send msg data ch = (Ret tt, ch') -> exists m, send_buffers msg data ch.1 = (Ret m, ch'.1).
Proof.
  destruct ch as [c log]. unfold ipc_send, pipeline_ipc, mq_ipc. cbn [fst].
  destruct (send_buffers msg data c) as [[m| |] c']; [|discriminate..]. intros [= <-]. eauto.
Qed.

(** From the work queue to the function: when [submit] hands an invocation
    over, the worker it chose - its invoker at the other end of the queue,
    with any application updates still ahead - polls exactly this invocation:
    its key, its function and one argument for every payload, in order and
    byte for byte, with the updates applied. *)
Theorem submitted_invocation_is_polled fname key trigger source inv data ws ws' inv' :
  Invocation_ctor fname key trigger source = Ret inv -> names_fit fname key ->
  Forall buffer_ok data -> length data <= BUFFERS_CAPACITY -> i32_range (Z.of_nat (total_len data)) ->
  workers_ok ws -> has_idle_workers ws = true ->
  submit (ws, with_payload data inv) = (Ret tt, (ws', inv')) ->
  exists w worker worker', ws_workers ws !! w = Some worker /\ fw_busy worker = false /\
    ws_workers ws' !! w = Some worker' /\ fw_busy worker' = true /\
    forall us fus fuel s c, (Z.of_nat IPC_BUF_SIZE <= ch_msg_size (fw_ipc_write worker).1)%Z ->
      ch_queue c = ch_queue (fw_ipc_write worker).1 -> idle_rx fus c -> Forall2 update_frame us fus ->
      iv_ending s = false -> buffer_ok (iv_input s) -> length us < fuel ->
      iv_ipc_channel_read s = Some (set_ch_queue (ch_queue (fw_ipc_write worker').1) c) ->
      exists rinv s', poll fuel s = (Ret (Some rinv), s') /\ rinv_key rinv = key /\ rinv_function_name rinv = fname /\
        mapM (view_bytes s') (rinv_args rinv) = Some (buffer_data <$> data) /\
        iv_app_status s' = apply_updates (iv_app_status s) (update_of <$> us).
Proof.
  intros Hctor Hfit Hok Hcap Htot Hws Hidle Hsub.
  assert (carries_key key (with_payload data inv)) as Hk.
  { destruct (Invocation_ctor_ok fname key trigger source Hfit) as (i&Hi&Hk&_).
    assert (i = inv) as -> by congruence. exact Hk. }
  destruct (submit_spec ws (with_payload data inv) key (Ret tt) ws' inv' Hws Hidle Hk Hcap Hsub)
    as (w&worker&req&_&Hw&Hb&Hconf&_&rs&c'&Hsend&_&Hrs).
  destruct rs as [[]| |]; [|discriminate Hrs..]. destruct Hrs as (_&_&_&Hws'&_).
  exists w, worker, (set_busy true (set_ipc_write c' worker)). split_and!; auto.
  { rewrite Hws'. apply list_lookup_insert_eq. eapply lookup_lt_Some; eauto. }
  intros us fus fuel s c Hms Hq Hrx Hus He Hb' Hfuel Hread. cbn [fw_ipc_write set_busy set_ipc_write] in *.
  unfold confirm_payload in Hconf. apply bind_ret_inv in Hconf as (req'&Hreq&Hreq').
  assert (req' = req) as -> by (injection Hreq'; done). clear Hreq'.
  destruct (mq_ipc_send_inv _ _ _ _ Hsend) as (m&Es).
  destruct (request_frame _ _ _ _ _ _ _ _ _ _ Hctor Hfit Hok Hcap Htot Hms Hreq Es) as (f&Hfo&Hq'&Hf).
  assert (idle_rx (fus ++ [f]) (set_ch_queue (ch_queue c'.1) c)) as Hrx'
    by (apply idle_rx_extend; auto; now rewrite Hq).
  destruct (poll_returns_invocation mq_receive_reliable never_empty us fus key fname "" (buffer_data <$> data) f []
    fuel s _ He Hread Hb' Hrx' Hus Hf Hfuel) as (rinv&s'&c''&E&Hk'&Hf'&Hv&Happ&_).
  exists rinv, s'. auto.
Qed.
End pipeline.

(** ** A worker on plain queues *)
Section concrete.
#[local] Existing Instance plain_mq | 0.
#[local] Existing Instance plain_laws | 0.

(** the frame of a message with one payload *)
Definition wire_frame (w : ipc_wire) (p : list byte) : frame :=
  match ipc_encode w with Ret m => frame_of 128 m [p] | _ => sample_frame end.

Lemma wire_frame_says w p :
  ipc_wire_ok w -> i32_range (Z.of_nat (length p)) -> frame_says (wire_frame w p) w p /\ frame_ok (wire_frame w p).
Proof.
  intros Hw Hp. unfold wire_frame. destruct (ipc_wire_decodes w Hw) as (m&Hm&_&_). rewrite Hm.
  destruct (frame_of_says 128 w m [p] Hm Hw) as [Hf Hok]; [lia|cbn; now rewrite app_nil_r|].
  cbn in Hf. rewrite app_nil_r in Hf. auto.
Qed.

Lemma plain_idle fs : Forall frame_ok fs -> idle_rx fs (plain_channel (frames_wire fs)).
Proof.
  intros Hfs. split; [|done]. unfold receiver_inv. split_and!; try done; try (now constructor).
Qed.

Definition plain_invoker (incoming : list frame) : Invoker :=
  {| iv_process_id := "process-0"; iv_input := buffer_null_value;
     iv_app_status := {| active_processes := ["process-0"]; swapped_processes := [] |}; iv_ending := false;
     iv_ipc_channel_read := Some (plain_channel (frames_wire incoming));
     iv_ipc_channel_write := Some (plain_channel []) |}.

Definition plain_workers : @Workers mq_ipc :=
  {| ws_workers := [@MkWorker mq_ipc (plain_channel [], []) (plain_channel [], []) 1 false]; ws_worker_counter := 1; ws_idle_workers := 1 |}.

Lemma plain_receive_reliable : forall q q', mq_receive q <> (MqError, q').
Proof. intros [|] ?; cbn; discriminate. Qed.
Lemma plain_send_reliable : forall q m, exists q', mq_send q m = (true, q').
Proof. intros q m. eexists. reflexivity. Qed.

Lemma submitted_invocation_is_polled_witness :
  exists inv ws' inv', Invocation_ctor "f" "id" (DirectTrigger "f") from_local = Ret inv /\
    submit (plain_workers, with_payload [buffer_of_bytes [x01; x02]; buffer_of_bytes [x03]] inv) = (Ret tt, (ws', inv')) /\
    exists worker' rinv s', ws_workers ws' !! 0 = Some worker' /\
      poll 1 (set_iv_read (Some (set_ch_queue (ch_queue (fw_ipc_write worker').1) (plain_channel []))) (plain_invoker []))
        = (Ret (Some rinv), s') /\
      rinv_key rinv = "id" /\ mapM (view_bytes s') (rinv_args rinv) = Some [[x01; x02]; [x03]].
Proof.
  set (data := [buffer_of_bytes [x01; x02]; buffer_of_bytes [x03]]).
  assert (match Invocation_ctor "f" "id" (DirectTrigger "f") from_local with
          | Ret i => (submit (plain_workers, with_payload data i)).1 | _ => Undef end = Ret tt) as Hr
    by (vm_compute; reflexivity).
  destruct (Invocation_ctor "f" "id" (DirectTrigger "f") from_local) as [inv| |] eqn:Ei; [|discriminate Hr..].
  destruct (submit (plain_workers, with_payload data inv)) as [r [ws' inv']] eqn:Es. cbn [fst] in Hr. subst r.
  exists inv, ws', inv'. split; [reflexivity|]. split; [exact Es|].
  destruct (submitted_invocation_is_polled plain_receive_reliable plain_never_empty "f" "id" (DirectTrigger "f") from_local
    inv data plain_workers ws' inv' Ei names_fit_sample ltac:(repeat constructor; cbn; lia) ltac:(vm_compute; lia)
    ltac:(unfold i32_range; vm_compute; split; congruence) eq_refl eq_refl Es)
    as (w&worker&worker'&Hw&_&Hw'&_&Hpoll).
  destruct w as [|w]; [|destruct w; discriminate Hw]. injection Hw as <-.
  destruct (Hpoll [] [] 1 (set_iv_read (Some (set_ch_queue (ch_queue (fw_ipc_write worker').1) (plain_channel []))) (plain_invoker []))
    (plain_channel []) ltac:(unfold IPC_BUF_SIZE; cbn; lia) eq_refl
    (plain_idle [] (List.Forall_nil _)) (Forall2_nil _) eq_refl ltac:(cbn; lia) ltac:(cbn; lia) eq_refl)
    as (rinv&s'&E&Hk&_&Hv&_).
  exists worker', rinv, s'. auto.
Defined.
End concrete.
