(* ===== verification/Context.v ===== *)
(** * Context: what a function can ask of its process

    [runtime/context.hpp] and [runtime/src/context.cpp]: the buffers a function
    works on and the requests it makes, and the main loop of the C++ invoker
    ([process/invoker/cpp/cli.cpp]).  Buffers are shared: the same array is
    owned by the context, seen by the function through a pointer, and sent to
    the controller, and it is freed when the invocation ends.  So arrays live in
    a heap, and an access through a pointer to a freed array is undefined. *)

From S2P Require Import Prelude Memory IpcMessages Buffers Channel Application Functions WorkQueue Invoker.

(** [internal::Buffer<std::byte>] as a member of the context: the array it owns *)
Record HBuffer : Type := MkHBuffer { hb_ptr : option nat; hb_size : Z; hb_len : Z }.

(** [buf.data()] *)
Definition hb_data (b : HBuffer) : pointer :=
  match hb_ptr b with None => NullPtr | Some l => Ptr (BHeap l) 0 end.
Definition set_hb_len (len : Z) (b : HBuffer) : HBuffer :=
  {| hb_ptr := hb_ptr b; hb_size := hb_size b; hb_len := len |}.
(** the view of an owned buffer *)
Definition view_of (b : HBuffer) : RBuffer := {| rb_ptr := hb_data b; rb_len := hb_len b; rb_size := hb_size b |}.
Definition set_rb_len (len : Z) (b : RBuffer) : RBuffer :=
  {| rb_ptr := rb_ptr b; rb_len := len; rb_size := rb_size b |}.

(** [runtime::InvocationResult] *)
Record RInvocationResult : Type := MkRResult {
  rres_key : string; rres_function_name : string; rres_return_code : Z; rres_payload : RBuffer;
}.

(** [StateKeys::deserialize]: the cereal library's binary archive; the time of a
    key as it is stored *)
Class KeysArchive : Type := { deserialize_keys : list byte -> option (list (string * Z)) }.

Section context.
Context `{Allocator} `{PosixMQ}.

Definition CONTEXT_BUFFER_SIZE : Z := 1024 * 1024 * 5.
Definition SELF : string := "SELF".
Definition ANY : string := "ANY".

Record RContext : Type := MkContext {
  cx_invoker : Invoker;
  cx_heap : gmap nat (list byte);
  cx_output : HBuffer;
  cx_user_buffers : list HBuffer;
  cx_output_buf_view : RBuffer;
  cx_invoc_id : string;
  cx_process_id : string;
}.

Definition set_cx_invoker (i : Invoker) (c : RContext) : RContext :=
  {| cx_invoker := i; cx_heap := cx_heap c; cx_output := cx_output c; cx_user_buffers := cx_user_buffers c;
     cx_output_buf_view := cx_output_buf_view c; cx_invoc_id := cx_invoc_id c; cx_process_id := cx_process_id c |}.
Definition set_cx_heap (h : gmap nat (list byte)) (c : RContext) : RContext :=
  {| cx_invoker := cx_invoker c; cx_heap := h; cx_output := cx_output c; cx_user_buffers := cx_user_buffers c;
     cx_output_buf_view := cx_output_buf_view c; cx_invoc_id := cx_invoc_id c; cx_process_id := cx_process_id c |}.
Definition set_cx_output (b : HBuffer) (c : RContext) : RContext :=
  {| cx_invoker := cx_invoker c; cx_heap := cx_heap c; cx_output := b; cx_user_buffers := cx_user_buffers c;
     cx_output_buf_view := cx_output_buf_view c; cx_invoc_id := cx_invoc_id c; cx_process_id := cx_process_id c |}.
Definition set_cx_user (l : list HBuffer) (c : RContext) : RContext :=
  {| cx_invoker := cx_invoker c; cx_heap := cx_heap c; cx_output := cx_output c; cx_user_buffers := l;
     cx_output_buf_view := cx_output_buf_view c; cx_invoc_id := cx_invoc_id c; cx_process_id := cx_process_id c |}.
Definition set_cx_view (v : RBuffer) (c : RContext) : RContext :=
  {| cx_invoker := cx_invoker c; cx_heap := cx_heap c; cx_output := cx_output c; cx_user_buffers := cx_user_buffers c;
     cx_output_buf_view := v; cx_invoc_id := cx_invoc_id c; cx_process_id := cx_process_id c |}.
Definition set_cx_invoc_id (s : string) (c : RContext) : RContext :=
  {| cx_invoker := cx_invoker c; cx_heap := cx_heap c; cx_output := cx_output c; cx_user_buffers := cx_user_buffers c;
     cx_output_buf_view := cx_output_buf_view c; cx_invoc_id := s; cx_process_id := cx_process_id c |}.

(** a call of the invoker the context refers to *)
Definition on_invoker {A} (m : M Invoker A) : M RContext A := zoom cx_invoker set_cx_invoker m.

(** ** The heap *)

(** an array with the contents [bs] *)
Definition new_array (bs : list byte) : M RContext nat := fun c =>
  let l := base.fresh (dom (cx_heap c) : gset nat) in (Ret l, set_cx_heap (<[l := bs]> (cx_heap c)) c).
(** [unique_ptr::reset] of an owned array *)
Definition delete_array (p : option nat) : M RContext unit :=
  match p with None => mret tt | Some l => modify (fun c => set_cx_heap (delete l (cx_heap c)) c) end.

(** the memory from a pointer on *)
Definition load (c : RContext) (p : pointer) : option (list byte) :=
  match p with
  | NullPtr => None
  | Ptr b off =>
      bs ← (match b with BInput => buf_ptr (iv_input (cx_invoker c)) | BHeap l => cx_heap c !! l end);
      if decide (0 <= off <= Z.of_nat (length bs))%Z then Some (drop (Z.to_nat off) bs) else None
  end.

(** The [BufferAccessor] of a pointer and a length, for a call that reads it:
    what it shows must be there, unless there is nothing to read. *)
Definition accessor (p : pointer) (len : Z) : M RContext BufferAccessor := fun c =>
  if decide (len = 0%Z) then (Ret {| acc_ptr := None; acc_len := 0 |}, c)
  else match load c p with
       | None => (Undef, c)
       | Some bs =>
           if decide (0 <= len <= Z.of_nat (length bs))%Z
           then (Ret {| acc_ptr := Some (take (Z.to_nat len) bs); acc_len := Z.to_nat len |}, c)
           else (Undef, c)
       end.

(** a received buffer becomes one of the context *)
Definition adopt (data : Buffer) : M RContext HBuffer :=
  match buf_ptr data with
  | None => mret {| hb_ptr := None; hb_size := Z.of_nat (buf_size data); hb_len := Z.of_nat (buf_len data) |}
  | Some bs =>
      l ← new_array bs;
      mret {| hb_ptr := Some l; hb_size := Z.of_nat (buf_size data); hb_len := Z.of_nat (buf_len data) |}
  end.
Definition push_user (b : HBuffer) : M RContext RBuffer :=
  modify (fun c => set_cx_user (cx_user_buffers c ++ [b]) c) ≫= fun _ => mret (view_of b).

(** ** Buffers *)

(** [Invoker::create_context]: the constructor of the context *)
Definition create_context (inv : Invoker) : RContext :=
  let out := {| hb_ptr := Some 0; hb_size := CONTEXT_BUFFER_SIZE; hb_len := 0 |} in
  {| cx_invoker := inv; cx_heap := {[0 := fresh (Z.to_nat CONTEXT_BUFFER_SIZE)]}; cx_output := out;
     cx_user_buffers := []; cx_output_buf_view := view_of out; cx_invoc_id := EmptyString;
     cx_process_id := iv_process_id inv |}.

Definition start_invocation (invoc_id : string) : M RContext unit :=
  modify (fun c => set_cx_view (set_rb_len 0 (cx_output_buf_view c))
    (set_cx_output (set_hb_len 0 (cx_output c)) (set_cx_invoc_id invoc_id c))).

Definition end_invocation : M RContext unit :=
  c ← get;
  for_each (fun b => delete_array (hb_ptr b)) (cx_user_buffers c) ≫= fun _ => modify (set_cx_user []).

(** the reference returned is [_output_buf_view] *)
Definition get_output_buffer (size : Z) : M RContext RBuffer :=
  c ← get;
  (if negb (size =? 0)%Z && (hb_size (cx_output c) <? size)%Z then
     delete_array (hb_ptr (cx_output c)) ≫= fun _ =>
     l ← new_array (fresh (Z.to_nat size));
     let out := {| hb_ptr := Some l; hb_size := size; hb_len := 0 |} in
     modify (fun c => set_cx_view (view_of out) (set_cx_output out c))
   else mret tt) ≫= fun _ =>
  gets cx_output_buf_view.

Definition set_output_buffer (buf : RBuffer) : M RContext unit := modify (set_cx_view buf).

Definition get_buffer (size : Z) : M RContext RBuffer :=
  l ← new_array (fresh (Z.to_nat size));
  push_user {| hb_ptr := Some l; hb_size := size; hb_len := 0 |}.

(** [write_output(ptr, len, pos)] of the bytes [bs] *)
Definition write_output (bs : list byte) (pos : Z) : M RContext unit := fun c =>
  match hb_ptr (cx_output c) ≫= fun l => pair l <$> cx_heap c !! l with
  | None => (Undef, c)
  | Some (l, mem) =>
      match checked_write (Z.to_nat pos) bs mem with
      | Ret mem' =>
          (Ret tt, set_cx_view (set_rb_len (Z.max (rb_len (cx_output_buf_view c)) (pos + Z.of_nat (length bs)))
                     (cx_output_buf_view c)) (set_cx_heap (<[l := mem']> (cx_heap c)) c))
      | _ => (Undef, c)
      end
  end.

(** both branches of the code give the pointer and the length of the view *)
Definition as_buffer : M RContext BufferAccessor :=
  c ← get;
  let v := cx_output_buf_view c in
  if decide (rb_ptr v = hb_data (cx_output c))
  then accessor (hb_data (cx_output c)) (rb_len v)
  else accessor (rb_ptr v) (rb_len v).

(** ** Requests to the controller *)

(** the loop over the user's buffers in [put] and [state]: the first buffer at
    the pointer gets the length of the view and is sent *)
Definition put_user_buffer (msg : mem) (buf : RBuffer) : M RContext unit :=
  c ← get;
  match list_find (fun b => hb_data b = rb_ptr buf) (cx_user_buffers c) with
  | Some (i, _) =>
      modify (fun c => set_cx_user (alter (set_hb_len (rb_len buf)) i (cx_user_buffers c)) c) ≫= fun _ =>
      acc ← accessor (rb_ptr buf) (rb_len buf);
      _ ← on_invoker (invoker_put msg acc);
      mret tt
  | None => throw (PraaSException "Submitted put request with a non-existing buffer!")
  end.

(** [put(destination, msg_key, ptr, size)] *)
Definition context_put_ptr (destination msg_key : string_view) (ptr : pointer) (size : Z) : M RContext unit :=
  req ← lift (set_generic_process_id destination PutRequest);
  req ← lift (set_generic_name msg_key req);
  let req := set_data_len (wrap_i32 size) req in
  acc ← accessor ptr size;
  _ ← on_invoker (invoker_put (gr_msg req) acc);
  mret tt.

(** [put(destination, msg_key, buf)] *)
Definition context_put (destination msg_key : string_view) (buf : RBuffer) : M RContext unit :=
  req ← lift (set_generic_process_id destination PutRequest);
  req ← lift (set_generic_name msg_key req);
  put_user_buffer (gr_msg (set_data_len (wrap_i32 (rb_len buf)) req)) buf.

(** [state(msg_key, data)] and [state(msg_key, buf)] *)
Definition context_state_text (msg_key : string_view) (data : list byte) : M RContext unit :=
  req ← lift (set_generic_name msg_key PutRequest);
  let req := set_generic_state true (set_data_len (wrap_i32 (Z.of_nat (length data))) req) in
  _ ← on_invoker (invoker_put (gr_msg req) {| acc_ptr := Some data; acc_len := length data |});
  mret tt.
Definition context_state_put (msg_key : string_view) (buf : RBuffer) : M RContext unit :=
  req ← lift (set_generic_name msg_key PutRequest);
  put_user_buffer (gr_msg (set_generic_state true (set_data_len (wrap_i32 (rb_len buf)) req))) buf.

Definition with_gr_msg (m : mem) (x : GenericRequest) : GenericRequest :=
  {| gr_msg := m; gr_id_len := gr_id_len x; gr_name_len := gr_name_len x |}.

(** [state(msg_key)] *)
Definition context_state_get (msg_key : string_view) : M RContext RBuffer :=
  req ← lift (set_generic_name msg_key GetRequest);
  let req := set_generic_state true req in
  r ← on_invoker (invoker_get (gr_msg req));
  let '(msg, (request, data)) := r in
  let req := with_gr_msg msg req in
  if (data_len req <? 0)%Z then throw (FunctionGetFailure "Get failed!")
  else if bool_decide (sv_str (generic_name req) <> sv_str (generic_name request))
  then throw (FunctionGetFailure "Received incorrect get result - incorrect name id {}")
  else if buf_len data =? 0 then mret RBuffer_null
  else b ← adopt data; push_user b.

(** [get(source, msg_key)]; the length that tells of a failure is read from the
    request and not from the reply *)
Definition context_get (source msg_key : string_view) : M RContext RBuffer :=
  req ← lift (set_generic_process_id source GetRequest);
  req ← lift (set_generic_name msg_key req);
  r ← on_invoker (invoker_get (gr_msg req));
  let '(msg, (request, data)) := r in
  let req := with_gr_msg msg req in
  let process_id := sv_str (generic_process_id req) in
  if (data_len req <? 0)%Z then throw (FunctionGetFailure "Get failed!")
  else if bool_decide (process_id <> SELF) && bool_decide (process_id <> ANY) &&
          bool_decide (process_id <> sv_str (generic_process_id request))
  then throw (FunctionGetFailure "Received incorrect get result - incorrect process id {}")
  else if bool_decide (sv_str (generic_name req) <> sv_str (generic_name request))
  then throw (FunctionGetFailure "Received incorrect get result - incorrect name id {}")
  else b ← adopt data; push_user b.

(** the loop of [invoke] over the indices [idx] of the user's buffers: whether
    the request was submitted.  It does not stop at the first buffer found. *)
Fixpoint submit_buffers (msg : mem) (input : RBuffer) (idx : list nat) (submitted : bool) : M RContext bool :=
  match idx with
  | [] => mret submitted
  | i :: idx' =>
      c ← get;
      match cx_user_buffers c !! i with
      | None => undef
      | Some b =>
          if decide (hb_data b = rb_ptr input) then
            modify (fun c => set_cx_user (alter (set_hb_len (rb_len input)) i (cx_user_buffers c)) c) ≫= fun _ =>
            acc ← accessor (hb_data b) (rb_len input);
            _ ← on_invoker (invoker_put msg acc);
            submit_buffers msg input idx' true
          else submit_buffers msg input idx' submitted
      end
  end.

(** [invoke(process_id, function_name, invocation_id, input)] *)
Definition context_invoke (process_id function_name invocation_id : string_view) (input : RBuffer)
    : M RContext RInvocationResult :=
  req ← lift (set_ipc_process_id process_id IpcInvocationRequest_ctor);
  req ← lift (set_ipc_function_name function_name req);
  req ← lift (set_ipc_invocation_id invocation_id req);
  let req := set_buffer (wrap_i32 (rb_len input)) req in
  c ← get;
  submitted ← submit_buffers (iir_msg req) input (seq 0 (length (cx_user_buffers c))) false;
  if negb (submitted : bool)
  then throw (PraaSException "Submitted invoke request with a non-existing buffer!")
  else
    r ← on_invoker (invoker_receive get_if_result);
    let '(result, data) := r in
    if bool_decide (sv_str (ipc_invocation_id req) <> sv_str (ipc_result_id result))
    then throw (FunctionGetFailure "Received incorrect invocation result - incorrect invocation id {}")
    else
      b ← adopt data;
      v ← push_user b;
      mret {| rres_key := sv_str invocation_id; rres_function_name := sv_str function_name;
              rres_return_code := ipc_return_code result; rres_payload := v |}.

Definition context_state_keys `{KeysArchive} : M RContext (list (string * Z)) :=
  _ ← on_invoker (invoker_put StateKeysRequest {| acc_ptr := None; acc_len := 0 |});
  r ← on_invoker (invoker_receive get_if_state_keys);
  let '(_, data) := r in
  match deserialize_keys (buffer_data data) with
  | Some keys => mret keys
  | None => throw (StdException "Failed to read from input stream")
  end.

Definition context_active_processes (c : RContext) : list string := active_processes (iv_app_status (cx_invoker c)).
Definition context_swapped_processes (c : RContext) : list string := swapped_processes (iv_app_status (cx_invoker c)).
End context.

(** ** Memory *)
Section memory.
Context `{Allocator} `{PosixMQ} `{KeysArchive}.

(** the arrays the context owns *)
Definition owned (c : RContext) : list nat := omap hb_ptr (cx_output c :: cx_user_buffers c).

(** every array is owned, once, and is alive; the output buffer has one *)
Record cx_ok (c : RContext) : Prop := {
  ok_heap : dom (cx_heap c) = list_to_set (owned c);
  ok_nodup : NoDup (owned c);
  ok_output : is_Some (hb_ptr (cx_output c));
}.

(** what a function can do with its context *)
Inductive context_op : Type :=
  | OpOutputBuffer (size : Z) | OpSetOutput (buf : RBuffer) | OpBuffer (size : Z)
  | OpWriteOutput (bs : list byte) (pos : Z) | OpAsBuffer
  | OpPutPtr (destination key : string_view) (ptr : pointer) (size : Z)
  | OpPut (destination key : string_view) (buf : RBuffer)
  | OpStateText (key : string_view) (data : list byte) | OpStatePut (key : string_view) (buf : RBuffer)
  | OpStateGet (key : string_view) | OpGet (source key : string_view)
  | OpInvoke (process fname id : string_view) (input : RBuffer) | OpStateKeys.

Definition ignore {S A} (m : M S A) : M S unit := m ≫= fun _ => mret tt.

Definition run_op (op : context_op) : M RContext unit :=
  match op with
  | OpOutputBuffer size => ignore (get_output_buffer size)
  | OpSetOutput buf => set_output_buffer buf
  | OpBuffer size => ignore (get_buffer size)
  | OpWriteOutput bs pos => write_output bs pos
  | OpAsBuffer => ignore as_buffer
  | OpPutPtr d k ptr size => context_put_ptr d k ptr size
  | OpPut d k buf => context_put d k buf
  | OpStateText k data => context_state_text k data
  | OpStatePut k buf => context_state_put k buf
  | OpStateGet k => ignore (context_state_get k)
  | OpGet s k => ignore (context_get s k)
  | OpInvoke p f id input => ignore (context_invoke p f id input)
  | OpStateKeys => ignore context_state_keys
  end.

Lemma owned_set_len len i c :
  owned (set_cx_user (alter (set_hb_len len) i (cx_user_buffers c)) c) = owned c.
Proof.
  unfold owned. cbn. destruct (hb_ptr (cx_output c)); [f_equal|]; generalize (cx_user_buffers c) as l;
    intros l; revert i; induction l as [|b l IH]; intros [|i]; cbn; auto; rewrite IH; done.
Qed.

Lemma cx_ok_same c c' :
  cx_ok c -> dom (cx_heap c') = dom (cx_heap c) -> owned c' = owned c ->
  hb_ptr (cx_output c') = hb_ptr (cx_output c) -> cx_ok c'.
Proof. intros [H1' H2' H3'] Hh Ho Hp. split; rewrite ?Hh, ?Ho, ?Hp; auto. Qed.

Lemma keeps_on_invoker {A} (m : M Invoker A) : keeps cx_ok (on_invoker m).
Proof.
  intros c r c' Hc. unfold on_invoker, zoom. destruct (m (cx_invoker c)) as [r1 i]. intros [= <- <-].
  now apply (cx_ok_same c).
Qed.

Lemma keeps_accessor p len : keeps cx_ok (accessor p len).
Proof.
  intros c r c' Hc. unfold accessor. destruct (decide _); [intros [= <- <-]; done|].
  destruct (load c p); [destruct (decide _)|]; intros [= <- <-]; done.
Qed.

Lemma keeps_gets_bind {A B} (P : RContext -> Prop) (f : RContext -> A) (g : A -> M RContext B) :
  (forall a, keeps P (g a)) -> keeps P (gets f ≫= g).
Proof. intros Hg. apply keeps_bind; auto using keeps_gets. Qed.

(** a new array that is handed to the user *)
Lemma keeps_new_user bs f :
  (forall l, hb_ptr (f l) = Some l) -> keeps cx_ok (new_array bs ≫= fun l => push_user (f l)).
Proof.
  intros Hf c r c' [H1' H2' H3']. unfold new_array, push_user, mbind, M_bind, modify, mret, M_ret.
  set (l := base.fresh _). intros [= <- <-].
  assert (l ∉ (dom (cx_heap c) : gset nat)) as Hl by apply is_fresh.
  assert (owned (set_cx_user (cx_user_buffers c ++ [f l]) (set_cx_heap (<[l:=bs]> (cx_heap c)) c)) = owned c ++ [l]) as Ho.
  { unfold owned. cbn. rewrite omap_app. cbn. rewrite Hf. now destruct (hb_ptr (cx_output c)). }
  split; cbn [cx_heap cx_output set_cx_user set_cx_heap]; auto.
  - rewrite Ho, dom_insert_L, list_to_set_app_L, H1'. cbn. set_solver.
  - rewrite Ho. apply list.NoDup_app. split_and!; auto; [|apply NoDup_singleton].
    intros x Hx Hx'. apply list_elem_of_singleton in Hx' as ->. apply Hl. rewrite H1'. now apply elem_of_list_to_set.
Qed.

Lemma keeps_adopt_push data : keeps cx_ok (adopt data ≫= push_user).
Proof.
  unfold adopt. destruct (buf_ptr data) as [bs|].
  - intros c r c' Hc E. eapply (keeps_new_user bs (fun l => {| hb_ptr := Some l; hb_size := Z.of_nat (buf_size data);
      hb_len := Z.of_nat (buf_len data) |})); [|exact Hc|exact E]. done.
  - intros c r c' Hc [= <- <-]. apply (cx_ok_same c); auto.
    unfold owned. cbn. rewrite omap_app. cbn. destruct (hb_ptr (cx_output c)); now rewrite ?app_nil_r.
Qed.

Lemma keeps_put_user_buffer msg buf : keeps cx_ok (put_user_buffer msg buf).
Proof.
  intros c r c' Hc. unfold put_user_buffer. unfold mbind at 1, M_bind at 1, get.
  destruct (list_find _ _) as [[i b]|]; [|intros [= <- <-]; done].
  revert c r c' Hc. apply keeps_bind; [|intros []].
  - apply keeps_modify. intros c Hc. apply (cx_ok_same c); auto using owned_set_len.
  - apply keeps_bind; [apply keeps_accessor|]. intros acc.
    apply keeps_bind; [apply keeps_on_invoker|]. intros. apply keeps_ret.
Qed.

Lemma keeps_submit_buffers msg input idx : forall b, keeps cx_ok (submit_buffers msg input idx b).
Proof.
  induction idx as [|i idx IH]; intros b; cbn [submit_buffers]; [apply keeps_ret|].
  intros c r c' Hc. unfold mbind at 1, M_bind at 1, get.
  destruct (cx_user_buffers c !! i) as [u|]; [|intros [= <- <-]; done].
  destruct (decide _); [|now apply IH]. revert c r c' Hc. apply keeps_bind; [|intros []].
  - apply keeps_modify. intros c Hc. apply (cx_ok_same c); auto using owned_set_len.
  - apply keeps_bind; [apply keeps_accessor|]. intros acc.
    apply keeps_bind; [apply keeps_on_invoker|]. intros. apply IH.
Qed.

Lemma keeps_throw {A} e : keeps cx_ok (throw e : M RContext A).
Proof. intros c r c' Hc [= <- <-]. done. Qed.

Lemma keeps_get_output_buffer size : keeps cx_ok (get_output_buffer size).
Proof.
  intros c r c' [H1' H2' [l0 H3']]. unfold get_output_buffer, mbind, M_bind, get. cbv beta.
  destruct (_ && _); [|intros [= <- <-]; split; eauto].
  rewrite H3'. unfold delete_array, modify, new_array, gets. cbv beta iota.
  set (l := base.fresh _). intros [= <- <-].
  assert (l ∉ (dom (delete l0 (cx_heap c)) : gset nat)) as Hl by apply is_fresh.
  unfold owned in *. cbn in H1', H2'. rewrite H3' in H1', H2'. cbn in H1', H2'.
  apply list.NoDup_cons in H2' as [Hn H2'].
  rewrite dom_delete_L, H1' in Hl.
  assert (l ∉ omap hb_ptr (cx_user_buffers c)) as Hl'.
  { intros Hi. apply Hl. apply elem_of_difference. split; [|].
    - apply elem_of_union_r, elem_of_list_to_set, Hi.
    - intros ->%elem_of_singleton. done. }
  split; cbn; [|by constructor|eauto].
  rewrite dom_insert_L, dom_delete_L, H1'.
  assert (l0 ∉ (list_to_set (omap hb_ptr (cx_user_buffers c)) : gset nat)) by now rewrite elem_of_list_to_set.
  set_solver.
Qed.

Lemma keeps_write_output bs pos : keeps cx_ok (write_output bs pos).
Proof.
  intros c r c' Hc. unfold write_output.
  destruct (hb_ptr (cx_output c)) as [l|]; [|intros [= <- <-]; done]. cbn [mbind option_bind].
  destruct (cx_heap c !! l) as [m|] eqn:E; cbn; [|intros [= <- <-]; done].
  destruct (checked_write _ _ _); intros [= <- <-]; auto.
  apply (cx_ok_same c); auto. cbn. apply dom_insert_lookup_L. eauto.
Qed.

(** pushing a received buffer, with something to do afterwards *)
Lemma keeps_adopt_push_bind {A} data (f : RBuffer -> M RContext A) :
  (forall v, keeps cx_ok (f v)) -> keeps cx_ok (b ← adopt data; v ← push_user b; f v).
Proof.
  intros Hf c r c' Hc E. assert (((adopt data ≫= push_user) ≫= f) c = (r, c')) as E'.
  { revert E. unfold mbind, M_bind. now destruct (adopt data c) as [[b| |] c1]. }
  revert E'. apply (keeps_bind _ _ _ (keeps_adopt_push data) Hf). done.
Qed.

Lemma keeps_get_buffer size : keeps cx_ok (get_buffer size).
Proof.
  apply (keeps_new_user (fresh (Z.to_nat size)) (fun l => {| hb_ptr := Some l; hb_size := size; hb_len := 0 |})). done.
Qed.

Lemma keeps_set_output_buffer buf : keeps cx_ok (set_output_buffer buf).
Proof. apply keeps_modify. intros c Hc. now apply (cx_ok_same c). Qed.

Create HintDb context.
#[local] Hint Resolve keeps_on_invoker keeps_accessor keeps_put_user_buffer keeps_submit_buffers keeps_throw
  keeps_get_output_buffer keeps_write_output keeps_adopt_push keeps_get_buffer
  keeps_set_output_buffer keeps_ret keeps_lift keeps_gets keeps_get : context.

(** the structure of a computation *)
Ltac keep_context :=
  repeat first
    [ solve [eauto with context]
    | match goal with
      | |- keeps _ (adopt _ ≫= push_user) => apply keeps_adopt_push
      | |- keeps _ (adopt _ ≫= fun b => push_user b ≫= _) => apply keeps_adopt_push_bind; intros ?
      | |- keeps _ (_ ≫= _) => apply keeps_bind; [|intros ?]
      | |- keeps _ (if ?b then _ else _) => destruct b
      | |- keeps _ (match ?x with _ => _ end) => destruct x
      | |- keeps _ (let '(_, _) := ?x in _) => destruct x
      end ].

Lemma delete_arrays l : forall c,
  for_each (fun b => delete_array (hb_ptr b)) l c =
    (Ret tt, set_cx_heap (foldr delete (cx_heap c) (rev (omap hb_ptr l))) c).
Proof.
  induction l as [|b l IH]; intros c; cbn [for_each omap list_omap rev foldr]; [now destruct c|].
  unfold mbind, M_bind. destruct (hb_ptr b) as [p|] eqn:E; cbn [delete_array].
  - unfold modify. cbv beta iota. rewrite IH. cbn [rev]. rewrite foldr_app. reflexivity.
  - unfold mret, M_ret. cbv beta iota. now rewrite IH.
Qed.

Lemma dom_foldr_delete (h : gmap nat (list byte)) l : dom (foldr delete h l) = dom h ∖ list_to_set l.
Proof. induction l as [|x l IH]; cbn; [set_solver|]. rewrite dom_delete_L, IH. set_solver. Qed.

Lemma end_invocation_frees c :
  cx_ok c -> exists c', end_invocation c = (Ret tt, c') /\ cx_ok c' /\ cx_user_buffers c' = [] /\
    cx_output c' = cx_output c /\ dom (cx_heap c') = list_to_set (omap hb_ptr [cx_output c]) /\
    cx_invoker c' = cx_invoker c /\ cx_output_buf_view c' = cx_output_buf_view c.
Proof.
  intros [H1' H2' [l0 H3']]. unfold end_invocation. erewrite M_bind_eq by reflexivity.
  erewrite M_bind_eq by apply delete_arrays. eexists. split; [reflexivity|].
  assert (dom (foldr delete (cx_heap c) (rev (omap hb_ptr (cx_user_buffers c)))) =
    list_to_set (omap hb_ptr [cx_output c])) as Hd.
  { rewrite dom_foldr_delete, H1'. unfold owned in *. cbn in H2' |- *. rewrite H3' in H2' |- *. cbn in H2' |- *.
    apply list.NoDup_cons in H2' as [Hn _].
    assert (list_to_set (rev (omap hb_ptr (cx_user_buffers c))) =
      (list_to_set (omap hb_ptr (cx_user_buffers c)) : gset nat)) as ->
      by (apply set_eq; intros x; rewrite !elem_of_list_to_set, !list_elem_of_In; symmetry; apply in_rev).
    assert (l0 ∉ (list_to_set (omap hb_ptr (cx_user_buffers c)) : gset nat)) by now rewrite elem_of_list_to_set.
    set_solver. }
  split_and!; auto. unfold owned. split; cbn; rewrite ?H3'; cbn.
  - etrans; [exact Hd|]. cbn. now rewrite H3'.
  - apply NoDup_singleton.
  - eauto.
Qed.

End memory.
