(* ===== verification/Requests.v ===== *)
(** * Requests: the requests of a function, and their replies

    What the operations of Context.v put on the queue to the controller, and
    what they make of the reply: for each of them the message the controller
    will decode, the value for the matching reply and the exception for any
    other; and behaviours that a caller has to live with. *)

From S2P Require Import Prelude Memory IpcMessages Buffers Channel Application Functions WorkQueue Invoker Context.

(** ** The messages *)

Lemma write_at_id off n m bs : bytes_at off n m = bs -> off + n <= length m -> write_at off bs m = m.
Proof.
  intros <- Hl. unfold write_at. rewrite length_bytes_at by done. unfold bytes_at.
  rewrite <-(drop_drop m n off), take_drop. apply take_drop.
Qed.

Lemma sv_str_write_disj off n off' bs m :
  (off + n <= off' \/ off' + length bs <= off) -> off' + length bs <= length m ->
  sv_str (sv_at off n (write_at off' bs m)) = sv_str (sv_at off n m).
Proof.
  intros H1 H2. unfold sv_str, sv_at. cbn [sv_mem sv_len]. f_equal.
  assert (forall m, take n (drop off m) = bytes_at off n m) as Hb by done. rewrite !Hb. now apply bytes_at_write_at_disj.
Qed.

(** a request about the message [n] of the process [p] *)
Lemma generic_request_decodes t p n :
  (t = IPC_GET_REQUEST \/ t = IPC_PUT_REQUEST) -> ipc_fits IPC_NAME_LENGTH p -> ipc_fits IPC_NAME_LENGTH n ->
  exists x, (r ← set_generic_process_id (sv_of_string p) (GenericRequest_ctor t); set_generic_name (sv_of_string n) r) = Ret x /\
    sv_str (generic_process_id x) = p /\ sv_str (generic_name x) = n /\ length (gr_msg x) = IPC_BUF_SIZE /\
    data_len x = 0%Z /\ set_data_len 0 x = x /\
    (forall len, set_generic_state false (set_data_len len x) = set_data_len len x) /\
    forall st len, i32_range len -> ipc_decode (gr_msg (set_generic_state st (set_data_len len x))) =
      Ret (match t with IPC_GET_REQUEST => IGet p n st len | _ => IPut p n st len end).
Proof.
  intros Ht Hp%ipc_cview_fits Hn%ipc_cview_fits.
  destruct (GenericRequest_parse t _ _ false 0 Ht Hp Hn ltac:(unfold i32_range; lia)) as (x&_&Hx&_).
  exists x. split; [exact Hx|].
  assert (forall st len, i32_range len -> ipc_decode (gr_msg (set_generic_state st (set_data_len len x))) =
      Ret (match t with IPC_GET_REQUEST => IGet p n st len | _ => IPut p n st len end)) as Hdec.
  { intros st len Hl. destruct (GenericRequest_parse t _ _ st len Ht Hp Hn Hl) as (y&y'&Hy&->&_&Hty&Q1&Q2&Q3&Q4).
    assert (y = x) as -> by congruence. rewrite sv_str_of_string in Q1, Q2. unfold ipc_decode.
    rewrite (parse_message_typed _ _ Hty) by (destruct Ht; subst; done).
    destruct Ht; subst t; unfold mbind, outcome_bind; now rewrite Q1, Q2, Q3, Q4. }
  cut (sv_str (generic_process_id x) = p /\ sv_str (generic_name x) = n /\ length (gr_msg x) = IPC_BUF_SIZE /\
    data_len x = 0%Z /\ set_data_len 0 x = x /\
    (forall len, set_generic_state false (set_data_len len x) = set_data_len len x)).
  { intros (?&?&?&?&?&?). split_and!; auto. }
  clear Hdec.
  assert (length (gr_msg (GenericRequest_ctor t)) = 128 /\ bytes_at 6 4 (gr_msg (GenericRequest_ctor t)) = le_bytes 4 0 /\
    bytes_at 74 1 (gr_msg (GenericRequest_ctor t)) = [NUL]) as (Hl&Hz&Hs) by (destruct Ht; subst t; split_and!; reflexivity).
  unfold set_generic_process_id, set_generic_name in Hx. unfold mbind, outcome_bind in Hx.
  rewrite (set_string_field_ok IPC_NAME_LENGTH _ _ _ _ Hp) in Hx.
  destruct (GenericRequest_ctor t) as [m0 a b]. cbn [gr_msg gr_id_len gr_name_len] in *.
  rewrite (set_string_field_ok IPC_NAME_LENGTH _ _ _ _ Hn) in Hx. injection Hx as <-.
  pose proof (length_pad _ _ Hp) as Lp. pose proof (length_pad _ _ Hn) as Ln.
  pose proof (proj1 Hp) as Hp0. pose proof (proj1 Hn) as Hn0.
  change IPC_NAME_LENGTH with 32 in *.
  unfold generic_process_id, generic_name, data_len, read_i32, set_data_len, set_generic_state, write_i32.
  cbn [gr_msg gr_id_len gr_name_len].
  change BUFFERS_OFFSET with 10. change (10 + 32) with 42. change (10 + 2 * 32) with 74. change IPC_HEADER_OFFSET with 6.
  assert (String.length p <= 32 /\ String.length n <= 32) as [Hp1 Hn1] by done.
  set (vp := sv_of_string p) in *. set (vn := sv_of_string n) in *.
  set (m1 := write_at 10 (pad 32 vp) m0) in *. set (m2 := write_at 42 (pad 32 vn) m1) in *.
  assert (length m1 = 128) as L1 by (unfold m1; rewrite length_write_at; [done|rewrite Lp, Hl; lia]).
  assert (length m2 = 128) as L2 by (unfold m2; rewrite length_write_at; [done|rewrite Ln, L1; lia]).
  assert (forall k n, (k + n <= 10 \/ 74 <= k) -> bytes_at k n m2 = bytes_at k n m0) as Hd.
  { intros k n' Hk. unfold m2, m1. rewrite !bytes_at_write_at_disj; fold m1; rewrite ?Lp, ?Ln, ?Hl, ?L1; [done|lia..]. }
  split_and!; auto.
  - unfold m2. rewrite sv_str_write_disj by (fold m1; rewrite ?Ln, ?L1; lia). unfold m1.
    change (String.length p) with (sv_len vp). rewrite sv_str_after_set by (done || (rewrite Hl; lia)). apply sv_str_of_string.
  - unfold m2. change (String.length n) with (sv_len vn). rewrite sv_str_after_set by (done || (rewrite L1; lia)). apply sv_str_of_string.
  - rewrite Hd, Hz by lia. reflexivity.
  - rewrite (write_at_id 6 4 m2) by (rewrite ?Hd, ?Hz, ?L2; done || lia). done.
  - intros len. pose proof (length_le_bytes 4 len) as Hb. f_equal. apply (write_at_id 74 1).
    + rewrite bytes_at_write_at_disj by (rewrite ?Hb, ?L2; lia). rewrite Hd by lia. exact Hs.
    + rewrite length_write_at by (rewrite Hb, L2; lia). rewrite L2. lia.
Qed.

(** ** The queues of the worker *)
Section requests.
Context `{Allocator} `{PosixMQLaws} `{KeysArchive}.

(** A blocking [mq_send] returns 0, a blocking [mq_receive] a message; and what
    was sent arrives in order. *)
Hypothesis mq_send_reliable : forall q m, exists q', mq_send q m = (true, q').
Hypothesis mq_receive_reliable : forall q q', mq_receive q <> (MqError, q').
Hypothesis never_empty : ~ ran_empty.

Definition never_throws {S A} (m : M S A) : Prop := forall s e s', m s <> (Throw e, s').

Lemma never_throws_bind {S A B} (m : M S A) (f : A -> M S B) :
  never_throws m -> (forall a, never_throws (f a)) -> never_throws (m ≫= f).
Proof.
  intros Hm Hf s e s'. unfold mbind, M_bind. destruct (m s) as [[a|e1|] s1] eqn:E; [apply Hf| |done].
  now apply Hm in E.
Qed.

Lemma never_throws_ret {S A} (a : A) : never_throws (mret a : M S A).
Proof. intros s e s'. discriminate. Qed.

Lemma never_throws_for_each {S A} (f : A -> M S unit) l : (forall a, never_throws (f a)) -> never_throws (for_each f l).
Proof.
  intros Hf. induction l as [|a l IH]; cbn [for_each]; [apply never_throws_ret|].
  apply never_throws_bind; auto.
Qed.

Lemma chan_send_never_throws d len : never_throws (chan_send d len).
Proof.
  assert (forall fuel ms d pos len, never_throws (send_loop fuel ms d pos len)) as Hl.
  { clear d len. induction fuel as [|fuel IH]; intros ms d pos len q e q'; cbn [send_loop]; destruct (_ <? _)%Z; try discriminate.
    destruct (_ <=? _); [|discriminate].
    match goal with |- context [mq_send q ?m] => destruct (mq_send_reliable q m) as [q1 ->] end. apply IH. }
  intros c e c'. unfold chan_send. destruct (send_loop _ _ _ _ _ _) as [r q] eqn:E. intros [= -> _].
  now apply Hl in E.
Qed.

Lemma send_buffers_never_throws msg data : never_throws (send_buffers msg data).
Proof.
  unfold send_buffers. apply never_throws_bind; [apply chan_send_never_throws|intros _].
  apply never_throws_bind; [|intros _; apply never_throws_ret]. apply never_throws_for_each. intros b.
  repeat case_match; apply chan_send_never_throws || apply never_throws_ret || (intros c e c'; discriminate).
Qed.

(** an accessor that shows [bs] *)
Definition shows (a : BufferAccessor) (bs : list byte) : Prop :=
  acc_len a = length bs /\ default [] (acc_ptr a) = bs.

(** sending appends one message to the queue and changes nothing else *)
Lemma on_write_sends msg a bs s tx :
  iv_ipc_channel_write s = Some tx -> (Z.of_nat IPC_BUF_SIZE <= ch_msg_size tx)%Z -> length msg = IPC_BUF_SIZE ->
  shows a bs -> i32_range (Z.of_nat (length bs)) ->
  let f := frame_of (ch_msg_size tx) msg [bs] in
  exists q, on_write (send_accessor msg a) s = (Ret (f_header f), set_iv_write (Some (set_ch_queue q tx)) s) /\
    mq_messages q = mq_messages (ch_queue tx) ++ frame_wire f /\ frame_ok f /\ f_payload f = bs.
Proof.
  intros Htx Hms Hm [Hl Hb] Hr f. unfold on_write. rewrite Htx.
  destruct (send_accessor msg a tx) as [r tx'] eqn:E. pose proof E as Hn. rewrite send_accessor_buffers in E.
  assert (buffer_data (buffer_of_accessor a) = bs) as Hd.
  { unfold buffer_data, buffer_of_accessor. cbn. rewrite Hl. destruct (acc_ptr a); cbn in Hb; subst; [apply take_ge; done|done]. }
  assert (buffer_ok (buffer_of_accessor a)) as Hok.
  { unfold buffer_ok, buffer_of_accessor. cbn. destruct (acc_ptr a); cbn in Hb; subst; rewrite Hl; auto. }
  assert (total_len [buffer_of_accessor a] = length bs) as Ht by (cbn; rewrite Hl; apply Nat.add_0_r).
  apply send_buffers_sent in E as (r'&Hs&Hr'&Htx'); [|auto..]; [|now rewrite Ht].
  cbn [map] in Hs, Hr'. rewrite Hd in Hs, Hr'. fold f in Hs, Hr'.
  destruct Hs as [[-> Hq]|[[e ->] _]]; [|subst r; cbn in Hn; rewrite send_accessor_buffers in Hn; now apply send_buffers_never_throws in Hn].
  exists (ch_queue tx'). cbn in Hr'. subst r. rewrite Htx'. cbn [ch_queue set_ch_queue]. split; [done|].
  split; [done|]. destruct (frame_of_ok (ch_msg_size tx) msg [bs]) as [Hfo Hp].
  - unfold IPC_BUF_SIZE in Hms. lia.
  - done.
  - cbn. now rewrite app_nil_r.
  - split; [done|]. etrans; [exact Hp|]. cbn. now rewrite app_nil_r.
Qed.

Lemma shows_nothing : shows {| acc_ptr := None; acc_len := 0 |} [].
Proof. done. Qed.

(** the next message on the queue, whatever it is *)
Lemma invoker_receive_next {T} (holds : IpcVariants -> option T) f fs s rx :
  iv_ipc_channel_read s = Some rx -> idle_rx (f :: fs) rx ->
  exists b rx', buffer_ok b /\ buffer_data b = f_payload f /\ idle_rx fs rx' /\
    let s' := set_iv_read (Some rx') s in
    invoker_receive holds s =
      (parsed_msg ← lift (parse_message (f_header f));
       match holds parsed_msg with
       | None => throw (FunctionGetFailure "Received incorrect message!")
       | Some req => mret (req, b)
       end) s'.
Proof.
  intros Hrx Hi. destruct (idle_receive mq_receive_reliable never_empty f fs rx Hi) as (b&rx'&E&Hok&Hd&Hm&Hi').
  exists b, rx'. split_and!; auto. intros s'. unfold invoker_receive.
  assert (on_read receive s = (Ret (true, b), s')) as E1 by (unfold on_read; now rewrite Hrx, E).
  assert (on_read (gets ch_msg) s' = (Ret (f_header f), s')) as E2 by (unfold on_read, s'; cbn; now rewrite Hm).
  rewrite (M_bind_eq _ _ _ _ _ E1). cbn [negb fst snd]. now rewrite (M_bind_eq _ _ _ _ _ E2).
Qed.

(** the worker in the middle of an invocation: both queues open, what the
    controller will send is [fs] *)
Definition worker_idle (fs : list frame) (s : Invoker) : Prop :=
  (exists rx, iv_ipc_channel_read s = Some rx /\ idle_rx fs rx) /\
  (exists tx, iv_ipc_channel_write s = Some tx /\ (Z.of_nat IPC_BUF_SIZE <= ch_msg_size tx)%Z).

(** what the controller finds on the queue from the worker *)
Definition to_controller (s : Invoker) : list (list byte) :=
  match iv_ipc_channel_write s with Some tx => mq_messages (ch_queue tx) | None => [] end.

(** [s'] is [s] after it sent the messages [out] *)
Definition sent_more (out : list frame) (s s' : Invoker) : Prop :=
  Forall frame_ok out /\ to_controller s' = to_controller s ++ frames_wire out /\
  iv_input s' = iv_input s /\ iv_app_status s' = iv_app_status s /\ iv_ending s' = iv_ending s.

(** the message that a request with the bytes [bs] becomes *)
Definition sent_frame (msg : mem) (bs : list byte) (s : Invoker) : frame :=
  frame_of (default 0%Z (ch_msg_size <$> iv_ipc_channel_write s)) msg [bs].

Lemma invoker_put_spec msg a bs fs s :
  worker_idle fs s -> length msg = IPC_BUF_SIZE -> shows a bs -> i32_range (Z.of_nat (length bs)) ->
  exists f s', invoker_put msg a s = (Ret (f_header f), s') /\ worker_idle fs s' /\ sent_more [f] s s' /\
    f_header f = set_ipc_total_length (Z.of_nat (length bs)) msg /\ f_payload f = bs /\
    s' = set_iv_write (iv_ipc_channel_write s') s /\ f = sent_frame msg bs s /\
    (forall msg' bs', sent_frame msg' bs' s' = sent_frame msg' bs' s).
Proof.
  intros [Hrx (tx&Htx&Hms)] Hm Hs Hr.
  destruct (on_write_sends msg a bs s tx Htx Hms Hm Hs Hr) as (q&E&Hq&Hok&Hp).
  eexists _, _. split; [exact E|]. split_and!; auto.
  - split; [exact Hrx|]. eexists. split; [reflexivity|]. exact Hms.
  - unfold sent_more. split_and!; auto. unfold to_controller, frames_wire. rewrite Htx.
    cbn [iv_ipc_channel_write set_iv_write ch_queue set_ch_queue mbind list_bind]. now rewrite Hq, app_nil_r.
  - cbn [f_header frame_of concat]. now rewrite app_nil_r.
  - unfold sent_frame. now rewrite Htx.
  - intros. unfold sent_frame. rewrite Htx. reflexivity.
Qed.

Lemma invoker_receive_spec {T} (holds : IpcVariants -> option T) f fs s :
  worker_idle (f :: fs) s ->
  exists b s', buffer_ok b /\ buffer_data b = f_payload f /\ worker_idle fs s' /\ sent_more [] s s' /\
    invoker_receive holds s =
      (parsed_msg ← lift (parse_message (f_header f));
       match holds parsed_msg with
       | None => throw (FunctionGetFailure "Received incorrect message!")
       | Some req => mret (req, b)
       end) s'.
Proof.
  intros [(rx&Hrx&Hi) Htx]. destruct (invoker_receive_next holds f fs s rx Hrx Hi) as (b&rx'&Hok&Hb&Hi'&E).
  exists b. eexists. split; [done|]. split; [done|]. split; [|split; [|exact E]].
  - split; [eexists; split; [reflexivity|exact Hi']|exact Htx].
  - split_and!; auto. cbn. now rewrite app_nil_r.
Qed.
End requests.

(** ** Get *)

(** what the length in the header does not touch *)
Lemma generic_fields_total_length n x :
  length (gr_msg x) = IPC_BUF_SIZE ->
  let y := with_gr_msg (set_ipc_total_length n (gr_msg x)) x in
  sv_str (generic_process_id y) = sv_str (generic_process_id x) /\
  sv_str (generic_name y) = sv_str (generic_name x) /\ data_len y = data_len x.
Proof.
  intros Hl y. unfold y, set_ipc_total_length, write_i32, with_gr_msg, generic_process_id, generic_name, data_len.
  cbn [gr_msg gr_id_len gr_name_len]. unfold IPC_BUF_SIZE in Hl.
  assert (length (le_bytes 4 n) = 4) as Hb by apply length_le_bytes. set (w := le_bytes 4 n) in *.
  change IPC_HEADER_OFFSET with 6. change IPC_NAME_LENGTH with 32.
  split_and!; [apply sv_str_write_disj; lia..|]. unfold read_i32. now rewrite bytes_at_write_at_disj by lia.
Qed.

Section get.
Context `{Allocator} `{PosixMQLaws} `{KeysArchive}.
Hypothesis mq_send_reliable : forall q m, exists q', mq_send q m = (true, q').
Hypothesis mq_receive_reliable : forall q q', mq_receive q <> (MqError, q').
Hypothesis never_empty : ~ ran_empty.

(** a message without a payload is out *)
Lemma put_nothing msg w fs s :
  worker_idle fs s -> length msg = IPC_BUF_SIZE -> ipc_decode msg = Ret w ->
  exists f s', invoker_put msg {| acc_ptr := None; acc_len := 0 |} s = (Ret (f_header f), s') /\
    worker_idle fs s' /\ sent_more [f] s s' /\ frame_says f w [] /\ f_header f = set_ipc_total_length 0 msg /\
    f = sent_frame msg [] s.
Proof.
  intros Hi Hl Hd.
  destruct (invoker_put_spec mq_send_reliable msg _ [] fs s Hi Hl shows_nothing ltac:(unfold i32_range; cbn; lia))
    as (f&s'&E&Hi'&Hs&Hh&Hp&_&Hf&_).
  exists f, s'. split_and!; auto. split; [|done]. rewrite Hh. now rewrite ipc_decode_total_length.
Qed.

Lemma sent_more_trans a b s1 s2 s3 : sent_more a s1 s2 -> sent_more b s2 s3 -> sent_more (a ++ b) s1 s3.
Proof.
  intros (F1&T1&I1&A1&E1) (F2&T2&I2&A2&E2). unfold sent_more. split_and!; try congruence.
  - now apply Forall_app.
  - unfold frames_wire in *. now rewrite T2, T1, bind_app, app_assoc.
Qed.

(** the call of the invoker: the request is out, and the next message is taken *)
Lemma on_invoker_get msg w f fs c :
  worker_idle (f :: fs) (cx_invoker c) -> length msg = IPC_BUF_SIZE -> ipc_decode msg = Ret w ->
  exists q b s', q = sent_frame msg [] (cx_invoker c) /\ frame_says q w [] /\ sent_more [q] (cx_invoker c) s' /\
    worker_idle fs s' /\ buffer_ok b /\ buffer_data b = f_payload f /\
    on_invoker (invoker_get msg) c =
      (v ← parse_message (f_header f);
       match get_if_get v with
       | None => Throw (FunctionGetFailure "Received incorrect message!")
       | Some req => Ret (set_ipc_total_length 0 msg, (req, b))
       end, set_cx_invoker s' c).
Proof.
  intros Hi Hl Hd. destruct (put_nothing msg w (f :: fs) (cx_invoker c) Hi Hl Hd) as (q&s1&E1&Hi1&Hs1&Hq&Hh&Hqf).
  destruct (invoker_receive_spec mq_receive_reliable never_empty get_if_get f fs s1 Hi1) as (b&s2&Hok&Hb&Hi2&Hs2&E2).
  exists q, b, s2. split; [done|]. split; [done|]. split; [exact (sent_more_trans [q] [] _ _ _ Hs1 Hs2)|]. split_and!; auto.
  unfold on_invoker, zoom, invoker_get. unfold invoker_put in E1. rewrite (M_bind_eq _ _ _ _ _ E1).
  unfold mbind, M_bind, outcome_bind. rewrite E2, Hh. unfold mbind, M_bind, outcome_bind, lift.
  destruct (parse_message _) as [v| |]; [|done..]. now destruct (get_if_get v).
Qed.

(** [v] shows the bytes [bs] *)
Definition view_shows (c : RContext) (v : RBuffer) (bs : list byte) : Prop :=
  rb_len v = Z.of_nat (length bs) /\ (bs = [] \/ take (length bs) <$> load c (rb_ptr v) = Some bs).

(** [buf] is the newest of the user's buffers, and shows [bs] *)
Definition user_sees (c : RContext) (buf : RBuffer) (bs : list byte) : Prop :=
  (exists b, list.last (cx_user_buffers c) = Some b /\ rb_ptr buf = hb_data b) /\ view_shows c buf bs.

Lemma adopt_push_sees data c :
  buffer_ok data -> exists v c', (b ← adopt data; push_user b) c = (Ret v, c') /\ user_sees c' v (buffer_data data) /\
    cx_invoker c' = cx_invoker c.
Proof.
  intros Hok. pose proof (length_buffer_data _ Hok) as Hl. unfold adopt.
  unfold buffer_data, buffer_ok in *. destruct (buf_ptr data) as [bs|] eqn:Eb; cbn in *.
  - eexists _, _. split; [reflexivity|]. cbn. split; [|done]. split; [|split].
    + eexists. cbn. rewrite last_snoc. done.
    + cbn. now rewrite Hl.
    + right. cbn. rewrite lookup_insert_eq. cbn. rewrite decide_True by lia. cbn. rewrite drop_0. now rewrite Hl.
  - eexists _, _. split; [reflexivity|]. split; [|done]. split; [|split].
    + eexists. cbn. rewrite last_snoc. done.
    + cbn. now rewrite Hl.
    + now left.
Qed.

Lemma set_generic_names source key :
  ipc_fits IPC_NAME_LENGTH source -> ipc_fits IPC_NAME_LENGTH key ->
  exists x y, set_generic_process_id (sv_of_string source) GetRequest = Ret y /\
    set_generic_name (sv_of_string key) y = Ret x /\
    sv_str (generic_process_id x) = source /\ sv_str (generic_name x) = key /\ length (gr_msg x) = IPC_BUF_SIZE /\
    data_len x = 0%Z /\ ipc_decode (gr_msg x) = Ret (IGet source key false 0).
Proof.
  intros Hp Hn. destruct (generic_request_decodes IPC_GET_REQUEST source key) as (x&Hx&P1&P2&P3&P4&P5&P6&P7); auto.
  apply bind_ret_inv in Hx as (y&Hy&Hx). exists x, y. split_and!; auto.
  specialize (P7 false 0%Z). rewrite P6, P5 in P7. apply P7. unfold i32_range. lia.
Qed.

(** the request of a [get], before there is a reply *)
Definition get_message (source key : string) : mem :=
  match r ← set_generic_process_id (sv_of_string source) GetRequest; set_generic_name (sv_of_string key) r with
  | Ret x => gr_msg x
  | _ => []
  end.
Definition get_frame (source key : string) (s : Invoker) : frame := sent_frame (get_message source key) [] s.

Lemma get_frame_says source key fs s :
  worker_idle fs s -> ipc_fits IPC_NAME_LENGTH source -> ipc_fits IPC_NAME_LENGTH key ->
  frame_ok (get_frame source key s) /\ frame_says (get_frame source key s) (IGet source key false 0) [].
Proof.
  intros Hi Hp Hn. destruct (set_generic_names source key Hp Hn) as (x&y&Hy&Hx&_&_&P3&_&P5).
  assert (get_message source key = gr_msg x) as Hm by (unfold get_message; rewrite Hy; cbn; now rewrite Hx).
  destruct (put_nothing (gr_msg x) _ fs s Hi P3 P5) as (q&s'&_&_&(Hok&_)&Hq&_&Hqf).
  unfold get_frame. rewrite Hm, <-Hqf. apply List.Forall_cons_iff in Hok as [Hok _]. auto.
Qed.

(** [get] up to the reply: the request is out, the next message is taken *)
Lemma context_get_run source key f fs c :
  worker_idle (f :: fs) (cx_invoker c) -> ipc_fits IPC_NAME_LENGTH source -> ipc_fits IPC_NAME_LENGTH key ->
  exists q b s', q = get_frame source key (cx_invoker c) /\ frame_says q (IGet source key false 0) [] /\
    sent_more [q] (cx_invoker c) s' /\ worker_idle fs s' /\ buffer_ok b /\ buffer_data b = f_payload f /\
    context_get (sv_of_string source) (sv_of_string key) c =
      (v ← lift (parse_message (f_header f));
       match get_if_get v with
       | None => throw (FunctionGetFailure "Received incorrect message!")
       | Some reply =>
           if bool_decide (source <> SELF) && bool_decide (source <> ANY) &&
              bool_decide (source <> sv_str (generic_process_id reply))
           then throw (FunctionGetFailure "Received incorrect get result - incorrect process id {}")
           else if bool_decide (key <> sv_str (generic_name reply))
           then throw (FunctionGetFailure "Received incorrect get result - incorrect name id {}")
           else b ← adopt b; push_user b
       end) (set_cx_invoker s' c).
Proof.
  intros Hi Hp Hn. destruct (set_generic_names source key Hp Hn) as (x&y&Hy&Hx&P1&P2&P3&P4&P5).
  destruct (on_invoker_get (gr_msg x) _ f fs c Hi P3 P5) as (q&b&s'&Hqf&Hq&Hs&Hi'&Hok&Hb&E).
  exists q, b, s'. split_and!; auto.
  { unfold get_frame, get_message. rewrite Hy. cbn [mbind outcome_bind]. now rewrite Hx. }
  unfold context_get. rewrite Hy, (M_bind_eq (lift (Ret y)) _ c y c eq_refl).
  rewrite Hx, (M_bind_eq (lift (Ret x)) _ c x c eq_refl).
  destruct (generic_fields_total_length 0 x P3) as (F1&F2&F3). rewrite P1 in F1. rewrite P2 in F2. rewrite P4 in F3.
  unfold mbind, M_bind, outcome_bind in E |- *. rewrite E. unfold lift.
  destruct (parse_message (f_header f)) as [v| |]; [|done..]. destruct (get_if_get v) as [reply|]; [|done].
  now rewrite F1, F2, F3.
Qed.

(** a [get] whose reply is about what was asked *)
Lemma context_get_answered source key p n st len payload f fs c :
  worker_idle (f :: fs) (cx_invoker c) -> ipc_fits IPC_NAME_LENGTH source -> ipc_fits IPC_NAME_LENGTH key ->
  frame_says f (IGet p n st len) payload -> (source = SELF \/ source = ANY \/ source = p) -> key = n ->
  exists v c', context_get (sv_of_string source) (sv_of_string key) c = (Ret v, c') /\ user_sees c' v payload /\
    sent_more [get_frame source key (cx_invoker c)] (cx_invoker c) (cx_invoker c') /\ worker_idle fs (cx_invoker c').
Proof.
  intros Hi Hp Hn [Hd Hpay] Hsrc <-.
  destruct (context_get_run source key f fs c Hi Hp Hn) as (q&b&s'&Hqf&Hq&Hs&Hi'&Hok&Hb&E).
  apply ipc_decode_get in Hd as (x&Hx&X1&X2). rewrite Hx in E.
  rewrite (M_bind_eq _ _ _ _ _ (eq_refl : lift (Ret (VGetRequestParsed x)) _ = _)) in E. cbn [get_if_get] in E.
  rewrite X1, X2 in E. rewrite (bool_decide_eq_false_2 (key <> key)) in E by tauto.
  destruct (adopt_push_sees b (set_cx_invoker s' c) Hok) as (v&c'&Ea&Hv&Hc').
  exists v, c'. rewrite Hc', <-Hqf. split_and!; auto; [|now rewrite <-Hpay, <-Hb]. rewrite E, <-Ea.
  repeat case_bool_decide; cbn [andb]; auto. destruct Hsrc as [?|[?|?]]; done.
Qed.

(** C27: a [get] is answered with the bytes the controller sent: whatever the
    message is, the controller finds exactly one request, for the message by
    that name from that process; a reply that carries the name and the process
    asked for - any process, for [SELF] and [ANY] - is returned as a new buffer
    of the user that shows the payload byte for byte, whatever length the
    header of the reply declares, a negative one of a failed request included;
    a reply about something else is an exception. *)
Theorem context_get_returns_reply source key p n st len payload f fs c :
  worker_idle (f :: fs) (cx_invoker c) -> ipc_fits IPC_NAME_LENGTH source -> ipc_fits IPC_NAME_LENGTH key ->
  frame_says f (IGet p n st len) payload ->
  exists q r c', frame_says q (IGet source key false 0) [] /\ sent_more [q] (cx_invoker c) (cx_invoker c') /\
    worker_idle fs (cx_invoker c') /\
    context_get (sv_of_string source) (sv_of_string key) c = (r, c') /\
    if decide ((source = SELF \/ source = ANY \/ source = p) /\ key = n)
    then exists v, r = Ret v /\ user_sees c' v payload
    else exists e, r = Throw (FunctionGetFailure e).
Proof.
  intros Hi Hp Hn Hf. destruct (context_get_run source key f fs c Hi Hp Hn) as (q&b&s'&Hqf&Hq&Hs&Hi'&Hok&Hb&E).
  exists q. destruct (decide _) as [[Hsrc Hkey]|Hno].
  - destruct (context_get_answered source key p n st len payload f fs c Hi Hp Hn Hf Hsrc Hkey) as (v&c'&Ev&Hv&Hsm&Hi2).
    exists (Ret v), c'. rewrite Hqf in Hq |- *. split_and!; eauto.
  - destruct Hf as [Hd _]. apply ipc_decode_get in Hd as (x&Hx&X1&X2). rewrite Hx in E.
    rewrite (M_bind_eq _ _ _ _ _ (eq_refl : lift (Ret (VGetRequestParsed x)) _ = _)) in E. cbn [get_if_get] in E.
    rewrite X1, X2 in E. revert E. repeat case_bool_decide; cbn [andb]; intros E.
    all: try (eexists _, _; split_and!; [exact Hq| | |exact E|]; [exact Hs|exact Hi'|]; eauto; fail).
    all: exfalso; destruct (decide (key = n)); [|tauto]; apply Hno; split; [|done].
    all: destruct (decide (source = SELF)); [tauto|]; destruct (decide (source = ANY)); [tauto|].
    all: destruct (decide (source = p)); tauto.
Qed.

(** An update of the application that arrives between a request and its
    reply breaks the request: [get] takes the next message for the reply,
    raises an exception, and the update is lost; the reply stays on the queue,
    where the next request of the function finds it in the place of its own. *)
Theorem update_breaks_pending_get source key u fu f fs c :
  worker_idle (fu :: f :: fs) (cx_invoker c) -> ipc_fits IPC_NAME_LENGTH source -> ipc_fits IPC_NAME_LENGTH key ->
  update_frame u fu ->
  exists q c', frame_says q (IGet source key false 0) [] /\ sent_more [q] (cx_invoker c) (cx_invoker c') /\
    context_get (sv_of_string source) (sv_of_string key) c =
      (Throw (FunctionGetFailure "Received incorrect message!"), c') /\
    context_active_processes c' = context_active_processes c /\
    context_swapped_processes c' = context_swapped_processes c /\ worker_idle (f :: fs) (cx_invoker c').
Proof.
  intros Hi Hp Hn [Hd _].
  destruct (context_get_run source key fu (f :: fs) c Hi Hp Hn) as (q&b&s'&_&Hq&Hs&Hi'&_&_&E).
  apply ipc_decode_update in Hd as (x&Hx&_). rewrite Hx in E.
  exists q, (set_cx_invoker s' c). split_and!; auto.
  - unfold context_active_processes. cbn. now destruct Hs as (_&_&_&->&_).
  - unfold context_swapped_processes. cbn. now destruct Hs as (_&_&_&->&_).
Qed.
(** ** Put *)

(** what a view shows *)
Lemma accessor_shows c v bs :
  view_shows c v bs -> exists a, accessor (rb_ptr v) (rb_len v) c = (Ret a, c) /\ shows a bs.
Proof.
  intros [Hl Hb]. unfold accessor. rewrite Hl. destruct (decide _) as [Hz|Hz].
  - destruct bs; [|cbn in Hz; lia]. eexists. split; [reflexivity|done].
  - destruct Hb as [->|Hb]; [done|]. apply fmap_Some in Hb as (m&->&Hm).
    assert (length bs <= length m) as Hle by (rewrite Hm at 1; rewrite length_take; lia).
    rewrite decide_True by lia. eexists. split; [reflexivity|]. rewrite Nat2Z.id. split; cbn; [|done]. done.
Qed.

(** the message [msg] with the bytes [bs] is out *)
Lemma put_bytes msg w a bs fs c :
  worker_idle fs (cx_invoker c) -> length msg = IPC_BUF_SIZE -> ipc_decode msg = Ret w -> shows a bs ->
  i32_range (Z.of_nat (length bs)) ->
  exists f m s', on_invoker (invoker_put msg a) c = (Ret m, set_cx_invoker s' c) /\
    worker_idle fs s' /\ sent_more [f] (cx_invoker c) s' /\ frame_says f w bs /\
    f = sent_frame msg bs (cx_invoker c) /\
    (forall msg' bs', sent_frame msg' bs' s' = sent_frame msg' bs' (cx_invoker c)).
Proof.
  intros Hi Hl Hd Hs Hr.
  destruct (invoker_put_spec mq_send_reliable msg a bs fs (cx_invoker c) Hi Hl Hs Hr) as (f&s'&E&Hi'&Hm&Hh&Hp&_&Hf&Hsf).
  exists f, (f_header f), s'. unfold on_invoker, zoom. rewrite E. split_and!; auto.
  split; [|done]. rewrite Hh. now rewrite ipc_decode_total_length.
Qed.

(** the loop over the user's buffers *)
Lemma put_user_buffer_spec msg w buf bs fs c :
  worker_idle fs (cx_invoker c) -> length msg = IPC_BUF_SIZE -> ipc_decode msg = Ret w -> view_shows c buf bs ->
  i32_range (Z.of_nat (length bs)) ->
  if decide (Exists (fun b => hb_data b = rb_ptr buf) (cx_user_buffers c))
  then exists q c', put_user_buffer msg buf c = (Ret tt, c') /\ worker_idle fs (cx_invoker c') /\
    sent_more [q] (cx_invoker c) (cx_invoker c') /\ frame_says q w bs /\ cx_heap c' = cx_heap c
  else put_user_buffer msg buf c = (Throw (PraaSException "Submitted put request with a non-existing buffer!"), c).
Proof.
  intros Hi Hl Hd Hv Hr. unfold put_user_buffer. rewrite (M_bind_eq get _ c c c eq_refl).
  destruct (decide _) as [Hex|Hex].
  - destruct (list_find _ _) as [[i b]|] eqn:E.
    2:{ apply list_find_None in E. apply list.Exists_exists in Hex as (b&Hb&Hp).
      rewrite list.Forall_forall in E. destruct (E b Hb Hp). }
    erewrite M_bind_eq by reflexivity. set (c1 := set_cx_user _ c).
    destruct (accessor_shows c1 buf bs) as (a&Ea&Ha); [exact Hv|]. rewrite (M_bind_eq _ _ _ _ _ Ea).
    destruct (put_bytes msg w a bs fs c1 Hi Hl Hd Ha Hr) as (q&m&s'&E1&Hi'&Hs&Hq&_). rewrite (M_bind_eq _ _ _ _ _ E1).
    exists q. eexists. split; [reflexivity|]. auto.
  - destruct (list_find _ _) as [[i b]|] eqn:E; [|done].
    apply list_find_Some in E as (Hi1&Hb&_). destruct Hex. apply list.Exists_exists. exists b. split; [|done].
    eapply list_elem_of_lookup_2; eauto.
Qed.

Lemma set_put_names dest key len :
  ipc_fits IPC_NAME_LENGTH dest -> ipc_fits IPC_NAME_LENGTH key -> i32_range len ->
  exists x y, set_generic_process_id (sv_of_string dest) PutRequest = Ret y /\
    set_generic_name (sv_of_string key) y = Ret x /\ forall st,
    let msg := gr_msg (if st : bool then set_generic_state true (set_data_len len x) else set_data_len len x) in
    length msg = IPC_BUF_SIZE /\ ipc_decode msg = Ret (IPut dest key st len).
Proof.
  intros Hp Hn Hl. destruct (generic_request_decodes IPC_PUT_REQUEST dest key) as (x&Hx&P1&P2&P3&P4&P5&P6&P7); auto.
  apply bind_ret_inv in Hx as (y&Hy&Hx). exists x, y. split_and!; auto.
  assert (length (gr_msg (set_data_len len x)) = IPC_BUF_SIZE) as Hlen.
  { unfold set_data_len, write_i32. cbn. rewrite length_write_at; [done|]. rewrite length_le_bytes, P3. unfold IPC_BUF_SIZE, IPC_HEADER_OFFSET. lia. }
  intros [] msg; split.
  - unfold msg, set_generic_state. cbn [gr_msg]. rewrite length_write_at; [done|]. rewrite Hlen. vm_compute. lia.
  - now apply P7.
  - exact Hlen.
  - unfold msg. rewrite <-(P6 len). now apply P7.
Qed.

(** a [put] of one of the user's buffers *)
Lemma context_put_sent dest key buf bs fs c :
  worker_idle fs (cx_invoker c) -> ipc_fits IPC_NAME_LENGTH dest -> ipc_fits IPC_NAME_LENGTH key ->
  view_shows c buf bs -> i32_range (Z.of_nat (length bs)) ->
  if decide (Exists (fun b => hb_data b = rb_ptr buf) (cx_user_buffers c))
  then exists q c', context_put (sv_of_string dest) (sv_of_string key) buf c = (Ret tt, c') /\
    worker_idle fs (cx_invoker c') /\ sent_more [q] (cx_invoker c) (cx_invoker c') /\
    frame_says q (IPut dest key false (Z.of_nat (length bs))) bs /\ cx_heap c' = cx_heap c
  else context_put (sv_of_string dest) (sv_of_string key) buf c =
    (Throw (PraaSException "Submitted put request with a non-existing buffer!"), c).
Proof.
  intros Hi Hp Hn Hv Hr. destruct (set_put_names dest key _ Hp Hn Hr) as (x&y&Hy&Hx&Hm).
  destruct (Hm false) as [Hl Hd]. unfold context_put.
  rewrite Hy, (M_bind_eq (lift (Ret y)) _ c y c eq_refl), Hx, (M_bind_eq (lift (Ret x)) _ c x c eq_refl).
  rewrite (proj1 Hv), wrap_i32_id by done. pose proof (put_user_buffer_spec _ _ buf bs fs c Hi Hl Hd Hv Hr) as Hput.
  destruct (decide _); [|exact Hput]. destruct Hput as (q&c'&H1'&H2'&H3'&H4'&H5'). exists q, c'. split_and!; auto.
Qed.
(** A [put] of one of the user's buffers sends the controller exactly one
    request, with the destination, the name and the bytes of the view - no
    matter how long the buffer was when it was handed out - and a [put] of
    anything else is an exception that sends nothing. *)
Theorem context_put_sends dest key buf bs fs c :
  worker_idle fs (cx_invoker c) -> ipc_fits IPC_NAME_LENGTH dest -> ipc_fits IPC_NAME_LENGTH key ->
  view_shows c buf bs -> i32_range (Z.of_nat (length bs)) ->
  if decide (Exists (fun b => hb_data b = rb_ptr buf) (cx_user_buffers c))
  then exists q c', context_put (sv_of_string dest) (sv_of_string key) buf c = (Ret tt, c') /\
    worker_idle fs (cx_invoker c') /\ sent_more [q] (cx_invoker c) (cx_invoker c') /\
    frame_says q (IPut dest key false (Z.of_nat (length bs))) bs
  else context_put (sv_of_string dest) (sv_of_string key) buf c =
    (Throw (PraaSException "Submitted put request with a non-existing buffer!"), c).
Proof.
  intros Hi Hp Hn Hv Hr. pose proof (context_put_sent dest key buf bs fs c Hi Hp Hn Hv Hr) as Hput.
  destruct (decide _); [|exact Hput]. destruct Hput as (q&c'&?&?&?&?&_). exists q, c'. auto.
Qed.
(** ** Invoke *)

Lemma invoke_request_decodes p fname id :
  ipc_fits IPC_ID_LENGTH p -> ipc_fits IPC_NAME_LENGTH fname -> ipc_fits IPC_ID_LENGTH id ->
  exists y z x, set_ipc_process_id (sv_of_string p) IpcInvocationRequest_ctor = Ret y /\
    set_ipc_function_name (sv_of_string fname) y = Ret z /\ set_ipc_invocation_id (sv_of_string id) z = Ret x /\
    forall len, i32_range len -> length (iir_msg (set_buffer len x)) = IPC_BUF_SIZE /\
      sv_str (ipc_invocation_id (set_buffer len x)) = id /\
      ipc_decode (iir_msg (set_buffer len x)) = Ret (IInvocation id fname p [len]).
Proof.
  intros Hp%ipc_cview_fits Hf%ipc_cview_fits Hid%ipc_cview_fits.
  unfold set_ipc_function_name, set_ipc_invocation_id, set_ipc_process_id. eexists _, _, _.
  split; [ipc_build; reflexivity|]. split; [ipc_build; reflexivity|]. split; [ipc_build; reflexivity|].
  intros len Hlen. match goal with |- context [set_buffer len ?y] => set (x := y) end.
  assert (length (iir_msg x) = IPC_BUF_SIZE) as Hx by (subst x; cbn; ipc_len).
  destruct (set_buffers_ok [len] x Hx ltac:(vm_compute; lia)) as (d&Hd&Hl&Hfr&Hn&Hv).
  assert (set_buffer len x = with_iir_msg x d) as He.
  { revert Hd. unfold set_buffers. change (MAX_BUFFERS <? length [len]) with false. cbv iota. cbn [store_i32s length].
    unfold checked_write. rewrite decide_True by (rewrite length_le_bytes, Hx; vm_compute; lia).
    unfold mbind, outcome_bind. rewrite decide_True.
    - intros [= <-]. reflexivity.
    - rewrite length_write_at; rewrite length_le_bytes, Hx; vm_compute; lia. }
  split; [now rewrite He|]. split.
  - unfold set_buffer, ipc_invocation_id, with_iir_msg, write_i32. cbn [iir_id_len iir_msg].
    change (iir_id_len x) with (sv_len (sv_of_string id)).
    assert (sv_len (sv_of_string id) <= IPC_ID_LENGTH) as Hil by exact (proj1 Hid).
    assert (IPC_HEADER_OFFSET + IPC_ID_LENGTH <= BUFFERS_OFFSET) as Ho by (vm_compute; lia).
    assert (BUFFERS_OFFSET + 8 <= IPC_BUF_SIZE) as Ho' by (vm_compute; lia).
    assert (forall off bs m, length bs = 4 -> BUFFERS_OFFSET <= off <= BUFFERS_OFFSET + 4 -> length m = IPC_BUF_SIZE ->
      sv_str (sv_at IPC_HEADER_OFFSET (sv_len (sv_of_string id)) (write_at off bs m)) =
      sv_str (sv_at IPC_HEADER_OFFSET (sv_len (sv_of_string id)) m)) as Hw
      by (intros; apply sv_str_write_disj; lia).
    rewrite !Hw; rewrite ?length_write_at; rewrite ?length_le_bytes; auto; try lia.
    unfold x. cbn [iir_msg]. rewrite sv_str_after_set; [apply sv_str_of_string|done|]. ipc_len.
  - rewrite He. cbn [iir_msg with_iir_msg]. unfold ipc_decode.
    rewrite (parse_message_typed _ IPC_INVOCATION_REQUEST); [|..|done].
    2:{ unfold read_i16. rewrite Hfr by (unfold_ipc_layout; lia). fold (read_i16 0 (iir_msg x)). subst x; cbn. ipc_type. }
    assert (buffers (InvocationRequestParsed d) = 1%Z) as Hb.
    { unfold buffers, read_i32; cbn. rewrite Hn. reflexivity. }
    assert (1 <= BUFFERS_CAPACITY) as Hcap by (vm_compute; lia).
    cbn. rewrite Hb. change (Z.to_nat 1) with (length [len]).
    rewrite (read_lengths_ok [len] (InvocationRequestParsed d) 0 Hl Hcap (proj2 (list.Forall_singleton _ _) Hlen) Hv).
    cbn. unfold ipc_invocation_id, ipc_function_name, ipc_process_id; cbn.
    rewrite !sv_str_sv_at. unfold field_text. rewrite !Hfr by (unfold_ipc_layout; lia).
    fold (field_text IPC_HEADER_OFFSET IPC_ID_LENGTH (iir_msg x)).
    fold (field_text (IPC_HEADER_OFFSET + IPC_ID_LENGTH) IPC_NAME_LENGTH (iir_msg x)).
    fold (field_text (IPC_HEADER_OFFSET + IPC_ID_LENGTH + IPC_NAME_LENGTH) IPC_ID_LENGTH (iir_msg x)).
    subst x; cbn. ipc_read. fold (sv_str (sv_of_string id)) (sv_str (sv_of_string fname)) (sv_str (sv_of_string p)).
    now rewrite !sv_str_of_string.
Qed.

(** the user's buffers at [p] *)
Definition buffers_at (p : pointer) (c : RContext) : list HBuffer :=
  filter (fun b => hb_data b = p) (cx_user_buffers c).

Lemma alter_hb_data len i (l : list HBuffer) : map hb_data (alter (set_hb_len len) i l) = map hb_data l.
Proof. revert i. induction l as [|b l IH]; intros [|i]; cbn; auto. now rewrite IH. Qed.

Lemma view_shows_same c c' v bs :
  cx_heap c' = cx_heap c -> iv_input (cx_invoker c') = iv_input (cx_invoker c) -> view_shows c v bs -> view_shows c' v bs.
Proof. intros Hh Hi [Hl Hb]. split; [done|]. unfold load in *. now rewrite Hh, Hi. Qed.

(** the loop of [invoke] from the buffer number [s] on: one request for every
    buffer at the pointer *)
Lemma submit_buffers_spec msg w input bs fs ps : forall s c submitted,
  worker_idle fs (cx_invoker c) -> length msg = IPC_BUF_SIZE -> ipc_decode msg = Ret w -> view_shows c input bs ->
  i32_range (Z.of_nat (length bs)) -> drop s (map hb_data (cx_user_buffers c)) = ps ->
  let k := length (filter (fun x => x = rb_ptr input) ps) in
  exists out c', submit_buffers msg input (seq s (length ps)) submitted c = (Ret (submitted || (0 <? k)), c') /\
    worker_idle fs (cx_invoker c') /\ sent_more out (cx_invoker c) (cx_invoker c') /\
    length out = k /\ Forall (fun q => frame_says q w bs /\ q = sent_frame msg bs (cx_invoker c)) out.
Proof.
  induction ps as [|x ps IH]; intros s c submitted Hi Hl Hd Hv Hr Hps.
  - exists [], c. cbn. rewrite orb_false_r. split_and!; auto. unfold sent_more. cbn. now rewrite app_nil_r.
  - assert (map hb_data (cx_user_buffers c) !! s = Some x) as Hx.
    { rewrite <-(Nat.add_0_r s), <-lookup_drop, Hps. done. }
    assert (drop (S s) (map hb_data (cx_user_buffers c)) = ps) as Hps'.
    { rewrite <-Nat.add_1_r, <-drop_drop, Hps. done. }
    change map with (@fmap list _) in Hx. apply list_lookup_fmap_Some_1 in Hx as (b&->&Hb).
    cbn [length seq submit_buffers]. rewrite (M_bind_eq get _ c c c eq_refl), Hb. rewrite filter_cons.
    destruct (decide (hb_data b = rb_ptr input)) as [Hp|Hp]; [|exact (IH (S s) c submitted Hi Hl Hd Hv Hr Hps')].
    erewrite M_bind_eq by reflexivity. set (c1 := set_cx_user _ c). rewrite Hp.
    destruct (accessor_shows c1 input bs) as (a&Ea&Ha); [exact Hv|]. rewrite (M_bind_eq _ _ _ _ _ Ea).
    destruct (put_bytes msg w a bs fs c1 Hi Hl Hd Ha Hr) as (q&m&s'&E1&Hi'&Hs&Hq&Hqf&Hsf). rewrite (M_bind_eq _ _ _ _ _ E1).
    destruct (IH (S s) (set_cx_invoker s' c1) true Hi' Hl Hd) as (out&c'&E&Hi2&Hs2&Hlo&Hall).
    { apply (view_shows_same c); [done|apply Hs|done]. } { done. } { unfold c1. cbn. now rewrite alter_hb_data. }
    exists (q :: out), c'. rewrite E. rewrite !orb_true_r, !orb_true_l. split_and!; auto.
    + exact (sent_more_trans [q] out _ _ _ Hs Hs2).
    + cbn. now rewrite Hlo.
    + constructor; [auto|]. cbn [cx_invoker set_cx_invoker] in Hall. rewrite Hsf in Hall. exact Hall.
Qed.

(** the call of the invoker for a result: the next message is taken *)
Lemma on_invoker_result f fs id len code c :
  worker_idle (f :: fs) (cx_invoker c) -> ipc_decode (f_header f) = Ret (IResult id len code) ->
  exists x b s', on_invoker (invoker_receive get_if_result) c = (Ret (x, b), set_cx_invoker s' c) /\
    buffer_ok b /\ buffer_data b = f_payload f /\ sv_str (ipc_result_id x) = id /\ ipc_return_code x = code /\
    worker_idle fs s' /\ sent_more [] (cx_invoker c) s'.
Proof.
  intros Hi Hd.
  destruct (invoker_receive_spec mq_receive_reliable never_empty get_if_result f fs (cx_invoker c) Hi)
    as (b&s'&Hok&Hb&Hi'&Hs&E).
  apply ipc_decode_result in Hd as (x&Hx&X1&X2). exists x, b, s'. split_and!; auto.
  unfold on_invoker, zoom. rewrite E, Hx. done.
Qed.

Lemma filter_map_length {A B} `{EqDecision B} (f : A -> B) (p : B) l :
  length (filter (fun x => x = p) (map f l)) = length (filter (fun a => f a = p) l).
Proof.
  induction l as [|a l IH]; [done|]. cbn [map]. rewrite !filter_cons.
  destruct (decide (f a = p)); cbn; now rewrite IH.
Qed.

Lemma hb_data_ptr b k : hb_data b = Ptr (BHeap k) 0 <-> hb_ptr b = Some k.
Proof. unfold hb_data. destruct (hb_ptr b); split; congruence. Qed.

Lemma owned_buffers_once p c : cx_ok c -> p <> NullPtr -> length (buffers_at p c) <= 1.
Proof.
  intros [_ Hn _] Hp. unfold owned in Hn. cbn in Hn.
  assert (NoDup (omap hb_ptr (cx_user_buffers c))) as Hn'.
  { destruct (hb_ptr (cx_output c)); [now apply list.NoDup_cons in Hn|done]. }
  clear Hn. unfold buffers_at. revert Hn'. induction (cx_user_buffers c) as [|b l IH]; intros Hn; [cbn; lia|].
  rewrite filter_cons. destruct (decide (hb_data b = p)) as [Hd|Hd].
  2:{ apply IH. cbn in Hn. destruct (hb_ptr b); [now apply list.NoDup_cons in Hn|done]. }
  destruct (hb_ptr b) as [k|] eqn:Eb; [|unfold hb_data in Hd; rewrite Eb in Hd; congruence].
  assert (p = Ptr (BHeap k) 0) as -> by (rewrite <-Hd; now apply hb_data_ptr).
  cbn in Hn. rewrite Eb in Hn. apply list.NoDup_cons in Hn as [Hk _].
  assert (filter (fun b => hb_data b = Ptr (BHeap k) 0) l = []) as ->; [|done].
  clear -Hk. induction l as [|b l IH]; [done|]. rewrite filter_cons. cbn in Hk.
  destruct (decide _) as [Hd%hb_data_ptr|_].
  - rewrite Hd in Hk. destruct Hk. apply list_elem_of_here.
  - apply IH. destruct (hb_ptr b); [|done]. intros Hi. apply Hk. now apply list_elem_of_further.
Qed.

(** the request of an [invoke], before there is a reply *)
Definition invoke_message (p fname id : string) (len : Z) : mem :=
  match r ← set_ipc_process_id (sv_of_string p) IpcInvocationRequest_ctor;
        r ← set_ipc_function_name (sv_of_string fname) r; set_ipc_invocation_id (sv_of_string id) r with
  | Ret x => iir_msg (set_buffer len x)
  | _ => []
  end.
Definition invoke_frame (p fname id : string) (bs : list byte) (s : Invoker) : frame :=
  sent_frame (invoke_message p fname id (Z.of_nat (length bs))) bs s.

Lemma invoke_frame_says p fname id bs fs s :
  worker_idle fs s -> ipc_fits IPC_ID_LENGTH p -> ipc_fits IPC_NAME_LENGTH fname -> ipc_fits IPC_ID_LENGTH id ->
  i32_range (Z.of_nat (length bs)) ->
  frame_ok (invoke_frame p fname id bs s) /\
  frame_says (invoke_frame p fname id bs s) (IInvocation id fname p [Z.of_nat (length bs)]) bs.
Proof.
  intros Hi Hp Hf Hid Hr. destruct (invoke_request_decodes p fname id Hp Hf Hid) as (y&z&x&Hy&Hz&Hx&Hdec).
  destruct (Hdec _ Hr) as (Hl&_&Hw).
  assert (shows {| acc_ptr := Some bs; acc_len := length bs |} bs) as Hs by done.
  destruct (invoker_put_spec mq_send_reliable _ _ bs fs s Hi Hl Hs Hr) as (q&s'&_&_&(Hok&_)&Hh&Hpay&_&Hqf&_).
  assert (invoke_frame p fname id bs s = q) as ->.
  { rewrite Hqf. unfold invoke_frame, invoke_message. rewrite Hy. cbn [mbind outcome_bind]. rewrite Hz.
    cbn [mbind outcome_bind]. now rewrite Hx. }
  apply List.Forall_cons_iff in Hok as [Hok _]. split; [exact Hok|]. split; [|exact Hpay].
  rewrite Hh. now rewrite ipc_decode_total_length.
Qed.

(** [invoke] up to the reply *)
Lemma context_invoke_run p fname id input bs fs c :
  worker_idle fs (cx_invoker c) -> ipc_fits IPC_ID_LENGTH p -> ipc_fits IPC_NAME_LENGTH fname ->
  ipc_fits IPC_ID_LENGTH id -> view_shows c input bs -> i32_range (Z.of_nat (length bs)) ->
  let k := length (buffers_at (rb_ptr input) c) in
  exists out c1, sent_more out (cx_invoker c) (cx_invoker c1) /\ length out = k /\ worker_idle fs (cx_invoker c1) /\
    Forall (fun q => frame_says q (IInvocation id fname p [Z.of_nat (length bs)]) bs /\
                     q = invoke_frame p fname id bs (cx_invoker c)) out /\
    context_invoke (sv_of_string p) (sv_of_string fname) (sv_of_string id) input c =
    (if negb (0 <? k)
     then throw (PraaSException "Submitted invoke request with a non-existing buffer!")
     else
       r ← on_invoker (invoker_receive get_if_result);
       let '(result, data) := r in
       if bool_decide (id <> sv_str (ipc_result_id result))
       then throw (FunctionGetFailure "Received incorrect invocation result - incorrect invocation id {}")
       else
         b ← adopt data; v ← push_user b;
         mret {| rres_key := id; rres_function_name := fname; rres_return_code := ipc_return_code result;
                 rres_payload := v |}) c1.
Proof.
  intros Hi Hp Hf Hid Hv Hr k. destruct (invoke_request_decodes p fname id Hp Hf Hid) as (y&z&x&Hy&Hz&Hx&Hdec).
  destruct (Hdec _ Hr) as (Hl&Hsid&Hw). set (req := set_buffer _ x) in *.
  destruct (submit_buffers_spec (iir_msg req) _ input bs fs _ 0 c false Hi Hl Hw Hv Hr eq_refl)
    as (out&c1&E&Hi1&Hs1&Hlo&Hall).
  change (drop 0 ?l) with l in *. rewrite length_map in E. rewrite filter_map_length in Hlo, E.
  change (length (filter (fun a => hb_data a = rb_ptr input) (cx_user_buffers c))) with k in *. cbn [orb] in E.
  assert (sent_frame (iir_msg req) bs (cx_invoker c) = invoke_frame p fname id bs (cx_invoker c)) as Hqf.
  { unfold invoke_frame, invoke_message. rewrite Hy. cbn [mbind outcome_bind]. rewrite Hz.
    cbn [mbind outcome_bind]. now rewrite Hx. }
  rewrite Hqf in Hall. exists out, c1. split_and!; auto. unfold context_invoke.
  rewrite Hy, (M_bind_eq (lift (Ret y)) _ c y c eq_refl), Hz, (M_bind_eq (lift (Ret z)) _ c z c eq_refl).
  rewrite Hx, (M_bind_eq (lift (Ret x)) _ c x c eq_refl).
  rewrite (M_bind_eq get _ c c c eq_refl), (proj1 Hv), wrap_i32_id by done. fold req.
  rewrite (M_bind_eq _ _ _ _ _ E), Hsid, !sv_str_of_string. done.
Qed.

(** an [invoke] of one buffer, whose reply is the result *)
Lemma context_invoke_answered p fname id input bs len code payload f fs c :
  worker_idle (f :: fs) (cx_invoker c) -> ipc_fits IPC_ID_LENGTH p -> ipc_fits IPC_NAME_LENGTH fname ->
  ipc_fits IPC_ID_LENGTH id -> view_shows c input bs -> i32_range (Z.of_nat (length bs)) ->
  frame_says f (IResult id len code) payload -> 0 < length (buffers_at (rb_ptr input) c) ->
  exists out v c', context_invoke (sv_of_string p) (sv_of_string fname) (sv_of_string id) input c =
      (Ret {| rres_key := id; rres_function_name := fname; rres_return_code := code; rres_payload := v |}, c') /\
    user_sees c' v payload /\ worker_idle fs (cx_invoker c') /\ sent_more out (cx_invoker c) (cx_invoker c') /\
    length out = length (buffers_at (rb_ptr input) c) /\
    Forall (fun q => frame_says q (IInvocation id fname p [Z.of_nat (length bs)]) bs /\
                     q = invoke_frame p fname id bs (cx_invoker c)) out.
Proof.
  intros Hi Hp Hf Hid Hv Hr [Hd Hpay] Hk.
  destruct (context_invoke_run p fname id input bs (f :: fs) c Hi Hp Hf Hid Hv Hr) as (out&c1&Hs1&Hlo&Hi1&Hall&E).
  rewrite (proj2 (Nat.ltb_lt _ _) Hk) in E. cbn [negb] in E.
  destruct (on_invoker_result f fs id len code c1 Hi1 Hd) as (res&b&s'&Er&Hok&Hb&Hrid&Hcode&Hi2&Hs2).
  pose proof (sent_more_trans _ _ _ _ _ Hs1 Hs2) as Hs. rewrite app_nil_r in Hs.
  rewrite (M_bind_eq _ _ _ _ _ Er), Hrid, Hcode, bool_decide_eq_false_2 in E by tauto.
  destruct (adopt_push_sees b (set_cx_invoker s' c1) Hok) as (v&c'&Ea&Hvs&Hc').
  exists out, v, c'. rewrite Hc', <-Hpay, <-Hb. split_and!; auto.
  rewrite E. revert Ea. unfold mbind, M_bind. destruct (adopt b _) as [[b'| |] c2]; [|discriminate..].
  now intros ->.
Qed.

(** [invoke] sends its request once for every buffer of the user at the
    pointer of its input - exactly once for a buffer that has an array, since
    the context owns every array once, but as often as the user holds empty
    buffers for an input without one - and is an exception if there is none;
    then the next result of the controller is returned with its payload and
    code if it answers this invocation, and is an exception otherwise. *)
Theorem context_invoke_requests p fname id input bs rid len code payload f fs c :
  worker_idle (f :: fs) (cx_invoker c) -> ipc_fits IPC_ID_LENGTH p -> ipc_fits IPC_NAME_LENGTH fname ->
  ipc_fits IPC_ID_LENGTH id -> view_shows c input bs -> i32_range (Z.of_nat (length bs)) ->
  frame_says f (IResult rid len code) payload ->
  let k := length (buffers_at (rb_ptr input) c) in
  exists out r c',
    context_invoke (sv_of_string p) (sv_of_string fname) (sv_of_string id) input c = (r, c') /\
    sent_more out (cx_invoker c) (cx_invoker c') /\ length out = k /\
    Forall (fun q => frame_says q (IInvocation id fname p [Z.of_nat (length bs)]) bs) out /\
    (cx_ok c -> rb_ptr input <> NullPtr -> k <= 1) /\
    if decide (k = 0) then (exists e, r = Throw (PraaSException e)) /\ worker_idle (f :: fs) (cx_invoker c')
    else worker_idle fs (cx_invoker c') /\
      if decide (rid = id)
      then exists v, r = Ret {| rres_key := id; rres_function_name := fname; rres_return_code := code; rres_payload := v |} /\
        user_sees c' v payload
      else exists e, r = Throw (FunctionGetFailure e).
Proof.
  intros Hi Hp Hf Hid Hv Hr Hfr k.
  destruct (context_invoke_run p fname id input bs (f :: fs) c Hi Hp Hf Hid Hv Hr) as (out&c1&Hs1&Hlo&Hi1&Hall&E).
  pose proof (owned_buffers_once (rb_ptr input) c) as Honce. fold k in Honce, E, Hlo.
  destruct (decide (rid = id)) as [->|Hne], (decide (k = 0)) as [Hk|Hk].
  2: { destruct (context_invoke_answered p fname id input bs len code payload f fs c Hi Hp Hf Hid Hv Hr Hfr) as
         (out'&v&c'&E'&Hv'&Hi'&Hs'&Hl'&Hall'); [fold k; lia|].
       exists out'. eexists _, c'. split; [exact E'|]. split_and!; eauto. eapply list.Forall_impl; [exact Hall'|]. now intros q [? _]. }
  1,2: rewrite (proj2 (Nat.ltb_ge _ _)) in E by lia; exists out; eexists _, c1; split; [exact E|]; split_and!; eauto;
       eapply list.Forall_impl; [exact Hall|]; now intros q [? _].
  destruct Hfr as [Hd _]. destruct (on_invoker_result f fs rid len code c1 Hi1 Hd) as (res&b&s'&Er&_&_&Hrid&_&Hi2&Hs2).
  pose proof (sent_more_trans _ _ _ _ _ Hs1 Hs2) as Hs. rewrite app_nil_r in Hs.
  rewrite (proj2 (Nat.ltb_lt _ _)) in E by lia. cbn [negb] in E.
  rewrite (M_bind_eq _ _ _ _ _ Er), Hrid, bool_decide_eq_true_2 in E by auto.
  exists out. eexists _, _. split; [exact E|]. split_and!; eauto. eapply list.Forall_impl; [exact Hall|]. now intros q [? _].
Qed.

(** ** The result of an invocation *)

Lemma finish_message id code len :
  ipc_fits IPC_ID_LENGTH id -> i32_range code -> i32_range len ->
  exists x, set_ipc_result_id (sv_of_string id)
      (set_ipc_buffer_length len (set_ipc_return_code code IpcInvocationResult_ctor)) = Ret x /\
    length (irs_msg x) = IPC_BUF_SIZE /\ ipc_decode (irs_msg x) = Ret (IResult id len code).
Proof.
  intros Hid%ipc_cview_fits Hc Hl. unfold set_ipc_result_id. eexists. split; [ipc_build; reflexivity|].
  cbn [irs_msg]. split; [ipc_len|]. unfold ipc_decode.
  rewrite (parse_message_typed _ IPC_INVOCATION_RESULT); [|ipc_type|done].
  cbn. unfold ipc_result_id, ipc_buffer_length, ipc_return_code; cbn. rewrite sv_str_sv_at.
  ipc_read. rewrite !ipc_signed_le_bytes by done. fold (sv_str (sv_of_string id)). now rewrite sv_str_of_string.
Qed.

Lemma invoker_finish_spec id code a bs fs s :
  worker_idle fs s -> ipc_fits IPC_ID_LENGTH id -> i32_range code -> shows a bs -> i32_range (Z.of_nat (length bs)) ->
  exists f s', invoker_finish (sv_of_string id) a code s = (Ret tt, s') /\ worker_idle fs s' /\ sent_more [f] s s' /\
    frame_says f (IResult id (Z.of_nat (length bs)) code) bs.
Proof.
  intros Hi Hid Hc Hs Hr. unfold invoker_finish. rewrite (proj1 Hs), wrap_i32_id by done.
  destruct (finish_message id code _ Hid Hc Hr) as (x&Hx&Hl&Hd). rewrite Hx.
  rewrite (M_bind_eq (lift (Ret x)) _ s x s eq_refl).
  destruct (invoker_put_spec mq_send_reliable (irs_msg x) a bs fs s Hi Hl Hs Hr) as (f&s'&E&Hi'&Hm&Hh&Hp&_).
  unfold invoker_put in E. rewrite (M_bind_eq _ _ _ _ _ E). exists f, s'. split_and!; auto.
  split; [|done]. rewrite Hh. now rewrite ipc_decode_total_length.
Qed.
End get.

(** ** The output of a later invocation *)
Section output.
Context `{Allocator} `{PosixMQ}.

Definition next_invocation (v : RBuffer) (id : string) : M RContext unit :=
  set_output_buffer v ≫= fun _ => end_invocation ≫= fun _ => start_invocation id.

(** Returning one of the user's buffers as the output of an invocation
    breaks the next one: the buffer is freed with the invocation, but the
    context keeps referring to it as its output.  In the next invocation
    [get_output_buffer] hands out the freed array, and the result of a function
    that writes its output with [write_output] is read from it, which is
    undefined - the bytes written are elsewhere. *)
Theorem output_view_dangles c b l id :
  cx_ok c -> b ∈ cx_user_buffers c -> hb_ptr b = Some l ->
  exists c', next_invocation (view_of b) id c = (Ret tt, c') /\ cx_heap c' !! l = None /\
    (exists v, get_output_buffer 0 c' = (Ret v, c') /\ rb_ptr v = Ptr (BHeap l) 0) /\
    forall bs pos c2, bs <> [] -> (0 <= pos)%Z -> write_output bs pos c' = (Ret tt, c2) -> as_buffer c2 = (Undef, c2).
Proof.
  intros Hc Hb Hl. unfold next_invocation, set_output_buffer.
  rewrite (M_bind_eq (modify (set_cx_view (view_of b))) _ c tt (set_cx_view (view_of b) c) eq_refl).
  destruct (end_invocation_frees (set_cx_view (view_of b) c)) as (c1&E1&Hc1&_&Ho&Hd&_&Hv).
  { now apply (cx_ok_same c). }
  rewrite (M_bind_eq _ _ _ _ _ E1). eexists. split; [reflexivity|].
  destruct Hc as [Hh Hn [l0 Hl0]]. assert (hb_data b = Ptr (BHeap l) 0) as Hbp by now apply hb_data_ptr.
  assert (l <> l0) as Hne.
  { intros ->. unfold owned in Hn. cbn in Hn. rewrite Hl0 in Hn. apply list.NoDup_cons in Hn as [Hn _]. apply Hn.
    apply list_elem_of_omap. eauto. }
  assert (cx_heap c1 !! l = None) as Hf.
  { apply not_elem_of_dom. rewrite Hd. cbn. rewrite Hl0. cbn. set_solver. }
  cbn [set_cx_view set_cx_output set_cx_invoc_id cx_heap]. split; [done|]. split.
  - eexists. split; [reflexivity|]. cbn. now rewrite Hv.
  - intros bs pos c2 Hbs Hpos. unfold write_output. cbn. rewrite Ho. cbn. rewrite Hl0. cbn.
    destruct (cx_heap c1 !! l0) as [m|] eqn:Em; cbn; [|discriminate].
    destruct (checked_write _ _ _) as [m'| |]; [|discriminate..]. intros [= <-].
    unfold as_buffer. unfold mbind, M_bind, get. cbn. rewrite Hv. cbn. rewrite Hbp.
    rewrite decide_False by (intros He; symmetry in He; apply hb_data_ptr in He; cbn in He; congruence).
    unfold accessor. rewrite decide_False.
    + unfold load. cbn. rewrite lookup_insert_ne, Hf by done. done.
    + assert (0 < length bs) by (destruct bs; [done|cbn; lia]). lia.
Qed.
End output.

(** ** A context on plain queues *)
Section concrete.
#[local] Existing Instance plain_mq | 0.
#[local] Existing Instance plain_laws | 0.

(** one user's buffer with the bytes 1, 2, 3, and an output buffer of 8 bytes *)
Definition plain_buffer : HBuffer := {| hb_ptr := Some 1; hb_size := 3; hb_len := 3 |}.
Definition plain_context (incoming : list frame) : RContext :=
  let out := {| hb_ptr := Some 0; hb_size := 8; hb_len := 0 |} in
  {| cx_invoker := plain_invoker incoming; cx_heap := {[0 := replicate 8 NUL; 1 := [x01; x02; x03]]};
     cx_output := out; cx_user_buffers := [plain_buffer]; cx_output_buf_view := view_of out;
     cx_invoc_id := "id"; cx_process_id := "process-0" |}.

Lemma plain_context_ok fs : cx_ok (plain_context fs).
Proof. split; [vm_compute; reflexivity| |eexists; reflexivity]. apply (bool_decide_unpack _). vm_compute. exact I. Qed.

Lemma plain_worker_idle fs : Forall frame_ok fs -> worker_idle fs (cx_invoker (plain_context fs)).
Proof.
  intros Hfs. split; (eexists; split; [reflexivity|]); [now apply plain_idle|]. unfold IPC_BUF_SIZE. cbn. lia.
Qed.

Lemma plain_shows fs : view_shows (plain_context fs) (view_of plain_buffer) [x01; x02; x03].
Proof. split; [reflexivity|]. right. vm_compute. reflexivity. Qed.

Ltac fits_now := unfold ipc_fits; split; apply (bool_decide_unpack _); vm_compute; exact I.
Lemma fits_names : ipc_fits IPC_NAME_LENGTH "peer" /\ ipc_fits IPC_NAME_LENGTH "key" /\ ipc_fits IPC_NAME_LENGTH "f" /\
  ipc_fits IPC_ID_LENGTH "peer" /\ ipc_fits IPC_ID_LENGTH "id".
Proof. split_and!; fits_now. Qed.
Lemma three_bytes : i32_range (Z.of_nat (length [x01; x02; x03])).
Proof. unfold i32_range. cbn. lia. Qed.

Lemma reply_says : frame_says (wire_frame (IGet "peer" "key" false 3) [x01; x02; x03]) (IGet "peer" "key" false 3) [x01; x02; x03] /\
  frame_ok (wire_frame (IGet "peer" "key" false 3) [x01; x02; x03]).
Proof. destruct fits_names as (?&?&_). apply wire_frame_says; [split_and!; auto; unfold i32_range; lia|apply three_bytes]. Qed.
Lemma update_says : update_frame ("peer", 1%Z) (wire_frame (IUpdate "peer" 1) []) /\ frame_ok (wire_frame (IUpdate "peer" 1) []).
Proof. destruct fits_names as (?&?&_). apply wire_frame_says; [split; [fits_now|unfold i32_range; lia]|unfold i32_range; cbn; lia]. Qed.
Lemma result_says : frame_says (wire_frame (IResult "id" 3 0) [x01; x02; x03]) (IResult "id" 3 0) [x01; x02; x03] /\
  frame_ok (wire_frame (IResult "id" 3 0) [x01; x02; x03]).
Proof. apply wire_frame_says; [split_and!; [fits_now|unfold i32_range; lia..]|apply three_bytes]. Qed.

Lemma context_get_returns_reply_witness :
  let c := plain_context [wire_frame (IGet "peer" "key" false 3) [x01; x02; x03]] in
  exists v c', context_get (sv_of_string "peer") (sv_of_string "key") c = (Ret v, c') /\ user_sees c' v [x01; x02; x03].
Proof.
  intros c. destruct fits_names as (Hp&Hk&_). destruct reply_says as [Hs Hok].
  destruct (context_get_returns_reply plain_send_reliable plain_receive_reliable plain_never_empty "peer" "key" "peer" "key" false 3
    [x01; x02; x03] _ [] c (plain_worker_idle _ (List.Forall_cons _ _ _ Hok (List.Forall_nil _))) Hp Hk Hs)
    as (q&r&c'&_&_&_&E&Hr).
  rewrite decide_True in Hr by auto. destruct Hr as (v&->&Hv). eauto.
Defined.

Lemma update_breaks_pending_get_witness :
  let reply := wire_frame (IGet "peer" "key" false 3) [x01; x02; x03] in
  let c := plain_context [wire_frame (IUpdate "peer" 1) []; reply] in
  exists c', context_get (sv_of_string "peer") (sv_of_string "key") c =
    (Throw (FunctionGetFailure "Received incorrect message!"), c') /\ worker_idle [reply] (cx_invoker c').
Proof.
  intros reply c. destruct fits_names as (Hp&Hk&_). destruct reply_says as [_ Hok]. destruct update_says as [Hu Huo].
  destruct (update_breaks_pending_get plain_send_reliable plain_receive_reliable plain_never_empty "peer" "key" ("peer", 1%Z)
    _ reply [] c (plain_worker_idle _ (List.Forall_cons _ _ _ Huo (List.Forall_cons _ _ _ Hok (List.Forall_nil _)))) Hp Hk Hu)
    as (q&c'&_&_&E&_&_&Hi).
  eauto.
Defined.

Lemma context_put_sends_witness :
  exists q c', context_put (sv_of_string "peer") (sv_of_string "key") (view_of plain_buffer) (plain_context []) = (Ret tt, c') /\
    frame_says q (IPut "peer" "key" false 3) [x01; x02; x03].
Proof.
  destruct fits_names as (Hp&Hk&_).
  pose proof (context_put_sends plain_send_reliable "peer" "key" (view_of plain_buffer) [x01; x02; x03] []
    (plain_context []) (plain_worker_idle [] (List.Forall_nil _)) Hp Hk (plain_shows []) three_bytes) as Hput.
  rewrite decide_True in Hput by (left; reflexivity). destruct Hput as (q&c'&E&_&_&Hq). eauto.
Defined.

Lemma context_invoke_requests_witness :
  let c := plain_context [wire_frame (IResult "id" 3 0) [x01; x02; x03]] in
  exists q r c', context_invoke (sv_of_string "peer") (sv_of_string "f") (sv_of_string "id") (view_of plain_buffer) c = (Ret r, c') /\
    sent_more [q] (cx_invoker c) (cx_invoker c') /\ rres_return_code r = 0%Z /\ user_sees c' (rres_payload r) [x01; x02; x03].
Proof.
  intros c. destruct fits_names as (_&_&Hf&Hp&Hid). destruct result_says as [Hs Hok].
  destruct (context_invoke_requests plain_send_reliable plain_receive_reliable plain_never_empty "peer" "f" "id"
    (view_of plain_buffer) [x01; x02; x03] "id" 3 0 [x01; x02; x03] _ [] c
    (plain_worker_idle _ (List.Forall_cons _ _ _ Hok (List.Forall_nil _))) Hp Hf Hid (plain_shows _) three_bytes Hs)
    as (out&r&c'&E&Hsent&Hlen&_&_&Hr).
  change (length (buffers_at (rb_ptr (view_of plain_buffer)) c)) with 1 in *.
  rewrite decide_False in Hr by done. destruct Hr as [_ Hr]. rewrite decide_True in Hr by done. destruct Hr as (v&->&Hv).
  destruct out as [|q [|]]; try discriminate Hlen. eexists q, _, c'. split; [exact E|]. auto.
Defined.

Lemma output_view_dangles_witness :
  let c := plain_context [] in
  exists c' c2, next_invocation (view_of plain_buffer) "id-2" c = (Ret tt, c') /\
    write_output [x01] 0 c' = (Ret tt, c2) /\ as_buffer c2 = (Undef, c2).
Proof.
  intros c.
  destruct (output_view_dangles c plain_buffer 1 "id-2" (plain_context_ok []) ltac:(left) eq_refl) as (c'&E&_&_&Hw).
  exists c'. destruct (write_output [x01] 0 c') as [r c2] eqn:Ew. exists c2. split; [exact E|].
  assert (r = Ret tt) as ->.
  { revert Ew. injection E as <-. vm_compute. now intros [= <- _]. }
  split; [reflexivity|]. exact (Hw [x01] 0%Z c2 ltac:(discriminate) ltac:(lia) Ew).
Defined.
End concrete.
