(* ===== verification/Objects.v ===== *)
(** * Objects: C++ objects in the buffers of a function

    [runtime/buffer.hpp] and [internal/state.hpp]: a function writes an object
    into one of its buffers and reads one back, in the binary format of the
    cereal library.  The format is a class: the bytes of an object, what a stream
    of limited room takes of them, and the reading.  A buffer is a view of an
    array of the heap of Context.v, or of the input of the invocation.

    An object that fits its buffer can be read back from the view
    ([object_roundtrip]); one that does not fit is not reported
    ([object_too_large]). *)

From S2P Require Import Prelude Memory IpcMessages Buffers Channel Application Functions WorkQueue Invoker Context Requests.

(** cereal's binary archives over an object of type [Obj]: its bytes, what becomes
    of them in a stream over [room] bytes of memory - the bytes written, and
    whether the archive did not throw - and the object that bytes begin with *)
Class Cereal (Obj : Type) : Type := {
  archived : Obj -> list byte;
  archive_write : Obj -> nat -> list byte * bool;
  archive_read : list byte -> option Obj;
}.
(** An object that fits is written whole, one that does not makes the archive throw
    before the memory ends; and what was written is read back, whatever follows it. *)
Class CerealLaws {Obj : Type} (C : Cereal Obj) : Prop := {
  archive_write_fits o room : length (archived o) <= room -> archive_write o room = (archived o, true);
  archive_write_full o room : room < length (archived o) ->
    (archive_write o room).2 = false /\ length (archive_write o room).1 <= room;
  archive_read_write o rest : archive_read (archived o ++ rest) = Some o;
}.

(** ** Views *)
Section views.
Context `{Allocator} `{PosixMQ}.

(** [Buffer::str] *)
Definition rb_str (v : RBuffer) : M RContext (list byte) :=
  acc ← accessor (rb_ptr v) (rb_len v); mret (accessor_data acc).

(** writing through a pointer *)
Definition write_memory (off : Z) (bs mem : list byte) : option (list byte) :=
  if decide (0 <= off)%Z then match checked_write (Z.to_nat off) bs mem with Ret mem' => Some mem' | _ => None end else None.
Definition store_bytes (p : pointer) (bs : list byte) : M RContext unit := fun c =>
  match p with
  | NullPtr => (match bs with [] => Ret tt | _ => Undef end, c)
  | Ptr BInput off =>
      match buf_ptr (iv_input (cx_invoker c)) ≫= write_memory off bs with
      | Some mem => (Ret tt, set_cx_invoker (set_iv_input
          {| buf_ptr := Some mem; buf_size := buf_size (iv_input (cx_invoker c)); buf_len := buf_len (iv_input (cx_invoker c)) |}
          (cx_invoker c)) c)
      | None => (Undef, c)
      end
  | Ptr (BHeap l) off =>
      match cx_heap c !! l ≫= write_memory off bs with
      | Some mem => (Ret tt, set_cx_heap (<[l := mem]> (cx_heap c)) c)
      | None => (Undef, c)
      end
  end.

Context {Obj : Type} {C : Cereal Obj}.

(** [Buffer::serialize]: the length it returns, and the view with its new length.
    The exception of the archive is caught and printed. *)
Definition serialize (obj : Obj) (v : RBuffer) : M RContext (Z * RBuffer) :=
  let '(bs, written) := archive_write obj (Z.to_nat (rb_size v)) in
  store_bytes (rb_ptr v) bs ≫= fun _ =>
  let v' := if written then set_rb_len (Z.of_nat (length bs)) v else v in
  mret (rb_len v', v').

(** [Buffer::deserialize]: the stream is over the whole array, not over the length *)
Definition deserialize (v : RBuffer) : M RContext Obj :=
  acc ← accessor (rb_ptr v) (rb_size v);
  match archive_read (accessor_data acc) with
  | Some o => mret o
  | None => throw (StdException "Failed to read from input stream")
  end.
End views.

(** [StateKeys::serialize] and [StateKeys::deserialize]; the stream of the first
    grows, and a time is the number that is stored *)
Definition StateKeys_serialize {C : Cereal (list (string * Z))} (keys : list (string * Z)) : list byte := archived keys.
Definition StateKeys_deserialize {C : Cereal (list (string * Z))} (buffer : list byte) : option (list (string * Z)) :=
  archive_read buffer.
Definition cereal_keys {C : Cereal (list (string * Z))} : KeysArchive := {| deserialize_keys := StateKeys_deserialize |}.

(** ** Memory *)
Section memory.
Context `{Allocator} `{PosixMQ}.

(** [v] is a view of live memory, all of it *)
Definition view_live (c : RContext) (v : RBuffer) : Prop :=
  (0 <= rb_size v)%Z /\ exists mem, load c (rb_ptr v) = Some mem /\ (rb_size v <= Z.of_nat (length mem))%Z.

Lemma write_memory_at off bs mem :
  (0 <= off)%Z -> Z.to_nat off + length bs <= length mem ->
  write_memory off bs mem = Some (write_at (Z.to_nat off) bs mem).
Proof.
  intros Ho Hl. unfold write_memory. rewrite decide_True by done. unfold checked_write. now rewrite decide_True.
Qed.

(** what is at the pointer after a write *)
Lemma drop_write_at off bs mem : off + length bs <= length mem -> drop off (write_at off bs mem) = bs ++ drop (off + length bs) mem.
Proof.
  intros Hl. unfold write_at. rewrite drop_app_le by (rewrite length_take; lia).
  rewrite drop_ge by (rewrite length_take; lia). reflexivity.
Qed.

(** everything but the memory at [p] is the same *)
Definition same_but (p : pointer) (c c' : RContext) : Prop :=
  cx_output c' = cx_output c /\ cx_user_buffers c' = cx_user_buffers c /\ cx_output_buf_view c' = cx_output_buf_view c /\
  (forall l, (forall off, p <> Ptr (BHeap l) off) -> cx_heap c' !! l = cx_heap c !! l) /\
  iv_ipc_channel_read (cx_invoker c') = iv_ipc_channel_read (cx_invoker c) /\
  iv_ipc_channel_write (cx_invoker c') = iv_ipc_channel_write (cx_invoker c).

Lemma store_bytes_at p bs c mem :
  load c p = Some mem -> length bs <= length mem ->
  exists c', store_bytes p bs c = (Ret tt, c') /\ load c' p = Some (bs ++ drop (length bs) mem) /\
    same_but p c c'.
Proof.
  unfold same_but. destruct p as [|[|l] off]; [done| |]; cbn [load store_bytes].
  - destruct (buf_ptr (iv_input (cx_invoker c))) as [m|] eqn:Eb; [|done]. cbn. destruct (decide _) as [Ho|]; [|done].
    intros [= <-] Hl. rewrite length_drop in Hl. rewrite write_memory_at by lia. eexists. split; [reflexivity|]. cbn.
    rewrite decide_True by (rewrite length_write_at; lia). rewrite drop_write_at by lia. rewrite drop_drop. now split_and!.
  - destruct (cx_heap c !! l) as [m|] eqn:Eb; [|done]. cbn. destruct (decide _) as [Ho|]; [|done].
    intros [= <-] Hl. rewrite length_drop in Hl. rewrite write_memory_at by lia. eexists. split; [reflexivity|]. cbn.
    rewrite lookup_insert_eq. cbn. rewrite decide_True by (rewrite length_write_at; lia). rewrite drop_write_at by lia.
    rewrite drop_drop. split_and!; auto. intros l' Hne. rewrite lookup_insert_ne; [done|]. intros ->. exact (Hne off eq_refl).
Qed.

Lemma whole_accessor p n c mem :
  load c p = Some mem -> (0 <= n <= Z.of_nat (length mem))%Z ->
  exists acc, accessor p n c = (Ret acc, c) /\ accessor_data acc = take (Z.to_nat n) mem.
Proof.
  intros Hm Hn. unfold accessor. destruct (decide _) as [->|Hz].
  - eexists. split; [reflexivity|]. reflexivity.
  - rewrite Hm, decide_True by done. eexists. split; [reflexivity|]. unfold accessor_data. cbn.
    rewrite take_take. f_equal. lia.
Qed.

(** the memory of the view [v], all of it, is [bs] *)
Definition view_holds (c : RContext) (v : RBuffer) (bs : list byte) : Prop :=
  exists mem, load c (rb_ptr v) = Some mem /\ (0 <= rb_size v <= Z.of_nat (length mem))%Z /\ take (Z.to_nat (rb_size v)) mem = bs.

(** a received buffer with bytes is memory that begins with them *)
Lemma adopt_push_holds data c :
  buffer_ok data -> buffer_data data <> [] ->
  exists v c' rest, (b ← adopt data; push_user b) c = (Ret v, c') /\ user_sees c' v (buffer_data data) /\
    view_holds c' v (buffer_data data ++ rest) /\ cx_invoker c' = cx_invoker c.
Proof.
  intros Hok Hne. destruct (adopt_push_sees data c Hok) as (v&c'&E&Hu&Hi). exists v, c'.
  unfold buffer_data, buffer_ok in *. destruct (buf_ptr data) as [bs|] eqn:Eb; [|done].
  exists (drop (buf_len data) bs). split; [exact E|]. split; [exact Hu|]. split; [|exact Hi].
  unfold adopt in E. rewrite Eb in E. injection E as <- <-. exists bs. cbn. rewrite lookup_insert_eq. cbn.
  rewrite decide_True, drop_0 by lia. split; [done|]. split; [lia|]. rewrite Nat2Z.id, take_drop. apply take_ge. lia.
Qed.

Context {Obj : Type} {C : Cereal Obj} {laws : CerealLaws C}.

(** bytes of an object at the front of a view are the object *)
Lemma deserialize_front o v c rest : view_holds c v (archived o ++ rest) -> deserialize v c = (Ret o, c).
Proof.
  intros (mem&Hm&Hs&Ht). destruct (whole_accessor _ _ c mem Hm Hs) as (acc&E&Hacc). unfold deserialize.
  rewrite (M_bind_eq _ _ _ _ _ E), Hacc, Ht, archive_read_write. reflexivity.
Qed.

(** An object that fits its buffer: the view gets its length, shows its bytes, and
    gives it back - also when the array is longer and ends with other bytes; no
    other memory changes. *)
Theorem object_roundtrip o v c :
  view_live c v -> (Z.of_nat (length (archived o)) <= rb_size v)%Z ->
  exists c', let v' := set_rb_len (Z.of_nat (length (archived o))) v in
    serialize o v c = (Ret (Z.of_nat (length (archived o)), v'), c') /\ same_but (rb_ptr v) c c' /\
    view_shows c' v' (archived o) /\ view_live c' v' /\
    rb_str v' c' = (Ret (archived o), c') /\ deserialize v' c' = (Ret o, c').
Proof.
  intros (Hs&mem&Hm&Hlen) Hfit. destruct (store_bytes_at (rb_ptr v) (archived o) c mem Hm ltac:(lia)) as (c'&E&Hl&Hsame).
  exists c'. intros v'. set (mem' := archived o ++ drop (length (archived o)) mem) in *.
  assert (length mem' = length mem) as Hlen' by (unfold mem'; rewrite length_app, length_drop; lia).
  split_and!.
  - unfold serialize. rewrite (archive_write_fits o (Z.to_nat (rb_size v))) by lia. now rewrite (M_bind_eq _ _ _ _ _ E).
  - exact Hsame.
  - split; [done|]. right. cbn. rewrite Hl. cbn. unfold mem'. now rewrite take_app_length.
  - split; [exact Hs|]. exists mem'. cbn. split; [exact Hl|]. lia.
  - unfold rb_str. destruct (whole_accessor (rb_ptr v') (rb_len v') c' mem' Hl ltac:(cbn; lia)) as (acc&Ea&Hacc).
    rewrite (M_bind_eq _ _ _ _ _ Ea), Hacc. cbn. rewrite Nat2Z.id. unfold mem'. now rewrite take_app_length.
  - apply (deserialize_front o v' c' (take (Z.to_nat (rb_size v) - length (archived o)) (drop (length (archived o)) mem))).
    exists mem'. split; [exact Hl|]. cbn. split; [lia|]. unfold mem'. rewrite take_app_ge by lia. reflexivity.
Qed.

(** An object that does not fit: the length of the view and the result are the old
    length, as if nothing had been written, but the memory has changed. *)
Theorem object_too_large o v c :
  view_live c v -> (rb_size v < Z.of_nat (length (archived o)))%Z ->
  exists c' mem', serialize o v c = (Ret (rb_len v, v), c') /\ same_but (rb_ptr v) c c' /\
    load c' (rb_ptr v) = Some ((archive_write o (Z.to_nat (rb_size v))).1 ++ mem').
Proof.
  intros (Hs&mem&Hm&Hlen) Hbig. destruct (archive_write_full o (Z.to_nat (rb_size v)) ltac:(lia)) as [Hf Hb].
  destruct (archive_write o (Z.to_nat (rb_size v))) as [bs written] eqn:Ew. cbn in Hf, Hb. subst written.
  destruct (store_bytes_at (rb_ptr v) bs c mem Hm ltac:(lia)) as (c'&E&Hl&Hsame).
  exists c', (drop (length bs) mem). unfold serialize. rewrite Ew, (M_bind_eq _ _ _ _ _ E). now split_and!.
Qed.

End memory.

(** ** An archive *)

(** the binary digits of a number, a byte each, and a last byte *)
Fixpoint digits (p : positive) : list byte :=
  match p with xH => [x02] | xO p => x00 :: digits p | xI p => x01 :: digits p end.
Fixpoint from_digits (bs : list byte) : option positive :=
  match bs with
  | x00 :: bs => xO <$> from_digits bs
  | x01 :: bs => xI <$> from_digits bs
  | x02 :: _ => Some xH
  | _ => None
  end.
Lemma from_digits_app p rest : from_digits (digits p ++ rest) = Some p.
Proof. induction p as [p IH|p IH|]; cbn; now rewrite ?IH. Qed.

#[export] Instance plain_cereal {Obj} `{Countable Obj} : Cereal Obj | 10 := {|
  archived o := digits (encode o);
  archive_write o room := (take room (digits (encode o)), bool_decide (length (digits (encode o)) <= room));
  archive_read bs := from_digits bs ≫= decode;
|}.
#[export] Instance plain_cereal_laws {Obj} `{Countable Obj} : CerealLaws (plain_cereal (Obj := Obj)) | 10.
Proof.
  split; cbn.
  - intros o room Hl. rewrite take_ge by done. now rewrite bool_decide_eq_true_2.
  - intros o room Hl. split; [apply bool_decide_eq_false_2; lia|]. rewrite length_take. lia.
  - intros o rest. rewrite from_digits_app. apply decode_encode.
Qed.

Section concrete.
#[local] Existing Instance plain_mq | 0.
#[local] Existing Instance plain_laws | 0.

Lemma plain_live : view_live (plain_context []) (view_of plain_buffer).
Proof. split; [cbn; lia|]. exists [x01; x02; x03]. split; [reflexivity|cbn; lia]. Qed.

(** the number 3 takes three bytes, the number 7 four *)
Lemma object_roundtrip_witness :
  exists c', serialize 3 (view_of plain_buffer) (plain_context []) = (Ret (3%Z, view_of plain_buffer), c') /\
    deserialize (view_of plain_buffer) c' = (Ret 3, c').
Proof.
  destruct (object_roundtrip 3 (view_of plain_buffer) (plain_context []) plain_live ltac:(apply (bool_decide_unpack _); vm_compute; exact I))
    as (c'&E&_&_&_&_&Ed). exists c'. split; [exact E|exact Ed].
Defined.

Lemma object_too_large_witness :
  exists c' mem', serialize 7 (view_of plain_buffer) (plain_context []) = (Ret (3%Z, view_of plain_buffer), c') /\
    load c' (rb_ptr (view_of plain_buffer)) = Some ([x00; x00; x00] ++ mem').
Proof.
  destruct (object_too_large 7 (view_of plain_buffer) (plain_context []) plain_live ltac:(apply (bool_decide_unpack _); vm_compute; exact I))
    as (c'&mem'&E&_&El). exists c', mem'. split; [exact E|exact El].
Defined.
End concrete.
