(* ===== verification/WorkerMain.v ===== *)
(** * WorkerMain: the main loop of a worker process

    [process/invoker/cpp]: [FunctionsLibrary] ([functions.cpp]), which loads the
    functions of the process from shared libraries, and the loop of [main]
    ([cli.cpp]): take an invocation, run its function on the context, return
    the result.  The dynamic loader is class [DynamicLoader]; a loaded function
    is an arbitrary computation on the context.  The flag [ending] of [main] is
    set together with that of the invoker, by the signal handler. *)

From S2P Require Import Prelude Memory IpcMessages Buffers Channel Application Functions WorkQueue Invoker Context Requests.

Section worker.
Context `{Allocator} `{PosixMQ}.

(** [dlopen] and [dlsym]; none is a null pointer *)
Class DynamicLoader : Type := {
  library : Type;
  dlopen : string -> option library;
  dlsym : library -> string -> option (RInvocation -> M RContext Z);
}.
Context `{DynamicLoader}.

(** [FuncType] *)
Definition FuncType : Type := RInvocation -> M RContext Z.

Record FunctionsLibrary : Type := MkLibrary {
  fl_libraries : gmap string library;
  fl_functions : gmap string FuncType;
}.

Definition load_function (function_name library_name library_function : string) (fl : FunctionsLibrary)
    : bool * FunctionsLibrary :=
  let opened :=
    match fl_libraries fl !! library_name with
    | Some h => Some (h, fl)
    | None =>
        match dlopen library_name with
        | None => None
        | Some h => Some (h, {| fl_libraries := <[library_name := h]> (fl_libraries fl);
                                fl_functions := fl_functions fl |})
        end
    end in
  match opened with
  | None => (false, fl)
  | Some (h, fl) =>
      match dlsym h library_function with
      | None => (false, fl)
      | Some f => (true, {| fl_libraries := fl_libraries fl;
                            fl_functions := <[function_name := f]> (fl_functions fl) |})
      end
  end.

(** the constructor, after the table was read; a function that cannot be loaded
    is only logged *)
Definition FunctionsLibrary_ctor (func_db : Functions) : FunctionsLibrary :=
  foldl (fun fl '(name, f) => (load_function name (fn_module_name f) (fn_function_name f) fl).2)
    {| fl_libraries := ∅; fl_functions := ∅ |} (map_to_list func_db).

Definition library_function (fl : FunctionsLibrary) (name : string) : option FuncType := fl_functions fl !! name.

(** one round of the loop, after [poller] gave an invocation: whether it goes on *)
Definition serve_polled (poller : M Invoker (option RInvocation)) (fl : FunctionsLibrary) : M RContext bool :=
  invoc ← on_invoker poller;
  ending ← gets (fun c => iv_ending (cx_invoker c));
  match invoc with
  | None => mret false
  | Some invoc_value =>
      if (ending : bool) then mret false
      else
        match library_function fl (rinv_function_name invoc_value) with
        | None => mret true
        | Some func =>
            start_invocation (rinv_key invoc_value) ≫= fun _ =>
            ret ← func invoc_value;
            id ← gets cx_invoc_id;
            out ← as_buffer;
            on_invoker (invoker_finish (sv_of_string id) out ret) ≫= fun _ =>
            end_invocation ≫= fun _ =>
            mret true
        end
  end.
Definition serve_one (fuel : nat) (fl : FunctionsLibrary) : M RContext bool := serve_polled (poll fuel) fl.

(** [rounds] rounds *)
Fixpoint main_loop (rounds fuel : nat) (fl : FunctionsLibrary) : M RContext unit :=
  match rounds with
  | O => mret tt
  | S rounds' =>
      continue ← serve_one fuel fl;
      if (continue : bool) then main_loop rounds' fuel fl else mret tt
  end.
End worker.

(** ** The library of functions *)
Section library.
Context `{Allocator} `{PosixMQ} `{!DynamicLoader}.

(** what the loader finds for an entry of the table *)
Definition resolve (f : Function_) : option FuncType :=
  h ← dlopen (fn_module_name f); dlsym h (fn_function_name f).

(** a cached handle is the one the loader returns *)
Definition library_ok (fl : FunctionsLibrary) : Prop := forall n h, fl_libraries fl !! n = Some h -> dlopen n = Some h.

Lemma load_function_spec name f fl :
  library_ok fl ->
  let '(loaded, fl') := load_function name (fn_module_name f) (fn_function_name f) fl in
  library_ok fl' /\ loaded = bool_decide (is_Some (resolve f)) /\
  fl_functions fl' = match resolve f with Some g => <[name := g]> (fl_functions fl) | None => fl_functions fl end.
Proof.
  intros Hok. unfold load_function, resolve.
  assert (match fl_libraries fl !! fn_module_name f with Some h => dlopen (fn_module_name f) = Some h | None => True end) as Hc
    by (destruct (_ !! _) eqn:E; [now apply Hok|done]).
  destruct (fl_libraries fl !! fn_module_name f) as [h|]; [rewrite Hc|destruct (dlopen (fn_module_name f)) as [h|] eqn:Ed].
  3: { cbn. split_and!; auto. }
  all: cbn [mbind option_bind]; destruct (dlsym h (fn_function_name f)) as [g|]; cbn [fl_libraries fl_functions].
  all: split_and!; auto; try (symmetry; apply bool_decide_eq_true; eauto; fail); try (symmetry; apply bool_decide_eq_false; intros [? [=]]; fail).
  all: intros n h'; cbn [fl_libraries]; rewrite lookup_insert_Some; intros [[<- <-]|[_ Hl]]; auto.
Qed.

(** C37: the library holds, under every name of the function table, what the
    loader finds in the module of the entry under its function name, and
    nothing else: opening every module once and in any order changes nothing,
    and an entry that cannot be loaded has no effect on the others. *)
Theorem library_resolves_table (db : Functions) name :
  library_function (FunctionsLibrary_ctor db) name = db !! name ≫= resolve.
Proof.
  unfold FunctionsLibrary_ctor, library_function.
  assert (forall l fl, library_ok fl -> NoDup l.*1 ->
    fl_functions (foldl (fun fl '(name, f) => (load_function name (fn_module_name f) (fn_function_name f) fl).2) fl l) !! name =
    match (list_to_map l : gmap string Function_) !! name with Some f => match resolve f with Some g => Some g | None => fl_functions fl !! name end
    | None => fl_functions fl !! name end) as Hl.
  { induction l as [|[n f] l IH]; intros fl Hok Hn; [done|]. rewrite list_to_map_cons. cbn [foldl fmap list_fmap fst] in *.
    apply list.NoDup_cons in Hn as [Hn Hnd].
    pose proof (load_function_spec n f fl Hok) as Hs. destruct (load_function _ _ _ fl) as [b fl'].
    destruct Hs as (Hok'&_&Hf). cbn [snd]. rewrite (IH fl' Hok' Hnd), Hf.
    destruct (decide (n = name)) as [->|Hne].
    - rewrite lookup_insert_eq, not_elem_of_list_to_map_1 by done.
      destruct (resolve f); [now rewrite lookup_insert_eq|done].
    - rewrite lookup_insert_ne by done. destruct (resolve f); [rewrite lookup_insert_ne by done|]; done. }
  rewrite Hl.
  - rewrite list_to_map_to_list. destruct (db !! name) as [f|]; cbn; [|done]. now destruct (resolve f).
  - intros n h. cbn. done.
  - apply NoDup_fst_map_to_list.
Qed.
End library.

(** ** What a worker answers *)
Section answers.
Context `{Allocator} `{PosixMQLaws} `{KeysArchive} `{!DynamicLoader}.
Hypothesis mq_send_reliable : forall q m, exists q', mq_send q m = (true, q').
Hypothesis mq_receive_reliable : forall q q', mq_receive q <> (MqError, q').
Hypothesis never_empty : ~ ran_empty.

(** the worker waits for an invocation *)
Definition worker_waits (fs : list frame) (c : RContext) : Prop :=
  worker_idle fs (cx_invoker c) /\ buffer_ok (iv_input (cx_invoker c)) /\ iv_ending (cx_invoker c) = false /\ cx_ok c.

(** the round of the loop up to the call of the function *)
Lemma serve_one_polls fl us fus key fname pid ps f fs fuel c :
  worker_waits (fus ++ f :: fs) c -> Forall2 update_frame us fus ->
  frame_says f (IInvocation key fname pid (byte_lengths ps)) (concat ps) -> length us < fuel ->
  exists inv s1, rinv_key inv = key /\ rinv_function_name inv = fname /\
    mapM (view_bytes s1) (rinv_args inv) = Some ps /\ worker_waits fs (set_cx_invoker s1 c) /\
    to_controller s1 = to_controller (cx_invoker c) /\
    iv_app_status s1 = apply_updates (iv_app_status (cx_invoker c)) (update_of <$> us) /\
    serve_one fuel fl c =
      match library_function fl fname with
      | None => (Ret true, set_cx_invoker s1 c)
      | Some func =>
          (start_invocation key ≫= fun _ =>
           ret ← func inv;
           id ← gets cx_invoc_id;
           out ← as_buffer;
           on_invoker (invoker_finish (sv_of_string id) out ret) ≫= fun _ =>
           end_invocation ≫= fun _ =>
           mret true) (set_cx_invoker s1 c)
      end.
Proof.
  intros ([(rx&Hrx&Hi) Htx]&Hb&He&Hc) Hus Hf Hfuel.
  destruct (poll_returns_invocation mq_receive_reliable never_empty us fus key fname pid ps f fs fuel
    (cx_invoker c) rx He Hrx Hb Hi Hus Hf Hfuel) as (inv&s1&rx'&E&Hk&Hn&Hv&Happ&Hrx'&Hi'&Htx'&Hb'&He').
  exists inv, s1. split_and!; auto.
  - split_and!; auto.
    + split; [eauto|]. cbn. now rewrite Htx'.
    + now apply (cx_ok_same c).
  - unfold to_controller. now rewrite Htx'.
  - unfold serve_one, serve_polled.
    assert (on_invoker (poll fuel) c = (Ret (Some inv), set_cx_invoker s1 c)) as E1
      by (unfold on_invoker, zoom; now rewrite E).
    rewrite (M_bind_eq _ _ _ _ _ E1). erewrite M_bind_eq by reflexivity. cbn [cx_invoker set_cx_invoker]. rewrite He', Hn.
    destruct (library_function fl fname); [|done]. now rewrite Hk.
Qed.

(** what the loop makes of the next invocation *)
Lemma serve_one_answers fl us fus key fname pid ps f fs fuel c :
  worker_waits (fus ++ f :: fs) c -> Forall2 update_frame us fus -> ipc_fits IPC_ID_LENGTH key ->
  frame_says f (IInvocation key fname pid (byte_lengths ps)) (concat ps) -> length us < fuel ->
  match library_function fl fname with
  | None => exists c', serve_one fuel fl c = (Ret true, c') /\ worker_waits fs c' /\
      to_controller (cx_invoker c') = to_controller (cx_invoker c)
  | Some func => exists inv c1, rinv_key inv = key /\ rinv_function_name inv = fname /\
      mapM (view_bytes (cx_invoker c1)) (rinv_args inv) = Some ps /\ worker_waits fs c1 /\ cx_invoc_id c1 = key /\
      iv_app_status (cx_invoker c1) = apply_updates (iv_app_status (cx_invoker c)) (update_of <$> us) /\
      to_controller (cx_invoker c1) = to_controller (cx_invoker c) /\
      cx_heap c1 = cx_heap c /\ cx_output c1 = set_hb_len 0 (cx_output c) /\
      cx_output_buf_view c1 = set_rb_len 0 (cx_output_buf_view c) /\
      forall code c2 fs' out, func inv c1 = (Ret code, c2) -> worker_waits fs' c2 -> cx_invoc_id c2 = key ->
        i32_range code -> view_shows c2 (cx_output_buf_view c2) out -> i32_range (Z.of_nat (length out)) ->
        exists r c3, serve_one fuel fl c = (Ret true, c3) /\ sent_more [r] (cx_invoker c2) (cx_invoker c3) /\
          frame_says r (IResult key (Z.of_nat (length out)) code) out /\
          cx_user_buffers c3 = [] /\ worker_waits fs' c3
  end.
Proof.
  intros Hw Hus Hkey Hf Hfuel.
  destruct (serve_one_polls fl us fus key fname pid ps f fs fuel c Hw Hus Hf Hfuel)
    as (inv&s1&Hk&Hn&Hv&Hw1&Ht&Happ&E).
  destruct (library_function fl fname) as [func|]; [|eexists; split; [exact E|]; auto].
  set (c1 := set_cx_view (set_rb_len 0 (cx_output_buf_view c)) (set_cx_output (set_hb_len 0 (cx_output c))
               (set_cx_invoc_id key (set_cx_invoker s1 c)))).
  exists inv, c1. split_and!; auto.
  { destruct Hw1 as (Q1&Q2&Q3&Q4). split_and!; auto. now apply (cx_ok_same _ _ Q4). }
  intros code c2 fs' out Hfunc (Hi2&Hb2&He2&Hc2) Hid Hcode Hout Hr. rewrite E.
  rewrite (M_bind_eq (start_invocation key) _ _ tt c1 eq_refl), (M_bind_eq _ _ _ _ _ Hfunc).
  erewrite M_bind_eq by reflexivity. rewrite Hid.
  destruct (accessor_shows c2 _ out Hout) as (a&Ea&Ha).
  assert (as_buffer c2 = (Ret a, c2)) as Eas.
  { unfold as_buffer. rewrite (M_bind_eq get _ c2 c2 c2 eq_refl).
    destruct (decide (rb_ptr (cx_output_buf_view c2) = hb_data (cx_output c2))) as [He|_]; [now rewrite <-He|done]. }
  rewrite (M_bind_eq _ _ _ _ _ Eas).
  destruct (invoker_finish_spec mq_send_reliable key code a out fs' (cx_invoker c2) Hi2 Hkey Hcode Ha Hr)
    as (r&s3&E3&Hi3&Hs3&Hr3).
  assert (on_invoker (invoker_finish (sv_of_string key) a code) c2 = (Ret tt, set_cx_invoker s3 c2)) as E3'
    by (unfold on_invoker, zoom; now rewrite E3).
  rewrite (M_bind_eq _ _ _ _ _ E3').
  destruct (end_invocation_frees (set_cx_invoker s3 c2)) as (c4&E4&Hc4&Hu4&_&_&Hi4&_).
  { now apply (cx_ok_same c2). }
  rewrite (M_bind_eq _ _ _ _ _ E4). exists r, c4. destruct Hs3 as (S1&S2&S3&S4&S5).
  unfold worker_waits. rewrite Hi4. cbn [cx_invoker set_cx_invoker]. rewrite S3, S5.
  split_and!; auto. unfold sent_more. auto.
Qed.
(** C14: a worker answers every invocation of a function it could load, and no
    other: after the updates of the application ahead of it, the function is
    called with the key, the name and the bytes of every payload, on an empty
    output; when it returns, whatever it did to its context and its queues, exactly one message
    goes to the controller, the result of this invocation with its code and the
    bytes its output view shows; its buffers are freed, and the worker waits for
    the next one.  An invocation of a function that could not be loaded is
    dropped: nothing is ever sent to the controller about it. *)
Theorem worker_answers_invocation fl us fus key fname pid ps f fs fuel c :
  worker_waits (fus ++ f :: fs) c -> Forall2 update_frame us fus -> ipc_fits IPC_ID_LENGTH key ->
  frame_says f (IInvocation key fname pid (byte_lengths ps)) (concat ps) -> length us < fuel ->
  match library_function fl fname with
  | None => exists c', serve_one fuel fl c = (Ret true, c') /\ worker_waits fs c' /\
      to_controller (cx_invoker c') = to_controller (cx_invoker c)
  | Some func => exists inv c1, rinv_key inv = key /\ rinv_function_name inv = fname /\
      mapM (view_bytes (cx_invoker c1)) (rinv_args inv) = Some ps /\ worker_waits fs c1 /\ cx_invoc_id c1 = key /\
      iv_app_status (cx_invoker c1) = apply_updates (iv_app_status (cx_invoker c)) (update_of <$> us) /\
      to_controller (cx_invoker c1) = to_controller (cx_invoker c) /\
      cx_heap c1 = cx_heap c /\ cx_output c1 = set_hb_len 0 (cx_output c) /\
      cx_output_buf_view c1 = set_rb_len 0 (cx_output_buf_view c) /\
      forall code c2 fs' out, func inv c1 = (Ret code, c2) -> worker_waits fs' c2 -> cx_invoc_id c2 = key ->
        i32_range code -> view_shows c2 (cx_output_buf_view c2) out -> i32_range (Z.of_nat (length out)) ->
        exists r c3, serve_one fuel fl c = (Ret true, c3) /\ sent_more [r] (cx_invoker c2) (cx_invoker c3) /\
          frame_says r (IResult key (Z.of_nat (length out)) code) out /\
          cx_user_buffers c3 = [] /\ worker_waits fs' c3
  end.
Proof. apply serve_one_answers. Qed.
End answers.

(** ** A worker with one function *)
Section concrete.
#[local] Existing Instance plain_mq | 0.
#[local] Existing Instance plain_laws | 0.

(** a library whose functions write one byte *)
#[local] Instance one_library : DynamicLoader | 0 := {|
  library := unit;
  dlopen path := if String.eqb path "libf.so" then Some tt else None;
  dlsym _ _ := Some (fun _ => write_output [x07] 0 ≫= fun _ => mret 0%Z);
|}.

Definition plain_library : FunctionsLibrary := FunctionsLibrary_ctor
  {["f" := {| fn_trigger := DirectTrigger "f"; fn_module_name := "libf.so"; fn_function_name := "f" |};
    "g" := {| fn_trigger := DirectTrigger "g"; fn_module_name := "libg.so"; fn_function_name := "g" |}]}.

Lemma request_says fname :
  ipc_fits IPC_NAME_LENGTH fname ->
  let w := IInvocation "id" fname "" (byte_lengths [[x01; x02; x03]]) in
  frame_says (wire_frame w [x01; x02; x03]) w (concat [[x01; x02; x03]]) /\ frame_ok (wire_frame w [x01; x02; x03]).
Proof.
  intros Hf w. apply wire_frame_says; [|apply three_bytes]. destruct fits_names as (_&_&_&_&Hid).
  unfold w. cbn. split_and!; auto.
  - split; apply (bool_decide_unpack _); vm_compute; exact I.
  - unfold BUFFERS_CAPACITY. vm_compute. lia.
  - constructor; [unfold i32_range; lia|constructor].
Qed.

Lemma plain_waits fs : Forall frame_ok fs -> worker_waits fs (plain_context fs).
Proof. intros Hfs. split_and!; [now apply plain_worker_idle|cbn; lia|done|apply plain_context_ok]. Qed.

(** one byte of output, in a context whose invocation has just begun *)
Lemma write_one fs c1 :
  let c := plain_context fs in cx_ok c1 -> cx_heap c1 = cx_heap c -> cx_output c1 = set_hb_len 0 (cx_output c) ->
  cx_output_buf_view c1 = set_rb_len 0 (cx_output_buf_view c) ->
  exists c2, write_output [x07] 0 c1 = (Ret tt, c2) /\ cx_invoker c2 = cx_invoker c1 /\ cx_invoc_id c2 = cx_invoc_id c1 /\
    cx_ok c2 /\ view_shows c2 (cx_output_buf_view c2) [x07].
Proof.
  intros c Hok Hh Ho Hv. destruct (write_output [x07] 0 c1) as [r c2] eqn:E.
  pose proof (keeps_write_output [x07] 0 c1 r c2 Hok E) as Hkeep. exists c2. revert E. unfold write_output.
  rewrite Ho, Hh, Hv. cbn. intros [= <- <-]. split_and!; auto. split; [reflexivity|]. right. cbn. reflexivity.
Qed.

Lemma worker_answers_invocation_witness :
  let c := plain_context [wire_frame (IInvocation "id" "f" "" [3%Z]) [x01; x02; x03]] in
  (exists r c', serve_one 1 plain_library c = (Ret true, c') /\ to_controller (cx_invoker c') = frame_wire r /\
    frame_says r (IResult "id" 1 0) [x07]) /\
  let c := plain_context [wire_frame (IInvocation "id" "g" "" [3%Z]) [x01; x02; x03]] in
  exists c', serve_one 1 plain_library c = (Ret true, c') /\ to_controller (cx_invoker c') = [].
Proof.
  destruct fits_names as (_&_&Hf&_&Hid). split.
  - destruct (request_says "f" Hf) as [Hs Hok].
    set (c := plain_context _).
    pose proof (worker_answers_invocation plain_send_reliable plain_receive_reliable plain_never_empty plain_library [] []
      "id" "f" "" [[x01; x02; x03]] _ [] 1 c (plain_waits _ (List.Forall_cons _ _ _ Hok (List.Forall_nil _)))
      (Forall2_nil _) Hid Hs ltac:(cbn; lia)) as Ha.
    assert (library_function plain_library "f" = Some (fun _ => write_output [x07] 0 ≫= fun _ => mret 0%Z)) as Hl
      by (vm_compute; reflexivity).
    rewrite Hl in Ha. destruct Ha as (inv&c1&_&_&_&Hw&Hk&_&Hto&Hh&Ho&Hv&Hans).
    destruct (write_one _ c1 (proj2 (proj2 (proj2 Hw))) Hh Ho Hv) as (c2&E2&Hi2&Hk2&Hc2&Hs2).
    destruct (Hans 0%Z c2 [] [x07]) as (r&c3&E3&Hsent&Hr&_).
    + now rewrite (M_bind_eq _ _ _ _ _ E2).
    + unfold worker_waits. rewrite Hi2. destruct Hw as (?&?&?&_). auto.
    + congruence.
    + unfold i32_range. lia.
    + exact Hs2.
    + unfold i32_range. cbn. lia.
    + exists r, c3. split; [exact E3|]. split; [|exact Hr].
      destruct Hsent as (_&Ht&_). rewrite Ht, Hi2, Hto. cbn. now rewrite app_nil_r.
  - destruct (request_says "g") as [Hs Hok]; [split; apply (bool_decide_unpack _); vm_compute; exact I|].
    set (c := plain_context _).
    pose proof (worker_answers_invocation plain_send_reliable plain_receive_reliable plain_never_empty plain_library [] []
      "id" "g" "" [[x01; x02; x03]] _ [] 1 c (plain_waits _ (List.Forall_cons _ _ _ Hok (List.Forall_nil _)))
      (Forall2_nil _) Hid Hs ltac:(cbn; lia)) as Ha.
    assert (library_function plain_library "g" = None) as Hl by (vm_compute; reflexivity).
    rewrite Hl in Ha. destruct Ha as (c'&E&_&Ht). exists c'. split; [exact E|exact Ht].
Defined.
End concrete.
