(* ===== verification/Serving.v ===== *)
(** * Serving: the local serving of processes as Docker containers

    [serving/src/server.cpp] and [containers.cpp]: an HTTP server that creates
    and stops containers for the control plane's Docker back end.  A handler
    sends a request to the Docker daemon and answers its client in the callback
    of the reply, or sends the next request from there; the requests that wait
    for a reply are kept with what their callback holds on to.  Callbacks run
    one at a time on the event loop; replies come in any order. *)

From S2P Require Import Prelude Http.
From stdpp Require Import pretty.
From Stdlib Require Import Ascii.

(** ** Containers *)
Record SProcess : Type := MkSProcess { sp_process_id : string; sp_container_id : string }.
Definition SProcess_empty : SProcess := {| sp_process_id := EmptyString; sp_container_id := EmptyString |}.
(** the concurrent table: every operation is atomic *)
Abbreviation Processes := (gmap string SProcess) (only parsing).

Definition processes_add (id : string) (proc : SProcess) (t : Processes) : outcome Processes :=
  match t !! id with None => Ret (<[id := proc]> t) | Some _ => Throw (ObjectExists id) end.
Definition processes_get (id : string) (t : Processes) : option SProcess := t !! id.
Definition processes_erase (id : string) (t : Processes) : bool * Processes :=
  (bool_decide (is_Some (t !! id)), delete id t).
(** [get_all]: the entries are moved out, and what is left of them is empty *)
Definition processes_get_all (t : Processes) : list SProcess * Processes :=
  (snd <$> map_to_list t, (fun _ => SProcess_empty) <$> t).

(** ** split *)

(** from position [prev] on.  Fuel: every round finds a delimiter behind [prev]. *)
Fixpoint split_loop (fuel : nat) (s delimiter : string) (prev : nat) : outcome (list string) :=
  match String.index prev delimiter s with
  | Some cur =>
      match fuel with
      | O => Undef
      | S fuel' =>
          rest ← split_loop fuel' s delimiter (cur + String.length delimiter);
          Ret (String.substring prev (cur - prev) s :: rest)
      end
  | None =>
      Ret (if 0 <? String.length s - prev then [String.substring prev (String.length s - prev) s] else [])
  end.
Definition split (s delimiter : string) : outcome (list string) :=
  split_loop (S (String.length s)) s delimiter 0.

(** ** The server *)

(** the callback of a client *)
Abbreviation sclient := nat (only parsing).

Section serving.
Context `{JsonCpp}.

Record SOptions : Type := MkSOptions {
  so_server_ip : string; so_docker_port : Z; so_process_port : Z;
}.

(** a request to the Docker daemon *)
Record DockerRequest : Type := MkDockerRequest {
  dr_path : string; dr_params : list (string * string); dr_body : option jvalue;
}.

(** what the callback of a request has captured; [k] is the client's callback *)
Inductive pending : Type :=
  | PCreate (k : sclient) (process : string)
  | PStart (k : sclient) (proc_name container_id : string)
  | PInspect (k : sclient) (proc_name container_id : string)
  | PStop (k : sclient) (process container_id : string)
  | PCache (k : sclient) (image : string)
  | PKill.

Record Serving : Type := MkServing {
  sv_opts : SOptions;
  sv_processes : Processes;
  sv_pending : list (DockerRequest * pending);
  sv_responses : list (sclient * HttpResponse);
}.

Definition set_sv_processes (t : Processes) (s : Serving) : Serving :=
  {| sv_opts := sv_opts s; sv_processes := t; sv_pending := sv_pending s; sv_responses := sv_responses s |}.
Definition set_sv_pending (l : list (DockerRequest * pending)) (s : Serving) : Serving :=
  {| sv_opts := sv_opts s; sv_processes := sv_processes s; sv_pending := l; sv_responses := sv_responses s |}.
Definition set_sv_responses (l : list (sclient * HttpResponse)) (s : Serving) : Serving :=
  {| sv_opts := sv_opts s; sv_processes := sv_processes s; sv_pending := sv_pending s; sv_responses := l |}.

(** [callback(response)], and a request with its callback *)
Definition answer (k : sclient) (r : HttpResponse) : M Serving unit :=
  modify (fun s => set_sv_responses (sv_responses s ++ [(k, r)]) s).
Definition docker_post (path : string) (params : list (string * string)) (body : option jvalue) (p : pending)
    : M Serving unit :=
  modify (fun s => set_sv_pending
    (sv_pending s ++ [({| dr_path := path; dr_params := params; dr_body := body |}, p)]) s).

Definition unknown_error : HttpResponse := failed_response "Unknown error! Response: {}".

(** [( *v)[a][b] ...], where a member of something else is an exception *)
Definition member (key : string) (v : jvalue) : outcome jvalue := json_lift (jget v key).
Definition element (i : nat) (v : jvalue) : outcome jvalue := json_lift (jat v i).
Definition text (v : jvalue) : outcome string := json_lift (as_string v).

(** [_inspect_container] *)
Definition inspect_container (proc_name container_id : string) (k : sclient) : M Serving unit :=
  docker_post ("/containers/" +:+ container_id +:+ "/json") [] None (PInspect k proc_name container_id).

Definition port_key (o : SOptions) : string := pretty (so_process_port o) +:+ "/tcp".

Definition inspected (proc_name container_id : string) (k : sclient) (response : HttpResponse) : M Serving unit :=
  if (hr_status response =? 200)%Z then
    o ← gets sv_opts;
    port ← lift (v ← json_object response; v ← member "NetworkSettings" v; v ← member "Ports" v;
                 v ← member (port_key o) v; v ← element 0 v; v ← member "HostPort" v;
                 s ← text v; stoi s);
    answer k (correct_response_value (jobject [
      ("status", jstring ("Container for process " +:+ proc_name +:+ " created."));
      ("container-id", jstring container_id); ("process-id", jstring proc_name);
      ("ip-address", jstring (so_server_ip o)); ("port", jint port)]))
  else answer k unknown_error.

(** [_start_container] *)
Definition start_container (proc_name container_id : string) (k : sclient) : M Serving unit :=
  docker_post ("/containers/" +:+ container_id +:+ "/start") [] None (PStart k proc_name container_id).

Definition started (proc_name container_id : string) (k : sclient) (response : HttpResponse) : M Serving unit :=
  if (hr_status response =? 404)%Z then
    answer k (failed_response ("Failure - container " +:+ container_id +:+ " for process " +:+ proc_name +:+
                               " no longer exists"))
  else if (hr_status response =? 204)%Z then
    t ← gets sv_processes;
    t' ← lift (processes_add proc_name {| sp_process_id := proc_name; sp_container_id := container_id |} t);
    modify (set_sv_processes t') ≫= fun _ =>
    inspect_container proc_name container_id k
  else answer k unknown_error.

(** [_configure_ports] *)
Definition configure_ports (o : SOptions) (body : list (string * jvalue)) : list (string * jvalue) :=
  let host_port := jobject [("HostIp", jstring "0.0.0.0")] in
  let bind_ports := jarray [host_port] in
  let host_config := jobject [("PortBindings", jobject [(port_key o, bind_ports)]); ("AutoRemove", jbool true)] in
  body ++ [("HostConfig", host_config); ("ExposedPorts", jobject [(port_key o, jnull)])].

(** [create]; [body] is the JSON object of the request *)
Definition create (process : string) (req_body : option jvalue) (k : sclient) : M Serving unit :=
  if decide (process = EmptyString) then answer k (failed_response "Missing arguments!")
  else match req_body with
  | None => answer k (failed_response "Missing body!")
  | Some v =>
      container_name_obj ← lift (member "container-name" v);
      controlplane_addr_obj ← lift (member "controlplane-address" v);
      if is_null container_name_obj || is_null controlplane_addr_obj
      then answer k (failed_response "Missing arguments in request body!")
      else
        container_name ← lift (text container_name_obj);
        controlplane_addr ← lift (text controlplane_addr_obj);
        o ← gets sv_opts;
        let env := jarray [jstring ("CONTROLPLANE_ADDR=" +:+ controlplane_addr); jstring ("PROCESS_ID=" +:+ process)] in
        docker_post "/containers/create" [("name", process)]
          (Some (jobject (configure_ports o [("Image", jstring container_name); ("Env", env)]))) (PCreate k process)
  end.

Definition created (process : string) (k : sclient) (response : HttpResponse) : M Serving unit :=
  if (hr_status response =? 409)%Z then
    answer k (failed_response ("Container for process " +:+ process +:+ " already exists"))
  else if (hr_status response =? 201)%Z then
    container_id ← lift (v ← json_object response; v ← member "Id" v; text v);
    start_container process container_id k
  else answer k unknown_error.

(** [kill].  Without an entry for the process the client is answered, but the
    function goes on with the empty accessor. *)
Definition kill (process : string) (k : sclient) : M Serving unit :=
  t ← gets sv_processes;
  match processes_get process t with
  | None =>
      answer k (setStatusCode 404 (failed_response ("Container for process " +:+ process +:+ " does not exist!"))) ≫= fun _ =>
      undef
  | Some p =>
      docker_post ("/containers/" +:+ sp_container_id p +:+ "/stop") [("signal", "SIGINT")] None
        (PStop k process (sp_container_id p))
  end.

Definition stopped (process container_id : string) (k : sclient) (response : HttpResponse) : M Serving unit :=
  if (hr_status response =? 404)%Z then
    answer k (failed_response ("Failure - container " +:+ container_id +:+ " for process " +:+ process +:+
                               " does not exist"))
  else if (hr_status response =? 204)%Z then
    t ← gets sv_processes;
    modify (set_sv_processes (processes_erase process t).2) ≫= fun _ =>
    answer k (correct_response ("Container for process " +:+ process +:+ " removed."))
  else answer k unknown_error.

(** [_kill_all] *)
Definition kill_all : M Serving unit :=
  t ← gets sv_processes;
  let '(processes, t') := processes_get_all t in
  modify (set_sv_processes t') ≫= fun _ =>
  for_each (fun p => docker_post ("/containers/" +:+ sp_container_id p +:+ "/stop") [("signal", "SIGINT")] None PKill)
    processes.

(** [cache_image] *)
Definition cache_image (image : string) (k : sclient) : M Serving unit :=
  docker_post "/images/create" [("fromImage", image)] None (PCache k image).

(** the last line of the reply decides: status and text of the answer *)
Definition cache_status (last_line : string) : outcome (Z * jvalue) :=
  match jparse last_line with
  | Some val =>
      status ← member "status" val; status_text ← text status;
      if contains "Image is up to date" status_text then Ret (200%Z, status)
      else
        message ← member "message" val; message_text ← text message;
        if contains "manifest unknown" message_text then Ret (404%Z, message) else Ret (500%Z, message)
  | None => Ret (500%Z, jstring "Couldn't parse the output JSON! JSON: {}")
  end.

Definition cached (image : string) (k : sclient) (response : HttpResponse) : M Serving unit :=
  strings ← lift (split (hr_body response) (String (ascii_of_nat 10) EmptyString));
  match list.last strings with
  | None => undef
  | Some line =>
      r ← lift (cache_status line);
      answer k (setStatusCode r.1 (newHttpJsonResponse (jobject [("image", jstring image); ("status", r.2)])))
  end.

(** the callback of a request; the reply is null when the request failed *)
Definition run_pending (p : pending) (response : option HttpResponse) : M Serving unit :=
  match p, response with
  | PKill, _ => mret tt
  | _, None => undef
  | PCreate k process, Some r => created process k r
  | PStart k proc_name container_id, Some r => started proc_name container_id k r
  | PInspect k proc_name container_id, Some r => inspected proc_name container_id k r
  | PStop k process container_id, Some r => stopped process container_id k r
  | PCache k image, Some r => cached image k r
  end.

(** the reply to request number [i] *)
Definition docker_replied (i : nat) (response : option HttpResponse) : M Serving unit :=
  l ← gets sv_pending;
  match l !! i with
  | None => mret tt
  | Some (_, p) => modify (set_sv_pending (delete i l)) ≫= fun _ => run_pending p response
  end.

Definition Serving_ctor (o : SOptions) : Serving :=
  {| sv_opts := o; sv_processes := ∅; sv_pending := []; sv_responses := [] |}.

(** what happens to the server *)
Inductive sv_event : Type :=
  | EvHttpCreate (k : sclient) (process : string) (body : option jvalue)
  | EvHttpKill (k : sclient) (process : string)
  | EvHttpCache (k : sclient) (image : string)
  | EvReply (i : nat) (response : option HttpResponse).

Definition sv_handle (e : sv_event) : M Serving unit :=
  match e with
  | EvHttpCreate k process body => create process body k
  | EvHttpKill k process => kill process k
  | EvHttpCache k image => cache_image image k
  | EvReply i response => docker_replied i response
  end.
End serving.

(** ** Lines

    What [split] should give for a delimiter of one character. *)
Fixpoint lines (c : ascii) (s : string) : list string :=
  match s with
  | EmptyString => []
  | String a s' =>
      if decide (a = c) then EmptyString :: lines c s'
      else match lines c s' with
           | [] => [String a EmptyString]
           | l :: ls => String a l :: ls
           end
  end.

(** the text from position [n] on *)
Fixpoint sdrop (n : nat) (s : string) : string :=
  match n, s with
  | O, _ => s
  | S _, EmptyString => EmptyString
  | S n', String _ s' => sdrop n' s'
  end.

Lemma sdrop_length n s : String.length (sdrop n s) = String.length s - n.
Proof. revert s. induction n as [|n IH]; intros [|a s]; cbn; auto; lia. Qed.

Lemma sdrop_add n m s : sdrop (n + m) s = sdrop m (sdrop n s).
Proof. revert s. induction n as [|n IH]; intros [|a s]; cbn; auto. now destruct m. Qed.

Lemma substring_sdrop n m s : String.substring n m s = String.substring 0 m (sdrop n s).
Proof. revert s. induction n as [|n IH]; intros [|a s]; cbn; auto; now destruct m. Qed.

Lemma substring_full s : String.substring 0 (String.length s) s = s.
Proof. induction s as [|a s IH]; cbn; [done|]. now rewrite IH. Qed.

Lemma index_sdrop n d s : d <> EmptyString -> String.index n d s = (Nat.add n) <$> String.index 0 d (sdrop n s).
Proof.
  intros Hd. revert s. induction n as [|n IH]; intros s.
  - cbn [sdrop]. destruct (String.index 0 d s); done.
  - destruct s as [|a s]; cbn [String.index sdrop].
    + destruct d; [done|]. reflexivity.
    + rewrite IH. now destruct (String.index 0 d (sdrop n s)).
Qed.

(** the first line ends at the first delimiter *)
Lemma lines_index c s :
  match String.index 0 (String c EmptyString) s with
  | Some k => k < String.length s /\ lines c s = String.substring 0 k s :: lines c (sdrop (S k) s)
  | None => lines c s = if 0 <? String.length s then [s] else []
  end.
Proof.
  induction s as [|a s IH]; [reflexivity|]. cbn [String.index String.prefix lines].
  destruct (ascii_dec c a) as [->|Hne].
  - destruct s; rewrite decide_True by done; (split; [cbn; lia|reflexivity]).
  - rewrite decide_False by congruence.
    destruct (String.index 0 (String c "") s) as [k|] eqn:E.
    + destruct IH as [Hk ->]. split; [cbn; lia|]. reflexivity.
    + rewrite IH. destruct s as [|b s]; reflexivity.
Qed.

Lemma split_loop_lines c s fuel : forall prev,
  prev <= String.length s -> String.length s - prev < fuel ->
  split_loop fuel s (String c EmptyString) prev = Ret (lines c (sdrop prev s)).
Proof.
  induction fuel as [|fuel IH]; intros prev Hp Hf; [lia|]. cbn [split_loop].
  rewrite index_sdrop by done. pose proof (lines_index c (sdrop prev s)) as Hl.
  destruct (String.index 0 _ (sdrop prev s)) as [k|]; cbn [fmap option_fmap option_map].
  - destruct Hl as [Hk ->]. rewrite sdrop_length in Hk. cbn [String.length].
    rewrite IH by lia. unfold mbind, outcome_bind. rewrite substring_sdrop.
    replace (prev + k - prev) with k by lia. replace (prev + k + 1) with (prev + S k) by lia. now rewrite sdrop_add.
  - rewrite Hl, sdrop_length. rewrite substring_sdrop, <-sdrop_length, substring_full. reflexivity.
Qed.

Lemma split_loop_lines_all c s : split s (String c EmptyString) = Ret (lines c s).
Proof. unfold split. rewrite split_loop_lines by lia. reflexivity. Qed.

(** [split] terminates, and for the delimiter it is called with it gives
    the lines of the text: every character but the delimiters, in order, cut at
    every delimiter, without an empty line for a delimiter at the end. *)
Theorem split_lines c s : split s (String c EmptyString) = Ret (lines c s).
Proof. apply split_loop_lines_all. Qed.

(** ** The clients *)
Section clients.
Context `{JsonCpp}.

(** the client a pending request will answer *)
Definition pending_client (p : pending) : option sclient :=
  match p with
  | PCreate k _ | PStart k _ _ | PInspect k _ _ | PStop k _ _ | PCache k _ => Some k
  | PKill => None
  end.

Definition waiting (s : Serving) : list sclient := omap (fun x => pending_client x.2) (sv_pending s).
Definition answered (s : Serving) : list sclient := (sv_responses s).*1.

(** no client is answered, or waits, twice; an entry of the table carries its name *)
Record sv_ok (s : Serving) : Prop := {
  sv_once : NoDup (waiting s ++ answered s);
  sv_named : forall id p, sv_processes s !! id = Some p -> sp_process_id p = id;
}.

(** what the callback for [k] may do: answer [k], or hand it on to one more
    request *)
Definition serves (k : sclient) (s s' : Serving) : Prop :=
  (waiting s' = waiting s /\ (answered s' = answered s \/ answered s' = answered s ++ [k]) \/
   waiting s' = waiting s ++ [k] /\ answered s' = answered s) /\
  ((forall id p, sv_processes s !! id = Some p -> sp_process_id p = id) ->
   forall id p, sv_processes s' !! id = Some p -> sp_process_id p = id).

Definition serving_for (k : sclient) (m : M Serving unit) : Prop := forall s r s', m s = (r, s') -> serves k s s'.

Lemma serves_refl k s : serves k s s.
Proof. split; auto. Qed.

Lemma serving_answer k r : serving_for k (answer k r).
Proof.
  intros s o s' [= <- <-]. split; [left; split; [done|right]|done]. unfold answered. cbn. now rewrite fmap_app.
Qed.

Lemma serving_post k path params body p : pending_client p = Some k -> serving_for k (docker_post path params body p).
Proof.
  intros Hp s o s' [= <- <-]. split; [right; split; [|done]|done]. unfold waiting. cbn. rewrite omap_app. cbn. now rewrite Hp.
Qed.

Lemma serving_lift {A} k (m : outcome A) f : (forall a, serving_for k (f a)) -> serving_for k (lift m ≫= f).
Proof.
  intros Hf s r s'. unfold mbind, M_bind, lift. destruct m; [apply Hf|intros [= <- <-]; apply serves_refl..].
Qed.

Lemma serving_gets {A} k (g : Serving -> A) f : (forall a, serving_for k (f a)) -> serving_for k (gets g ≫= f).
Proof. intros Hf s r s'. apply Hf. Qed.

Lemma serving_table k t m :
  serving_for k m ->
  forall s r s', (modify (set_sv_processes t) ≫= fun _ => m) s = (r, s') ->
    ((forall id p, sv_processes s !! id = Some p -> sp_process_id p = id) ->
     forall id p, t !! id = Some p -> sp_process_id p = id) -> serves k s s'.
Proof.
  intros Hm s r s' E Ht. unfold mbind, M_bind, modify in E. apply Hm in E as [H1 H2]. split; [exact H1|].
  intros Hs. exact (H2 (Ht Hs)).
Qed.

Ltac serve := repeat first
  [ apply serving_lift; intros ? | apply serving_gets; intros ?
  | match goal with
    | |- serving_for _ (answer _ _) => apply serving_answer
    | |- serving_for _ (docker_post _ _ _ _) => apply serving_post; done
    | |- serving_for _ (if ?b then _ else _) => destruct b
    | |- serving_for _ (match ?x with _ => _ end) => destruct x
    end
  | intros ? ? ? [= <- <-]; apply serves_refl ].

Lemma serving_created process k r : serving_for k (created process k r).
Proof. unfold created, start_container. serve. Qed.

Lemma serving_inspected name id k r : serving_for k (inspected name id k r).
Proof. unfold inspected. serve. Qed.

Lemma serving_started name id k r : serving_for k (started name id k r).
Proof.
  unfold started. destruct (_ =? _)%Z; [apply serving_answer|]. destruct (_ =? _)%Z; [|apply serving_answer].
  intros s o s' E. unfold gets in E. unfold mbind at 1, M_bind at 1 in E.
  unfold processes_add in E. destruct (sv_processes s !! name) as [q|] eqn:En.
  - injection E as <- <-. apply serves_refl.
  - erewrite M_bind_eq in E by reflexivity. eapply serving_table; [|exact E|].
    + apply serving_post. done.
    + intros Hs i p. rewrite lookup_insert_Some. intros [[<- <-]|[_ Hp]]; [done|exact (Hs i p Hp)].
Qed.

Lemma serving_stopped name id k r : serving_for k (stopped name id k r).
Proof.
  unfold stopped. destruct (_ =? _)%Z; [apply serving_answer|]. destruct (_ =? _)%Z; [|apply serving_answer].
  intros s o s' E. unfold gets in E. unfold mbind at 1, M_bind at 1 in E.
  eapply serving_table; [|exact E|]; [apply serving_answer|].
  intros Hs i p. cbn. rewrite lookup_delete_Some. intros [_ Hp]. exact (Hs i p Hp).
Qed.

Lemma serving_cached image k r : serving_for k (cached image k r).
Proof.
  unfold cached. apply serving_lift. intros strings. destruct (list.last strings) as [line|].
  - apply serving_lift. intros r'. apply serving_answer.
  - intros s o s' [= <- <-]. apply serves_refl.
Qed.

Lemma serving_create process body k : serving_for k (create process body k).
Proof. unfold create. serve. Qed.

Lemma serving_kill process k : serving_for k (kill process k).
Proof.
  unfold kill. apply serving_gets. intros t. destruct (processes_get process t); [now apply serving_post|].
  intros s o s' [= <- <-]. eapply serving_answer. reflexivity.
Qed.

(** the callback of a pending request serves the client it captured *)
Lemma run_pending_serves p r s o s' :
  run_pending p r s = (o, s') ->
  match pending_client p with Some k => serves k s s' | None => s' = s end.
Proof.
  destruct p as [k process|k name id|k name id|k process id|k image|]; destruct r as [r|]; cbn [run_pending pending_client];
    try (intros [= <- <-]; (apply serves_refl || done)).
  - apply serving_created.
  - apply serving_started.
  - apply serving_inspected.
  - apply serving_stopped.
  - apply serving_cached.
Qed.

(** serving a client that neither waits nor was answered keeps the order *)
Lemma serves_ok k s s' : serves k s s' -> sv_ok s -> k ∉ waiting s ++ answered s -> sv_ok s'.
Proof.
  intros [Hc Hn] [Ho Hm] Hk. split; [|now apply Hn].
  destruct Hc as [[-> [->| ->]]|[-> ->]]; [done| |].
  - rewrite app_assoc. apply list.NoDup_app. split; [done|]. split; [|apply NoDup_singleton].
    intros x Hx ->%list_elem_of_singleton. done.
  - rewrite <-app_assoc, (Permutation_app_comm [k]), app_assoc. apply list.NoDup_app. split; [done|]. split; [|apply NoDup_singleton].
    intros x Hx ->%list_elem_of_singleton. done.
Qed.

Lemma omap_delete {A B} (f : A -> option B) l i x :
  l !! i = Some x -> omap f l ≡ₚ (match f x with Some y => [y] | None => [] end) ++ omap f (delete i l).
Proof.
  revert i. induction l as [|a l IH]; intros [|i] Hx; cbn in *; [done|done|injection Hx as ->; now destruct (f x)|].
  apply IH in Hx. destruct (f a); [|done]. rewrite Hx. destruct (f x); cbn; [apply perm_swap|done].
Qed.

(** the client an event is about *)
Definition event_client (e : sv_event) : option sclient :=
  match e with EvHttpCreate k _ _ | EvHttpKill k _ | EvHttpCache k _ => Some k | EvReply _ _ => None end.

Lemma sv_handle_ok e s :
  sv_ok s -> (forall k, event_client e = Some k -> k ∉ waiting s ++ answered s) ->
  sv_ok (sv_handle e s).2 /\ forall x, x ∈ waiting (sv_handle e s).2 ++ answered (sv_handle e s).2 -> x ∈ waiting s ++ answered s \/ event_client e = Some x.
Proof.
  intros Hs Hk. destruct (sv_handle e s) as [o s'] eqn:E. cbn [snd].
  assert (forall k, serves k s s' -> k ∉ waiting s ++ answered s -> (event_client e = Some k) ->
    sv_ok s' /\ forall x, x ∈ waiting s' ++ answered s' -> x ∈ waiting s ++ answered s \/ event_client e = Some x) as Hnew.
  { intros k Hsv Hn ->. split; [exact (serves_ok k s s' Hsv Hs Hn)|]. intros x.
    destruct Hsv as [[[-> [->| ->]]|[-> ->]] _]; rewrite !elem_of_app, ?list_elem_of_singleton; intuition congruence. }
  destruct e as [k process body|k process|k image|i r]; cbn [sv_handle event_client] in *.
  - apply (Hnew k); auto. eapply serving_create; eauto.
  - apply (Hnew k); auto. eapply serving_kill; eauto.
  - apply (Hnew k); auto. eapply (serving_post k); [|exact E]. done.
  - unfold docker_replied in E. unfold gets in E. unfold mbind at 1, M_bind at 1 in E.
    destruct (sv_pending s !! i) as [[req p]|] eqn:Ei; [|injection E as <- <-; auto].
    erewrite M_bind_eq in E by reflexivity. set (s1 := set_sv_pending _ s) in E.
    pose proof (omap_delete (fun x : DockerRequest * pending => pending_client x.2) _ _ _ Ei) as Hd. cbn [snd] in Hd.
    apply run_pending_serves in E. change (omap _ (delete i (sv_pending s))) with (waiting s1) in Hd.
    change (omap _ (sv_pending s)) with (waiting s) in Hd.
    assert (answered s1 = answered s) as Ha by done.
    destruct (pending_client p) as [k|].
    + assert (NoDup (k :: waiting s1 ++ answered s1)) as Hnd
        by (rewrite Ha, app_comm_cons; change (k :: waiting s1) with ([k] ++ waiting s1); rewrite <-Hd; apply Hs).
      apply list.NoDup_cons in Hnd as [Hk1 Hnd].
      split; [apply (serves_ok k s1 s' E); auto; split; [done|apply Hs]|]. intros x Hx. left. rewrite Hd, <-Ha.
      destruct E as [[[Hw [Han|Han]]|[Hw Han]] _]; rewrite Hw, Han in Hx; cbn; set_solver.
    + subst s'. change ([] ++ waiting s1) with (waiting s1) in Hd. split.
      * split; [rewrite Ha, <-Hd; apply Hs|apply Hs].
      * intros x. rewrite Ha, <-Hd. auto.
Qed.

End clients.

(** ** What a client gets *)
Section members.
Context `{JsonCppLaws}.

Lemma member_object l k : member k (jobject l) = Ret (default jnull ((list_to_map l : gmap string jvalue) !! k)).
Proof. unfold member. now rewrite jget_object. Qed.
Lemma text_string t : text (jstring t) = Ret t.
Proof. unfold text. now rewrite as_string_string. Qed.

End members.

(** the members of an object that is written out *)
Ltac members :=
  rewrite ?member_object, ?list_to_map_cons;
  repeat (rewrite lookup_insert_eq || rewrite lookup_insert_ne by discriminate); cbn [default from_option id].

Section replies.
Context `{JsonCppLaws}.

(** the reply to the newest request *)
Lemma docker_replied_last s req p r :
  docker_replied (length (sv_pending s)) r (set_sv_pending (sv_pending s ++ [(req, p)]) s) = run_pending p r s.
Proof.
  unfold docker_replied. erewrite M_bind_eq by reflexivity. cbn [sv_pending set_sv_pending].
  rewrite lookup_app_r, Nat.sub_diag by lia. cbn [lookup list_lookup]. erewrite M_bind_eq by reflexivity.
  rewrite delete_middle, app_nil_r. now destruct s.
Qed.

(** the request to create a container *)
Definition create_request (o : SOptions) (process image addr : string) : DockerRequest :=
  {| dr_path := "/containers/create"; dr_params := [("name", process)];
     dr_body := Some (jobject (configure_ports o [("Image", jstring image);
       ("Env", jarray [jstring ("CONTROLPLANE_ADDR=" +:+ addr); jstring ("PROCESS_ID=" +:+ process)])])) |}.

Definition create_body (image addr : string) : jvalue :=
  jobject [("container-name", jstring image); ("controlplane-address", jstring addr)].

Lemma create_posts process image addr k s :
  process <> EmptyString ->
  create process (Some (create_body image addr)) k s =
    (Ret tt, set_sv_pending (sv_pending s ++ [(create_request (sv_opts s) process image addr, PCreate k process)]) s).
Proof.
  intros Hp. unfold create. rewrite decide_False by done. unfold create_body. members.
  erewrite M_bind_eq by reflexivity. erewrite M_bind_eq by reflexivity.
  rewrite !is_null_string, !text_string. cbn [orb]. reflexivity.
Qed.

(** what the daemon says about a running container *)
Definition inspection (o : SOptions) (port : string) : jvalue :=
  jobject [("NetworkSettings", jobject [("Ports", jobject [(port_key o, jarray [jobject [("HostPort", jstring port)]])])])].

(** the answer for a container that runs *)
Definition created_answer (o : SOptions) (process id : string) (port : Z) : HttpResponse :=
  correct_response_value (jobject [
    ("status", jstring ("Container for process " +:+ process +:+ " created."));
    ("container-id", jstring id); ("process-id", jstring process);
    ("ip-address", jstring (so_server_ip o)); ("port", jint port)]).

Lemma inspected_answers process id k r port s :
  hr_status r = 200%Z -> hr_json r = Some (inspection (sv_opts s) (pretty port)) -> (Z.of_N port < 2 ^ 31)%Z ->
  inspected process id k r s = answer k (created_answer (sv_opts s) process id (Z.of_N port)) s.
Proof.
  intros Hst Hj Hp. unfold inspected. rewrite Hst. cbn [Z.eqb Pos.eqb]. erewrite M_bind_eq by reflexivity.
  unfold json_object, inspection in *. rewrite Hj. unfold lift, mbind, M_bind, outcome_bind.
  members.
  members.
  members.
  unfold element. rewrite jat_array. cbn [lookup list_lookup default from_option json_lift].
  members.
  members. now rewrite text_string, stoi_pretty.
Qed.

(** The replies of a daemon for which everything goes well: the container is
    created and started, and runs with its port mapped to [port]. *)
Lemma create_container_flow process image addr k id port r1 r2 r3 s :
  process <> EmptyString -> sv_processes s !! process = None -> (Z.of_N port < 2 ^ 31)%Z ->
  hr_status r1 = 201%Z -> hr_json r1 = Some (jobject [("Id", jstring id)]) ->
  hr_status r2 = 204%Z ->
  hr_status r3 = 200%Z -> hr_json r3 = Some (inspection (sv_opts s) (pretty port)) ->
  let i := length (sv_pending s) in
  (create process (Some (create_body image addr)) k ≫= fun _ =>
   for_each (docker_replied i) [Some r1; Some r2; Some r3]) s =
    (Ret tt, set_sv_responses (sv_responses s ++ [(k, created_answer (sv_opts s) process id (Z.of_N port))])
       (set_sv_processes (<[process := {| sp_process_id := process; sp_container_id := id |}]> (sv_processes s)) s)).
Proof.
  intros Hp Hn Hport S1 J1 S2 S3 J3 i. rewrite (M_bind_eq _ _ _ _ _ (create_posts process image addr k s Hp)).
  cbn [for_each]. unfold mbind at 1, M_bind at 1. unfold i. rewrite docker_replied_last. cbn [run_pending].
  assert (created process k r1 s = start_container process id k s) as ->.
  { unfold created. rewrite S1. unfold lift, mbind, M_bind, outcome_bind, json_object. cbn [Z.eqb Pos.eqb]. rewrite J1.
    members. now rewrite text_string. }
  unfold start_container, docker_post, modify. unfold mbind at 1, M_bind at 1. rewrite docker_replied_last. cbn [run_pending].
  set (s2 := set_sv_processes (<[process := {| sp_process_id := process; sp_container_id := id |}]> (sv_processes s)) s).
  assert (started process id k r2 s = inspect_container process id k s2) as ->.
  { unfold started. rewrite S2. cbn [Z.eqb Pos.eqb]. erewrite M_bind_eq by reflexivity. unfold processes_add. rewrite Hn. reflexivity. }
  unfold inspect_container, docker_post, modify. unfold mbind at 1, M_bind at 1.
  change (length (sv_pending s)) with (length (sv_pending s2)). rewrite docker_replied_last. cbn [run_pending].
  rewrite (inspected_answers process id k r3 port s2 S3 J3 Hport). reflexivity.
Qed.

(** Stopping a process that is not in the table breaks the server: the
    client gets its answer, but the handler does not return and reads through
    the empty accessor. *)
Theorem kill_unknown_undefined process k s :
  sv_processes s !! process = None ->
  exists s' r, kill process k s = (Undef, s') /\ sv_responses s' = sv_responses s ++ [(k, r)] /\ hr_status r = 404%Z.
Proof.
  intros Hn. unfold kill. erewrite M_bind_eq by reflexivity. unfold processes_get. rewrite Hn.
  eexists _, _. split; [reflexivity|]. split; reflexivity.
Qed.

(** a process of the table is stopped, and its entry goes when the daemon did it *)
Lemma kill_known process k p r s :
  sv_processes s !! process = Some p -> hr_status r = 204%Z ->
  exists resp, (kill process k ≫= fun _ => docker_replied (length (sv_pending s)) (Some r)) s =
    (Ret tt, set_sv_responses (sv_responses s ++ [(k, resp)]) (set_sv_processes (delete process (sv_processes s)) s)) /\
    hr_status resp = 200%Z.
Proof.
  intros Hp Hr. eexists. split; [|shelve]. unfold kill.
  erewrite M_bind_eq; [|erewrite M_bind_eq by reflexivity; unfold processes_get; rewrite Hp; reflexivity].
  rewrite docker_replied_last. cbn [run_pending]. unfold stopped. rewrite Hr. cbn [Z.eqb Pos.eqb].
  erewrite M_bind_eq by reflexivity. erewrite M_bind_eq by reflexivity. reflexivity.
  Unshelve. reflexivity.
Qed.

(** An image that was pulled is reported as an error: unless the last line
    of the daemon says that the image was up to date, the answer has status 500
    and no text - a line that reports the download included; and a reply with
    an empty body is undefined. *)
Theorem image_pull_reported_as_error image k r s line t :
  list.last (lines (ascii_of_nat 10) (hr_body r)) = Some line ->
  jparse line = Some (jobject [("status", jstring t)]) ->
  exists resp, cached image k r s = (Ret tt, set_sv_responses (sv_responses s ++ [(k, resp)]) s) /\
    hr_status resp = (if contains "Image is up to date" t then 200 else 500)%Z /\
    hr_json resp = Some (jobject [("image", jstring image);
      ("status", if contains "Image is up to date" t then jstring t else jnull)]).
Proof.
  intros Hl Hp. unfold cached. rewrite split_loop_lines_all. erewrite M_bind_eq by reflexivity. rewrite Hl.
  unfold cache_status. rewrite Hp. members. unfold mbind at 2, outcome_bind. rewrite text_string.
  unfold mbind at 2, outcome_bind. destruct (contains "Image is up to date" t); [eexists; split; [reflexivity|]; split; reflexivity|].
  cbn [list_to_map foldr]. rewrite lookup_empty. cbn [default from_option id].
  assert (text jnull = Ret EmptyString) as Hn by (unfold text; now rewrite as_string_null).
  unfold mbind at 2, outcome_bind. rewrite Hn. eexists. split; [reflexivity|]. split; reflexivity.
Qed.
End replies.

(** ** Witnesses *)
Definition plain_options : SOptions := {| so_server_ip := "10.0.0.1"; so_docker_port := 2375; so_process_port := 8000 |}.


Lemma kill_unknown_undefined_witness :
  exists s' r, kill "p" 0 (Serving_ctor plain_options) = (Undef, s') /\ sv_responses s' = [(0, r)] /\ hr_status r = 404%Z.
Proof. exact (kill_unknown_undefined "p" 0 (Serving_ctor plain_options) eq_refl). Defined.

Lemma image_pull_reported_as_error_witness :
  let r := {| hr_status := 200; hr_body := "Status: Downloaded newer image for img"; hr_json := None |} in
  exists resp s', cached "img" 0 r (Serving_ctor plain_options) = (Ret tt, s') /\ sv_responses s' = [(0, resp)] /\
    hr_status resp = 500%Z.
Proof.
  intros r.
  destruct (image_pull_reported_as_error "img" 0 r (Serving_ctor plain_options) (hr_body r) (hr_body r))
    as (resp&E&Hs&_); [vm_compute; reflexivity|vm_compute; reflexivity|].
  eexists resp, _. split; [exact E|]. split; [reflexivity|exact Hs].
Defined.
