(* ===== verification/Backend.v ===== *)
(** * Backend: the back ends of the control plane

    [control-plane/backend.hpp] and [backend.cpp]: what the Docker back end
    makes of the replies of the serving (Serving.v), whose result is the
    [docker_reply] that CpApplication.v works with, and the Fargate back end,
    which starts a task and then asks for its network interface and for the
    address of that.  The AWS SDK is seen through the requests it is given and
    the outcomes its callbacks get. *)

From S2P Require Import Prelude Http Memory Messages CpProcess CpApplication Serving.
From stdpp Require Import pretty.

(** [backend::Type] and [deserialize] *)
Inductive BackendType : Type := BNONE | BDOCKER | BAWS_FARGATE | BAWS_LAMBDA.
#[export] Instance BackendType_eq_dec : EqDecision BackendType.
Proof. solve_decision. Defined.

Definition backend_deserialize (mode : string) : BackendType :=
  if String.eqb mode "docker" then BDOCKER
  else if String.eqb mode "aws_fargate" then BAWS_FARGATE
  else if String.eqb mode "aws_lambda" then BAWS_LAMBDA
  else BNONE.

(** ** Docker *)
Section docker.
Context `{JsonCpp}.

(** the request [allocate_process] sends to the serving *)
Definition allocation_body (container_name tcp_ip : string) (tcp_port : Z) : jvalue :=
  jobject [("container-name", jstring container_name);
           ("controlplane-address", jstring (tcp_ip +:+ ":" +:+ pretty tcp_port))].

(** the callback of the request, up to the choice of CpApplication.v's
    [docker_result] *)
Definition docker_read_reply (result : ReqResult) (response : option HttpResponse) : outcome docker_reply :=
  if decide (result <> ReqOk) then Ret ReplyFailed
  else match response with
  | None => Undef
  | Some r =>
      if (hr_status r =? 500)%Z then Ret (ReplyError (hr_body r))
      else if (hr_status r =? 200)%Z then
        v ← json_object r;
        container ← (x ← member "container-id" v; text x);
        ip_address ← (x ← member "ip-address" v; text x);
        port ← (x ← member "port" v; json_lift (as_int x));
        Ret (ReplyCreated container ip_address port)
      else Ret (ReplyOther (hr_body r))
  end.
End docker.

(** ** Fargate *)
Inductive aws_outcome (A : Type) : Type := AwsSuccess (a : A) | AwsError (message : string).
Arguments AwsSuccess {A} a.
Arguments AwsError {A} message.

(** an ECS task: its identifier and the details of its attachments *)
Record AwsTask : Type := MkTask { task_arn : string; task_attachments : list (list (string * string)) }.

Inductive aws_request : Type :=
  | DescribeTasks (cluster : string) (tasks : list string)
  | DescribeNetworkInterfaces (ids : list string)
  | RunTask (cluster task_definition subnet cpu memory : string) (environment : list (string * string)).

Record FargateInstance : Type := MkFargate {
  fi_ip_address : string;
  fi_port : Z;
  fi_container_id : string;
  fi_cluster_name : string;
  fi_eni_interface : string;
}.

Definition FargateInstance_ctor (port : Z) (container_id cluster_name : string) : FargateInstance :=
  {| fi_ip_address := EmptyString; fi_port := port; fi_container_id := container_id;
     fi_cluster_name := cluster_name; fi_eni_interface := EmptyString |}.

(** an instance with the requests made for it and the calls of its callback *)
Record FargateState : Type := MkFargateState {
  fs_instance : FargateInstance;
  fs_requests : list aws_request;
  fs_connected : list (option string);
}.

Definition set_eni (eni : string) (s : FargateState) : FargateState :=
  let i := fs_instance s in
  {| fs_instance := {| fi_ip_address := fi_ip_address i; fi_port := fi_port i; fi_container_id := fi_container_id i;
                       fi_cluster_name := fi_cluster_name i; fi_eni_interface := eni |};
     fs_requests := fs_requests s; fs_connected := fs_connected s |}.
Definition set_ip (ip : string) (s : FargateState) : FargateState :=
  let i := fs_instance s in
  {| fs_instance := {| fi_ip_address := ip; fi_port := fi_port i; fi_container_id := fi_container_id i;
                       fi_cluster_name := fi_cluster_name i; fi_eni_interface := fi_eni_interface i |};
     fs_requests := fs_requests s; fs_connected := fs_connected s |}.
Definition aws_send (r : aws_request) : M FargateState unit :=
  modify (fun s => {| fs_instance := fs_instance s; fs_requests := fs_requests s ++ [r]; fs_connected := fs_connected s |}).
Definition connected_callback (error : option string) : M FargateState unit :=
  modify (fun s => {| fs_instance := fs_instance s; fs_requests := fs_requests s; fs_connected := fs_connected s ++ [error] |}).

(** [connect] *)
Definition fargate_connect : M FargateState unit :=
  i ← gets fs_instance;
  aws_send (DescribeTasks (fi_cluster_name i) [fi_container_id i]).

Definition eni_error (i : FargateInstance) : string :=
  "Couldn't query the ENI interface of task " +:+ fi_container_id i.

(** the loop over the details: the last interface wins *)
Definition find_eni (details : list (string * string)) : M FargateState unit :=
  for_each (fun '(name, value) => if String.eqb name "networkInterfaceId" then modify (set_eni value) else mret tt) details.

(** [_callback_task_describe] *)
Definition callback_task_describe (result : aws_outcome (list AwsTask)) : M FargateState unit :=
  i ← gets fs_instance;
  let query : M FargateState unit :=
    i ← gets fs_instance;
    if decide (fi_eni_interface i = EmptyString) then connected_callback (Some (eni_error i))
    else aws_send (DescribeNetworkInterfaces [fi_eni_interface i]) in
  match result with
  | AwsSuccess [] => connected_callback (Some (eni_error i))
  | AwsSuccess (task :: _) =>
      match task_attachments task with
      | [] => connected_callback (Some (eni_error i))
      | details :: _ => find_eni details ≫= fun _ => query
      end
  | AwsError message => connected_callback (Some (eni_error i +:+ ", error " +:+ message))
  end.

(** [_callback_describe_eni]; an interface is its public address *)
Definition callback_describe_eni (result : aws_outcome (list string)) : M FargateState unit :=
  i ← gets fs_instance;
  match result with
  | AwsSuccess [] => connected_callback (Some ("Couldn't query the IP address of ENI interface " +:+ fi_eni_interface i))
  | AwsSuccess (ip :: _) => modify (set_ip ip) ≫= fun _ => connected_callback None
  | AwsError message => connected_callback (Some ("Fargate initialization failed, reason: " +:+ message))
  end.

(** [allocate_process]: the request, and its callback *)
Section fargate.
Context `{JsonCpp}.
Definition run_task_request (config : jvalue) (tcp_ip : string) (tcp_port : Z) (code_resource_name process_name : string)
    (r : PResources) : outcome aws_request :=
  cluster ← (v ← member "cluster_name" config; text v);
  subnet ← (v ← member "subnet" config; text v);
  Ret (RunTask cluster code_resource_name subnet (vcpus r) (memory r)
    [("CONTROLPLANE_ADDR", tcp_ip +:+ ":" +:+ pretty tcp_port); ("PROCESS_ID", process_name)]).
End fargate.

(** the first task of a success is taken; a success without tasks - the service
    reports failures that way - is not expected *)
Definition run_task_callback (cluster_name : string) (result : aws_outcome (list AwsTask)) : outcome (FargateInstance + string) :=
  match result with
  | AwsSuccess [] => Undef
  | AwsSuccess (task :: _) => Ret (inl (FargateInstance_ctor 8000 (task_arn task) cluster_name))
  | AwsError message => Ret (inr ("Fargate error: " +:+ message))
  end.

Definition fargate_max_memory : Z := 120.
Definition fargate_max_vcpus : Z := 16384.

(** [shutdown] of both back ends: [std::erase] *)
Definition backend_shutdown (instance : nat) (instances : list nat) : list nat :=
  filter (fun i => i <> instance) instances.

(** ** From the daemon to the control plane *)
Section composition.
Context `{JsonCppLaws}.

Lemma docker_reads_answer o process id port :
  (0 <= port < 2 ^ 31)%Z ->
  docker_read_reply ReqOk (Some (created_answer o process id port)) = Ret (ReplyCreated id (so_server_ip o) port).
Proof.
  intros Hp. unfold docker_read_reply. rewrite decide_False by auto. unfold created_answer.
  cbn [hr_status correct_response_value setStatusCode Z.eqb Pos.eqb]. unfold json_object. cbn [hr_json correct_response_value setStatusCode newHttpJsonResponse].
  unfold mbind, outcome_bind. members. rewrite text_string. members. rewrite text_string. members.
  rewrite as_int_int by (unfold i32_range; lia). reflexivity.
Qed.

(** A container that runs reaches the control plane: when the Docker back
    end asks the serving for a process and the daemon creates and starts the
    container and reports its port, the serving stores the container under the
    name of the process and answers exactly once, and what the back end reads
    from the answer is the container's id, the address of the serving and that
    port; the daemon was told the image, the address of the control plane and
    the name. *)
Theorem created_container_reaches_backend process image ip tcp_port k id port r1 r2 r3 s :
  process <> EmptyString -> sv_processes s !! process = None -> (Z.of_N port < 2 ^ 31)%Z ->
  hr_status r1 = 201%Z -> hr_json r1 = Some (jobject [("Id", jstring id)]) ->
  hr_status r2 = 204%Z ->
  hr_status r3 = 200%Z -> hr_json r3 = Some (inspection (sv_opts s) (pretty port)) ->
  exists s1 s2 answer,
    create process (Some (allocation_body image ip tcp_port)) k s = (Ret tt, s1) /\
    sv_pending s1 = sv_pending s ++
      [(create_request (sv_opts s) process image (ip +:+ ":" +:+ pretty tcp_port), PCreate k process)] /\
    for_each (docker_replied (length (sv_pending s))) [Some r1; Some r2; Some r3] s1 = (Ret tt, s2) /\
    sv_pending s2 = sv_pending s /\ sv_responses s2 = sv_responses s ++ [(k, answer)] /\
    sv_processes s2 = <[process := {| sp_process_id := process; sp_container_id := id |}]> (sv_processes s) /\
    docker_read_reply ReqOk (Some answer) = Ret (ReplyCreated id (so_server_ip (sv_opts s)) (Z.of_N port)).
Proof.
  intros Hp Hn Hport S1 J1 S2 S3 J3.
  pose proof (create_posts process image (ip +:+ ":" +:+ pretty tcp_port) k s Hp) as E1.
  pose proof (create_container_flow process image (ip +:+ ":" +:+ pretty tcp_port) k id port r1 r2 r3 s Hp Hn Hport S1 J1 S2 S3 J3) as E2.
  cbv zeta in E2. rewrite (M_bind_eq _ _ _ _ _ E1) in E2.
  eexists _, _, _. split; [exact E1|]. split; [reflexivity|]. split; [exact E2|].
  split_and!; [reflexivity..|]. apply docker_reads_answer. lia.
Qed.

(** an answer that is a failure is read as one *)
Lemma failure_reaches_backend reason :
  docker_read_reply ReqOk (Some (failed_response reason)) = Ret (ReplyError EmptyString).
Proof. unfold docker_read_reply. rewrite decide_False by auto. reflexivity. Qed.
End composition.

(** ** The interface of a task *)

Lemma find_eni_keeps details : forall s, exists s', find_eni details s = (Ret tt, s') /\
  fs_requests s' = fs_requests s /\ fs_connected s' = fs_connected s /\
  fi_eni_interface (fs_instance s') =
    foldl (fun eni '(name, value) => if String.eqb name "networkInterfaceId" then value else eni)
      (fi_eni_interface (fs_instance s)) details.
Proof.
  unfold find_eni. induction details as [|[name value] details IH]; intros s; cbn [for_each foldl]; [eauto|].
  destruct (String.eqb name "networkInterfaceId").
  - destruct (IH (set_eni value s)) as (s'&E&H1&H2&H3). exists s'. unfold mbind, M_bind, modify. eauto.
  - destruct (IH s) as (s'&E&H1&H2&H3). exists s'. unfold mbind, M_bind, mret, M_ret. eauto.
Qed.

(** a connection attempt with the outcomes of its two calls: the second call is
    only made when the first asked for it *)
Definition connect_with (tasks : aws_outcome (list AwsTask)) (interfaces : aws_outcome (list string)) : M FargateState unit :=
  fargate_connect ≫= fun _ => callback_task_describe tasks ≫= fun _ =>
  r ← gets (fun s => list.last (fs_requests s));
  match r with
  | Some (DescribeNetworkInterfaces _) => callback_describe_eni interfaces
  | _ => mret tt
  end.

(** the network interface in a description of the task *)
Definition described_eni (tasks : aws_outcome (list AwsTask)) : option string :=
  match tasks with
  | AwsSuccess ({| task_attachments := details :: _ |} :: _) =>
      let eni := foldl (fun eni '(name, value) => if String.eqb name "networkInterfaceId" then value else eni) EmptyString details in
      if decide (eni = EmptyString) then None else Some eni
  | _ => None
  end.

(** Connecting to a new Fargate task ends with exactly one call of the
    callback, whatever the two services answer: without an error, and with the
    address of the interface in the instance, when the task has a network
    interface and it has an address; with an error in every other case. *)
Theorem fargate_connects_once port container cluster tasks interfaces :
  exists s result,
    connect_with tasks interfaces {| fs_instance := FargateInstance_ctor port container cluster; fs_requests := []; fs_connected := [] |}
      = (Ret tt, s) /\
    fs_connected s = [result] /\
    match described_eni tasks, interfaces with
    | Some eni, AwsSuccess (ip :: _) => result = None /\ fi_ip_address (fs_instance s) = ip /\
        fs_requests s = [DescribeTasks cluster [container]; DescribeNetworkInterfaces [eni]]
    | _, _ => exists e, result = Some e
    end.
Proof.
  unfold connect_with. erewrite M_bind_eq by reflexivity. set (s0 := MkFargateState _ _ _).
  destruct tasks as [[|[arn [|details atts]] ts]|e]; cbn [callback_task_describe described_eni task_attachments].
  1, 2, 4: eexists _, _; split; [reflexivity|]; split; [reflexivity|]; eauto.
  destruct (find_eni_keeps details s0) as (s1&E&H1&H2&H3). unfold s0 in H3; cbn in H3. rewrite <-H3.
  unfold callback_task_describe. cbn [task_attachments].
  destruct (decide (fi_eni_interface (fs_instance s1) = EmptyString)) as [He|He].
  - eexists _, _. split.
    + erewrite M_bind_eq; [|erewrite M_bind_eq by reflexivity; rewrite (M_bind_eq _ _ _ _ _ E);
        erewrite M_bind_eq by reflexivity; rewrite decide_True by done; reflexivity].
      erewrite M_bind_eq by reflexivity. cbn [fs_requests]. rewrite H1. reflexivity.
    + cbn. rewrite H2. split; [reflexivity|eauto].
  - assert ((i ← gets fs_instance; (find_eni details ≫= fun _ => (i ← gets fs_instance;
       if decide (fi_eni_interface i = EmptyString) then connected_callback (Some (eni_error i))
       else aws_send (DescribeNetworkInterfaces [fi_eni_interface i])) : M FargateState unit)) s0 =
       aws_send (DescribeNetworkInterfaces [fi_eni_interface (fs_instance s1)]) s1) as E1.
    { erewrite M_bind_eq by reflexivity. rewrite (M_bind_eq _ _ _ _ _ E). erewrite M_bind_eq by reflexivity.
      now rewrite decide_False. }
    unfold mbind at 1, M_bind at 1. rewrite E1. cbn [aws_send modify].
    erewrite M_bind_eq by reflexivity. cbn [fs_requests]. rewrite H1. cbn.
    unfold callback_describe_eni. erewrite M_bind_eq by reflexivity.
    destruct interfaces as [[|ip ips]|e]; eexists _, _; (split; [reflexivity|]); cbn; rewrite ?H1, ?H2; split; eauto.
Qed.

(** A task that could not be placed ends the control plane: the service then
    succeeds with failures and no task, and the first task is read anyway. *)
Theorem task_without_capacity_undefined cluster : run_task_callback cluster (AwsSuccess []) = Undef.
Proof. reflexivity. Qed.

(** ** Witnesses *)
Lemma created_container_reaches_backend_witness :
  let s := Serving_ctor plain_options in
  let r1 := setStatusCode 201 (newHttpJsonResponse (jobject [("Id", jstring "c1")])) in
  let r2 := setStatusCode 204 (newHttpJsonResponse jnull) in
  let r3 := newHttpJsonResponse (inspection plain_options (pretty 32768%N)) in
  exists s1 s2 answer, create "p" (Some (allocation_body "img" "127.0.0.1" 9000)) 0 s = (Ret tt, s1) /\
    for_each (docker_replied 0) [Some r1; Some r2; Some r3] s1 = (Ret tt, s2) /\ sv_responses s2 = [(0, answer)] /\
    docker_read_reply ReqOk (Some answer) = Ret (ReplyCreated "c1" "10.0.0.1" 32768).
Proof.
  intros s r1 r2 r3.
  destruct (created_container_reaches_backend "p" "img" "127.0.0.1" 9000 0 "c1" 32768 r1 r2 r3 s
    ltac:(discriminate) eq_refl ltac:(lia) eq_refl eq_refl eq_refl eq_refl eq_refl)
    as (s1&s2&answer&E1&_&E2&_&Hr&_&Hd).
  exists s1, s2, answer. auto.
Defined.
