(* ===== verification/Config.v ===== *)
(** * Config: the configuration of the control plane

    [control-plane/config.hpp] and [config.cpp], with [cereal_load_optional] of
    [common/util.hpp]: the configuration is read from a JSON archive of the
    cereal library, which is class [JSONInputArchive]: named values of an
    object, with an exception that names the value when it is not there.  An
    [int] or [bool] that is not initialised is [None]. *)

From S2P Require Import Prelude Http Memory Messages CpProcess CpApplication Serving Backend.

Class JSONInputArchive : Type := {
  archive : Type;
  (** [archive(make_nvp(name, value))] for a number, a truth value, a text, an object *)
  load_int : archive -> string -> outcome Z;
  load_bool : archive -> string -> outcome bool;
  load_string : archive -> string -> outcome string;
  load_node : archive -> string -> outcome archive;
}.

(** [cereal::Exception] of a value that is not there *)
Definition not_found (name : string) : exn :=
  StdException ("JSON Parsing failed - provided NVP (" +:+ name +:+ ") not found").

Class JSONInputArchiveLaws `(JSONInputArchive) : Type := {
  has : archive -> string -> bool;
  load_int_missing a n : has a n = false -> load_int a n = Throw (not_found n);
  load_bool_missing a n : has a n = false -> load_bool a n = Throw (not_found n);
  load_string_missing a n : has a n = false -> load_string a n = Throw (not_found n);
  load_node_missing a n : has a n = false -> load_node a n = Throw (not_found n);
}.

Record HTTPServerCfg : Type := MkHTTPServerCfg {
  hs_port : Z; hs_threads : Z; hs_max_payload_size : Z; hs_enable_ssl : bool;
  hs_ssl_server_cert : option string; hs_ssl_server_key : option string;
}.
Record WorkersCfg : Type := MkWorkersCfg { wk_threads : Z }.
Record DownScalerCfg : Type := MkDownScalerCfg { ds_polling_interval : Z; ds_swapping_threshold : Z }.
Record TCPServerCfg : Type := MkTCPServerCfg { tc_port : Z; tc_io_threads : Z }.
(** [config::Backend]: the port of a new [BackendDocker] is not initialised *)
Inductive BackendCfg : Type :=
  | BackendDocker (address : string) (port : option Z)
  | BackendFargate (fargate_config : string).

Definition HTTPServer_defaults : HTTPServerCfg :=
  {| hs_port := 8080; hs_threads := 1; hs_max_payload_size := 1024 * 1024; hs_enable_ssl := false;
     hs_ssl_server_cert := None; hs_ssl_server_key := None |}.
Definition Workers_defaults : WorkersCfg := {| wk_threads := 1 |}.
Definition DownScaler_defaults : DownScalerCfg := {| ds_polling_interval := 60; ds_swapping_threshold := 360 |}.
Definition TCPServer_defaults : TCPServerCfg := {| tc_port := 0; tc_io_threads := 1 |}.
Definition BackendDocker_defaults : BackendCfg := BackendDocker "127.0.0.1" (Some 8080%Z).
Definition BackendFargate_defaults : BackendCfg := BackendFargate EmptyString.

(** [deployment::Type]: [AWS] is a build option *)
Inductive DeploymentType : Type := DLOCAL | DAWS.

(** members that are not initialised are [None]; no code assigns [deployment_type] *)
Record Config : Type := MkConfig {
  cf_http : HTTPServerCfg;
  cf_workers : option WorkersCfg;
  cf_down_scaler : option DownScalerCfg;
  cf_tcpserver : TCPServerCfg;
  cf_deployment_type : option DeploymentType;
  cf_backend_type : option BackendType;
  cf_backend : option BackendCfg;
  cf_public_ip_address : string;
  cf_http_client_io_threads : option Z;
  cf_verbose : option bool;
}.

(** the constructor *)
Definition Config_ctor : Config :=
  {| cf_http := HTTPServer_defaults; cf_workers := None; cf_down_scaler := None; cf_tcpserver := TCPServer_defaults;
     cf_deployment_type := None; cf_backend_type := None; cf_backend := None; cf_public_ip_address := EmptyString;
     cf_http_client_io_threads := None; cf_verbose := None |}.

(** [set_defaults]; the back end is only constructed *)
Definition Config_set_defaults (c : Config) : Config :=
  {| cf_http := HTTPServer_defaults; cf_workers := Some Workers_defaults; cf_down_scaler := Some DownScaler_defaults;
     cf_tcpserver := TCPServer_defaults; cf_deployment_type := cf_deployment_type c; cf_backend_type := Some BDOCKER; 
     cf_backend := Some (BackendDocker EmptyString None);
     cf_public_ip_address := "127.0.0.1"; cf_http_client_io_threads := Some 1%Z; cf_verbose := cf_verbose c |}.

Section config.
Context `{JSONInputArchive}.

(** [load] of the sections; the members that are not read keep their values *)
Definition HTTPServer_load (c : HTTPServerCfg) (a : archive) : outcome HTTPServerCfg :=
  threads ← load_int a "threads";
  port ← load_int a "port";
  enable_ssl ← load_bool a "enable_ssl";
  if (enable_ssl : bool) then
    key ← load_string a "ssl_server_key";
    cert ← load_string a "ssl_server_cert";
    Ret {| hs_port := port; hs_threads := threads; hs_max_payload_size := hs_max_payload_size c; hs_enable_ssl := enable_ssl;
           hs_ssl_server_cert := Some cert; hs_ssl_server_key := Some key |}
  else
    Ret {| hs_port := port; hs_threads := threads; hs_max_payload_size := hs_max_payload_size c; hs_enable_ssl := enable_ssl;
           hs_ssl_server_cert := hs_ssl_server_cert c; hs_ssl_server_key := hs_ssl_server_key c |}.
Definition Workers_load (a : archive) : outcome WorkersCfg :=
  threads ← load_int a "threads"; Ret {| wk_threads := threads |}.
Definition DownScaler_load (a : archive) : outcome DownScalerCfg :=
  polling_interval ← load_int a "polling_interval";
  swapping_threshold ← load_int a "swapping_threshold";
  Ret {| ds_polling_interval := polling_interval; ds_swapping_threshold := swapping_threshold |}.
Definition TCPServer_load (a : archive) : outcome TCPServerCfg :=
  port ← load_int a "port";
  io_threads ← load_int a "io_threads";
  Ret {| tc_port := port; tc_io_threads := io_threads |}.
Definition BackendDocker_load (a : archive) : outcome BackendCfg :=
  address ← load_string a "address"; port ← load_int a "port"; Ret (BackendDocker address (Some port)).
Definition BackendFargate_load (a : archive) : outcome BackendCfg :=
  fargate_config ← load_string a "fargate_config"; Ret (BackendFargate fargate_config).

(** [cereal_load_optional]: the defaults, if the exception names the object itself *)
Definition cereal_load_optional {T} (load : archive -> outcome T) (defaults : T) (name : string) (a : archive) : outcome T :=
  match (node ← load_node a name; load node) with
  | Throw (StdException what) =>
      if contains ("(" +:+ name +:+ ") not found") what then Ret defaults
      else Throw (InvalidConfigurationError ("Could not parse HTTP configuration, reason: " +:+ what))
  | r => r
  end.

(** [Config::load] *)
Definition Config_load (c : Config) (a : archive) : outcome Config :=
  verbose ← load_bool a "verbose";
  mode ← load_string a "backend-type";
  let type := backend_deserialize mode in
  backend ← match type with
    | BDOCKER => Some <$> cereal_load_optional BackendDocker_load BackendDocker_defaults "backend" a
    | BAWS_FARGATE => Some <$> cereal_load_optional BackendFargate_load BackendFargate_defaults "backend" a
    | _ => Ret (cf_backend c)
    end;
  ip ← load_string a "ip-address";
  io_threads ← load_int a "http-client-io-threads";
  http ← cereal_load_optional (HTTPServer_load (cf_http c)) HTTPServer_defaults "http" a;
  workers ← cereal_load_optional Workers_load Workers_defaults "workers" a;
  down_scaler ← cereal_load_optional DownScaler_load DownScaler_defaults "downscaler" a;
  tcpserver ← cereal_load_optional TCPServer_load TCPServer_defaults "tcpserver" a;
  Ret {| cf_http := http; cf_workers := Some workers; cf_down_scaler := Some down_scaler; cf_tcpserver := tcpserver;
         cf_deployment_type := cf_deployment_type c; cf_backend_type := Some type; cf_backend := backend; cf_public_ip_address := ip;
         cf_http_client_io_threads := Some io_threads; cf_verbose := Some verbose |}.

(** [Config::deserialize] of a stream *)
Definition Config_deserialize (a : archive) : outcome Config := Config_load Config_ctor a.

(** [Backend::construct]: which back end, or none *)
Definition construct (fargate : bool) (c : Config) : option BackendCfg :=
  match cf_backend_type c with
  | Some BDOCKER => cf_backend c
  | Some BAWS_FARGATE => if fargate then cf_backend c else None
  | _ => None
  end.
End config.

(** ** What is optional *)
Section optional.
Context `{JSONInputArchiveLaws}.

(** the values a section needs *)
Definition needed (section : string) : list string :=
  if String.eqb section "http" then ["threads"; "port"; "enable_ssl"]
  else if String.eqb section "workers" then ["threads"]
  else if String.eqb section "downscaler" then ["polling_interval"; "swapping_threshold"]
  else if String.eqb section "tcpserver" then ["port"; "io_threads"]
  else [].

Lemma cereal_load_missing {T} (load : archive -> outcome T) d name a :
  has a name = false -> contains ("(" +:+ name +:+ ") not found") (what (not_found name)) = true ->
  cereal_load_optional load d name a = Ret d.
Proof.
  intros Hm Hc. unfold cereal_load_optional. rewrite (load_node_missing _ _ Hm). cbn [mbind outcome_bind not_found].
  cbn [what not_found] in Hc. now rewrite Hc.
Qed.

(** A section of the configuration is optional as a whole: with only the
    four values at the top, the control plane runs with the documented
    defaults; but a section that is there must be complete - a missing value of
    it is an error, not a default. *)
Theorem config_sections_optional a verbose ip n :
  load_bool a "verbose" = Ret verbose -> load_string a "backend-type" = Ret "docker" ->
  load_string a "ip-address" = Ret ip -> load_int a "http-client-io-threads" = Ret n ->
  has a "backend" = false -> has a "workers" = false -> has a "downscaler" = false -> has a "tcpserver" = false ->
  (has a "http" = false -> exists c, Config_deserialize a = Ret c /\
     construct false c = Some (BackendDocker "127.0.0.1" (Some 8080%Z)) /\
     cf_http c = HTTPServer_defaults /\ cf_workers c = Some Workers_defaults /\
     cf_down_scaler c = Some DownScaler_defaults /\ cf_tcpserver c = TCPServer_defaults /\
     cf_public_ip_address c = ip /\ cf_http_client_io_threads c = Some n /\ cf_verbose c = Some verbose) /\
  (forall node t, load_node a "http" = Ret node -> load_int node "threads" = Ret t -> has node "port" = false ->
     exists e, Config_deserialize a = Throw (InvalidConfigurationError e)).
Proof.
  intros Hv Hb Hip Hn M1 M2 M3 M4.
  assert (forall h, cereal_load_optional (HTTPServer_load HTTPServer_defaults) HTTPServer_defaults "http" a = h ->
    Config_deserialize a = (http ← h; Ret {| cf_http := http; cf_workers := Some Workers_defaults;
      cf_down_scaler := Some DownScaler_defaults; cf_tcpserver := TCPServer_defaults; cf_deployment_type := None;
      cf_backend_type := Some BDOCKER; cf_backend := Some BackendDocker_defaults; cf_public_ip_address := ip; cf_http_client_io_threads := Some n;
      cf_verbose := Some verbose |})) as Hd.
  { intros h Hh. unfold Config_deserialize, Config_load. rewrite Hv, Hb, Hip, Hn. cbn [mbind outcome_bind].
    change (backend_deserialize "docker") with BDOCKER. cbv iota.
    rewrite (cereal_load_missing BackendDocker_load _ "backend" a M1 eq_refl), (cereal_load_missing Workers_load _ "workers" a M2 eq_refl),
      (cereal_load_missing DownScaler_load _ "downscaler" a M3 eq_refl), (cereal_load_missing TCPServer_load _ "tcpserver" a M4 eq_refl).
    cbn [fmap outcome_fmap cf_http Config_ctor mbind outcome_bind]. rewrite Hh.
    destruct h as [h| |]; reflexivity. }
  split.
  - intros Hh. pose proof (Hd _ (cereal_load_missing (HTTPServer_load HTTPServer_defaults) HTTPServer_defaults "http" a Hh eq_refl)) as E.
    eexists. split; [exact E|]. cbn. split_and!; reflexivity.
  - intros node t Hnode Ht Hport.
    assert (cereal_load_optional (HTTPServer_load HTTPServer_defaults) HTTPServer_defaults "http" a =
      Throw (InvalidConfigurationError ("Could not parse HTTP configuration, reason: " +:+ what (not_found "port")))) as E.
    { unfold cereal_load_optional. rewrite Hnode. cbn [mbind outcome_bind]. unfold HTTPServer_load. rewrite Ht.
      cbn [mbind outcome_bind]. rewrite (load_int_missing _ _ Hport). reflexivity. }
    eexists. rewrite (Hd _ E). reflexivity.
Qed.
End optional.

(** ** A JSON archive *)
Definition member_of (a : json) (name : string) : option json :=
  match a with JObject l => (list_to_map l : gmap string json) !! name | _ => None end.

(** the archive over the JSON values of Http.v *)
#[export] Instance plain_archive : JSONInputArchive | 10 := {|
  archive := json;
  load_int a n := match member_of a n with
    | Some (JInt z) => Ret z | Some _ => Throw (StdException "rapidjson internal assertion failure: IsInt()")
    | None => Throw (not_found n) end;
  load_bool a n := match member_of a n with
    | Some (JBool b) => Ret b | Some _ => Throw (StdException "rapidjson internal assertion failure: IsBool()")
    | None => Throw (not_found n) end;
  load_string a n := match member_of a n with
    | Some (JString s) => Ret s | Some _ => Throw (StdException "rapidjson internal assertion failure: IsString()")
    | None => Throw (not_found n) end;
  load_node a n := match member_of a n with
    | Some v => Ret v | None => Throw (not_found n) end;
|}.

#[export] Instance plain_archive_laws : JSONInputArchiveLaws plain_archive | 10.
Proof.
  refine {| has := fun (a : @archive plain_archive) n => bool_decide (is_Some (member_of a n)) |};
    intros a n Hn; apply bool_decide_eq_false in Hn; cbn; destruct (member_of a n); try done; destruct Hn; eauto.
Defined.

Definition minimal_config (sections : list (string * json)) : @archive plain_archive :=
  JObject ([("verbose", JBool true); ("backend-type", JString "docker"); ("ip-address", JString "1.2.3.4");
            ("http-client-io-threads", JInt 2)] ++ sections).

Lemma config_sections_optional_witness :
  (exists c, Config_deserialize (minimal_config []) = Ret c /\ cf_http c = HTTPServer_defaults) /\
  exists e, Config_deserialize (minimal_config [("http", JObject [("threads", JInt 4)])]) = Throw (InvalidConfigurationError e).
Proof.
  split.
  - destruct (@config_sections_optional plain_archive plain_archive_laws (minimal_config []) true "1.2.3.4" 2 eq_refl eq_refl eq_refl eq_refl eq_refl eq_refl
      eq_refl eq_refl) as [Hc _]. destruct (Hc eq_refl) as (c&E&_&Hh&_). eauto.
  - destruct (@config_sections_optional plain_archive plain_archive_laws (minimal_config [("http", JObject [("threads", JInt 4)])]) true "1.2.3.4" 2
      eq_refl eq_refl eq_refl eq_refl eq_refl eq_refl eq_refl eq_refl) as [_ Hc].
    exact (Hc (JObject [("threads", JInt 4)] : @archive plain_archive) 4%Z eq_refl eq_refl eq_refl).
Defined.
