(* ===== verification/Sdk.v ===== *)
(** * Sdk: the client library

    [sdk/src/process.cpp]: a connection of a client to a process, over a socket
    of the sockpp library, and [sdk/src/praas.cpp]: the requests of a client to
    the control plane's HTTP interface, whose replies are those of Http.v.  The
    process at the other end is the server of Remote.v. *)

From S2P Require Import Prelude Http Memory Messages Buffers Application WorkQueue Controller Remote Serving.
From stdpp Require Import pretty.

(** [sockpp::tcp_connector].  A read gives the bytes that were read before the
    end of the stream or an error, at most as many as asked for. *)
Class Sockpp : Type := {
  connector : Type;
  sock_connect : string * Z -> connector -> bool * connector;
  sock_is_connected : connector -> bool;
  sock_write_n : list byte -> connector -> connector;
  sock_read_n : nat -> connector -> list byte * connector;
  sock_close : connector -> connector;
}.

(** A connection that does not break: what is written is sent, and a read waits
    for as many bytes as it asks for, if the peer sends them. *)
Class SockppLaws `(Sockpp) : Type := {
  sock_in : connector -> list byte;
  sock_out : connector -> list byte;
  sock_connected a c c' : sock_connect a c = (true, c') -> sock_is_connected c' = true /\ sock_out c' = [];
  sock_written bs c : sock_is_connected c = true ->
    sock_out (sock_write_n bs c) = sock_out c ++ bs /\ sock_in (sock_write_n bs c) = sock_in c /\
    sock_is_connected (sock_write_n bs c) = true;
  sock_read n c : sock_is_connected c = true ->
    (sock_read_n n c).1 = take n (sock_in c) /\ sock_in (sock_read_n n c).2 = drop n (sock_in c) /\
    sock_out (sock_read_n n c).2 = sock_out c /\ sock_is_connected (sock_read_n n c).2 = true;
}.

(** [sdk::InvocationResult] *)
Record SdkResult : Type := MkSdkResult {
  sr_return_code : Z; sr_payload : option (list byte); sr_payload_len : Z; sr_error_message : list byte;
}.

Section sdk.
Context `{Allocator} `{Sockpp}.

(** [sdk::Process]; [disable_nagle] only changes an option of the socket *)
Record SdkProcess : Type := MkSdkProcess { sp_addr : string * Z; sp_dataplane : connector }.

Definition on_dataplane {A} (f : connector -> A * connector) : M SdkProcess A := fun p =>
  let '(a, c) := f (sp_dataplane p) in (Ret a, {| sp_addr := sp_addr p; sp_dataplane := c |}).
Definition write_n (bs : list byte) : M SdkProcess unit := on_dataplane (fun c => (tt, sock_write_n bs c)).
Definition read_n (n : nat) : M SdkProcess (list byte) := on_dataplane (sock_read_n n).

(** bytes read over the memory [m] *)
Definition overlay (bs m : list byte) : list byte := bs ++ drop (length bs) m.

Definition sdk_disconnect : M SdkProcess unit := on_dataplane (fun c => (tt, sock_close c)).

Definition sdk_connect : M SdkProcess bool :=
  p ← get;
  status ← on_dataplane (sock_connect (sp_addr p));
  if negb (status : bool) then mret false
  else
    req ← lift (set_process_name (sv_of_string "DATAPLANE") ProcessConnectionData);
    write_n (bytes req) ≫= fun _ =>
    read ← read_n BUF_SIZE;
    if negb (length read =? BUF_SIZE) then mret false
    else
      parsed_msg ← lift (parse (overlay read MessageData));
      match parsed_msg with
      | VProcessConnection result => mret (String.eqb (sv_str (process_name result)) "CORRECT")
      | _ => mret false
      end.

(** [invoke(function_name, invocation_id, ptr, len)] of the bytes [data].  A
    negative length of the payload is a huge [size_t], which [new] refuses. *)
Definition sdk_invoke (function_name invocation_id : string_view) (data : list byte) : M SdkProcess SdkResult :=
  p ← get;
  if negb (sock_is_connected (sp_dataplane p)) then throw (InvalidProcessState "Not connected!")
  else
    msg ← lift (set_function_name function_name InvocationRequestData);
    msg ← lift (set_invocation_id invocation_id msg);
    msg ← lift (set_payload_size (wrap_i32 (Z.of_nat (length data))) msg);
    write_n (bytes msg) ≫= fun _ =>
    (if 0 <? length data then write_n data else mret tt) ≫= fun _ =>
    read ← read_n BUF_SIZE;
    parsed_msg ← lift (parse (overlay read MessageData));
    match parsed_msg with
    | VInvocationResult result =>
        let payload_bytes := wrap_u64 (total_length result) in
        payload ← (if (0 <? payload_bytes)%Z then
             if (payload_bytes <? 2 ^ 63)%Z then
               read ← read_n (Z.to_nat payload_bytes);
               mret (Some (overlay read (Buffers.fresh (Z.to_nat payload_bytes))))
             else throw (StdException "std::bad_array_new_length")
           else mret None);
        let code := return_code result in
        if (code <? 0)%Z then
          if (code =? - 2 ^ 31)%Z then undef
          else mret {| sr_return_code := code * -1; sr_payload := None; sr_payload_len := 0;
                       sr_error_message := default [] payload |}
        else mret {| sr_return_code := code; sr_payload := payload; sr_payload_len := payload_bytes; sr_error_message := [] |}
    | _ => mret {| sr_return_code := 1; sr_payload := None; sr_payload_len := 0; sr_error_message := [] |}
    end.
End sdk.

(** ** The control plane *)
Section praas.
Context `{JsonCpp}.

(** the callbacks of the requests of [sdk::PraaS]; the response is null when the
    request failed *)
Definition praas_create_application (result : ReqResult) (response : option HttpResponse) : outcome bool :=
  if decide (result = ReqOk) then
    match response with None => Undef | Some r => Ret (hr_status r =? 200)%Z end
  else Ret false.

(** the address and the port of the process; the status is not looked at *)
Definition praas_create_process (result : ReqResult) (response : option HttpResponse) : outcome (option (string * Z)) :=
  if decide (result = ReqOk) then
    match response with
    | None => Undef
    | Some r =>
        json_obj ← json_object r;
        ip_addr ← (v ← member "connection" json_obj; v ← member "ip-address" v; text v);
        port ← (v ← member "connection" json_obj; v ← member "port" v; json_lift (as_int v));
        Ret (Some (ip_addr, port))
    end
  else Ret None.

(** [sdk::ControlPlaneInvocationResult] *)
Record CpInvocationResult : Type := MkCpResult {
  cr_invocation_id : string; cr_return_code : Z; cr_response : string; cr_error_message : string;
}.

Definition praas_invoke (result : ReqResult) (response : option HttpResponse) : outcome CpInvocationResult :=
  match response with
  | None => Undef
  | Some r =>
      if bool_decide (result <> ReqOk) || negb (hr_status r =? 200)%Z then
        json ← json_object r;
        reason ← (v ← member "reason" json; text v);
        Ret {| cr_invocation_id := EmptyString; cr_return_code := 1; cr_response := EmptyString; cr_error_message := reason |}
      else
        json ← json_object r;
        id ← (v ← member "invocation_id" json; text v);
        code ← (v ← member "return_code" json; json_lift (as_int v));
        res ← (v ← member "result" json; text v);
        Ret (if (code <? 0)%Z
             then {| cr_invocation_id := id; cr_return_code := code; cr_response := EmptyString; cr_error_message := res |}
             else {| cr_invocation_id := id; cr_return_code := code; cr_response := res; cr_error_message := EmptyString |})
  end.
End praas.

(** ** What a client and a process do together *)

(** the registration of a client *)
Definition sdk_registration : mem := from_ret [] (encode (WProcessConnection "DATAPLANE")).

Lemma sdk_registration_parse :
  exists m, parse sdk_registration = Ret (VProcessConnection m) /\ sv_str (process_name m) = "DATAPLANE".
Proof. eexists. split; [vm_compute; reflexivity|vm_compute; reflexivity]. Qed.

Lemma length_sdk_registration : length sdk_registration = BUF_SIZE.
Proof. vm_compute. reflexivity. Qed.

Lemma overlay_all bs m : length m <= length bs -> overlay bs m = bs.
Proof. intros. unfold overlay. rewrite drop_ge by done. apply app_nil_r. Qed.

(** the request of an invocation, as the client builds it *)
Lemma sdk_request_header f id n :
  cview NAME_LENGTH f -> cview ID_LENGTH id -> (0 <= n < 2 ^ 31)%Z ->
  exists r1 r2 r3, set_function_name f InvocationRequestData = Ret r1 /\ set_invocation_id id r1 = Ret r2 /\
    set_payload_size n r2 = Ret r3 /\ length (bytes r3) = BUF_SIZE /\
    exists p, parse (bytes r3) = Ret (VInvocationRequest p) /\
      sv_str (function_name p) = sv_str f /\ sv_str (invocation_id p) = sv_str id /\ payload_size p = n.
Proof.
  intros Hf Hid Hn. unfold set_invocation_id, set_function_name, set_payload_size.
  assert (i32_range n) as Hn' by (unfold i32_range; lia).
  eexists _, _, _. rewrite (set_string_field_ok _ _ _ f) by assumption. split; [reflexivity|].
  cbn [mbind outcome_bind ireq_msg fname_len ireq_invocation_id_len].
  rewrite (set_string_field_ok _ _ _ id) by assumption. split; [reflexivity|].
  cbn [mbind outcome_bind ireq_msg fname_len ireq_invocation_id_len].
  rewrite (proj2 (Z.ltb_ge n 0)) by lia. split; [reflexivity|]. cbn. split; [msg_len|].
  msg_parse INVOCATION_REQUEST.
  unfold function_name, invocation_id, payload_size; cbn. rewrite !sv_str_sv_at.
  msg_read. now rewrite !signed_le_bytes.
Qed.

Section clients.
Context `{HA : Allocator} `{HL : SockppLaws}.

(** *** The operations of a connected socket *)
Definition sp_in (p : SdkProcess) : list byte := sock_in (sp_dataplane p).
Definition sp_out (p : SdkProcess) : list byte := sock_out (sp_dataplane p).
Definition sp_connected (p : SdkProcess) : Prop := sock_is_connected (sp_dataplane p) = true.

Lemma write_n_connected bs p :
  sp_connected p ->
  exists p', write_n bs p = (Ret tt, p') /\ sp_connected p' /\ sp_out p' = sp_out p ++ bs /\ sp_in p' = sp_in p.
Proof.
  intros Hc. destruct (sock_written bs (sp_dataplane p) Hc) as (H1 & H2 & H3).
  eexists. split; [reflexivity|]. done.
Qed.

Lemma read_n_connected n bs rest p :
  sp_connected p -> sp_in p = bs ++ rest -> length bs = n ->
  exists p', read_n n p = (Ret bs, p') /\ sp_connected p' /\ sp_out p' = sp_out p /\ sp_in p' = rest.
Proof.
  intros Hc Hin Hn. destruct (sock_read n (sp_dataplane p) Hc) as (H1 & H2 & H3 & H4).
  unfold read_n, on_dataplane. destruct (sock_read_n n (sp_dataplane p)) as [r c]. cbn in H1, H2, H3, H4.
  unfold sp_in in Hin. rewrite Hin in H1, H2. rewrite take_app_length' in H1 by done.
  rewrite drop_app_length' in H2 by done. subst r. eexists. split; [reflexivity|]. done.
Qed.

(** the end of [sdk_invoke]: the reply is read and taken apart *)
Definition sdk_result (r : InvocationResult) (body : list byte) : SdkResult :=
  if (return_code r <? 0)%Z
  then {| sr_return_code := - return_code r; sr_payload := None; sr_payload_len := 0; sr_error_message := body |}
  else {| sr_return_code := return_code r; sr_payload := if 0 <? length body then Some body else None;
          sr_payload_len := Z.of_nat (length body); sr_error_message := [] |}.

Lemma sdk_invoke_reply f id data p reply r body rest :
  cview NAME_LENGTH f -> cview ID_LENGTH id -> (Z.of_nat (length data) < 2 ^ 31)%Z ->
  sp_connected p -> sp_in p = reply ++ body ++ rest -> length reply = BUF_SIZE ->
  parse reply = Ret (VInvocationResult r) -> total_length r = Z.of_nat (length body) ->
  (Z.of_nat (length body) < 2 ^ 31)%Z -> return_code r <> (- 2 ^ 31)%Z ->
  exists p' hdr m, sdk_invoke f id data p = (Ret (sdk_result r body), p') /\
    sp_out p' = sp_out p ++ hdr ++ data /\ sp_in p' = rest /\ sp_connected p' /\ length hdr = BUF_SIZE /\
    parse hdr = Ret (VInvocationRequest m) /\ sv_str (function_name m) = sv_str f /\
    sv_str (invocation_id m) = sv_str id /\ payload_size m = Z.of_nat (length data).
Proof.
  intros Hf Hid Hd Hc Hin Hrl Hr Ht Hb Hcode.
  destruct (sdk_request_header f id (Z.of_nat (length data)) Hf Hid ltac:(lia))
    as (r1 & r2 & r3 & E1 & E2 & E3 & Hl & m & Hm & Hm1 & Hm2 & Hm3).
  unfold sdk_invoke. erewrite M_bind_eq by reflexivity. rewrite Hc. cbn [negb].
  rewrite E1. erewrite M_bind_eq by reflexivity. rewrite E2. erewrite M_bind_eq by reflexivity.
  rewrite wrap_i32_id by (unfold i32_range; lia). rewrite E3. erewrite M_bind_eq by reflexivity.
  destruct (write_n_connected (bytes r3) p Hc) as (p1 & W1 & Hc1 & Ho1 & Hi1).
  rewrite (M_bind_eq _ _ _ _ _ W1).
  assert (exists p2, (if 0 <? length data then write_n data else mret tt) p1 = (Ret tt, p2) /\ sp_connected p2 /\
    sp_out p2 = sp_out p1 ++ data /\ sp_in p2 = sp_in p1) as (p2 & W2 & Hc2 & Ho2 & Hi2).
  { destruct data as [|x data]; [|now apply write_n_connected].
    exists p1. rewrite app_nil_r. now split_and!. }
  rewrite (M_bind_eq _ _ _ _ _ W2).
  destruct (read_n_connected BUF_SIZE reply (body ++ rest) p2 Hc2 ltac:(congruence) Hrl) as (p3 & R3 & Hc3 & Ho3 & Hi3).
  rewrite (M_bind_eq _ _ _ _ _ R3). rewrite overlay_all by (rewrite Hrl; reflexivity).
  rewrite Hr. erewrite M_bind_eq by reflexivity. cbn beta iota zeta. rewrite Ht, wrap_u64_id by (unfold u64_range; lia).
  assert (exists p4, (if (0 <? Z.of_nat (length body))%Z then
      if (Z.of_nat (length body) <? 2 ^ 63)%Z then
        read ← read_n (Z.to_nat (Z.of_nat (length body)));
        mret (Some (overlay read (Buffers.fresh (Z.to_nat (Z.of_nat (length body))))))
      else throw (StdException "std::bad_array_new_length")
    else mret None) p3 = (Ret (if 0 <? length body then Some body else None), p4) /\ sp_connected p4 /\
    sp_out p4 = sp_out p3 /\ sp_in p4 = rest) as (p4 & R4 & Hc4 & Ho4 & Hi4).
  { destruct body as [|x body]; [exists p3; now split_and!|].
    rewrite (proj2 (Z.ltb_lt 0 _)), (proj2 (Z.ltb_lt _ (2 ^ 63))), Nat2Z.id by (cbn [length] in *; lia).
    destruct (read_n_connected _ (x :: body) rest p3 Hc3 Hi3 eq_refl) as (p4 & R4 & Hc4 & Ho4 & Hi4).
    exists p4. rewrite (M_bind_eq _ _ _ _ _ R4), overlay_all by now rewrite Buffers.length_fresh. now split_and!. }
  rewrite (M_bind_eq _ _ _ _ _ R4).
  exists p4, (bytes r3), m. split_and!; auto.
  - unfold sdk_result. destruct (Z.ltb_spec (return_code r) 0); [|reflexivity].
    destruct (Z.eqb_spec (return_code r) (- 2 ^ 31)); [done|]. unfold mret, M_ret. repeat f_equal; [lia|].
    now destruct body.
  - now rewrite Ho4, Ho3, Ho2, Ho1, app_assoc.
Qed.

(** ** Properties *)

(** [connect] of a client sends one registration, and returns true when it
    is acknowledged.  The process that receives the registration acknowledges
    it, but under the name "DATAPLANE": it takes the client for another
    process, and its own data plane (the connection "DATA_PLANE") stays as it
    was. *)
Theorem sdk_connect_registers p c rest :
  sock_connect (sp_addr p) (sp_dataplane p) = (true, c) -> sock_in c = ack ++ rest ->
  exists p', sdk_connect p = (Ret true, p') /\ sp_in p' = rest /\ sp_connected p' /\
    forall t s, ts_contexts s !! t = None -> ts_connection_data s !! "DATAPLANE" = None ->
      exists s' l conn, handle_bytes t (s, sp_out p') = (Ret tt, (s', [])) /\
        sent_on t s' = sent_on t s ++ ack /\ conn_at t l PROCESS (Some "DATAPLANE") conn s' /\
        ts_data_plane s' = ts_data_plane s.
Proof.
  intros Hc Hin. destruct (sock_connected _ _ _ Hc) as [Hconn Hout].
  unfold sdk_connect. erewrite M_bind_eq by reflexivity.
  erewrite M_bind_eq by (unfold on_dataplane; rewrite Hc; reflexivity). cbn [negb].
  erewrite M_bind_eq by reflexivity.
  set (p0 := {| sp_addr := sp_addr p; sp_dataplane := c |}).
  destruct (write_n_connected sdk_registration p0 Hconn) as (p1 & W1 & Hc1 & Ho1 & Hi1).
  rewrite (M_bind_eq _ _ _ _ _ W1).
  destruct (read_n_connected BUF_SIZE ack rest p1 Hc1 ltac:(rewrite Hi1; exact Hin) length_ack)
    as (p2 & R2 & Hc2 & Ho2 & Hi2).
  rewrite (M_bind_eq _ _ _ _ _ R2), length_ack. change (negb (BUF_SIZE =? BUF_SIZE)) with false. cbv beta iota.
  rewrite overlay_all by (rewrite length_ack; reflexivity).
  destruct ack_parse as (m & Hm & Hn). rewrite Hm. erewrite M_bind_eq by reflexivity. cbv beta iota. rewrite Hn.
  exists p2. split_and!; auto. intros t s Ht Hd. unfold p0 in Ho1. unfold sp_out in Ho1 at 2. cbn in Ho1.
  rewrite Hout in Ho1. rewrite Ho2, Ho1. cbn [app].
  destruct sdk_registration_parse as (m' & Hm' & Hn').
  destruct (handle_connection_new t m' s) as (s' & l & E & Hx & Hh & _ & Hdp & Hs); rewrite ?Hn'; try done.
  exists s', l. eexists. rewrite (handle_registration t s _ m') by auto using length_sdk_registration. rewrite E.
  split; [reflexivity|]. split; [done|]. split; [|done].
  unfold conn_at. rewrite Hx, Hh, Hn', lookup_insert_eq. now split_and!.
Qed.

(** C29: a round trip of [invoke]: what the client sends is one request, of which
    the process's decoder makes one call, from the process "DATAPLANE", with the
    function's name, the invocation's id and the bytes of the payload; and when
    the process answers it, the client returns the code and the bytes of the
    answer, or for a negative code its absolute value and the bytes as the
    error message. *)
Theorem sdk_invoke_roundtrip f id data p rest s l conn t rid code payload :
  cview NAME_LENGTH f -> cview ID_LENGTH id -> (Z.of_nat (length data) < 2 ^ 31)%Z -> sp_connected p ->
  result_recipient PROCESS (Some "DATAPLANE") s = Some l -> ts_heap s !! l = Some conn -> cn_conn conn = Some t ->
  cview ID_LENGTH rid -> (- 2 ^ 31 < code < 2 ^ 31)%Z -> length (accessor_data payload) = acc_len payload ->
  (Z.of_nat (acc_len payload) < 2 ^ 31)%Z ->
  exists answer s', tcp_invocation_result PROCESS (Some "DATAPLANE") rid code payload s = (Ret tt, s') /\
    sent_on t s' = sent_on t s ++ answer /\
    (sp_in p = answer ++ rest ->
     exists p' request hdr m,
       sdk_invoke f id data p =
         (Ret (if (code <? 0)%Z then MkSdkResult (- code) None 0 (accessor_data payload)
               else MkSdkResult code (if 0 <? acc_len payload then Some (accessor_data payload) else None)
                      (Z.of_nat (acc_len payload)) []), p') /\
       sp_out p' = sp_out p ++ request /\ sp_in p' = rest /\
       decode_stream PROCESS (Some "DATAPLANE") request =
         ([CallRemote hdr {| buf_ptr := Some data; buf_size := length data; buf_len := length data |} "DATAPLANE"],
          [], Ret tt) /\
       parse hdr = Ret (VInvocationRequest m) /\ sv_str (function_name m) = sv_str f /\
       sv_str (invocation_id m) = sv_str id).
Proof.
  intros Hf Hid Hd Hc Hrec Hl Ht Hrid Hcode Hpay Hlt.
  pose proof (invocation_result_sent PROCESS (Some "DATAPLANE") rid code payload s Hrid
    ltac:(unfold i32_range; lia) Hpay Hlt) as Hsent.
  rewrite Hrec in Hsent. specialize (Hsent conn Hl). rewrite Ht in Hsent.
  destruct Hsent as (rh & s' & E & Hs & Hrl & r & Hr & _ & Hrc & Htl).
  exists (rh ++ accessor_data payload), s'. split_and!; auto. rewrite <-app_assoc. intros Hin.
  destruct (sdk_invoke_reply f id data p rh r (accessor_data payload) rest) as
    (p' & hdr & m & Ei & Ho & Hi & _ & Hhl & Hm & Hm1 & Hm2 & Hm3); auto; try congruence; try lia.
  exists p', (hdr ++ data), hdr, m. split_and!; auto.
  - rewrite Ei. unfold sdk_result. now rewrite Hrc, Hpay.
  - rewrite decode_stream_eq, length_app, Hhl, (proj2 (Nat.ltb_ge _ _)) by lia.
    rewrite take_app_length', drop_app_length' by done. rewrite Hm. cbn [announced]. rewrite Hm3.
    rewrite wrap_u64_id by (unfold u64_range; lia). rewrite (proj2 (Z.leb_le _ _)) by lia.
    rewrite Nat2Z.id, drop_ge by lia. rewrite decode_stream_short by (cbn; unfold BUF_SIZE; lia).
    cbn [addressee and_then app]. unfold payload_buffer. now rewrite take_ge by lia.
Qed.
End clients.

(** Two clients connected to one process share the entry "DATAPLANE": the
    requests of both count as sent by it, and the results for both, the first
    one's too, go to the client that connected last. *)
Theorem sdk_clients_merge t1 t2 s :
  t1 <> t2 -> ts_contexts s !! t1 = None -> ts_contexts s !! t2 = None ->
  ts_connection_data s !! "DATAPLANE" = None ->
  exists s1 s2 l c, handle_bytes t1 (s, sdk_registration) = (Ret tt, (s1, [])) /\
    handle_bytes t2 (s1, sdk_registration) = (Ret tt, (s2, [])) /\
    conn_at t1 l PROCESS (Some "DATAPLANE") c s2 /\ conn_at t2 l PROCESS (Some "DATAPLANE") c s2 /\
    result_recipient PROCESS (Some "DATAPLANE") s2 = Some l /\ cn_conn c = Some t2.
Proof.
  intros Hne H1 H2 Hn. destruct sdk_registration_parse as (m & Hm & Hname). rewrite <-Hname.
  apply registrations_merge; rewrite ?Hname; auto using length_sdk_registration; done.
Qed.

(** ** A concrete socket: the bytes that arrive and those that were sent *)
Record plain_socket : Type := MkPlain { ps_connected : bool; ps_in : list byte; ps_out : list byte }.

#[export] Instance plain_sockpp : Sockpp := {|
  connector := plain_socket;
  sock_connect _ c := (true, MkPlain true (ps_in c) []);
  sock_is_connected := ps_connected;
  sock_write_n bs c := MkPlain (ps_connected c) (ps_in c) (ps_out c ++ bs);
  sock_read_n n c := (take n (ps_in c), MkPlain (ps_connected c) (drop n (ps_in c)) (ps_out c));
  sock_close c := MkPlain false (ps_in c) (ps_out c);
|}.
#[export] Program Instance plain_sockpp_laws : SockppLaws plain_sockpp := {| sock_in := ps_in; sock_out := ps_out |}.
Next Obligation. now intros a c c' [= <-]. Qed.
Next Obligation. auto. Qed.
Next Obligation. auto. Qed.

(** ** Witnesses *)
Lemma sdk_connect_registers_witness :
  let p := MkSdkProcess ("10.0.0.2", 8000%Z) (MkPlain false (ack ++ [x61]) []) in
  exists p', sdk_connect p = (Ret true, p') /\ sp_in p' = [x61] /\ sp_connected p' /\
    forall t s, ts_contexts s !! t = None -> ts_connection_data s !! "DATAPLANE" = None ->
      exists s' l conn, handle_bytes t (s, sp_out p') = (Ret tt, (s', [])) /\
        sent_on t s' = sent_on t s ++ ack /\ conn_at t l PROCESS (Some "DATAPLANE") conn s' /\
        ts_data_plane s' = ts_data_plane s.
Proof.
  exact (sdk_connect_registers (MkSdkProcess ("10.0.0.2", 8000%Z) (MkPlain false (ack ++ [x61]) []))
    (MkPlain true (ack ++ [x61]) []) [x61] eq_refl eq_refl).
Defined.

Definition demo_client : Connection := Connection_make CONNECTED PROCESS (Some "DATAPLANE") (Some 0).
Definition demo_process : TCPServer := set_ts_connection_data {["DATAPLANE" := 0]} (demo_server demo_client).
Definition demo_answer : list byte :=
  from_ret [] (encode (WInvocationResult "id" 3 1)) ++ [x62].

Lemma sdk_invoke_roundtrip_witness :
  let p := MkSdkProcess ("10.0.0.2", 8000%Z) (MkPlain true demo_answer []) in
  exists answer s', tcp_invocation_result PROCESS (Some "DATAPLANE") (sv_of_string "id") 3
      (accessor_of (buffer_of_bytes [x62])) demo_process = (Ret tt, s') /\
    sent_on 0 s' = answer /\
    (demo_answer = answer ++ [] ->
     exists p' request hdr m,
       sdk_invoke (sv_of_string "f") (sv_of_string "id") [x61] p =
         (Ret (MkSdkResult 3 (Some [x62]) 1 []), p') /\
       sp_out p' = request /\ sp_in p' = [] /\
       decode_stream PROCESS (Some "DATAPLANE") request =
         ([CallRemote hdr {| buf_ptr := Some [x61]; buf_size := 1; buf_len := 1 |} "DATAPLANE"], [], Ret tt) /\
       parse hdr = Ret (VInvocationRequest m) /\ sv_str (function_name m) = "f" /\
       sv_str (invocation_id m) = "id").
Proof.
  exact (sdk_invoke_roundtrip (sv_of_string "f") (sv_of_string "id") [x61]
    (MkSdkProcess ("10.0.0.2", 8000%Z) (MkPlain true demo_answer [])) [] demo_process 0 demo_client 0
    (sv_of_string "id") 3 (accessor_of (buffer_of_bytes [x62]))
    ltac:(now apply cview_sample) ltac:(now apply cview_sample) ltac:(cbn; lia) eq_refl eq_refl eq_refl eq_refl
    ltac:(now apply cview_sample) ltac:(lia) eq_refl ltac:(cbn; lia)).
Defined.

Lemma sdk_clients_merge_witness :
  let s := TCPServer_ctor "me" in
  exists s1 s2 l c, handle_bytes 1 (s, sdk_registration) = (Ret tt, (s1, [])) /\
    handle_bytes 2 (s1, sdk_registration) = (Ret tt, (s2, [])) /\
    conn_at 1 l PROCESS (Some "DATAPLANE") c s2 /\ conn_at 2 l PROCESS (Some "DATAPLANE") c s2 /\
    result_recipient PROCESS (Some "DATAPLANE") s2 = Some l /\ cn_conn c = Some 2.
Proof. exact (sdk_clients_merge 1 2 (TCPServer_ctor "me") ltac:(done) eq_refl eq_refl eq_refl). Defined.
