(* ===== verification/Startup.v ===== *)
(** * Startup: from the environment of a container to a registered process

    [process/controller/src/config.cpp], the start of [main] in
    [process/controller/src/cli.cpp] and the address in [TCPServer::poll] of
    [remote.cpp]: the configuration of the controller comes from a JSON file or
    from the defaults, and the environment overrides it; the server then
    connects to the control plane.  The JSON archive is the class of Config.v;
    an [int], [bool] or enumeration that is not initialised is [None]. *)

From S2P Require Import Prelude Http Memory Messages Buffers Functions WorkQueue Controller Remote Serving Backend CpProcess CpApplication CpServer CpInvariant CpProtocol Config.
From stdpp Require Import pretty.

(** [runtime/internal/ipc.cpp] *)
Inductive IPCMode : Type := POSIX_MQ | IPC_NONE.
Definition ipc_deserialize (mode : string) : IPCMode := if decide (mode = "posix_mq") then POSIX_MQ else IPC_NONE.

(** [config::Code] and [config::Controller] *)
Record CodeCfg : Type := MkCodeCfg {
  cc_location : string; cc_config_location : string; cc_language : option Language; cc_language_runtime_path : string;
}.
Record ControllerCfg : Type := MkControllerCfg {
  pc_port : option Z; pc_verbose : option bool; pc_function_workers : option Z;
  pc_ipc_mode : option IPCMode; pc_ipc_message_size : option Z; pc_ipc_name_prefix : string;
  pc_deployment_location : string; pc_process_id : string; pc_control_plane_addr : option string;
  pc_code : CodeCfg;
}.

(** [Controller cfg;] *)
Definition CodeCfg_ctor : CodeCfg :=
  {| cc_location := EmptyString; cc_config_location := EmptyString; cc_language := None;
     cc_language_runtime_path := EmptyString |}.
Definition ControllerCfg_ctor : ControllerCfg :=
  {| pc_port := None; pc_verbose := None; pc_function_workers := None; pc_ipc_mode := None; pc_ipc_message_size := None;
     pc_ipc_name_prefix := EmptyString; pc_deployment_location := EmptyString; pc_process_id := EmptyString;
     pc_control_plane_addr := None; pc_code := CodeCfg_ctor |}.

(** ** Defaults and the environment *)
Definition Code_defaults : CodeCfg :=
  {| cc_location := "/code"; cc_config_location := "config.json"; cc_language := Some CPP;
     cc_language_runtime_path := EmptyString |}.
Definition Controller_set_defaults (c : ControllerCfg) : ControllerCfg :=
  {| pc_port := Some 8080%Z; pc_function_workers := Some 1%Z; pc_verbose := Some false; pc_ipc_mode := Some POSIX_MQ;
     pc_ipc_message_size := Some (8 * 1024)%Z; pc_process_id := "TEST_PROCESS_ID"; pc_deployment_location := EmptyString;
     pc_ipc_name_prefix := EmptyString; pc_control_plane_addr := pc_control_plane_addr c; pc_code := Code_defaults |}.

(** [getenv] of an environment *)
Definition Code_load_env (getenv : string -> option string) (c : CodeCfg) : CodeCfg :=
  {| cc_location := default (cc_location c) (getenv "CODE_LOCATION");
     cc_config_location := default (cc_config_location c) (getenv "CONFIG_LOCATION");
     cc_language := cc_language c; cc_language_runtime_path := cc_language_runtime_path c |}.
Definition Controller_load_env (getenv : string -> option string) (c : ControllerCfg) : ControllerCfg :=
  {| pc_port := pc_port c; pc_verbose := pc_verbose c; pc_function_workers := pc_function_workers c;
     pc_ipc_mode := pc_ipc_mode c; pc_ipc_message_size := pc_ipc_message_size c;
     pc_ipc_name_prefix := pc_ipc_name_prefix c; pc_deployment_location := pc_deployment_location c;
     pc_process_id := default (pc_process_id c) (getenv "PROCESS_ID");
     pc_control_plane_addr :=
       match getenv "CONTROLPLANE_ADDR" with Some a => Some a | None => pc_control_plane_addr c end;
     pc_code := Code_load_env getenv (pc_code c) |}.

(** ** The file *)
Section load.
Context `{JSONInputArchive}.

Definition Code_load (c : CodeCfg) (a : archive) : outcome CodeCfg :=
  location ← load_string a "location";
  config_location ← load_string a "configuration-location";
  language ← load_string a "language";
  Ret {| cc_location := location; cc_config_location := config_location;
         cc_language := Some (string_to_language language);
         cc_language_runtime_path := cc_language_runtime_path c |}.

Definition Controller_load (c : ControllerCfg) (a : archive) : outcome ControllerCfg :=
  port ← load_int a "port";
  verbose ← load_bool a "verbose";
  function_workers ← load_int a "function_workers";
  _ ← load_string a "process_id";
  mode ← load_string a "ipc-mode";
  ipc_message_size ← load_int a "ipc-message-size";
  code ← (node ← load_node a "code"; Code_load (pc_code c) node);
  process_id ← load_string a "process_id";
  Ret {| pc_port := Some port; pc_verbose := Some verbose; pc_function_workers := Some function_workers;
         pc_ipc_mode := Some (ipc_deserialize mode); pc_ipc_message_size := Some ipc_message_size;
         pc_ipc_name_prefix := pc_ipc_name_prefix c; pc_deployment_location := pc_deployment_location c;
         pc_process_id := process_id; pc_control_plane_addr := pc_control_plane_addr c; pc_code := code |}.

Definition Controller_deserialize (a : archive) : outcome ControllerCfg := Controller_load ControllerCfg_ctor a.

(** the configuration in [main]: the file of the command line, if there is one,
    then the environment *)
Definition main_config (file : option archive) (getenv : string -> option string) : outcome ControllerCfg :=
  config ← match file with
    | Some a => Controller_deserialize a
    | None => Ret (Controller_set_defaults ControllerCfg_ctor)
    end;
  Ret (Controller_load_env getenv config).
End load.

(** ** The control plane's address *)

(** [address.substr(0, pos)] and [stoi(address.substr(pos + 1, npos))]; without
    a colon [pos] is [npos], and [pos + 1] is 0 *)
Definition poll_address (addr : string) : outcome (string * Z) :=
  let '(address, rest) :=
    match String.index 0 ":" addr with
    | Some pos => (String.substring 0 pos addr, String.substring (pos + 1) (String.length addr - (pos + 1)) addr)
    | None => (addr, addr)
    end in
  port ← stoi rest;
  Ret (address, port).

(** [poll(control_plane_address)]: the connection that was started, if any *)
Definition tcp_poll (control_plane_address : option string) : M TCPServer (option nat) :=
  match control_plane_address with
  | None => mret None
  | Some addr =>
      a ← lift (poll_address addr);
      l ← poll_control_plane a.1 a.2;
      mret (Some l)
  end.

(** [main] up to the connection: the server and the connection it started *)
Definition main_server `{JSONInputArchive} (file : option archive) (getenv : string -> option string)
    : outcome (option nat * TCPServer) :=
  config ← main_config file getenv;
  let '(r, s) := tcp_poll (pc_control_plane_addr config) (TCPServer_ctor (pc_process_id config)) in
  l ← r;
  Ret (l, s).

(** ** The environment of a container *)

(** the variables a container is created with, as a list of [NAME=value] *)
Definition env_entry (kv : string * string) : string := kv.1 +:+ "=" +:+ kv.2.

(** [getenv] inside a container that was created with these entries *)
Class Containers : Type := { container_getenv : list string -> string -> option string }.
Class ContainersLaws `(Containers) : Prop := {
  container_getenv_entry l k v : NoDup l.*1 -> Forall (fun kv : string * string => contains "=" kv.1 = false) l ->
    (k, v) ∈ l -> container_getenv (env_entry <$> l) k = Some v;
}.

(** what the back ends ask for: the address of the control plane and the name *)
Definition process_env (addr process : string) : list (string * string) :=
  [("CONTROLPLANE_ADDR", addr); ("PROCESS_ID", process)].

Lemma create_request_env `{JsonCpp} o process image addr :
  dr_body (create_request o process image addr) =
    Some (jobject (configure_ports o [("Image", jstring image);
      ("Env", jarray (jstring <$> (env_entry <$> process_env addr process)))])).
Proof. reflexivity. Qed.

Lemma process_env_lookup `{ContainersLaws} addr process :
  container_getenv (env_entry <$> process_env addr process) "CONTROLPLANE_ADDR" = Some addr /\
  container_getenv (env_entry <$> process_env addr process) "PROCESS_ID" = Some process.
Proof.
  assert (NoDup (process_env addr process).*1) as Hd by (apply (bool_decide_unpack _); vm_compute; exact I).
  assert (Forall (fun kv => contains "=" kv.1 = false) (process_env addr process)) as Hf by now repeat constructor.
  split; apply container_getenv_entry; auto; [left|right; left].
Qed.

(** ** The address *)
Lemma append_nil t : "" +:+ t = t.
Proof. reflexivity. Qed.
Lemma append_cons a s t : String a s +:+ t = String a (s +:+ t).
Proof. reflexivity. Qed.

Lemma index_app c s t :
  contains (String c EmptyString) s = false ->
  String.index 0 (String c EmptyString) (s +:+ String c t) = Some (String.length s).
Proof.
  unfold contains. induction s as [|a s IH].
  - intros _. rewrite append_nil. cbn. destruct (Ascii.ascii_dec c c); [|congruence]. now destruct t.
  - rewrite append_cons. cbn. destruct (Ascii.ascii_dec c a) as [->|Hne]; [now destruct s|].
    destruct (String.index 0 (String c "") s) eqn:E; [discriminate|]. intros _. now rewrite IH.
Qed.

Lemma substring_0_app s t : String.substring 0 (String.length s) (s +:+ t) = s.
Proof. induction s as [|a s IH]; [now destruct t|]. rewrite append_cons. cbn. now rewrite IH. Qed.

Lemma sdrop_app s c t : sdrop (String.length s + 1) (s +:+ String c t) = t.
Proof. induction s as [|a s IH]; [reflexivity|]. rewrite append_cons. cbn. apply IH. Qed.

Lemma length_append s t : String.length (s +:+ t) = String.length s + String.length t.
Proof. induction s as [|a s IH]; [reflexivity|]. rewrite append_cons. cbn. auto. Qed.

Lemma pretty_of_N (n : N) : pretty (Z.of_N n) = pretty n.
Proof. now destruct n. Qed.

Lemma poll_address_app ip (port : N) :
  contains ":" ip = false -> (Z.of_N port < 2 ^ 31)%Z ->
  poll_address (ip +:+ ":" +:+ pretty port) = Ret (ip, Z.of_N port).
Proof.
  intros Hip Hport. unfold poll_address. change (":" +:+ pretty port) with (String (Ascii.ascii_of_nat 58) (pretty port)).
  rewrite index_app by done. rewrite substring_0_app, substring_sdrop, sdrop_app.
  rewrite length_append. cbn [String.length].
  replace (_ + S _ - _) with (String.length (pretty port)) by lia.
  rewrite substring_full, stoi_pretty by done. reflexivity.
Qed.

(** ** At the control plane: the registration arrives *)
Section registration.
Context `{UuidGenerator} `{StdStod} `{CpConfig}.

Lemma cp_receive_registration t now w d m w' :
  w_contexts w !! t = None -> length d = BUF_SIZE -> parse d = Ret (VProcessConnection m) ->
  cp_handle_connection t m w = (Ret tt, w') -> cp_receive t now (w, d) = (Ret tt, (w', [])).
Proof.
  intros Ht Hlen Hm E. unfold cp_receive. erewrite M_bind_eq by reflexivity. cbn [cp_handle_message snd].
  erewrite M_bind_eq by reflexivity. cbn [fst]. rewrite Ht. erewrite M_bind_eq by reflexivity. cbn [snd].
  rewrite Hlen, (proj2 (Nat.ltb_ge _ _)) by lia. rewrite take_ge by lia. rewrite Hm.
  erewrite M_bind_eq by reflexivity. unfold mbind, M_bind, CpServer.on_world, zoom. cbn [fst snd]. rewrite E.
  unfold CpServer.retrieve, modify, CpServer.peek, gets. rewrite drop_ge by lia. reflexivity.
Qed.

(** a process that was waited for is connected and gets its invocations *)
Lemma cp_handle_connection_run p t m w x :
  w_pending_processes w !! sv_str (process_name m) = Some p ->
  w_heap w !! p = Some x -> process_ok x -> pr_status x = ALLOCATING ->
  Forall invocation_ok (pr_invocations x ++ callback_invocation (w_uuids w) x) ->
  exists w' hdrs x', cp_handle_connection t m w = (Ret tt, w') /\
    let all := pr_invocations x ++ callback_invocation (w_uuids w) x in
    Forall2 invocation_frame all hdrs /\ sent_to t w' = sent_to t w ++ invocation_stream hdrs all /\
    decode_stream CONTROL_PLANE None (invocation_stream hdrs all) = (zip_with invocation_call hdrs all, [], Ret tt) /\
    w_heap w' !! p = Some x' /\ pr_status x' = ALLOCATED /\ pr_invocations x' = set_submitted <$> all.
Proof.
  intros Hp Hx Hok Hs Hall. unfold cp_handle_connection. erewrite M_bind_eq by reflexivity. rewrite Hp.
  erewrite M_bind_eq by reflexivity. erewrite M_bind_eq by reflexivity.
  match goal with |- context [(deref p ≫= _) ?w0] => set (w1 := w0) end.
  assert (w_heap w1 !! p = Some x) as Hx1 by exact Hx.
  rewrite (M_bind_eq _ _ _ _ _ (deref_some _ _ _ Hx1)). erewrite M_bind_eq by reflexivity.
  match goal with |- context [(process_connect p t ≫= _) ?w0] => set (w2 := w0) end.
  destruct (process_connect_run p t w2 x) as (w' & hdrs & x' & E & Hf & Hsent & Hdec & Hx' & Hst & Hinv); auto.
  rewrite (M_bind_eq _ _ _ _ _ E). eexists _, hdrs, x'. split; [reflexivity|]. split_and!; auto.
Qed.
End registration.

(** ** At the process: what the control plane sends is given to the controller *)
Lemma control_plane_connected_run l t s c n :
  Remote.ts_heap s !! l = Some c -> cn_type c = CONTROL_PLANE -> cn_id c = None -> cn_bytes_to_read c = 0%Z ->
  ts_process_id s = n -> fits NAME_LENGTH n ->
  exists s' reg, control_plane_connected l t s = (Ret tt, s') /\ sent_on t s' = sent_on t s ++ reg /\
    length reg = BUF_SIZE /\ (exists m, parse reg = Ret (VProcessConnection m) /\ sv_str (process_name m) = n) /\
    ts_calls s' = ts_calls s /\
    exists c', conn_at t l CONTROL_PLANE None c' s' /\ cn_bytes_to_read c' = 0%Z.
Proof.
  intros Hc Hty Hid Hz <- Hn. destruct (ProcessConnection_parse _ (cview_fits _ _ Hn)) as (r & Er & Hl & m & Hm & Hname).
  unfold control_plane_connected. erewrite M_bind_eq by reflexivity. rewrite Er. erewrite M_bind_eq by reflexivity.
  eexists _, (bytes r). split; [reflexivity|]. split_and!; [apply sent_on_send|done| |reflexivity|].
  - exists m. split; [done|]. now rewrite Hname, sv_str_of_string.
  - exists (set_cn_conn (Some t) c). unfold conn_at. cbn. rewrite lookup_insert_eq, lookup_alter_eq, Hc. now split_and!.
Qed.

Lemma handle_bytes_decoded t l type id c s b calls :
  conn_at t l type id c s -> cn_bytes_to_read c = 0%Z -> decode_stream type id b = (calls, [], Ret tt) ->
  exists s' b', handle_bytes t (s, b) = (Ret tt, (s', b')) /\ ts_calls s' = ts_calls s ++ calls.
Proof.
  intros Hat Hz Hd. destruct (read_delivers t l type id c s b Hat (or_introl Hz)) as (s' & b' & ks & o & E & Hk & Hr).
  rewrite Hz, Hd in Hr. cbn in Hr. destruct Hr as (-> & -> & _). eauto.
Qed.

(** ** The birth of a process *)
Section birth.
Context `{UuidGenerator} `{StdStod} `{CpConfig} `{JsonCppLaws} `{JSONInputArchive} `{ContainersLaws}.

(** the server of a process in a container that was created for it *)
Lemma container_main ip (port : N) process :
  contains ":" ip = false -> (port < 2 ^ 16)%N ->
  exists srv l, main_server None (container_getenv (env_entry <$> process_env (ip +:+ ":" +:+ pretty port) process)) =
      Ret (Some l, srv) /\
    ts_process_id srv = process /\ ts_connects srv = [(l, ip, Z.of_N port)] /\ ts_calls srv = [] /\ ts_sent srv = [] /\
    exists c, Remote.ts_heap srv !! l = Some c /\ cn_type c = CONTROL_PLANE /\ cn_id c = None /\ cn_bytes_to_read c = 0%Z.
Proof.
  intros Hip Hport. destruct (process_env_lookup (ip +:+ ":" +:+ pretty port) process) as [Ha Hi].
  unfold main_server, main_config. cbn [mbind outcome_bind].
  unfold Controller_load_env. cbn [pc_control_plane_addr pc_process_id]. rewrite Ha, Hi. cbn [default tcp_poll].
  rewrite poll_address_app by (done || lia). unfold tcp_poll.
  eexists _, _. split; [reflexivity|]. cbn. rewrite Z.mod_small by lia. split_and!; [reflexivity..|].
  eexists. rewrite lookup_insert_eq. split; [reflexivity|]. now split_and!.
Qed.

(** C7: the birth of a process, through all three programs: the control plane
    asks for a container, which is created with the address of the control
    plane and the name of the process in its environment; the controller that
    starts in it connects to that address and registers under that name; the
    control plane recognises the process it waits for, and sends it the
    invocations that were queued meanwhile, each of which reaches the
    controller with its function, id and payload, in order. *)
Theorem process_is_born process image ip (port : N) k sv p x t now w :
  process <> EmptyString -> fits NAME_LENGTH process -> contains ":" ip = false -> (port < 2 ^ 16)%N ->
  w_contexts w !! t = None -> w_pending_processes w !! process = Some p ->
  w_heap w !! p = Some x -> process_ok x -> pr_status x = ALLOCATING ->
  let all := pr_invocations x ++ callback_invocation (w_uuids w) x in
  Forall invocation_ok all ->
  exists sv' req entries srv l,
    create process (Some (allocation_body image ip (Z.of_N port))) k sv = (Ret tt, sv') /\
    sv_pending sv' = sv_pending sv ++ [(req, PCreate k process)] /\
    dr_body req = Some (jobject (configure_ports (sv_opts sv)
      [("Image", jstring image); ("Env", jarray (jstring <$> entries))])) /\
    main_server None (container_getenv entries) = Ret (Some l, srv) /\ ts_connects srv = [(l, ip, Z.of_N port)] /\
    forall t', exists srv1 w' hdrs x' srv2 b,
      control_plane_connected l t' srv = (Ret tt, srv1) /\
      cp_receive t now (w, sent_on t' srv1) = (Ret tt, (w', [])) /\
      w_heap w' !! p = Some x' /\ pr_status x' = ALLOCATED /\ pr_invocations x' = set_submitted <$> all /\
      Forall2 invocation_frame all hdrs /\
      sent_to t w' = sent_to t w ++ invocation_stream hdrs all /\
      handle_bytes t' (srv1, invocation_stream hdrs all) = (Ret tt, (srv2, b)) /\
      ts_calls srv2 = zip_with invocation_call hdrs all.
Proof.
  intros Hne Hfit Hip Hport Hctx Hpend Hx Hok Hst all Hall.
  destruct (container_main ip port process Hip Hport) as (srv & l & Em & Hpid & Hcon & Hcalls & Hsent0 & c & Hc & Hty & Hcid & Hz).
  pose proof (create_posts process image (ip +:+ ":" +:+ pretty (Z.of_N port)) k sv Hne) as Ec.
  rewrite pretty_of_N in Ec. eexists _, _, _, srv, l.
  split; [unfold allocation_body; rewrite pretty_of_N; exact Ec|].
  split; [reflexivity|]. split; [apply create_request_env|]. split; [exact Em|]. split; [exact Hcon|].
  intros t'. destruct (control_plane_connected_run l t' srv c process) as
    (srv1 & reg & Er & Hs1 & Hlen & (m & Hm & Hname) & Hk1 & c' & Hat & Hz'); auto.
  unfold sent_on in Hs1 at 2. rewrite Hsent0 in Hs1. cbn in Hs1.
  destruct (cp_handle_connection_run p t m w x) as (w' & hdrs & x' & E & Hf & Hw & Hdec & Hx' & Hst' & Hinv);
    rewrite ?Hname; auto.
  destruct (handle_bytes_decoded t' l CONTROL_PLANE None c' srv1 _ _ Hat Hz' Hdec) as (srv2 & b & Eb & Hk2).
  exists srv1, w', hdrs, x', srv2, b. rewrite Hs1, Hk2, Hk1, Hcalls.
  split_and!; auto. now apply (cp_receive_registration t now w reg m).
Qed.
End birth.

(** ** Witness *)

(** an entry cut at its first equals sign *)
Definition parse_entry (s : string) : string * string :=
  match String.index 0 "=" s with
  | Some pos => (String.substring 0 pos s, String.substring (pos + 1) (String.length s - (pos + 1)) s)
  | None => (s, EmptyString)
  end.

Lemma parse_env_entry kv : contains "=" kv.1 = false -> parse_entry (env_entry kv) = kv.
Proof.
  destruct kv as [k v]. intros Hk. unfold parse_entry, env_entry. cbn [fst snd] in *.
  change ("=" +:+ v) with (String (Ascii.ascii_of_nat 61) v).
  rewrite index_app by done. rewrite substring_0_app, substring_sdrop, sdrop_app, length_append. cbn [String.length].
  replace (_ + S _ - _) with (String.length v) by lia. now rewrite substring_full.
Qed.

(** a container that has the variables of its entries *)
#[export] Instance plain_containers : Containers | 10 :=
  {| container_getenv entries name := (list_to_map (parse_entry <$> entries) : gmap string string) !! name |}.
#[export] Instance plain_containers_laws : ContainersLaws plain_containers | 10.
Proof.
  split. intros l k v Hd Hf Hin. cbn. rewrite <-list_fmap_compose, (list_fmap_ext _ id).
  - rewrite list_fmap_id. now apply elem_of_list_to_map_1.
  - intros i kv Hi. cbn. apply parse_env_entry. eapply Forall_lookup_1 in Hf; eauto.
Qed.

#[local] Existing Instances demo_uuid demo_stod demo_config.
Definition demo_birth_world : World :=
  set_w_pending_processes {["proc" := 0]} (set_w_heap {[0 := demo_starting]} World_init).

Lemma process_is_born_witness :
  let all := pr_invocations demo_starting ++ callback_invocation 0 demo_starting in
  exists sv' req entries srv l,
    create "proc" (Some (allocation_body "image" "10.0.0.9" 8000)) 1 (Serving_ctor plain_options) = (Ret tt, sv') /\
    sv_pending sv' = [(req, PCreate 1 "proc")] /\
    dr_body req = Some (jobject (configure_ports plain_options
      [("Image", jstring "image"); ("Env", jarray (jstring <$> entries))])) /\
    main_server None (container_getenv entries) = Ret (Some l, srv) /\ ts_connects srv = [(l, "10.0.0.9", 8000%Z)] /\
    forall t', exists srv1 w' hdrs x' srv2 b,
      control_plane_connected l t' srv = (Ret tt, srv1) /\
      cp_receive 7 0 (demo_birth_world, sent_on t' srv1) = (Ret tt, (w', [])) /\
      w_heap w' !! 0 = Some x' /\ pr_status x' = ALLOCATED /\ pr_invocations x' = set_submitted <$> all /\
      Forall2 invocation_frame all hdrs /\
      sent_to 7 w' = invocation_stream hdrs all /\
      handle_bytes t' (srv1, invocation_stream hdrs all) = (Ret tt, (srv2, b)) /\
      ts_calls srv2 = zip_with invocation_call hdrs all.
Proof.
  exact (process_is_born "proc" "image" "10.0.0.9" 8000 1 (Serving_ctor plain_options) 0 demo_starting 7 0 demo_birth_world
    ltac:(discriminate) ltac:(split; [apply (bool_decide_unpack _); vm_compute; exact I|apply Nat.leb_le; reflexivity])
    eq_refl eq_refl eq_refl eq_refl eq_refl demo_starting_ok eq_refl demo_invocations_ok).
Defined.

(** an address without a port: the number at its front is taken for the port *)
Lemma address_without_port : poll_address "10.0.0.1" = Ret ("10.0.0.1", 10%Z).
Proof. vm_compute. reflexivity. Qed.
