(* ===== verification/Launch.v ===== *)
(** * Launch: the worker processes and their message queues

    The constructors of [FunctionWorker] and [Workers] in
    [process/controller/src/workers.cpp], opening and closing a queue in
    [runtime/src/internal/ipc.cpp], and the start of the worker in
    [process/invoker/cpp/opts.cpp] and the constructor of [Invoker]: the
    controller creates two queues for every worker and passes their common name
    on its command line, and the worker opens them.  The table of queue names is
    the kernel's ([mq_open(3)], [mq_unlink(3)], [mq_getattr(3)]), the parsing of
    a command line is cxxopts': both are classes.  [fork] and [execvp] are the
    start of a worker with its arguments. *)

From S2P Require Import Prelude Functions Startup.
From stdpp Require Import pretty.

(** what [mq_open] with [O_CREAT | O_EXCL] says *)
Inductive mq_opened : Type := MqOpened | MqExists | MqOpenError.

Class MqNamespace : Type := {
  mq_ns : Type;
  (** create a queue with messages of a size, open one and ask for the size, remove a name *)
  mq_create : string -> Z -> mq_ns -> mq_opened * mq_ns;
  mq_getattr : string -> mq_ns -> option Z;
  mq_unlink : string -> mq_ns -> bool * mq_ns;
}.
(** a kernel that does not refuse: the names are a map to the sizes *)
Class MqNamespaceLaws `(MqNamespace) : Type := {
  mq_names : mq_ns -> gmap string Z;
  mq_create_free n size ns : mq_names ns !! n = None ->
    exists ns', mq_create n size ns = (MqOpened, ns') /\ mq_names ns' = <[n := size]> (mq_names ns);
  mq_create_taken n size ns : is_Some (mq_names ns !! n) ->
    exists ns', mq_create n size ns = (MqExists, ns') /\ mq_names ns' = mq_names ns;
  mq_getattr_names n ns : mq_getattr n ns = mq_names ns !! n;
  mq_unlink_names n ns : is_Some (mq_names ns !! n) ->
    exists ns', mq_unlink n ns = (true, ns') /\ mq_names ns' = delete n (mq_names ns);
}.

(** ** Queues *)
Section queues.
Context `{MqNamespace}.

(** the name of an open channel, whether it created it, the size of its messages *)
Record MqHandle : Type := MkHandle { mh_name : string; mh_created : bool; mh_open : bool; mh_msg_size : Z }.

(** a failed [assert_other] ends the program *)
Definition exit_failure : exn := StdException "exit".

(** a call of the kernel *)
Definition kernel {A} (f : mq_ns -> A * mq_ns) : M mq_ns A := fun ns => let '(a, ns') := f ns in (Ret a, ns').

(** [POSIXMQChannel(queue_name, direction, send, create, message_size)]; a queue
    left over under the name is removed first *)
Definition open_channel (queue_name : string) (create : bool) (message_size : Z) : M mq_ns MqHandle :=
  if create then
    let opened := {| mh_name := queue_name; mh_created := true; mh_open := true; mh_msg_size := message_size |} in
    r ← kernel (mq_create queue_name message_size);
    match r with
    | MqOpened => mret opened
    | MqExists =>
        _ ← kernel (mq_unlink queue_name);
        r ← kernel (mq_create queue_name message_size);
        match r with MqOpened => mret opened | _ => throw exit_failure end
    | MqOpenError => throw exit_failure
    end
  else
    size ← gets (mq_getattr queue_name);
    match size with
    | None => throw exit_failure
    | Some size => mret {| mh_name := queue_name; mh_created := false; mh_open := true; mh_msg_size := size |}
    end.

(** [POSIXMQChannel::shutdown] *)
Definition channel_shutdown (h : MqHandle) : M mq_ns MqHandle :=
  let closed := {| mh_name := mh_name h; mh_created := mh_created h; mh_open := false; mh_msg_size := mh_msg_size h |} in
  if negb (mh_open h) then mret h
  else if mh_created h then
    b ← kernel (mq_unlink (mh_name h));
    if (b : bool) then mret closed else throw exit_failure
  else mret closed.

(** ** The controller's side *)

(** [FunctionWorker]: its channels, null without an IPC mode, and the arguments
    its process was started with *)
Record LaunchedWorker : Type := MkLaunched {
  lw_argv : list string; lw_ipc_read : option MqHandle; lw_ipc_write : option MqHandle;
}.

Definition FunctionWorker_ctor (args : list string) (mode : IPCMode) (ipc_name : string) (ipc_msg_size : Z) :
    M mq_ns LaunchedWorker :=
  match mode with
  | POSIX_MQ =>
      r ← open_channel (ipc_name +:+ "_read") true ipc_msg_size;
      w ← open_channel (ipc_name +:+ "_write") true ipc_msg_size;
      mret {| lw_argv := args; lw_ipc_read := Some r; lw_ipc_write := Some w |}
  | IPC_NONE => mret {| lw_argv := args; lw_ipc_read := None; lw_ipc_write := None |}
  end.

(** [--name value] *)
Definition option_args (l : list (string * string)) : list string := l ≫= fun kv => ["--" +:+ kv.1; kv.2].
Definition worker_options (cfg : ControllerCfg) (ipc_name : string) : list (string * string) :=
  [("process-id", pc_process_id cfg); ("ipc-mode", "posix_mq"); ("ipc-name", ipc_name);
   ("code-location", cc_location (pc_code cfg)); ("code-config-location", cc_config_location (pc_code cfg))].

(** [std::filesystem::path::operator/] of a relative path *)
Definition path_append (p q : string) : string :=
  match list.last (String.list_ascii_of_string p) with
  | None => q
  | Some c => if Ascii.eqb c (Ascii.ascii_of_nat 47) then p +:+ q else p +:+ "/" +:+ q
  end.

(** the program of a worker; [self_dir]: the directory of [/proc/self/exe] *)
Definition invoker_path (cfg : ControllerCfg) (self_dir program : string) : string :=
  if decide (pc_deployment_location cfg = EmptyString)
  then path_append (path_append self_dir "invoker") program
  else path_append (path_append (path_append (pc_deployment_location cfg) "bin") "invoker") program.

Definition launch_argv (cfg : ControllerCfg) (self_dir ipc_name : string) (language : Language) : list string :=
  match language with
  | PYTHON =>
      (if decide (cc_language_runtime_path (pc_code cfg) = EmptyString) then "python"
       else cc_language_runtime_path (pc_code cfg)) :: invoker_path cfg self_dir "python.py" ::
      option_args (worker_options cfg ipc_name)
  | _ => invoker_path cfg self_dir "cpp_invoker_exe" :: option_args (worker_options cfg ipc_name)
  end.

Definition worker_queue_name (cfg : ControllerCfg) (pid i : Z) : string :=
  (if decide (pc_ipc_name_prefix cfg = EmptyString) then "/praas_queue_"
   else "/" +:+ pc_ipc_name_prefix cfg +:+ "_praas_queue_") +:+ pretty pid +:+ "_" +:+ pretty i.

(** the loop of [Workers::Workers], from worker [i] on; [_launch_cpp] and
    [_launch_python] *)
Fixpoint launch_workers (n : nat) (cfg : ControllerCfg) (pid : Z) (self_dir : string) (language : Language) (mode : IPCMode)
    (size : Z) (i : Z) : M mq_ns (list LaunchedWorker) :=
  match n with
  | O => mret []
  | S n' =>
      let ipc_name := worker_queue_name cfg pid i in
      w ← FunctionWorker_ctor (launch_argv cfg self_dir ipc_name language) mode ipc_name size;
      ws ← launch_workers n' cfg pid self_dir language mode size (i + 1);
      mret (w :: ws)
  end.

(** [Workers::Workers]; a configuration value that was never set is read
    uninitialised *)
Definition Workers_launch (cfg : ControllerCfg) (pid : Z) (self_dir : string) : M mq_ns (list LaunchedWorker) :=
  match cc_language (pc_code cfg), pc_function_workers cfg, pc_ipc_mode cfg, pc_ipc_message_size cfg with
  | Some language, Some n, Some mode, Some size =>
      match language with
      | NONE => throw exit_failure
      | _ => launch_workers (Z.to_nat n) cfg pid self_dir language mode size 0
      end
  | _, _, _, _ => undef
  end.

(** [Workers::shutdown_channels]: [ipc_read()] of a worker without channels is
    the dereference of a null pointer *)
Definition worker_shutdown_channels (w : LaunchedWorker) : M mq_ns LaunchedWorker :=
  match lw_ipc_read w, lw_ipc_write w with
  | Some r, Some wr =>
      r ← channel_shutdown r;
      wr ← channel_shutdown wr;
      mret {| lw_argv := lw_argv w; lw_ipc_read := Some r; lw_ipc_write := Some wr |}
  | _, _ => undef
  end.
(** a loop over the workers that replaces their channels *)
Fixpoint for_workers (f : LaunchedWorker -> M mq_ns LaunchedWorker) (ws : list LaunchedWorker) : M mq_ns (list LaunchedWorker) :=
  match ws with
  | [] => mret []
  | w :: ws' => w ← f w; ws' ← for_workers f ws'; mret (w :: ws')
  end.
Definition workers_shutdown_channels : list LaunchedWorker -> M mq_ns (list LaunchedWorker) := for_workers worker_shutdown_channels.
End queues.

(** ** The worker's side *)

(** [cxxopts::Options::parse] for declared options that take a text *)
Class Cxxopts : Type := {
  (** the declared options that take a value, the declared flags, the arguments, a name *)
  cx_parse : list string -> list string -> list string -> string -> option string;
}.
(** a text cxxopts takes for the value of the option before it *)
Definition option_value (v : string) : Prop := v <> EmptyString /\ String.prefix "-" v = false.
Class CxxoptsLaws `(Cxxopts) : Prop := {
  (** options with a value, each at most once, have it; an option that is not given has none *)
  cx_parse_options declared flags exe l k v : NoDup l.*1 ->
    Forall (fun kv : string * string => kv.1 ∈ declared /\ option_value kv.2) l -> (k, v) ∈ l ->
    cx_parse declared flags (exe :: option_args l) k = Some v;
  cx_parse_absent declared flags exe l k : NoDup l.*1 ->
    Forall (fun kv : string * string => kv.1 ∈ declared /\ option_value kv.2) l -> k ∉ l.*1 ->
    cx_parse declared flags (exe :: option_args l) k = None;
}.

Record InvokerOptions : Type := MkInvokerOptions {
  io_process_id : string; io_ipc_mode : IPCMode; io_ipc_name : string; io_code_location : string;
  io_code_config_location : string;
}.

Section worker.
Context `{MqNamespace} `{Cxxopts}.

Definition invoker_declared : list string := ["process-id"; "ipc-mode"; "ipc-name"; "code-location"; "code-config-location"].

(** [opts(argc, argv)] *)
Definition invoker_opts (argv : list string) : outcome InvokerOptions :=
  let as_string name :=
    match cx_parse invoker_declared [] argv name with
    | Some v => Ret v
    | None => Throw (StdException "cxxopts::exceptions::option_has_no_value")
    end in
  process_id ← as_string "process-id";
  mode ← as_string "ipc-mode";
  match ipc_deserialize mode with
  | IPC_NONE => Throw exit_failure
  | ipc_mode =>
      ipc_name ← as_string "ipc-name";
      code_location ← as_string "code-location";
      code_config_location ← as_string "code-config-location";
      Ret {| io_process_id := process_id; io_ipc_mode := ipc_mode; io_ipc_name := ipc_name;
             io_code_location := code_location; io_code_config_location := code_config_location |}
  end.

(** the channels of [Invoker::Invoker]: the one it reads and the one it writes *)
Definition invoker_channels (opts : InvokerOptions) : M mq_ns (MqHandle * MqHandle) :=
  r ← open_channel (io_ipc_name opts +:+ "_write") false 0;
  w ← open_channel (io_ipc_name opts +:+ "_read") false 0;
  mret (r, w).
End worker.

(** ** The names *)

(** the text behind a common front *)
Lemma append_inj_l p s t : p +:+ s = p +:+ t -> s = t.
Proof. apply String.app_inj. Qed.

Lemma append_assoc a b c : a +:+ (b +:+ c) = (a +:+ b) +:+ c.
Proof. induction a as [|x a IH]; [reflexivity|]. rewrite !append_cons. now rewrite IH. Qed.

Lemma append_inj_r s t p : s +:+ p = t +:+ p -> s = t.
Proof.
  revert t. induction s as [|a s IH]; intros [|b t] E; [reflexivity| | |].
  - apply (f_equal String.length) in E. rewrite !length_append in E. cbn in E. lia.
  - apply (f_equal String.length) in E. rewrite !length_append in E. cbn in E. lia.
  - rewrite !append_cons in E. injection E as -> E. f_equal. now apply IH.
Qed.

Fixpoint last_char (s : string) : option Ascii.ascii :=
  match s with EmptyString => None | String c EmptyString => Some c | String _ s' => last_char s' end.

Lemma last_char_append s c t : last_char (s +:+ String c t) = last_char (String c t).
Proof.
  induction s as [|a s IH]; [reflexivity|]. rewrite append_cons. cbn. rewrite IH.
  destruct s; reflexivity.
Qed.

Lemma read_not_write s t : s +:+ "_read" <> t +:+ "_write".
Proof. intros E. apply (f_equal last_char) in E. unfold String.append in E. rewrite !last_char_append in E. discriminate E. Qed.

Section names.
Variables (cfg : ControllerCfg) (pid : Z).

Lemma worker_queue_name_inj i j : worker_queue_name cfg pid i = worker_queue_name cfg pid j -> i = j.
Proof.
  unfold worker_queue_name. intros E. do 3 apply append_inj_l in E. now apply (inj pretty) in E.
Qed.

(** the names of the queues of the workers [i], [i+1], ... *)
Fixpoint queue_names (n : nat) (i : Z) : list string :=
  match n with
  | O => []
  | S n' => (worker_queue_name cfg pid i +:+ "_read") :: (worker_queue_name cfg pid i +:+ "_write") :: queue_names n' (i + 1)
  end.

Lemma queue_names_elem n i name :
  name ∈ queue_names n i ->
  exists j, (i <= j < i + Z.of_nat n)%Z /\
    (name = worker_queue_name cfg pid j +:+ "_read" \/ name = worker_queue_name cfg pid j +:+ "_write").
Proof.
  revert i. induction n as [|n IH]; intros i; cbn [queue_names]; [intros []%elem_of_nil|].
  intros [->|[->|H]%elem_of_cons]%elem_of_cons.
  - exists i. split; [lia|auto].
  - exists i. split; [lia|auto].
  - destruct (IH _ H) as (j & Hj & Hn). exists j. split; [lia|auto].
Qed.

(** no two workers share a queue, and no worker reads the queue it writes *)
Lemma queue_names_distinct n i : NoDup (queue_names n i).
Proof.
  revert i. induction n as [|n IH]; intros i; cbn [queue_names]; [constructor|].
  apply NoDup_cons. split; [|apply NoDup_cons; split; [|apply IH]].
  - intros [E|H]%elem_of_cons; [now apply read_not_write in E|].
    destruct (queue_names_elem _ _ _ H) as (j & Hj & [E|E]); [|now apply read_not_write in E].
    apply append_inj_r, worker_queue_name_inj in E. lia.
  - intros H. destruct (queue_names_elem _ _ _ H) as (j & Hj & [E|E]); [symmetry in E; now apply read_not_write in E|].
    apply append_inj_r, worker_queue_name_inj in E. lia.
Qed.
End names.

(** ** Opening and closing *)
Section runs.
Context `{HL : MqNamespaceLaws}.

Definition opened_handle (name : string) (created : bool) (size : Z) : MqHandle :=
  {| mh_name := name; mh_created := created; mh_open := true; mh_msg_size := size |}.
Definition closed_handle (h : MqHandle) : MqHandle :=
  {| mh_name := mh_name h; mh_created := mh_created h; mh_open := false; mh_msg_size := mh_msg_size h |}.

Lemma kernel_bind {A B} (f : mq_ns -> A * mq_ns) (g : A -> M mq_ns B) ns a ns' :
  f ns = (a, ns') -> (kernel f ≫= g) ns = g a ns'.
Proof. intros E. apply M_bind_eq. unfold kernel. now rewrite E. Qed.

(** a queue is created, whether or not one was left over under its name *)
Lemma open_channel_create name size ns :
  exists ns', open_channel name true size ns = (Ret (opened_handle name true size), ns') /\
    mq_names ns' = <[name := size]> (mq_names ns).
Proof.
  unfold open_channel. destruct (mq_names ns !! name) as [old|] eqn:E.
  - destruct (mq_create_taken name size ns) as (ns1 & E1 & N1); [eauto|]. rewrite (kernel_bind _ _ _ _ _ E1).
    destruct (mq_unlink_names name ns1) as (ns2 & E2 & N2); [rewrite N1; eauto|]. rewrite (kernel_bind _ _ _ _ _ E2).
    destruct (mq_create_free name size ns2) as (ns3 & E3 & N3); [rewrite N2; apply lookup_delete_eq|].
    rewrite (kernel_bind _ _ _ _ _ E3). exists ns3. split; [reflexivity|].
    now rewrite N3, N2, N1, insert_delete_eq.
  - destruct (mq_create_free name size ns E) as (ns1 & E1 & N1). rewrite (kernel_bind _ _ _ _ _ E1).
    exists ns1. split; [reflexivity|done].
Qed.

Lemma open_channel_existing name size s ns :
  mq_names ns !! name = Some s -> open_channel name false size ns = (Ret (opened_handle name false s), ns).
Proof.
  intros E. unfold open_channel. erewrite M_bind_eq by reflexivity. rewrite mq_getattr_names, E. reflexivity.
Qed.

(** the owner removes the name, once *)
Lemma channel_shutdown_owner name size ns :
  is_Some (mq_names ns !! name) ->
  exists ns', channel_shutdown (opened_handle name true size) ns = (Ret (closed_handle (opened_handle name true size)), ns') /\
    mq_names ns' = delete name (mq_names ns).
Proof.
  intros E. unfold channel_shutdown. cbn. destruct (mq_unlink_names name ns E) as (ns' & E' & N').
  exists ns'. rewrite (kernel_bind _ _ _ _ _ E'). auto.
Qed.

(** ** The workers of a controller *)
Variables (cfg : ControllerCfg) (pid : Z) (self_dir : string).

(** worker [i], as the controller sees it *)
Definition launched (language : Language) (size i : Z) : LaunchedWorker :=
  let name := worker_queue_name cfg pid i in
  {| lw_argv := launch_argv cfg self_dir name language;
     lw_ipc_read := Some (opened_handle (name +:+ "_read") true size);
     lw_ipc_write := Some (opened_handle (name +:+ "_write") true size) |}.
Definition closed_worker (w : LaunchedWorker) : LaunchedWorker :=
  {| lw_argv := lw_argv w; lw_ipc_read := closed_handle <$> lw_ipc_read w; lw_ipc_write := closed_handle <$> lw_ipc_write w |}.

Fixpoint numbers (n : nat) (i : Z) : list Z := match n with O => [] | S n' => i :: numbers n' (i + 1) end.

Lemma launch_workers_run n language size i ns :
  exists ns', launch_workers n cfg pid self_dir language POSIX_MQ size i ns = (Ret (launched language size <$> numbers n i), ns') /\
    forall name, mq_names ns' !! name =
      if decide (name ∈ queue_names cfg pid n i) then Some size else mq_names ns !! name.
Proof.
  revert i ns. induction n as [|n IH]; intros i ns.
  - exists ns. split; [reflexivity|]. intros name. cbn [queue_names]. now rewrite decide_False by apply not_elem_of_nil.
  - cbn [launch_workers numbers fmap list_fmap queue_names].
    destruct (open_channel_create (worker_queue_name cfg pid i +:+ "_read") size ns) as (ns1 & E1 & N1).
    destruct (open_channel_create (worker_queue_name cfg pid i +:+ "_write") size ns1) as (ns2 & E2 & N2).
    destruct (IH (i + 1)%Z ns2) as (ns3 & E3 & N3). exists ns3. split.
    + assert (FunctionWorker_ctor (launch_argv cfg self_dir (worker_queue_name cfg pid i) language) POSIX_MQ
        (worker_queue_name cfg pid i) size ns = (Ret (launched language size i), ns2)) as Ew.
      { unfold FunctionWorker_ctor. rewrite (M_bind_eq _ _ _ _ _ E1), (M_bind_eq _ _ _ _ _ E2). reflexivity. }
      rewrite (M_bind_eq _ _ _ _ _ Ew), (M_bind_eq _ _ _ _ _ E3). reflexivity.
    + intros name. rewrite N3, N2, N1.
      destruct (decide (name ∈ queue_names cfg pid n (i + 1))) as [Hin|Hin].
      { rewrite decide_True; [done|]. now do 2 right. }
      destruct (decide (name = worker_queue_name cfg pid i +:+ "_write")) as [->|Hw].
      { rewrite lookup_insert_eq, decide_True; [done|]. right; left. }
      rewrite lookup_insert_ne by done.
      destruct (decide (name = worker_queue_name cfg pid i +:+ "_read")) as [->|Hr].
      { rewrite lookup_insert_eq, decide_True; [done|]. left. }
      rewrite lookup_insert_ne, decide_False; [done| |done]. rewrite !elem_of_cons. tauto.
Qed.

Lemma numbers_lookup n i k j : numbers n i !! k = Some j -> j = (i + Z.of_nat k)%Z /\ k < n.
Proof.
  revert i k. induction n as [|n IH]; intros i [|k]; cbn; [discriminate..| |].
  - intros [= <-]. lia.
  - intros [-> Hk]%IH. lia.
Qed.

Lemma length_numbers n i : length (numbers n i) = n.
Proof. revert i. induction n; intros; cbn; auto. Qed.

Lemma queue_names_in n i k j : numbers n i !! k = Some j ->
  worker_queue_name cfg pid j +:+ "_read" ∈ queue_names cfg pid n i /\
  worker_queue_name cfg pid j +:+ "_write" ∈ queue_names cfg pid n i.
Proof.
  revert i k. induction n as [|n IH]; intros i [|k]; cbn [numbers lookup list_lookup queue_names]; [discriminate..| |].
  - intros [= ->]. split; [left|right; left].
  - intros [H1 H2]%IH. split; now do 2 right.
Qed.

(** [f] closes the channels of a worker that has both *)
Definition closes (f : LaunchedWorker -> M mq_ns LaunchedWorker) : Prop := forall language size i ns,
  is_Some (mq_names ns !! (worker_queue_name cfg pid i +:+ "_read")) ->
  is_Some (mq_names ns !! (worker_queue_name cfg pid i +:+ "_write")) ->
  exists ns', f (launched language size i) ns = (Ret (closed_worker (launched language size i)), ns') /\
    mq_names ns' = delete (worker_queue_name cfg pid i +:+ "_write") (delete (worker_queue_name cfg pid i +:+ "_read") (mq_names ns)).

Lemma worker_shutdown_closes : closes worker_shutdown_channels.
Proof.
  intros language size i ns Hr Hw. unfold worker_shutdown_channels. cbn [launched lw_ipc_read lw_ipc_write].
  destruct (channel_shutdown_owner _ size ns Hr) as (ns1 & E1 & N1). rewrite (M_bind_eq _ _ _ _ _ E1).
  destruct (channel_shutdown_owner (worker_queue_name cfg pid i +:+ "_write") size ns1) as (ns2 & E2 & N2).
  { rewrite N1, lookup_delete_ne; [done|]. apply read_not_write. }
  rewrite (M_bind_eq _ _ _ _ _ E2). exists ns2. rewrite N2, N1. auto.
Qed.

(** the loop that closes the channels of all workers removes the names of all their queues *)
Lemma for_workers_closes f n language size i ns :
  closes f -> (forall name, name ∈ queue_names cfg pid n i -> is_Some (mq_names ns !! name)) ->
  exists ns', for_workers f (launched language size <$> numbers n i) ns =
      (Ret (closed_worker <$> (launched language size <$> numbers n i)), ns') /\
    forall name, mq_names ns' !! name = if decide (name ∈ queue_names cfg pid n i) then None else mq_names ns !! name.
Proof.
  intros Hf. revert i ns. induction n as [|n IH]; intros i ns Hns.
  - exists ns. split; [reflexivity|]. intros name. cbn [queue_names]. now rewrite decide_False by apply not_elem_of_nil.
  - cbn [numbers fmap list_fmap for_workers].
    pose proof (queue_names_distinct cfg pid (S n) i) as Hd. cbn [queue_names] in Hd, Hns |- *.
    apply NoDup_cons in Hd as [Hd1 Hd]. apply NoDup_cons in Hd as [Hd2 _].
    destruct (Hf language size i ns) as (ns1 & E1 & N1); [apply Hns; left|apply Hns; right; left|].
    rewrite (M_bind_eq _ _ _ _ _ E1). destruct (IH (i + 1)%Z ns1) as (ns2 & E2 & N2).
    { intros name Hn. rewrite N1, !lookup_delete_ne; [apply Hns; now do 2 right| |].
      - intros <-. apply Hd1. now right.
      - now intros <-. }
    rewrite (M_bind_eq _ _ _ _ _ E2). exists ns2. split; [reflexivity|]. intros name. rewrite N2, N1.
    destruct (decide (name ∈ queue_names cfg pid n (i + 1))) as [Hin|Hin].
    { rewrite decide_True; [done|]. now do 2 right. }
    destruct (decide (name = worker_queue_name cfg pid i +:+ "_write")) as [->|Hw].
    { rewrite lookup_delete_eq, decide_True; [done|]. right; left. }
    rewrite lookup_delete_ne by done.
    destruct (decide (name = worker_queue_name cfg pid i +:+ "_read")) as [->|Hr].
    { rewrite lookup_delete_eq, decide_True; [done|]. left. }
    rewrite lookup_delete_ne, decide_False; [done| |done]. rewrite !elem_of_cons. tauto.
Qed.

(** closed channels are not closed again *)
Lemma for_workers_closed f n language size i ns :
  (forall j s, f (closed_worker (launched language size j)) s = (Ret (closed_worker (launched language size j)), s)) ->
  let ws := closed_worker <$> (launched language size <$> numbers n i) in for_workers f ws ns = (Ret ws, ns).
Proof.
  intros Hf. cbn zeta. revert i. induction n as [|n IH]; intros i; [reflexivity|]. cbn [numbers fmap list_fmap for_workers].
  rewrite (M_bind_eq _ _ _ _ _ (Hf i ns)). now rewrite (M_bind_eq _ _ _ _ _ (IH (i + 1)%Z)).
Qed.
End runs.

(** ** Properties *)
Section launch.
Context `{HL : MqNamespaceLaws} `{HX : CxxoptsLaws}.

Definition worker_queues (w : LaunchedWorker) : list string :=
  from_option (fun h => [mh_name h]) [] (lw_ipc_read w) ++ from_option (fun h => [mh_name h]) [] (lw_ipc_write w).

Lemma launched_queues cfg pid self_dir language size n i :
  (launched cfg pid self_dir language size <$> numbers n i) ≫= worker_queues = queue_names cfg pid n i.
Proof. revert i. induction n as [|n IH]; intros i; [reflexivity|]. cbn. now rewrite <-IH. Qed.

Lemma worker_queue_name_value cfg pid i : option_value (worker_queue_name cfg pid i).
Proof. unfold worker_queue_name. destruct (decide _); split; try discriminate; reflexivity. Qed.

(** a worker finds its options on its command line *)
Lemma invoker_opts_run cfg self_dir pid i :
  option_value (pc_process_id cfg) -> option_value (cc_location (pc_code cfg)) ->
  option_value (cc_config_location (pc_code cfg)) ->
  invoker_opts (launch_argv cfg self_dir (worker_queue_name cfg pid i) CPP) = Ret {|
    io_process_id := pc_process_id cfg; io_ipc_mode := POSIX_MQ; io_ipc_name := worker_queue_name cfg pid i;
    io_code_location := cc_location (pc_code cfg); io_code_config_location := cc_config_location (pc_code cfg) |}.
Proof.
  intros Hp Hl Hc. unfold invoker_opts, launch_argv.
  assert (forall k v, (k, v) ∈ worker_options cfg (worker_queue_name cfg pid i) ->
    cx_parse invoker_declared [] (invoker_path cfg self_dir "cpp_invoker_exe" :: option_args
      (worker_options cfg (worker_queue_name cfg pid i))) k = Some v) as Hx.
  { intros k v. apply cx_parse_options.
    - apply (bool_decide_unpack _). vm_compute. exact I.
    - repeat (apply List.Forall_cons || apply List.Forall_nil); cbn [fst snd];
        (split; [apply (bool_decide_unpack _); vm_compute; exact I|]); auto using worker_queue_name_value.
      split; [discriminate|reflexivity]. }
  rewrite (Hx "process-id" (pc_process_id cfg)) by now left.
  rewrite (Hx "ipc-mode" "posix_mq") by (right; now left).
  rewrite (Hx "ipc-name" (worker_queue_name cfg pid i)) by (do 2 right; now left).
  rewrite (Hx "code-location" (cc_location (pc_code cfg))) by (do 3 right; now left).
  rewrite (Hx "code-config-location" (cc_config_location (pc_code cfg))) by (do 4 right; now left).
  reflexivity.
Qed.

(** C36: every worker gets its own two queues: whatever names an earlier run left
    behind, the workers of a configuration start with queues of the configured
    message size that no two of them share, and a worker - from nothing but its
    command line - reads the queue its controller writes, writes the queue its
    controller reads, with messages of the same size, and loads the code of the
    configuration under the name of the process. *)
Theorem workers_get_their_queues cfg pid self_dir n size ns :
  cc_language (pc_code cfg) = Some CPP -> pc_function_workers cfg = Some (Z.of_nat n) ->
  pc_ipc_mode cfg = Some POSIX_MQ -> pc_ipc_message_size cfg = Some size ->
  option_value (pc_process_id cfg) -> option_value (cc_location (pc_code cfg)) ->
  option_value (cc_config_location (pc_code cfg)) ->
  exists ws ns', Workers_launch cfg pid self_dir ns = (Ret ws, ns') /\ length ws = n /\ NoDup (ws ≫= worker_queues) /\
    forall w, w ∈ ws -> exists r wr opts rd wt, lw_ipc_read w = Some r /\ lw_ipc_write w = Some wr /\
      invoker_opts (lw_argv w) = Ret opts /\ io_process_id opts = pc_process_id cfg /\
      io_code_location opts = cc_location (pc_code cfg) /\
      io_code_config_location opts = cc_config_location (pc_code cfg) /\
      invoker_channels opts ns' = (Ret (rd, wt), ns') /\ mh_name rd = mh_name wr /\ mh_name wt = mh_name r /\
      mh_msg_size r = size /\ mh_msg_size wr = size /\ mh_msg_size rd = size /\ mh_msg_size wt = size.
Proof.
  intros Hlang Hn Hmode Hsize Hp Hl Hc.
  destruct (launch_workers_run cfg pid self_dir n CPP size 0 ns) as (ns' & E & N).
  exists (launched cfg pid self_dir CPP size <$> numbers n 0), ns'. split.
  { unfold Workers_launch. rewrite Hlang, Hn, Hmode, Hsize, Nat2Z.id. exact E. }
  split; [now rewrite length_fmap, length_numbers|]. split; [rewrite launched_queues; apply queue_names_distinct|].
  intros w (i & -> & Hi)%list_elem_of_fmap. apply list_elem_of_lookup in Hi as [k Hk].
  destruct (queue_names_in cfg pid n 0 k i Hk) as [Hr Hw].
  set (name := worker_queue_name cfg pid i) in *.
  eexists _, _, _, (opened_handle (name +:+ "_write") false size), (opened_handle (name +:+ "_read") false size).
  split; [reflexivity|]. split; [reflexivity|]. split; [now apply invoker_opts_run|].
  do 3 (split; [reflexivity|]). split; [|now split_and!]. unfold invoker_channels. cbn [io_ipc_name].
  rewrite (M_bind_eq _ _ _ _ _ (open_channel_existing (name +:+ "_write") 0 size ns' ltac:(rewrite N; apply decide_True; assumption))).
  now rewrite (M_bind_eq _ _ _ _ _ (open_channel_existing (name +:+ "_read") 0 size ns' ltac:(rewrite N; apply decide_True; assumption))).
Qed.

(** The queues do not outlive the controller: closing the channels removes
    the names of all its queues and nothing else, and closing them again does
    nothing. *)
Theorem queues_are_released cfg pid self_dir language n size ns :
  cc_language (pc_code cfg) = Some language -> language <> NONE -> pc_function_workers cfg = Some (Z.of_nat n) ->
  pc_ipc_mode cfg = Some POSIX_MQ -> pc_ipc_message_size cfg = Some size ->
  exists ws ns1 ws' ns2, Workers_launch cfg pid self_dir ns = (Ret ws, ns1) /\
    workers_shutdown_channels ws ns1 = (Ret ws', ns2) /\
    (forall name, mq_names ns2 !! name = if decide (name ∈ ws ≫= worker_queues) then None else mq_names ns !! name) /\
    workers_shutdown_channels ws' ns2 = (Ret ws', ns2).
Proof.
  intros Hlang Hne Hn Hmode Hsize.
  destruct (launch_workers_run cfg pid self_dir n language size 0 ns) as (ns1 & E & N).
  destruct (for_workers_closes cfg pid self_dir worker_shutdown_channels n language size 0 ns1) as (ns2 & E2 & N2).
  { apply worker_shutdown_closes. }
  { intros name Hin. rewrite N, decide_True by done. eauto. }
  eexists _, ns1, _, ns2. split.
  { unfold Workers_launch. rewrite Hlang, Hn, Hmode, Hsize, Nat2Z.id. destruct language; [exact E..|done]. }
  split; [exact E2|]. split.
  - intros name. rewrite launched_queues, N2, N. destruct (decide _); [done|]. reflexivity.
  - now apply for_workers_closed.
Qed.
End launch.

(** ** A table of names, and a command line *)
#[export] Instance plain_namespace : MqNamespace | 10 := {|
  mq_ns := gmap string Z;
  mq_create n size ns := match ns !! n with Some _ => (MqExists, ns) | None => (MqOpened, <[n := size]> ns) end;
  mq_getattr n ns := ns !! n;
  mq_unlink n ns := match ns !! n with Some _ => (true, delete n ns) | None => (false, ns) end;
|}.
#[export] Program Instance plain_namespace_laws : MqNamespaceLaws plain_namespace | 10 := {| mq_names ns := ns |}.
Next Obligation. intros n size ns E. cbn. rewrite E. eauto. Qed.
Next Obligation. intros n size ns [x E]. cbn. rewrite E. eauto. Qed.
Next Obligation. reflexivity. Qed.
Next Obligation. intros n ns [x E]. cbn. rewrite E. eauto. Qed.

Fixpoint plain_option (args : list string) (name : string) : option string :=
  match args with
  | a :: v :: rest => if decide (a = "--" +:+ name) then Some v else plain_option rest name
  | _ => None
  end.
#[export] Instance plain_cxxopts : Cxxopts | 10 := {| cx_parse _ _ argv name := plain_option (tail argv) name |}.
#[export] Instance plain_cxxopts_laws : CxxoptsLaws plain_cxxopts | 10.
Proof.
  split.
  - intros declared flags exe l k v Hd _. cbn [cx_parse plain_cxxopts tail]. revert Hd. induction l as [|[k' v'] l IH].
    + intros _ []%elem_of_nil.
    + intros Hd. apply NoDup_cons in Hd as [Hk Hd]. cbn. intros [E|H]%elem_of_cons.
      * injection E as -> ->. now rewrite decide_True.
      * rewrite decide_False; [now apply IH|]. intros E. apply append_inj_l in E as ->. apply Hk.
        apply list_elem_of_fmap. now exists (k, v).
  - intros declared flags exe l k _ _. cbn [cx_parse plain_cxxopts tail]. induction l as [|[k' v'] l IH]; [done|].
    intros [Hk Hl]%not_elem_of_cons. cbn. rewrite decide_False; [now apply IH|]. intros E. apply append_inj_l in E as ->. now apply Hk.
Qed.

(** ** Witnesses: the default configuration with two workers, and a name left over *)
Definition demo_cfg : ControllerCfg :=
  let d := Controller_set_defaults ControllerCfg_ctor in
  {| pc_port := pc_port d; pc_verbose := pc_verbose d; pc_function_workers := Some 2%Z; pc_ipc_mode := pc_ipc_mode d;
     pc_ipc_message_size := pc_ipc_message_size d; pc_ipc_name_prefix := "app"; pc_deployment_location := "/praas";
     pc_process_id := "proc"; pc_control_plane_addr := None; pc_code := pc_code d |}.
Definition demo_names : gmap string Z := {["/app_praas_queue_17_0_read" := 4%Z]}.

Lemma workers_get_their_queues_witness :
  exists ws ns', Workers_launch demo_cfg 17 "/proc" (demo_names : mq_ns) = (Ret ws, ns') /\ length ws = 2 /\
    NoDup (ws ≫= worker_queues) /\
    forall w, w ∈ ws -> exists r wr opts rd wt, lw_ipc_read w = Some r /\ lw_ipc_write w = Some wr /\
      invoker_opts (lw_argv w) = Ret opts /\ io_process_id opts = "proc" /\ io_code_location opts = "/code" /\
      io_code_config_location opts = "config.json" /\
      invoker_channels opts ns' = (Ret (rd, wt), ns') /\ mh_name rd = mh_name wr /\ mh_name wt = mh_name r /\
      mh_msg_size r = 8192%Z /\ mh_msg_size wr = 8192%Z /\ mh_msg_size rd = 8192%Z /\ mh_msg_size wt = 8192%Z.
Proof.
  exact (workers_get_their_queues demo_cfg 17 "/proc" 2 8192 (demo_names : mq_ns) eq_refl eq_refl eq_refl eq_refl
    ltac:(split; [discriminate|reflexivity]) ltac:(split; [discriminate|reflexivity])
    ltac:(split; [discriminate|reflexivity])).
Defined.

Lemma queues_are_released_witness :
  exists ws ns1 ws' (ns2 : mq_ns), Workers_launch demo_cfg 17 "/proc" (demo_names : mq_ns) = (Ret ws, ns1) /\
    workers_shutdown_channels ws ns1 = (Ret ws', ns2) /\
    (forall name, mq_names ns2 !! name =
       if decide (name ∈ ws ≫= worker_queues) then None else mq_names (demo_names : mq_ns) !! name) /\
    workers_shutdown_channels ws' ns2 = (Ret ws', ns2).
Proof.
  exact (queues_are_released demo_cfg 17 "/proc" CPP 2 8192 (demo_names : mq_ns) eq_refl ltac:(discriminate) eq_refl
    eq_refl eq_refl).
Defined.
