(* ===== verification/Lifecycle.v ===== *)
(** * Lifecycle: how the programs end

    The handlers of signals, the destructors and the ends of the [main]
    functions of a worker ([process/invoker/cpp/cli.cpp]) and of a controller
    ([process/controller/src/cli.cpp], the handlers and the destructor in
    [controller.cpp], [Workers::shutdown] in [workers.cpp], the server's
    [shutdown] in [remote.cpp]).  The calls of the system and of the network
    library are recorded in the order in which they are made; what ends a program
    is an event ([life_end]). *)

From S2P Require Import Prelude Memory IpcMessages Buffers Channel Application Functions WorkQueue Invoker Context Requests WorkerMain.
From S2P Require Import Startup Launch.

(** ** Signals *)
Inductive signo : Type := SIGINT | SIGSEGV | SIGTERM | SIGPIPE | SIGABRT | SIGHUP.
Inductive handler : Type := signal_handler_ | failure_handler_.

#[export] Instance signo_eq_dec : EqDecision signo.
Proof. solve_decision. Defined.

(** what [sigaction] was called with *)
Definition handler_of (table : list (signo * handler)) (s : signo) : option handler :=
  snd <$> list.head (filter (fun x => x.1 = s) table).

(** [set_signals()] of the controller, and [main] of a worker *)
Definition controller_signals : list (signo * handler) :=
  [(SIGINT, signal_handler_); (SIGSEGV, failure_handler_); (SIGTERM, failure_handler_); (SIGPIPE, failure_handler_);
   (SIGABRT, failure_handler_)].
Definition worker_signals : list (signo * handler) :=
  [(SIGINT, signal_handler_); (SIGSEGV, failure_handler_); (SIGTERM, failure_handler_); (SIGPIPE, failure_handler_);
   (SIGHUP, failure_handler_)].

(** ** A worker is told to end *)
Section worker.
Context `{Allocator} `{PosixMQLaws} `{KeysArchive} `{!DynamicLoader}.

(** [signal_handler] *)
Definition signal_handler : M RContext unit := on_invoker invoker_shutdown.

(** the receive that waits when the signal arrives: the handler runs, and the
    call fails with [EINTR] *)
Definition receive_interrupted : M Invoker (bool * Buffer) :=
  invoker_shutdown ≫= fun _ => throw (PraaSException "Failed receiving with error {}, strerror {}").

(** [poll()] whose receive was interrupted: the exception is caught, and the loop goes on *)
Definition poll_interrupted (fuel : nat) : M Invoker (option RInvocation) := fun s =>
  match receive_interrupted s with
  | (Ret _, s') => poll fuel s'
  | (Throw e, s') =>
      if is_praas_exception e then if iv_ending s' then poll fuel s' else (Ret None, s') else (Throw e, s')
  | (Undef, s') => (Undef, s')
  end.

(** the context after the handler *)
Definition told (c : RContext) : RContext := (signal_handler c).2.

Lemma told_runs c : signal_handler c = (Ret tt, told c).
Proof. reflexivity. Qed.

Lemma told_closed c :
  iv_ending (cx_invoker (told c)) = true /\ iv_ipc_channel_read (cx_invoker (told c)) = None /\
  iv_ipc_channel_write (cx_invoker (told c)) = None /\ cx_heap (told c) = cx_heap c /\
  cx_user_buffers (told c) = cx_user_buffers c.
Proof. split_and!; reflexivity. Qed.

Lemma poll_ending fuel s : iv_ending s = true -> poll fuel s = (Ret (Some RInvocation_empty), s).
Proof. intros He. unfold poll. destruct fuel; cbn [poll_loop]; now rewrite He. Qed.

Lemma poll_interrupted_ends fuel c :
  poll_interrupted fuel (cx_invoker c) = (Ret (Some RInvocation_empty), cx_invoker (told c)).
Proof.
  unfold poll_interrupted.
  replace (receive_interrupted (cx_invoker c))
    with (@Throw (bool * Buffer) (PraaSException "Failed receiving with error {}, strerror {}"), cx_invoker (told c)) by reflexivity.
  now apply poll_ending.
Qed.

(** the functions of the runtime that talk to the controller, once the channels are gone *)
Lemma closed_channels_undefined s :
  iv_ipc_channel_read s = None -> iv_ipc_channel_write s = None ->
  (forall msg a, invoker_put msg a s = (Undef, s)) /\ (forall msg, invoker_get msg s = (Undef, s)) /\
  (forall T (holds : IpcVariants -> option T), invoker_receive holds s = (Undef, s)) /\
  (forall invoc, poll_once invoc s = (Undef, s)).
Proof.
  intros Hr Hw. split_and!; intros.
  - unfold invoker_put, on_write. now rewrite Hw.
  - unfold invoker_get, on_write, mbind, M_bind. now rewrite Hw.
  - unfold invoker_receive, on_read, mbind, M_bind. now rewrite Hr.
  - unfold poll_once, on_read. erewrite M_bind_eq by reflexivity. unfold mbind, M_bind. now rewrite Hr.
Qed.

(** a view that the handler leaves alone *)
Lemma told_shows c v bs : view_shows c v bs -> view_shows (told c) v bs.
Proof. done. Qed.

(** A worker that is told to end.  While it waits for an invocation, or when it
    is about to look for one, its main loop ends: no function is called and
    nothing is sent.  But the handler destroys the channels: between the test of
    the flag and the receive, and for as long as a function runs, what follows is
    undefined behaviour - every request that the function still makes, and the
    sending of its result when it returns. *)
Theorem worker_told_to_end fl fuel c :
  serve_polled (poll_interrupted fuel) fl c = (Ret false, told c) /\
  serve_one fuel fl (told c) = (Ret false, told c) /\
  (let s := cx_invoker (told c) in
   (forall msg a, invoker_put msg a s = (Undef, s)) /\ (forall msg, invoker_get msg s = (Undef, s)) /\
   (forall T (holds : IpcVariants -> option T), invoker_receive holds s = (Undef, s)) /\
   (forall invoc, poll_once invoc s = (Undef, s))) /\
  forall poller inv s1 func code c2 out, poller (cx_invoker c) = (Ret (Some inv), s1) -> iv_ending s1 = false ->
    library_function fl (rinv_function_name inv) = Some func ->
    (start_invocation (rinv_key inv) ≫= fun _ => func inv) (set_cx_invoker s1 c) = (Ret code, told c2) ->
    ipc_fits IPC_ID_LENGTH (cx_invoc_id c2) -> view_shows c2 (cx_output_buf_view c2) out ->
    i32_range code -> i32_range (Z.of_nat (length out)) ->
    serve_polled poller fl c = (Undef, told c2).
Proof.
  split_and!.
  - unfold serve_polled. erewrite M_bind_eq by (unfold on_invoker, zoom; rewrite poll_interrupted_ends; reflexivity).
    reflexivity.
  - unfold serve_one, serve_polled. erewrite M_bind_eq by (unfold on_invoker, zoom; rewrite poll_ending by done; reflexivity).
    reflexivity.
  - now apply closed_channels_undefined.
  - intros poller inv s1 func code c2 out Hp He Hf Hrun Hid Hv Hc Hl.
    unfold serve_polled. erewrite M_bind_eq by (unfold on_invoker, zoom; rewrite Hp; reflexivity).
    erewrite M_bind_eq by reflexivity. cbn [cx_invoker set_cx_invoker]. rewrite He, Hf.
    erewrite (M_bind_eq (start_invocation _)) by reflexivity. erewrite (M_bind_eq (func inv)) by exact Hrun.
    erewrite M_bind_eq by reflexivity.
    destruct (accessor_shows (told c2) _ out (told_shows _ _ _ Hv)) as (a&Ea&Ha).
    assert (as_buffer (told c2) = (Ret a, told c2)) as Eas.
    { unfold as_buffer. rewrite (M_bind_eq get _ (told c2) (told c2) (told c2) eq_refl).
      destruct (decide (rb_ptr (cx_output_buf_view (told c2)) = hb_data (cx_output (told c2)))) as [E|_]; [now rewrite <-E|done]. }
    rewrite (M_bind_eq _ _ _ _ _ Eas). 
    destruct (finish_message (cx_invoc_id c2) code (Z.of_nat (length out)) Hid Hc Hl) as (x&Ex&_).
    assert (on_invoker (invoker_finish (sv_of_string (cx_invoc_id c2)) a code) (told c2) = (Undef, told c2)) as En; [|].
    { unfold on_invoker, zoom, invoker_finish. destruct Ha as [-> _]. rewrite wrap_i32_id by done. rewrite Ex. reflexivity. }
    unfold mbind at 1, M_bind at 1. replace (cx_invoc_id (told c2)) with (cx_invoc_id c2) by done. now rewrite En.
Qed.
End worker.

(** ** The end of a controller *)

(** a call of the system, or of a thread of the network library *)
Inductive life_call : Type :=
  | Kill (pid : Z) (s : signo) | Waitpid (pid : Z) | CloseEventFd | CloseEpollFd
  | ServerStop | LoopQuit | LoopWait.

(** how a program ends other than by returning from [main] *)
Definition abort_failure : exn := StdException "abort".
Definition killed : exn := StdException "killed".

Section controller.
Context `{MqNamespace}.

(** the program: [ct_registered] once the constructor has set [INSTANCE] and the
    handlers, [ct_pids] the children of [_workers] *)
Record ControllerLife : Type := MkLife {
  ct_ns : mq_ns; ct_workers : list LaunchedWorker; ct_pids : list Z; ct_ending : bool; ct_registered : bool;
  ct_server_running : bool; ct_calls : list life_call;
}.
Definition set_ct_ns (ns : mq_ns) (ws : list LaunchedWorker) (c : ControllerLife) : ControllerLife :=
  {| ct_ns := ns; ct_workers := ws; ct_pids := ct_pids c; ct_ending := ct_ending c; ct_registered := ct_registered c;
     ct_server_running := ct_server_running c; ct_calls := ct_calls c |}.
Definition call (l : life_call) : M ControllerLife unit :=
  modify (fun c => {| ct_ns := ct_ns c; ct_workers := ct_workers c; ct_pids := ct_pids c; ct_ending := ct_ending c;
    ct_registered := ct_registered c; ct_server_running := ct_server_running c; ct_calls := ct_calls c ++ [l] |}).

(** an operation on the channels of the workers *)
Definition on_channels (m : list LaunchedWorker -> M mq_ns (list LaunchedWorker)) : M ControllerLife unit := fun c =>
  match m (ct_workers c) (ct_ns c) with
  | (Ret ws, ns) => (Ret tt, set_ct_ns ns ws c)
  | (Throw e, ns) => (Throw e, set_ct_ns ns (ct_workers c) c)
  | (Undef, ns) => (Undef, set_ct_ns ns (ct_workers c) c)
  end.

(** [Controller::shutdown], [Controller::shutdown_channels] *)
Definition life_shutdown : M ControllerLife unit :=
  modify (fun c => {| ct_ns := ct_ns c; ct_workers := ct_workers c; ct_pids := ct_pids c; ct_ending := true;
    ct_registered := ct_registered c; ct_server_running := ct_server_running c; ct_calls := ct_calls c |}).
Definition life_shutdown_channels : M ControllerLife unit := on_channels workers_shutdown_channels.

(** [Workers::shutdown] *)
Definition Workers_shutdown : M ControllerLife unit :=
  pids ← gets ct_pids;
  for_each (fun pid => call (Kill pid SIGINT)) pids ≫= fun _ =>
  for_each (fun pid => call (Waitpid pid)) pids.

(** [TCPServer::shutdown], [~TCPServer] *)
Definition server_shutdown : M ControllerLife unit :=
  call ServerStop ≫= fun _ => call LoopQuit ≫= fun _ => call LoopWait ≫= fun _ =>
  modify (fun c => {| ct_ns := ct_ns c; ct_workers := ct_workers c; ct_pids := ct_pids c; ct_ending := ct_ending c;
    ct_registered := ct_registered c; ct_server_running := false; ct_calls := ct_calls c |}).
Definition server_dtor : M ControllerLife unit :=
  running ← gets ct_server_running; if (running : bool) then server_shutdown else mret tt.

(** the destructors of [_workers]: [~POSIXMQChannel] of the channels a worker has *)
Definition channel_dtor (h : option MqHandle) : M mq_ns (option MqHandle) :=
  match h with None => mret None | Some h => h ← channel_shutdown h; mret (Some h) end.
Definition worker_dtor (w : LaunchedWorker) : M mq_ns LaunchedWorker :=
  wr ← channel_dtor (lw_ipc_write w);
  r ← channel_dtor (lw_ipc_read w);
  mret {| lw_argv := lw_argv w; lw_ipc_read := r; lw_ipc_write := wr |}.
Definition workers_dtor : list LaunchedWorker -> M mq_ns (list LaunchedWorker) := for_workers worker_dtor.

(** [~Controller] and the destructors of its members *)
Definition controller_dtor : M ControllerLife unit :=
  ending ← gets ct_ending;
  (if (ending : bool) then mret tt else life_shutdown) ≫= fun _ =>
  call CloseEventFd ≫= fun _ => call CloseEpollFd ≫= fun _ => on_channels workers_dtor.

(** what follows the loop of [poll()]: the rest of [poll], of [start] and of [main] *)
Definition after_the_loop : M ControllerLife unit :=
  Workers_shutdown ≫= fun _ => server_dtor ≫= fun _ => controller_dtor.

(** the handlers of [controller.cpp]; the lambda of [set_terminate] *)
Definition life_signal_handler : M ControllerLife unit :=
  registered ← gets ct_registered; if (registered : bool) then life_shutdown else mret tt.
Definition life_failure_handler : M ControllerLife unit :=
  registered ← gets ct_registered;
  (if (registered : bool) then life_shutdown_channels else mret tt) ≫= fun _ => throw exit_failure.

(** a signal of the program: without a handler it kills it.  After
    [signal_handler], the interrupted wait of the loop is its last. *)
Definition raise_signal (s : signo) : M ControllerLife unit :=
  registered ← gets ct_registered;
  if (registered : bool) then
    match handler_of controller_signals s with
    | Some signal_handler_ => life_signal_handler ≫= fun _ => after_the_loop
    | Some failure_handler_ => life_failure_handler
    | None => throw killed
    end
  else throw killed.

(** [std::terminate], then [abort()]: [SIGABRT], and if its handler returned, the end *)
Definition life_terminate : M ControllerLife unit :=
  registered ← gets ct_registered;
  (if (registered : bool) then life_shutdown else mret tt) ≫= fun _ =>
  raise_signal SIGABRT ≫= fun _ => throw abort_failure.

(** what ends a controller *)
Inductive life_end : Type :=
  | LoopEnds | Raised (s : signo) | UncaughtException | FailedAssertion.
(** the ends by which [main] returns *)
Definition main_returns (e : life_end) : bool := match e with LoopEnds | Raised SIGINT => true | _ => false end.
Definition end_life (e : life_end) : M ControllerLife unit :=
  match e with
  | LoopEnds => after_the_loop
  | Raised s => raise_signal s
  | UncaughtException => life_terminate
  | FailedAssertion => throw exit_failure
  end.
End controller.

Section ends.
Context `{HL : MqNamespaceLaws}.

(** the calls of a loop *)
Lemma for_each_call {A} (f : A -> life_call) l c :
  for_each (fun x => call (f x)) l c = (Ret tt, {| ct_ns := ct_ns c; ct_workers := ct_workers c; ct_pids := ct_pids c;
    ct_ending := ct_ending c; ct_registered := ct_registered c; ct_server_running := ct_server_running c;
    ct_calls := ct_calls c ++ (f <$> l) |}).
Proof.
  revert c. induction l as [|x l IH]; intros c.
  - cbn. rewrite app_nil_r. now destruct c.
  - cbn [for_each]. erewrite M_bind_eq by reflexivity. rewrite IH. cbn. now rewrite <-app_assoc.
Qed.

Lemma worker_dtor_closes cfg pid self_dir : closes cfg pid self_dir worker_dtor.
Proof.
  intros language size i ns Hr Hw. unfold worker_dtor. cbn [launched lw_ipc_read lw_ipc_write channel_dtor].
  destruct (channel_shutdown_owner _ size ns Hw) as (ns1 & E1 & N1).
  destruct (channel_shutdown_owner (worker_queue_name cfg pid i +:+ "_read") size ns1) as (ns2 & E2 & N2).
  { rewrite N1, lookup_delete_ne; [done|]. intros E. symmetry in E. now apply read_not_write in E. }
  exists ns2. rewrite N2, N1, delete_delete. split; [|done].
  erewrite M_bind_eq by (rewrite (M_bind_eq _ _ _ _ _ E1); reflexivity).
  erewrite M_bind_eq by (rewrite (M_bind_eq _ _ _ _ _ E2); reflexivity). reflexivity.
Qed.

Lemma server_dtor_run c : server_dtor c = (Ret tt, {| ct_ns := ct_ns c; ct_workers := ct_workers c; ct_pids := ct_pids c;
  ct_ending := ct_ending c; ct_registered := ct_registered c; ct_server_running := false;
  ct_calls := ct_calls c ++ (if ct_server_running c then [ServerStop; LoopQuit; LoopWait] else []) |}).
Proof. destruct c as [? ? ? ? ? [] calls]; cbn; [unfold server_dtor, server_shutdown, call, mbind, M_bind; cbn; now rewrite <-!app_assoc|now rewrite app_nil_r]. Qed.

Section program.
Variables (cfg : ControllerCfg) (pid : Z) (self_dir : string) (language : Language) (n : nat) (size : Z).
Variables (ns ns1 : mq_ns).
Let ws := launched cfg pid self_dir language size <$> numbers n 0.
Hypothesis Hns1 : forall name, mq_names ns1 !! name =
  if decide (name ∈ queue_names cfg pid n 0) then Some size else mq_names ns !! name.

(** a program whose queues are gone *)
Definition released (c : ControllerLife) : Prop := forall name,
  mq_names (ct_ns c) !! name = if decide (name ∈ queue_names cfg pid n 0) then None else mq_names ns !! name.

Lemma on_channels_releases f c :
  closes cfg pid self_dir f -> ct_ns c = ns1 -> ct_workers c = ws ->
  exists ns2, on_channels (for_workers f) c = (Ret tt, set_ct_ns ns2 (closed_worker <$> ws) c) /\
    released (set_ct_ns ns2 (closed_worker <$> ws) c).
Proof.
  intros Hf Hc Hw. destruct (for_workers_closes cfg pid self_dir f n language size 0 ns1 Hf) as (ns2&E&N).
  { intros name Hin. rewrite Hns1, decide_True by done. eauto. }
  exists ns2. fold ws in E. unfold on_channels. rewrite Hw, Hc, E. split; [done|]. intros name. cbn. rewrite N, Hns1.
  now destruct (decide _).
Qed.

(** the calls after the loop *)
Definition last_calls (c : ControllerLife) : list life_call :=
  ((fun p => Kill p SIGINT) <$> ct_pids c) ++ (Waitpid <$> ct_pids c) ++
  (if ct_server_running c then [ServerStop; LoopQuit; LoopWait] else []) ++ [CloseEventFd; CloseEpollFd].

Lemma after_the_loop_releases c :
  ct_ns c = ns1 -> ct_workers c = ws ->
  exists c', after_the_loop c = (Ret tt, c') /\ released c' /\ ct_calls c' = ct_calls c ++ last_calls c /\ ct_ending c' = true.
Proof.
  intros Hc Hw. unfold after_the_loop, Workers_shutdown, last_calls.
  assert (forall c1, ct_ns c1 = ns1 -> ct_workers c1 = ws ->
    exists c', controller_dtor c1 = (Ret tt, c') /\ released c' /\ ct_calls c' = ct_calls c1 ++ [CloseEventFd; CloseEpollFd] /\
      ct_ending c' = true) as Hd.
  { intros c1 H1 H2. set (c2 := {| ct_ns := ns1; ct_workers := ws; ct_pids := ct_pids c1; ct_ending := true;
      ct_registered := ct_registered c1; ct_server_running := ct_server_running c1;
      ct_calls := (ct_calls c1 ++ [CloseEventFd]) ++ [CloseEpollFd] |}).
    destruct (on_channels_releases worker_dtor c2 (worker_dtor_closes _ _ _) eq_refl eq_refl) as (ns2&E&Hr).
    eexists. split; [|split; [exact Hr|]; cbn; now rewrite <-app_assoc].
    rewrite <-E. unfold c2. rewrite <-H1, <-H2. destruct c1 as [? ? ? [] ? ? ?]; reflexivity. }
  unfold Workers_shutdown. erewrite M_bind_eq.
  2: { erewrite M_bind_eq by reflexivity. rewrite (M_bind_eq _ _ _ _ _ (for_each_call (fun p => Kill p SIGINT) _ _)).
       apply for_each_call. }
  rewrite (M_bind_eq _ _ _ _ _ (server_dtor_run _)). cbn [ct_ns ct_workers ct_pids ct_ending ct_registered ct_server_running ct_calls].
  match goal with |- context [controller_dtor ?c1] => destruct (Hd c1 Hc Hw) as (c'&E&Hr&Hk&He) end.
  exists c'. rewrite E, Hk. cbn [ct_calls]. now rewrite <-!app_assoc.
Qed.

Lemma failure_handler_releases c :
  ct_ns c = ns1 -> ct_workers c = ws -> ct_registered c = true ->
  exists c', life_failure_handler c = (Throw exit_failure, c') /\ released c' /\ ct_calls c' = ct_calls c.
Proof.
  intros H1 H2 H3. destruct (on_channels_releases worker_shutdown_channels c (worker_shutdown_closes _ _ _) H1 H2) as (ns2&E2&Hr).
  eexists. split; [|split; [exact Hr|reflexivity]]. unfold life_failure_handler. erewrite M_bind_eq by reflexivity. rewrite H3.
  now rewrite (M_bind_eq _ _ _ _ _ E2).
Qed.
End program.

Lemma raise_registered s c : ct_registered c = true ->
  raise_signal s c = match handler_of controller_signals s with
    | Some signal_handler_ => (life_signal_handler ≫= fun _ => after_the_loop) c
    | Some failure_handler_ => life_failure_handler c
    | None => (Throw killed, c)
    end.
Proof. intros Hc. unfold raise_signal. erewrite M_bind_eq by reflexivity. rewrite Hc. now destruct (handler_of _ s) as [[]|]. Qed.

Lemma signal_registered c : ct_registered c = true -> life_signal_handler c = (Ret tt, (life_shutdown c).2).
Proof. intros Hc. unfold life_signal_handler. erewrite M_bind_eq by reflexivity. now rewrite Hc. Qed.

(** C34: the queues do not outlive the controller.  However a controller whose
    constructor has returned ends - its loop stops, a signal it handles arrives,
    an exception nobody catches - the names of all queues of its workers are
    removed, and no other name; when the loop stops, by itself or after [SIGINT],
    every worker is told to end before the first is waited for, and the server
    stops before the descriptors close.  But a failed assertion, a signal without a
    handler, and every end before the constructor has returned leave all the queues
    behind. *)
Theorem ends_release_queues cfg pid self_dir language n size ns :
  cc_language (pc_code cfg) = Some language -> language <> NONE -> pc_function_workers cfg = Some (Z.of_nat n) ->
  pc_ipc_mode cfg = Some POSIX_MQ -> pc_ipc_message_size cfg = Some size ->
  exists ws ns1, Workers_launch cfg pid self_dir ns = (Ret ws, ns1) /\
    forall c, ct_ns c = ns1 -> ct_workers c = ws ->
      (forall e, ct_registered c = true -> e <> FailedAssertion -> e <> Raised SIGHUP ->
        exists c', end_life e c = (if main_returns e then Ret tt else Throw exit_failure, c') /\
          (forall name, mq_names (ct_ns c') !! name =
            if decide (name ∈ ws ≫= worker_queues) then None else mq_names ns !! name) /\
          ct_calls c' = ct_calls c ++ (if main_returns e then last_calls c else [])) /\
      forall e, e = FailedAssertion \/ e = Raised SIGHUP \/ (ct_registered c = false /\ e <> LoopEnds) ->
        exists ex c', end_life e c = (Throw ex, c') /\
          (forall name, mq_names (ct_ns c') !! name =
            if decide (name ∈ ws ≫= worker_queues) then Some size else mq_names ns !! name) /\
          ct_calls c' = ct_calls c.
Proof.
  intros Hlang Hne Hn Hmode Hsize.
  destruct (launch_workers_run cfg pid self_dir n language size 0 ns) as (ns1 & E & N).
  eexists _, ns1. split.
  { unfold Workers_launch. rewrite Hlang, Hn, Hmode, Hsize, Nat2Z.id. destruct language; [exact E..|done]. }
  intros c Hc Hw. rewrite launched_queues. split.
  - intros e Hreg He1 He2.
    pose proof (failure_handler_releases cfg pid self_dir language n size ns ns1 N) as Hf.
    assert (forall c0, ct_ns c0 = ns1 -> ct_workers c0 = launched cfg pid self_dir language size <$> numbers n 0 ->
      exists c', after_the_loop c0 = (Ret tt, c') /\ released cfg pid n ns c' /\ ct_calls c' = ct_calls c0 ++ last_calls c0) as Hl.
    { intros c0 H1 H2. destruct (after_the_loop_releases cfg pid self_dir language n size ns ns1 N c0 H1 H2) as (c'&?&?&?&_). eauto. }
    assert (forall s, handler_of controller_signals s = Some failure_handler_ -> exists c', raise_signal s c = (Throw exit_failure, c') /\
      released cfg pid n ns c' /\ ct_calls c' = ct_calls c ++ []) as Hs.
    { intros s Hs. destruct (Hf c Hc Hw Hreg) as (c'&E'&?&Hk). exists c'. rewrite (raise_registered s c Hreg), Hs, app_nil_r. auto. }
    destruct e as [|s| |]; cbn [end_life main_returns]; [now apply Hl| |..|done].
    + destruct s; try done; [|now apply Hs..].
      destruct (Hl (life_shutdown c).2 Hc Hw) as (c'&E'&?&Hk). exists c'. split_and!; [|done|exact Hk].
      rewrite <-E', (raise_registered SIGINT c Hreg). cbn [handler_of].
      now rewrite (M_bind_eq _ _ _ _ _ (signal_registered c Hreg)).
    + destruct (Hf (life_shutdown c).2 Hc Hw Hreg) as (c'&E'&?&Hk). exists c'. rewrite app_nil_r. split_and!; [|done|exact Hk].
      unfold life_terminate. erewrite M_bind_eq by reflexivity. rewrite Hreg.
      rewrite (M_bind_eq life_shutdown _ c tt (life_shutdown c).2 eq_refl).
      unfold mbind, M_bind. now rewrite (raise_registered SIGABRT (life_shutdown c).2 Hreg), E'.
  - assert (forall name, mq_names (ct_ns c) !! name =
      if decide (name ∈ queue_names cfg pid n 0) then Some size else mq_names ns !! name) as Hns by (now rewrite Hc).
    assert (forall s, ct_registered c = false -> raise_signal s c = (Throw killed, c)) as Hk.
    { intros s Hreg. unfold raise_signal. erewrite M_bind_eq by reflexivity. now rewrite Hreg. }
    intros e [->|[->|[Hreg Hl]]].
    + now exists exit_failure, c.
    + exists killed, c. split; [|done]. cbn [end_life]. destruct (ct_registered c) eqn:Hreg; [|now apply Hk].
      now rewrite (raise_registered SIGHUP c Hreg).
    + destruct e as [|s| |]; [done|exists killed, c; split; [now apply Hk|done]| |now exists exit_failure, c].
      exists killed, c. split; [|done]. cbn [end_life]. unfold life_terminate. erewrite M_bind_eq by reflexivity. rewrite Hreg.
      erewrite M_bind_eq by reflexivity. unfold mbind, M_bind. now rewrite Hk.
Qed.
End ends.

(** ** Witnesses *)
Section concrete.
#[local] Existing Instance plain_mq | 0.
#[local] Existing Instance plain_laws | 0.

(** a function during which the worker is told to end *)
#[local] Instance told_library : DynamicLoader | 0 := {|
  library := unit;
  dlopen path := if String.eqb path "libf.so" then Some tt else None;
  dlsym _ _ := Some (fun _ => signal_handler ≫= fun _ => mret 0%Z);
|}.

Definition ending_library : FunctionsLibrary := FunctionsLibrary_ctor
  {["f" := {| fn_trigger := DirectTrigger "f"; fn_module_name := "libf.so"; fn_function_name := "f" |}]}.

Lemma worker_told_to_end_witness :
  let c := plain_context [wire_frame (IInvocation "id" "f" "" [3%Z]) [x01; x02; x03]] in
  (serve_polled (poll 1) ending_library c).1 = Undef.
Proof.
  cbn zeta. set (c := plain_context _).
  assert (exists inv s1, poll 1 (cx_invoker c) = (Ret (Some inv), s1) /\ iv_ending s1 = false /\
    rinv_function_name inv = "f" /\ rinv_key inv = "id") as (inv&s1&E&He&Hf&Hk).
  { destruct (poll 1 (cx_invoker c)) as [r s1] eqn:E. vm_compute in E. inversion E; subst. eexists _, _. now split_and!. }
  set (c2 := (start_invocation "id" (set_cx_invoker s1 c)).2).
  destruct fits_names as (_&_&_&_&Hid).
  pose proof (worker_told_to_end ending_library 0 c) as (_&_&_&Hu).
  rewrite (Hu (poll 1) inv s1 (fun _ => signal_handler ≫= fun _ => mret 0%Z) 0%Z c2 [] E He).
  - reflexivity.
  - rewrite Hf. vm_compute. reflexivity.
  - rewrite Hk. reflexivity.
  - exact Hid.
  - split; [reflexivity|now left].
  - unfold i32_range; lia.
  - unfold i32_range; cbn; lia.
Defined.
End concrete.

(** two workers, waiting on a server that runs *)
Definition demo_life (ns : mq_ns) (ws : list LaunchedWorker) : ControllerLife :=
  {| ct_ns := ns; ct_workers := ws; ct_pids := [18%Z; 19%Z]; ct_ending := false; ct_registered := true;
     ct_server_running := true; ct_calls := [] |}.

Lemma ends_release_queues_witness :
  exists ws ns1, Workers_launch demo_cfg 17 "/proc" (demo_names : @mq_ns plain_namespace) = (Ret ws, ns1) /\
    exists c', end_life (Raised SIGINT) (demo_life ns1 ws) = (Ret tt, c') /\
      (forall name, name ∈ ws ≫= worker_queues -> mq_names (ct_ns c') !! name = None) /\
      ct_calls c' = [Kill 18 SIGINT; Kill 19 SIGINT; Waitpid 18; Waitpid 19; ServerStop; LoopQuit; LoopWait; CloseEventFd; CloseEpollFd].
Proof.
  destruct (ends_release_queues demo_cfg 17 "/proc" CPP 2 8192 (demo_names : @mq_ns plain_namespace) eq_refl ltac:(discriminate) eq_refl
    eq_refl eq_refl) as (ws&ns1&E&H). exists ws, ns1. split; [exact E|].
  destruct (H (demo_life ns1 ws) eq_refl eq_refl) as [H1 _].
  destruct (H1 (Raised SIGINT) eq_refl ltac:(discriminate) ltac:(discriminate)) as (c'&E'&Hn&Hk).
  exists c'. split; [exact E'|]. split; [|exact Hk].
  intros name Hin. now rewrite Hn, decide_True.
Defined.
