(* ===== verification/Rounds.v ===== *)
(** * Rounds: whole rounds of the controller's loop

    What one round of [poll] does when a single event is reported: a message of
    the network that starts an invocation, answers a request or finds no taker,
    and a message of a worker.  The channels are the POSIX queues of Channel.v
    and the server is the one of Remote.v, so the outcome is in messages on
    queues and bytes on connections; the files that follow put such rounds of
    several programs together. *)

From S2P Require Import Prelude Memory Messages IpcMessages Buffers Channel Application Functions Mailbox WorkQueue.
From S2P Require Import Controller Remote Invoker Context Requests WorkerMain.

#[local] Existing Instance mq_ipc | 0.
#[local] Existing Instance tcp_server | 0.

(** a view of a parsed message is stored as its text is *)
Lemma sv_text v max :
  cview max v -> sv_len (sv_of_string (sv_str v)) = sv_len v /\ pad max (sv_of_string (sv_str v)) = pad max v /\
  cview max (sv_of_string (sv_str v)).
Proof.
  intros Hv. pose proof Hv as (Hle&Hn&Hl&_).
  assert (String.list_byte_of_string (sv_str v) = take (sv_len v) (sv_mem v)) as Hs
    by (unfold sv_str; apply String.list_byte_of_string_of_list_byte).
  assert (String.length (sv_str v) = sv_len v) as Hlen by (now rewrite <-length_list_byte_of_string, Hs).
  split; [exact Hlen|]. split.
  - unfold pad, sv_of_string. cbn [sv_len sv_mem]. rewrite Hlen, Hs, take_app_length' by done. done.
  - apply cview_of_string; [unfold no_nul; now rewrite Hs|lia].
Qed.

Lemma set_field_text max off e v m :
  cview max v -> set_string_field max off e (sv_of_string (sv_str v)) m = set_string_field max off e v m.
Proof.
  intros Hv. destruct (sv_text v max Hv) as (_&Hp&Hc). rewrite !set_string_field_ok by done. now rewrite Hp.
Qed.

(** the reply of the controller to a get *)
Lemma make_get_reply_says pid name :
  cview IPC_NAME_LENGTH pid -> cview IPC_NAME_LENGTH name ->
  exists r, make_get_reply pid name = Ret r /\ length (gr_msg r) = IPC_BUF_SIZE /\
    ipc_decode (gr_msg r) = Ret (IGet (sv_str pid) (sv_str name) false 0).
Proof.
  intros Hp Hn. destruct (set_generic_names (sv_str pid) (sv_str name)) as (x&y&Hy&Hx&_&_&Hl&_&Hd);
    [now apply cview_ipc_fits..|].
  exists x. split; [|auto]. unfold make_get_reply, set_generic_process_id, set_generic_name in *.
  rewrite set_field_text in Hy, Hx by done. rewrite (proj1 (sv_text pid _ Hp)) in Hy.
  rewrite (proj1 (sv_text name _ Hn)) in Hx. rewrite Hy. exact Hx.
Qed.

(** the result that waiting workers get *)
Lemma make_result_says id code n :
  cview IPC_ID_LENGTH id -> i32_range code -> i32_range (Z.of_nat n) ->
  exists r, make_result id code n = Ret r /\ length (irs_msg r) = IPC_BUF_SIZE /\
    ipc_decode (irs_msg r) = Ret (IResult (sv_str id) (Z.of_nat n) code).
Proof.
  intros Hid Hc Hn. destruct (make_result_ok id code n [] Hid Hc Hn) as (r&Hr&_). exists r. split; [exact Hr|].
  assert (length (irs_msg r) = IPC_BUF_SIZE) as Hl.
  { revert Hr. unfold make_result, set_ipc_result_id. ipc_build. intros [= <-]. cbn. ipc_len. }
  split; [exact Hl|]. rewrite <-(ipc_decode_total_length (Z.of_nat n)) by done.
  destruct (make_result_ok id code n (set_ipc_total_length (Z.of_nat n) (irs_msg r)) Hid Hc Hn) as (r'&Hr'&Hm).
  assert (r' = r) as -> by congruence. destruct (Hm eq_refl) as (x&Hx&X1&X2&X3&_).
  unfold ipc_decode. rewrite Hx. cbn. now rewrite X1, X2, X3.
Qed.

Section rounds.
Context {al : Allocator} {mq : PosixMQ} {laws : PosixMQLaws mq} {er : EqualRange}.
#[local] Existing Instance al | 0.
#[local] Existing Instance mq | 0.
#[local] Existing Instance er | 0.
Variable serialize_state_keys : list (string * Z) -> list byte.

(** A blocking [mq_send] returns 0, a blocking [mq_receive] a message; and what
    was sent arrives in order. *)
Hypothesis mq_send_reliable : forall q m, exists q', mq_send q m = (true, q').
Hypothesis mq_receive_reliable : forall q q', mq_receive q <> (MqError, q').
Hypothesis never_empty : ~ ran_empty.

(** ** Sending to a worker *)

(** the queue to the worker holds messages of the size of a request *)
Definition wide (w : FunctionWorker) : Prop := (Z.of_nat IPC_BUF_SIZE <= ch_msg_size (fw_ipc_write w).1)%Z.

(** the queue to a worker is now [q] *)
Definition write_end (q : mqd) (log : list (mem * list byte)) (x : FunctionWorker) : FunctionWorker :=
  set_ipc_write (set_ch_queue q (fw_ipc_write x).1, log) x.

(** [w'] is the worker [w] after the message [f] went to its queue *)
Definition queued (f : frame) (w w' : FunctionWorker) : Prop :=
  exists q log, mq_messages q = mq_messages (ch_queue (fw_ipc_write w).1) ++ frame_wire f /\ w' = write_end q log w.

(** the same when the message was an invocation *)
Definition busy_with (f : frame) (w w' : FunctionWorker) : Prop :=
  exists w1, queued f w w1 /\ w' = set_busy true w1.

(** [c'] is [c] but for the message [f] on the queue of the worker [w] *)
Definition worker_gets (f : frame) (w : nat) (c c' : Controller) : Prop :=
  exists worker worker', ws_workers (c_workers c) !! w = Some worker /\ queued f worker worker' /\
    c' = set_c_workers (set_ws_workers (<[w := worker']> (ws_workers (c_workers c))) (c_workers c)) c.

Lemma mq_ipc_sends msg data ch :
  (Z.of_nat IPC_BUF_SIZE <= ch_msg_size ch.1)%Z -> length msg = IPC_BUF_SIZE -> Forall buffer_ok data ->
  i32_range (Z.of_nat (total_len data)) ->
  exists f q log, ipc_send msg data ch = (Ret tt, (set_ch_queue q ch.1, log)) /\ frame_ok f /\
    mq_messages q = mq_messages (ch_queue ch.1) ++ frame_wire f /\
    f_header f = set_ipc_total_length (Z.of_nat (total_len data)) msg /\ f_payload f = concat (buffer_data <$> data).
Proof.
  intros Hms Hm Hok Hr. destruct ch as [c log]. cbn [fst] in *. unfold ipc_send, mq_ipc.
  destruct (send_buffers msg data c) as [r c'] eqn:E. pose proof E as Hs.
  apply send_buffers_sent in Hs as (r'&Hsn&Hr'&Hc'); [|done..].
  destruct Hsn as [[-> Hq]|[[e ->] _]]; cbn in Hr'; subst r.
  2:{ now apply (send_buffers_never_throws mq_send_reliable) in E. }
  assert (total_len data = length (concat (buffer_data <$> data))) as Ht by now apply total_len_concat.
  rewrite Ht in Hr |- *.
  destruct (frame_of_ok (ch_msg_size c) msg (map buffer_data data)) as [Hfo Hp];
    [unfold IPC_BUF_SIZE in Hms; lia|done|done|].
  rewrite Hc'. eexists _, _, _. split; [reflexivity|]. split; [exact Hfo|]. split; [exact Hq|]. split; [|exact Hp]. reflexivity.
Qed.

(** [send] to one worker, with a message that says [says] *)
Lemma send_to_gets w worker msg says data c :
  ws_workers (c_workers c) !! w = Some worker -> wide worker -> length msg = IPC_BUF_SIZE -> ipc_decode msg = Ret says ->
  Forall buffer_ok data -> i32_range (Z.of_nat (total_len data)) ->
  exists f c', send_to w msg data c = (Ret tt, c') /\ frame_ok f /\ frame_says f says (concat (buffer_data <$> data)) /\
    worker_gets f w c c'.
Proof.
  intros Hw Hwide Hl Hd Hok Hr.
  destruct (mq_ipc_sends msg data (fw_ipc_write worker) Hwide Hl Hok Hr) as (f&q&log&E&Hfo&Hq&Hh&Hp).
  eexists f, _. split; [unfold send_to, on_workers, zoom, worker_send; rewrite Hw, E; reflexivity|].
  split; [exact Hfo|]. split; [split; [|exact Hp]; rewrite Hh; now rewrite ipc_decode_total_length|].
  exists worker, (write_end q log worker). split; [exact Hw|]. split; [|reflexivity].
  exists q, log. auto.
Qed.

(** [submit] to queues that take every message *)
Lemma submit_sends fname key trigger source inv data ws :
  Invocation_ctor fname key trigger source = Ret inv -> names_fit fname key ->
  Forall buffer_ok data -> length data <= BUFFERS_CAPACITY -> i32_range (Z.of_nat (total_len data)) ->
  workers_ok ws -> has_idle_workers ws = true -> Forall wide (ws_workers ws) ->
  exists w worker worker' f ws' inv', submit (ws, with_payload data inv) = (Ret tt, (ws', inv')) /\
    ws_workers ws !! w = Some worker /\ fw_busy worker = false /\ busy_with f worker worker' /\
    ws_workers ws' = <[w := worker']> (ws_workers ws) /\ workers_ok ws' /\ ws_idle_workers ws' = (ws_idle_workers ws - 1)%Z /\
    frame_ok f /\ frame_says f (IInvocation key fname "" (byte_lengths (buffer_data <$> data))) (concat (buffer_data <$> data)) /\
    inv_active inv' = true /\ inv_source inv' = source.
Proof.
  intros Hctor Hfit Hok Hcap Htot Hws Hidle Hwide.
  destruct (Invocation_ctor_ok fname key trigger source Hfit) as (i&Hi&Hk&_&_&_&_&Hsrc).
  assert (i = inv) as -> by congruence. clear Hi. change (carries_key key (with_payload data inv)) in Hk.
  destruct (submit (ws, with_payload data inv)) as [r [ws' inv']] eqn:E.
  destruct (submit_spec ws (with_payload data inv) key r ws' inv' Hws Hidle Hk Hcap E)
    as (w&worker&req&_&Hw&Hb&Hconf&Hk1&rs&c'&Hsend&Hk'&Hrs).
  unfold confirm_payload in Hconf. apply bind_ret_inv in Hconf as (req'&Hreq&Hreq').
  assert (req' = req) as -> by (injection Hreq'; done). clear Hreq'.
  pose proof (proj1 (list.Forall_lookup _ _) Hwide w worker Hw) as Hms.
  destruct (mq_ipc_sends (iir_msg req) data (fw_ipc_write worker)) as (f&q&log&Es&Hfo&Hq&Hh&Hp); auto.
  { exact (proj2 (proj2 Hk1)). }
  cbn [inv_payload with_payload] in Hsend. rewrite Es in Hsend. injection Hsend as <- <-.
  destruct Hrs as (->&Hok'&->&Hws'&Hn).
  eexists w, worker, _, f, ws', _. split; [reflexivity|]. split; [exact Hw|]. split; [exact Hb|].
  split; [|split; [exact Hws'|split; [exact Hok'|split; [exact Hn|split; [exact Hfo|split_and!; auto]]]]].
  - eexists. split; [exists q, log; split; [exact Hq|reflexivity]|reflexivity].
  - split; [|exact Hp]. rewrite Hh, ipc_decode_total_length by exact (proj2 (proj2 Hk1)).
    cbn [inv_payload inv_req with_payload] in Hreq. rewrite (buffer_lengths data Hok Htot) in Hreq.
    apply (invocation_request_decodes _ _ _ _ _ _ _ Hctor Hfit) in Hreq as [_ Hd]; [exact Hd| |].
    + unfold byte_lengths. now rewrite length_map, length_fmap.
    + rewrite <-(buffer_lengths data Hok Htot). apply Forall_fmap, list.Forall_true. intros. apply wrap_i32_range.
Qed.

(** ** One event, one round *)

(** nothing can be started *)
Definition settled (c : Controller) : Prop :=
  wq_pending (c_work_queue c) = [] \/ (ws_idle_workers (c_workers c) <= 0)%Z.

Definition try_schedule : M Controller bool :=
  c ← get; schedule (Z.to_nat (ws_idle_workers (c_workers c))) ≫= fun _ => mret true.

Lemma schedule_settled fuel c :
  settled c -> (ws_idle_workers (c_workers c) <= Z.of_nat fuel)%Z -> schedule fuel c = (Ret tt, c).
Proof.
  intros Hs Hf. destruct fuel as [|fuel]; cbn [schedule]; erewrite M_bind_eq by reflexivity; unfold has_idle_workers;
    destruct (Z.ltb_spec 0 (ws_idle_workers (c_workers c))); try done; [lia|].
  destruct Hs as [Hp|]; [|lia]. assert (on_queue next c = (Ret None, c)) as E.
  { unfold on_queue, zoom, next. rewrite Hp. cbn. now destruct c. }
  now rewrite (M_bind_eq _ _ _ _ _ E).
Qed.

Lemma try_schedule_settled c : settled c -> try_schedule c = (Ret true, c).
Proof.
  intros Hs. unfold try_schedule. erewrite M_bind_eq by reflexivity.
  now rewrite (M_bind_eq _ _ _ _ _ (schedule_settled (Z.to_nat (ws_idle_workers (c_workers c))) c Hs ltac:(lia))).
Qed.

Lemma round_event now e c c1 :
  c_ending c = false -> handle_event serialize_state_keys now e c = (Ret tt, c1) ->
  poll_round serialize_state_keys now (EpollEvents [e]) c = try_schedule c1.
Proof.
  intros He E. unfold poll_round. erewrite M_bind_eq by reflexivity. rewrite He. cbn [orb for_each].
  assert ((handle_event serialize_state_keys now e ≫= fun _ => mret tt) c = (Ret tt, c1)) as E1
    by now rewrite (M_bind_eq _ _ _ _ _ E).
  now rewrite (M_bind_eq _ _ _ _ _ E1).
Qed.

(** the message a call of the server queues *)
Definition external_of (call : ctl_call) : option ExternalMessage :=
  match call with
  | CallRemote msg payload p =>
      Some {| em_source_type := PROCESS; em_source := Some p; em_msg := msg; em_payload := payload |}
  | CallDataplane msg payload =>
      Some {| em_source_type := DATA_PLANE; em_source := None; em_msg := msg; em_payload := payload |}
  | CallControlplane msg payload =>
      Some {| em_source_type := CONTROL_PLANE; em_source := None; em_msg := msg; em_payload := payload |}
  | CallUpdate _ _ => None
  end.

(** no message and no update is queued *)
Definition quiet (c : Controller) : Prop :=
  c_ending c = false /\ c_external_queue c = [] /\ c_app_updates c = [].
(** the wake-up was read, and the queue taken *)
Definition woken (c : Controller) : Controller := set_c_external_queue [] (set_c_event_fd 0 c).

(** a message arrives at a controller with nothing else to do *)
Lemma round_external now call m c c1 :
  external_of call = Some m -> quiet c -> process_external_message m (woken c) = (Ret tt, c1) -> c_app_updates c1 = [] ->
  (run_call call ≫= fun _ => poll_round serialize_state_keys now (EpollEvents [WakeUp])) c = try_schedule c1.
Proof.
  intros Hcall (He&Hq&Hu) Em Hu1.
  assert (run_call call c = (Ret tt, set_c_event_fd (c_event_fd c + 1) (set_c_external_queue (c_external_queue c ++ [m]) c))) as Ec
    by (destruct call; try discriminate Hcall; injection Hcall as <-; reflexivity).
  rewrite (M_bind_eq _ _ _ _ _ Ec). rewrite Hq. cbn [app]. apply round_event; [exact He|]. cbn [handle_event].
  unfold handle_wakeup. do 3 (erewrite M_bind_eq by reflexivity). cbn [c_external_queue set_c_external_queue set_c_event_fd for_each].
  match goal with |- (?a ≫= ?k) ?s = _ => change s with (woken c); assert ((a : M Controller unit) (woken c) = (Ret tt, c1)) as E1 end.
  { now rewrite (M_bind_eq _ _ _ _ _ Em). }
  rewrite (M_bind_eq _ _ _ _ _ E1). erewrite M_bind_eq by reflexivity. now rewrite Hu1.
Qed.

(** the queue from a worker is now [q] *)
Definition refill (q : mqd) (x : FunctionWorker) : FunctionWorker :=
  set_ipc_read (set_ch_queue q (fw_ipc_read x).1, (fw_ipc_read x).2) x.
Definition arrived (w : nat) (q : mqd) (c : Controller) : Controller :=
  set_c_workers (set_ws_workers (alter (refill q) w (ws_workers (c_workers c))) (c_workers c)) c.

Definition read_end (ch : POSIXMQChannel) (x : FunctionWorker) : FunctionWorker := set_ipc_read (ch, (fw_ipc_read x).2) x.
(** the message of the worker was taken, and its read channel is now [ch] *)
Definition taken (w : nat) (ch : POSIXMQChannel) (c : Controller) : Controller :=
  set_c_workers (set_ws_workers (alter (read_end ch) w (ws_workers (c_workers c))) (c_workers c)) c.

(** every message of the worker was taken *)
Definition drained (x : FunctionWorker) : Prop := idle_rx [] (fw_ipc_read x).1.

(** one message of a worker *)
Lemma worker_message now r w q worker c :
  ws_workers (c_workers c) !! w = Some worker -> drained worker -> frame_ok r -> mq_messages q = frame_wire r ->
  exists b ch, buffer_ok b /\ buffer_data b = f_payload r /\ idle_rx [] ch /\
    handle_event serialize_state_keys now (WorkerReady w) (arrived w q c) =
      process_internal_message serialize_state_keys now w (f_header r) b (taken w ch c).
Proof.
  intros Hw Hi Hr Hq.
  destruct (idle_receive mq_receive_reliable never_empty r [] (set_ch_queue q (fw_ipc_read worker).1))
    as (b&ch&Ec&Hb&Hbd&Hm&Hi').
  { apply (idle_rx_extend [] r); auto. destruct Hi as [(_&_&_&_&_&Hrx) Hrd]. unfold rx_payload in Hrx.
    rewrite Hrd in Hrx. destruct Hrx as [_ ->]. exact Hq. }
  exists b, ch. split_and!; auto. cbn [handle_event]. unfold handle_worker.
  assert (ws_workers (c_workers (arrived w q c)) !! w = Some (refill q worker)) as ->
    by (cbn; now rewrite list_lookup_alter_eq, Hw).
  assert (ipc_receive (fw_ipc_read (refill q worker)) = (Ret (true, b), (ch, (fw_ipc_read worker).2))) as ->
    by (cbn; now rewrite Ec).
  cbn [ipc_message mq_ipc]. rewrite Hm. cbn [arrived c_workers set_c_workers ws_workers set_ws_workers].
  replace (<[w := _]> (alter (refill q) w (ws_workers (c_workers c)))) with
    (alter (read_end ch) w (ws_workers (c_workers c))); [reflexivity|].
  apply list_eq. intros i. destruct (decide (i = w)) as [->|Hne].
  - pose proof (lookup_lt_Some _ _ _ Hw). rewrite list_lookup_insert_eq by now rewrite length_alter.
    rewrite list_lookup_alter_eq, Hw. reflexivity.
  - now rewrite list_lookup_insert_ne, !list_lookup_alter_ne.
Qed.

(** ** An invocation starts *)

(** the controller waits, knows the function, not yet the key, and has a worker to spare *)
Record takes (fname key : string) (c : Controller) : Prop := {
  tk_quiet : quiet c;
  tk_pending : wq_pending (c_work_queue c) = [];
  tk_new : wq_active (c_work_queue c) !! key = None;
  tk_known : is_Some (get_trigger (wq_functions (c_work_queue c)) fname);
  tk_workers : workers_ok (c_workers c);
  tk_idle : has_idle_workers (c_workers c) = true;
  tk_wide : Forall wide (ws_workers (c_workers c));
}.

(** one invocation pending, with its payload *)
Lemma schedule_one fname key trigger source inv data c :
  Invocation_ctor fname key trigger source = Ret inv -> names_fit fname key ->
  Forall buffer_ok data -> length data <= BUFFERS_CAPACITY -> i32_range (Z.of_nat (total_len data)) ->
  wq_pending (c_work_queue c) = [key] -> wq_active (c_work_queue c) !! key = Some (with_payload data inv) ->
  workers_ok (c_workers c) -> has_idle_workers (c_workers c) = true -> Forall wide (ws_workers (c_workers c)) ->
  exists w worker worker' f inv' ws', ws_workers (c_workers c) !! w = Some worker /\ fw_busy worker = false /\
    busy_with f worker worker' /\ frame_ok f /\
    frame_says f (IInvocation key fname "" (byte_lengths (buffer_data <$> data))) (concat (buffer_data <$> data)) /\
    ws_workers ws' = <[w := worker']> (ws_workers (c_workers c)) /\ workers_ok ws' /\
    inv_active inv' = true /\ inv_source inv' = source /\
    try_schedule c = (Ret true,
      set_c_workers ws' (set_c_work_queue {| wq_pending := []; wq_active := <[key := inv']> (wq_active (c_work_queue c));
        wq_functions := wq_functions (c_work_queue c) |} c)).
Proof.
  intros Hctor Hfit Hok Hcap Htot Hpend Hact Hws Hidle Hwide.
  destruct (submit_sends fname key trigger source inv data _ Hctor Hfit Hok Hcap Htot Hws Hidle Hwide)
    as (w&worker&worker'&f&ws'&inv'&Es&Hw&Hb&Hbw&Hws'&Hok'&Hn&Hfo&Hf&Ha&Hsrc).
  exists w, worker, worker', f, inv', ws'. split_and!; auto. unfold try_schedule. erewrite M_bind_eq by reflexivity.
  assert (on_queue next c = (Ret (Some key), set_c_work_queue {| wq_pending := [];
    wq_active := wq_active (c_work_queue c); wq_functions := wq_functions (c_work_queue c) |} c)) as En.
  { unfold on_queue, zoom, next. rewrite Hpend. now rewrite (first_ready_head _ key [] _ Hact). }
  pose proof Hidle as Hlt. unfold has_idle_workers in Hlt. apply Z.ltb_lt in Hlt.
  destruct (Z.to_nat (ws_idle_workers (c_workers c))) as [|fuel] eqn:Ef; [lia|].
  match goal with |- _ = (_, ?x) => set (c2 := x) end.
  assert (schedule (S fuel) c = (Ret tt, c2)) as Esch.
  { cbn [schedule]. erewrite M_bind_eq by reflexivity. rewrite Hidle, (M_bind_eq _ _ _ _ _ En).
    match goal with |- _ ?x = _ => set (c1 := x) end.
    assert (submit_key key c1 = (Ret tt, c2)) as E1.
    { unfold submit_key. subst c1. cbn [c_work_queue set_c_work_queue wq_active c_workers]. now rewrite Hact, Es. }
    rewrite (M_bind_eq _ _ _ _ _ E1). apply schedule_settled; [now left|]. cbn [c2 c_workers set_c_workers]. lia. }
  now rewrite (M_bind_eq _ _ _ _ _ Esch).
Qed.

(** what a round leaves of the controller when it hands the invocation [key] to the worker [w] *)
Definition handed_over (source : InvocationSource) (key : string) (f : frame) (w : nat) (c c' : Controller) : Prop :=
  exists worker worker' inv' q', ws_workers (c_workers c) !! w = Some worker /\ fw_busy worker = false /\
    busy_with f worker worker' /\ ws_workers (c_workers c') = <[w := worker']> (ws_workers (c_workers c)) /\
    workers_ok (c_workers c') /\ inv_active inv' = true /\ inv_source inv' = source /\
    q' = {| wq_pending := []; wq_active := <[key := inv']> (wq_active (c_work_queue c)); wq_functions := wq_functions (c_work_queue c) |} /\
    c' = set_c_workers (c_workers c') (set_c_work_queue q' (woken c)).

(** A request from outside starts in the round that finds it. *)
Lemma round_starts now call em m fname key c :
  external_of call = Some em -> length (em_msg em) = BUF_SIZE -> parse (em_msg em) = Ret (VInvocationRequest m) ->
  sv_str (function_name m) = fname -> sv_str (invocation_id m) = key ->
  buffer_ok (em_payload em) -> i32_range (Z.of_nat (buf_len (em_payload em))) -> takes fname key c ->
  exists w f c', (run_call call ≫= fun _ =>
      poll_round serialize_state_keys now (EpollEvents [WakeUp])) c = (Ret true, c') /\
    frame_ok f /\
    frame_says f (IInvocation key fname "" (byte_lengths [buffer_data (em_payload em)])) (concat [buffer_data (em_payload em)]) /\
    handed_over (external_source em) key f w c c'.
Proof.
  intros Hcall Hlen Hp <- <- Hb Hr [Hq Hpend Hnew [t Ht] Hws Hidle Hwide].
  pose proof (parsed_request_fits _ _ Hlen Hp) as Hfit. set (key := sv_str (invocation_id m)) in *.
  set (fname := sv_str (function_name m)) in *. set (b := em_payload em) in *. set (src := external_source em) in *.
  destruct (Invocation_ctor_ok fname key t src Hfit) as (inv&Hctor&_&_&Hpay&_).
  set (q1 := {| wq_pending := [key]; wq_active := <[key := with_payload [b] inv]> (wq_active (c_work_queue c));
                wq_functions := wq_functions (c_work_queue c) |}).
  set (c1 := set_c_work_queue q1 (woken c)).
  destruct (schedule_one fname key t src inv [b] c1 Hctor Hfit) as
    (w&worker&worker'&f&inv'&ws'&Hw&Hbusy&Hbw&Hfo&Hf&Hws'&Hok'&Ha&Hsrc&E); auto.
  { unfold BUFFERS_CAPACITY. cbn. vm_compute. lia. }
  { cbn [total_len foldr]. now rewrite Nat.add_0_r. }
  { cbn. apply lookup_insert_eq. }
  assert (process_external_message em (woken c) = (Ret tt, c1)) as Em.
  { unfold process_external_message. rewrite Hp. erewrite M_bind_eq by reflexivity.
    assert (on_queue (add_payload fname key b src) (woken c) = (Ret None, c1)) as Ea.
    { unfold on_queue, zoom, add_payload. cbn [c_work_queue woken set_c_external_queue set_c_event_fd].
      rewrite Hnew, Ht, Hctor, Hpend, move_buffer_fst. unfold push_payload, with_payload in *. rewrite Hpay. reflexivity. }
    cbv match. fold key fname src b. now rewrite (M_bind_eq _ _ _ _ _ Ea). }
  pose proof Hq as (_&_&Hu). pose proof (round_external now call em c c1 Hcall Hq Em Hu) as Er.
  match type of E with _ = (_, ?c2) => exists w, f, c2 end. rewrite Er. split; [exact E|]. split; [exact Hfo|].
  split; [exact Hf|]. exists worker, worker', inv'. eexists. split_and!; try done.
  cbn [c_work_queue set_c_work_queue wq_active c1 q1]. now rewrite insert_insert_eq.
Qed.

(** ** A result goes back to a remote caller *)

(** the server is connected to the caller [src] over [t] *)
Definition connected_to (src : InvocationSource) (t : tcp) (c : Controller) : Prop :=
  exists srv l cn, c_server c = Some srv /\ result_recipient (src_type src) (src_process src) srv = Some l /\
    ts_heap srv !! l = Some cn /\ cn_conn cn = Some t.

(** the invocation [key] of the caller [src] runs on the worker [w], whose result is the
    next message of its queue, and the caller is connected over [t] *)
Record awaits (src : InvocationSource) (w : nat) (key : string) (t : tcp) (c : Controller) : Prop := {
  aw_running : c_ending c = false;
  aw_pending : wq_pending (c_work_queue c) = [];
  aw_started : exists inv, wq_active (c_work_queue c) !! key = Some inv /\ inv_active inv = true /\ inv_source inv = src;
  aw_worker : exists worker, ws_workers (c_workers c) !! w = Some worker /\ drained worker;
  aw_caller : connected_to src t c;
}.

(** a message of the network that says the result *)
Definition result_bytes (key : string) (code : Z) (out reply : list byte) : Prop :=
  exists hdr m, reply = hdr ++ out /\ length hdr = BUF_SIZE /\ parse hdr = Ret (VInvocationResult m) /\
    sv_str (result_invocation_id m) = key /\ return_code m = code /\ total_length m = Z.of_nat (length out).

(** it was sent over the connection to the caller *)
Definition result_on (t : tcp) (key : string) (code : Z) (out : list byte) (s s' : TCPServer) : Prop :=
  exists reply, sent_on t s' = sent_on t s ++ reply /\ result_bytes key code out reply.

Lemma parsed_result_ranges d x :
  length d = IPC_BUF_SIZE -> parse_message d = Ret (VInvocationResultParsed x) ->
  cview IPC_ID_LENGTH (ipc_result_id x) /\ i32_range (ipc_return_code x).
Proof.
  intros Hlen Hx. unfold parse_message in Hx. destruct (_ || _)%bool; [done|]. destruct (IpcType_of_Z _); try done.
  injection Hx as <-. unfold IPC_BUF_SIZE in Hlen. split.
  - apply (cview_sv_at IPC_HEADER_OFFSET IPC_ID_LENGTH d). rewrite Hlen. unfold IPC_HEADER_OFFSET, IPC_ID_LENGTH. lia.
  - apply read_i32_range. cbn [irs_msg InvocationResultParsed]. rewrite Hlen. unfold IPC_HEADER_OFFSET, IPC_ID_LENGTH. lia.
Qed.

Lemma caller_gets_result ty p key id code b out s l cn t :
  cview IPC_ID_LENGTH id -> sv_str id = key -> i32_range code -> buffer_ok b -> buffer_data b = out ->
  (Z.of_nat (length out) < 2 ^ 31)%Z ->
  result_recipient ty p s = Some l -> ts_heap s !! l = Some cn -> cn_conn cn = Some t ->
  exists s', tcp_invocation_result ty p id code (accessor_of b) s = (Ret tt, s') /\ result_on t key code out s s'.
Proof.
  intros Hid <- Hcode Hb <- Hr Hl Hcn Ht.
  assert (accessor_data (accessor_of b) = buffer_data b) as Ha by reflexivity.
  assert (acc_len (accessor_of b) = length (buffer_data b)) as Hal by (symmetry; now apply length_buffer_data).
  pose proof (invocation_result_sent ty p id code (accessor_of b) s Hid Hcode) as H.
  rewrite Ha, Hal, Hl in H. specialize (H eq_refl Hr cn Hcn). rewrite Ht in H.
  destruct H as (hdr&s'&E&Hs&Hlen&m&Hm&H1&H2&H3). exists s'. split; [exact E|].
  eexists. split; [exact Hs|]. exists hdr, m. split_and!; auto.
Qed.

Lemma result_worker_remote w key id code payload inv src s s' c :
  sv_str id = key -> wq_active (c_work_queue c) !! key = Some inv -> inv_active inv = true ->
  inv_source inv = src -> is_remote src = true -> c_server c = Some s ->
  tcp_invocation_result (src_type src) (src_process src) id code payload s = (Ret tt, s') ->
  process_result_worker w id code payload c =
    (Ret tt, set_c_workers (workers_finish w (c_workers c)) (set_c_server (Some s')
       (set_c_work_queue (set_wq_active (delete key (wq_active (c_work_queue c))) (c_work_queue c)) c))).
Proof.
  intros <- Hinv Ha <- Hrem Hs E. unfold process_result_worker.
  set (c1 := set_c_work_queue (set_wq_active (delete (sv_str id) (wq_active (c_work_queue c))) (c_work_queue c)) c).
  assert (take_finished (sv_str id) c = (Ret (Some inv), c1)) as Et
    by (unfold take_finished, finish; now rewrite Hinv, Ha).
  rewrite (M_bind_eq _ _ _ _ _ Et). unfold process_result_source. rewrite Hrem.
  assert (on_server (srv_invocation_result (src_type (inv_source inv)) (src_process (inv_source inv)) id code payload) c1 =
    (Ret tt, set_c_server (Some s') c1)) as Es
    by (unfold on_server; cbn [c_server c1 set_c_work_queue]; rewrite Hs; cbn [srv_invocation_result tcp_server]; now rewrite E).
  now rewrite (M_bind_eq _ _ _ _ _ Es).
Qed.

(** The round that finds the answer of the worker sends it to the caller. *)
Lemma round_answers now src w key t code out r q c :
  is_remote src = true -> awaits src w key t c -> frame_ok r -> frame_says r (IResult key (Z.of_nat (length out)) code) out ->
  mq_messages q = frame_wire r ->
  exists c', poll_round serialize_state_keys now (EpollEvents [WorkerReady w]) (arrived w q c) = (Ret true, c') /\
    (exists s s', c_server c = Some s /\ c_server c' = Some s' /\ result_on t key code out s s') /\
    wq_active (c_work_queue c') = delete key (wq_active (c_work_queue c)) /\
    fw_busy <$> ws_workers (c_workers c') !! w = Some false /\ c_ending c' = false.
Proof.
  intros Hrem [He Hpend (inv&Hinv&Hact&Hsrc) (worker&Hw&Hi) (srv&l&cn&Hsrv&Hl&Hcn&Ht)] Hr [Hd Hp] Hq.
  destruct (worker_message now r w q worker c Hw Hi Hr Hq) as (b&ch&Hb&Hbd&_&Eh).
  pose proof Hr as (Hlen&_). apply ipc_decode_result in Hd as (x&Hx&Hid&Hcode).
  destruct (parsed_result_ranges _ _ Hlen Hx) as [Hview Hrange]. rewrite Hcode in Hrange.
  destruct (caller_gets_result (src_type src) (src_process src) key (ipc_result_id x) code b out srv l cn t) as (srv'&Es&Hres);
    auto; [congruence|rewrite <-Hp; exact (frame_payload_range r Hr)|].
  set (c1 := taken w ch c).
  pose proof (result_worker_remote w key (ipc_result_id x) code (accessor_of b) inv src srv srv' c1 Hid Hinv Hact Hsrc Hrem Hsrv Es) as Er.
  match type of Er with _ = (_, ?c2) => set (c2' := c2) in Er end.
  assert (handle_event serialize_state_keys now (WorkerReady w) (arrived w q c) = (Ret tt, c2')) as Ev.
  { rewrite Eh. unfold process_internal_message. rewrite Hx. erewrite M_bind_eq by reflexivity. cbv match. now rewrite Hcode. }
  exists c2'. split_and!.
  - rewrite (round_event now _ (arrived w q c) c2' He Ev). apply try_schedule_settled. now left.
  - exists srv, srv'. auto.
  - done.
  - subst c2'. cbn. rewrite !list_lookup_alter_eq, Hw. reflexivity.
  - exact He.
Qed.

(** the worker that took an invocation owes its answer *)
Lemma handed_over_awaits src key f w t c c' :
  handed_over src key f w c c' -> c_ending c = false -> connected_to src t c ->
  Forall drained (ws_workers (c_workers c)) -> awaits src w key t c'.
Proof.
  intros (worker&worker'&inv'&q'&Hw&Hb&(w1&(q&log&Hq&->)&->)&Hws&_&Ha&Hsrc&->&Hc') He Hto Hidle.
  rewrite Hc'. split; auto.
  - exists inv'. cbn. split_and!; auto. apply lookup_insert_eq.
  - eexists. cbn. rewrite Hws. split; [apply list_lookup_insert_eq; eapply lookup_lt_Some; eauto|].
    exact (proj1 (list.Forall_lookup _ _) Hidle w worker Hw).
Qed.

(** ** Messages between functions *)

Lemma ipc_decode_get_fields m p n st len :
  ipc_decode m = Ret (IGet p n st len) -> exists x, parse_message m = Ret (VGetRequestParsed x) /\
    sv_str (generic_process_id x) = p /\ sv_str (generic_name x) = n /\ generic_state x = st.
Proof.
  unfold ipc_decode. destruct (parse_message m) as [[]| |]; cbn; try discriminate.
  - intros [= <- <- <- <-]. eauto.
  - destruct (read_lengths _ _ _); cbn; discriminate.
Qed.

Lemma ipc_decode_put_fields m p n st len :
  ipc_decode m = Ret (IPut p n st len) -> exists x, parse_message m = Ret (VPutRequestParsed x) /\
    sv_str (generic_process_id x) = p /\ sv_str (generic_name x) = n /\ generic_state x = st.
Proof.
  unfold ipc_decode. destruct (parse_message m) as [[]| |]; cbn; try discriminate.
  - intros [= <- <- <- <-]. eauto.
  - destruct (read_lengths _ _ _); cbn; discriminate.
Qed.

Lemma parsed_generic_views d x :
  length d = IPC_BUF_SIZE ->
  parse_message d = Ret (VGetRequestParsed x) \/ parse_message d = Ret (VPutRequestParsed x) ->
  cview IPC_NAME_LENGTH (generic_process_id x) /\ cview IPC_NAME_LENGTH (generic_name x).
Proof.
  intros Hlen Hx. assert (x = GenericRequestParsed d) as ->.
  { unfold parse_message in Hx. destruct (_ || _)%bool; [by destruct Hx|]. destruct (IpcType_of_Z _); destruct Hx as [Hx|Hx]; try done;
      now injection Hx as <-. }
  unfold IPC_BUF_SIZE in Hlen. split.
  - apply (cview_sv_at (IPC_HEADER_OFFSET + 4) IPC_NAME_LENGTH d). rewrite Hlen. unfold IPC_HEADER_OFFSET, IPC_NAME_LENGTH. lia.
  - replace (generic_name (GenericRequestParsed d)) with (sv_at (IPC_HEADER_OFFSET + IPC_NAME_LENGTH + 4)
      (strnlen (drop (IPC_HEADER_OFFSET + IPC_NAME_LENGTH + 4) d) IPC_NAME_LENGTH) d) by reflexivity.
    apply cview_sv_at. rewrite Hlen. unfold IPC_HEADER_OFFSET, IPC_NAME_LENGTH. lia.
Qed.

Lemma parsed_put_views d x :
  length d = BUF_SIZE -> parse d = Ret (VPutMessage x) ->
  cview IPC_NAME_LENGTH (put_process_id x) /\ cview IPC_NAME_LENGTH (put_name x).
Proof.
  intros Hd Hp. unfold parse in Hp. destruct (_ || _)%bool; [done|]. destruct (MessageType_of_Z _); try done.
  injection Hp as <-. split.
  - apply (cview_sv_at (HEADER_OFFSET + NAME_LENGTH) IPC_NAME_LENGTH d). rewrite Hd. unfold HEADER_OFFSET, NAME_LENGTH, IPC_NAME_LENGTH, BUF_SIZE. lia.
  - apply (cview_sv_at HEADER_OFFSET IPC_NAME_LENGTH d). rewrite Hd. unfold HEADER_OFFSET, IPC_NAME_LENGTH, BUF_SIZE. lia.
Qed.

(** the worker [w] can be sent a reply, and its own messages were all taken *)
Definition serves (w : nat) (c : Controller) : Prop :=
  exists worker, ws_workers (c_workers c) !! w = Some worker /\ wide worker /\ drained worker.

(** one reply to a get *)
Lemma reply_gets w pid name b c :
  serves w c -> cview IPC_NAME_LENGTH pid -> cview IPC_NAME_LENGTH name -> buffer_ok b -> i32_range (Z.of_nat (buf_len b)) ->
  exists f c', (return_req ← lift (make_get_reply pid name); send_to w (gr_msg return_req) [b]) c = (Ret tt, c') /\
    frame_ok f /\ frame_says f (IGet (sv_str pid) (sv_str name) false 0) (buffer_data b) /\ worker_gets f w c c'.
Proof.
  intros (worker&Hw&Hwide&_) Hp Hn Hb Hr. destruct (make_get_reply_says pid name Hp Hn) as (r&Hr'&Hl&Hd).
  destruct (send_to_gets w worker (gr_msg r) _ [b] c Hw Hwide Hl Hd) as (f&c'&E&Hfo&Hf&Hg); auto.
  { cbn. now rewrite Nat.add_0_r. }
  exists f, c'. rewrite Hr'. erewrite M_bind_eq by reflexivity. split; [exact E|]. cbn [fmap list_fmap concat] in Hf.
  rewrite app_nil_r in Hf. auto.
Qed.

Lemma worker_gets_settled f w c c' : worker_gets f w c c' -> settled c -> settled c'.
Proof. intros (worker&worker'&_&_&->) Hs. exact Hs. Qed.

(** the message [key] of [src] is kept for a function that asks for it *)
Definition with_message (key src : string) (b : Buffer) (c : Controller) : Controller :=
  set_c_mailbox {| st_msgs := <[key := {| sm_source := src; sm_data := b |}]> (st_msgs (c_mailbox c));
                   st_state_keys := st_state_keys (c_mailbox c) |} c.
Definition without_message (key : string) (c : Controller) : Controller :=
  set_c_mailbox {| st_msgs := delete key (st_msgs (c_mailbox c)); st_state_keys := st_state_keys (c_mailbox c) |} c.

(** A put that nobody waits for is kept. *)
Lemma round_keeps_put now call em m c :
  external_of call = Some em -> parse (em_msg em) = Ret (VPutMessage m) -> quiet c -> settled c ->
  Forall (fun x => ~ answers (sv_str (put_process_id m)) x) (equal_range (sv_str (put_name m)) (c_pending_msgs c)) ->
  st_msgs (c_mailbox c) !! sv_str (put_name m) = None ->
  (run_call call ≫= fun _ => poll_round serialize_state_keys now (EpollEvents [WakeUp])) c =
    (Ret true, with_message (sv_str (put_name m)) (sv_str (put_process_id m)) (em_payload em) (woken c)).
Proof.
  intros Hcall Hp Hq Hs Hnone Hmsg. set (c1 := with_message (sv_str (put_name m)) (sv_str (put_process_id m)) (em_payload em) (woken c)).
  rewrite (round_external now call em c c1 Hcall Hq); [apply try_schedule_settled; exact Hs| |exact (proj2 (proj2 Hq))].
  unfold process_external_message. rewrite Hp. erewrite M_bind_eq by reflexivity. cbv match.
  destruct (find_get_spec (sv_str (put_name m)) (sv_str (put_process_id m)) (c_pending_msgs c)) as [(m0&rest&Ha&Hperm&_)|[_ Hf]].
  { exfalso. assert (m0 ∈ equal_range (sv_str (put_name m)) (c_pending_msgs c)) as Hin by (rewrite Hperm; now left).
    exact (proj1 (list.Forall_forall _ _) Hnone m0 Hin Ha). }
  assert (take_pending_get (sv_str (put_name m)) (sv_str (put_process_id m)) (woken c) = (Ret None, woken c)) as Et
    by (unfold take_pending_get; cbn [c_pending_msgs woken set_c_external_queue set_c_event_fd]; now rewrite Hf).
  rewrite (M_bind_eq _ _ _ _ _ Et). unfold mailbox_put, store_put, mbind, M_bind.
  cbn [c_mailbox woken set_c_external_queue set_c_event_fd]. rewrite Hmsg. destruct (em_payload em); reflexivity.
Qed.

(** A put that a worker waits for is its reply. *)
Lemma round_put_answers now call em m w p' c :
  external_of call = Some em -> length (em_msg em) = BUF_SIZE -> parse (em_msg em) = Ret (VPutMessage m) ->
  quiet c -> settled c -> serves w c -> buffer_ok (em_payload em) -> i32_range (Z.of_nat (buf_len (em_payload em))) ->
  find_get (sv_str (put_name m)) (sv_str (put_process_id m)) (c_pending_msgs c) = (Some w, p') ->
  exists f c', (run_call call ≫= fun _ => poll_round serialize_state_keys now (EpollEvents [WakeUp])) c = (Ret true, c') /\
    frame_ok f /\ frame_says f (IGet (sv_str (put_process_id m)) (sv_str (put_name m)) false 0) (buffer_data (em_payload em)) /\
    worker_gets f w (set_c_pending_msgs p' (woken c)) c'.
Proof.
  intros Hcall Hlen Hp Hq Hs Hw Hb Hr Hf. destruct (parsed_put_views _ _ Hlen Hp) as [Hv1 Hv2].
  set (c1 := set_c_pending_msgs p' (woken c)).
  destruct (reply_gets w (put_process_id m) (put_name m) (em_payload em) c1 Hw Hv1 Hv2 Hb Hr) as (f&c'&E&Hfo&Hsays&Hg).
  exists f, c'. split; [|auto].
  assert (c_app_updates c' = []) as Hu by (destruct Hg as (?&?&_&_&->); exact (proj2 (proj2 Hq))).
  rewrite (round_external now call em c c' Hcall Hq); [|  |exact Hu].
  { apply try_schedule_settled. exact (worker_gets_settled _ _ _ _ Hg Hs). }
  unfold process_external_message. rewrite Hp. erewrite M_bind_eq by reflexivity. cbv match.
  assert (take_pending_get (sv_str (put_name m)) (sv_str (put_process_id m)) (woken c) = (Ret (Some w), c1)) as Et
    by (unfold take_pending_get; cbn [c_pending_msgs woken set_c_external_queue set_c_event_fd]; now rewrite Hf).
  now rewrite (M_bind_eq _ _ _ _ _ Et).
Qed.

(** the process a get asks *)
Definition asked (p : string) (c : Controller) : string := if decide (p = SELF_PROCESS) then c_process_id c else p.

Lemma process_get_asks w x c :
  generic_state x = false ->
  process_get w x c =
  (buf ← mailbox_try_get (sv_str (generic_name x)) (asked (sv_str (generic_process_id x)) c);
   match buf with
   | Some b => return_req ← lift (make_get_reply (generic_process_id x) (generic_name x));
               send_to w (gr_msg return_req) [b]
   | None => add_pending_get (sv_str (generic_name x)) (asked (sv_str (generic_process_id x)) c) w
   end) c.
Proof. intros Hst. unfold process_get. erewrite M_bind_eq by reflexivity. now rewrite Hst. Qed.

(** A get for a message that is there is answered. *)
Lemma round_get_answers now w r q p key n b s' c :
  c_ending c = false -> settled c -> serves w c -> frame_ok r -> frame_says r (IGet p key false n) [] ->
  mq_messages q = frame_wire r -> try_get key (asked p c) (c_mailbox c) = (Some b, s') ->
  buffer_ok b -> i32_range (Z.of_nat (buf_len b)) ->
  exists f c' ch, poll_round serialize_state_keys now (EpollEvents [WorkerReady w]) (arrived w q c) = (Ret true, c') /\
    frame_ok f /\ frame_says f (IGet p key false 0) (buffer_data b) /\ idle_rx [] ch /\
    worker_gets f w (set_c_mailbox s' (taken w ch c)) c'.
Proof.
  intros He Hs (worker&Hw&Hwide&Hdr) Hr [Hd _] Hq Hget Hb Hlen.
  destruct (worker_message now r w q worker c Hw Hdr Hr Hq) as (b0&ch&_&_&Hch&Eh).
  pose proof Hr as (Hl&_). apply ipc_decode_get_fields in Hd as (x&Hx&X1&X2&X3).
  destruct (parsed_generic_views _ x Hl ltac:(now left)) as [Hv1 Hv2].
  set (c1 := set_c_mailbox s' (taken w ch c)).
  assert (serves w c1) as Hw1.
  { exists (read_end ch worker). cbn. rewrite list_lookup_alter_eq, Hw. split_and!; [done|exact Hwide|exact Hch]. }
  destruct (reply_gets w (generic_process_id x) (generic_name x) b c1 Hw1 Hv1 Hv2 Hb Hlen) as (f&c'&E&Hfo&Hf&Hg).
  rewrite X1, X2 in Hf. exists f, c', ch. split_and!; auto.
  rewrite (round_event now _ (arrived w q c) c' He); [apply try_schedule_settled; exact (worker_gets_settled _ _ _ _ Hg Hs)|].
  rewrite Eh. unfold process_internal_message. rewrite Hx. erewrite M_bind_eq by reflexivity. cbv match.
  rewrite process_get_asks, X1, X2 by done. change (asked p (taken w ch c)) with (asked p c).
  assert (mailbox_try_get key (asked p c) (taken w ch c) = (Ret (Some b), c1)) as Et
    by (unfold mailbox_try_get; change (c_mailbox (taken w ch c)) with (c_mailbox c); now rewrite Hget).
  now rewrite (M_bind_eq _ _ _ _ _ Et).
Qed.

(** A get for a message that is not there waits. *)
Lemma round_get_waits now w r q p key n c :
  c_ending c = false -> settled c -> serves w c -> frame_ok r -> frame_says r (IGet p key false n) [] ->
  mq_messages q = frame_wire r -> (try_get key (asked p c) (c_mailbox c)).1 = None ->
  exists ch, idle_rx [] ch /\
    poll_round serialize_state_keys now (EpollEvents [WorkerReady w]) (arrived w q c) =
      (Ret true, set_c_pending_msgs (insert_get key (asked p c) w (c_pending_msgs c)) (taken w ch c)).
Proof.
  intros He Hs (worker&Hw&Hwide&Hdr) Hr [Hd _] Hq Hget.
  destruct (worker_message now r w q worker c Hw Hdr Hr Hq) as (b0&ch&_&_&Hch&Eh).
  apply ipc_decode_get_fields in Hd as (x&Hx&X1&X2&X3). exists ch. split; [exact Hch|].
  match goal with |- _ = (_, ?c2) => set (c1 := c2) end.
  rewrite (round_event now _ (arrived w q c) c1 He); [apply try_schedule_settled; exact Hs|].
  rewrite Eh. unfold process_internal_message. rewrite Hx. erewrite M_bind_eq by reflexivity. cbv match.
  rewrite process_get_asks, X1, X2 by done. change (asked p (taken w ch c)) with (asked p c).
  assert (mailbox_try_get key (asked p c) (taken w ch c) = (Ret None, taken w ch c)) as Et.
  { unfold mailbox_try_get. change (c_mailbox (taken w ch c)) with (c_mailbox c).
    assert (try_get key (asked p c) (c_mailbox c) = (None, c_mailbox c)) as ->.
    { unfold try_get in Hget |- *. destruct (st_msgs (c_mailbox c) !! key); [|done]. destruct (decide _); [done|discriminate Hget]. }
    reflexivity. }
  now rewrite (M_bind_eq _ _ _ _ _ Et).
Qed.

(** a put over a connection *)
Lemma tcp_put_message_sent peer l t c s p :
  cview NAME_LENGTH (sv_of_string (ts_process_id s)) -> put_ok p ->
  ts_connection_data s !! sv_str peer = Some l -> ts_heap s !! l = Some c -> cn_conn c = Some t ->
  exists hdr s', tcp_put_message peer p.1 p.2 s = (Ret tt, s') /\ put_frame (ts_process_id s) p hdr /\
    sent_on t s' = sent_on t s ++ frame_bytes hdr p.
Proof.
  intros Hid Hp Hl Hc Hn. destruct (put_header _ _ Hid Hp) as (hdr & Hf & E).
  destruct (put_over_connection peer l c t s p hdr E Hl Hc Hn) as (s'&E'&Hs'). eauto.
Qed.

(** the server knows the peer, and is connected to it *)
Definition peer_on (peer : string) (t : tcp) (c : Controller) : Prop :=
  exists srv l cn, c_server c = Some srv /\ ts_process_id srv = c_process_id c /\
    ts_connection_data srv !! peer = Some l /\ ts_heap srv !! l = Some cn /\ cn_conn cn = Some t.

(** A put to another process leaves over its connection. *)
Lemma round_put_leaves now w worker r q dest key n bs t c :
  c_ending c = false -> settled c -> ws_workers (c_workers c) !! w = Some worker -> drained worker ->
  frame_ok r -> frame_says r (IPut dest key false n) bs -> mq_messages q = frame_wire r ->
  dest <> SELF_PROCESS -> dest <> c_process_id c -> peer_on dest t c -> fits NAME_LENGTH (c_process_id c) ->
  exists c' srv srv' hdr m, poll_round serialize_state_keys now (EpollEvents [WorkerReady w]) (arrived w q c) = (Ret true, c') /\
    c_server c = Some srv /\ c_server c' = Some srv' /\ sent_on t srv' = sent_on t srv ++ hdr ++ bs /\
    length hdr = BUF_SIZE /\ parse hdr = Ret (VPutMessage m) /\ sv_str (put_name m) = key /\
    sv_str (put_process_id m) = c_process_id c /\
    decode_stream PROCESS (Some (c_process_id c)) (hdr ++ bs) =
      ([CallRemote hdr (payload_buffer (length bs) bs) (c_process_id c)], [], Ret tt).
Proof.
  intros He Hs Hw Hdr Hr [Hd Hpay] Hq Hself Hown (srv&l&cn&Hsrv&Hid&Hl&Hcn&Ht) Hfit.
  destruct (worker_message now r w q worker c Hw Hdr Hr Hq) as (b&ch&Hb&Hbd&Hch&Eh). rewrite Hpay in Hbd.
  pose proof Hr as (Hlen&_). apply ipc_decode_put_fields in Hd as (x&Hx&X1&X2&X3).
  destruct (parsed_generic_views _ x Hlen ltac:(now right)) as [Hv1 Hv2].
  apply cview_fits in Hfit.
  assert (put_ok (generic_name x, b)) as Hput.
  { split_and!; [exact Hv2|now apply length_buffer_data|]. cbn [snd].
    rewrite <-(length_buffer_data b Hb), Hbd, <-Hpay. exact (frame_payload_range r Hr). }
  destruct (tcp_put_message_sent (generic_process_id x) l t cn srv (generic_name x, b)) as (hdr&srv'&E&Hf&Hsent); auto.
  { now rewrite Hid. } { now rewrite X1. }
  pose proof Hf as (Hhl&m&Hm&M1&M2&_). cbn [fst snd] in *.
  set (c1 := set_c_server (Some srv' : option (@server tcp_server)) (taken w ch c)).
  exists c1, srv, srv', hdr, m. split; [|split_and!; auto; [|congruence|congruence|]].
  - rewrite (round_event now _ (arrived w q c) c1 He); [apply try_schedule_settled; exact Hs|].
    rewrite Eh. unfold process_internal_message. rewrite Hx. erewrite M_bind_eq by reflexivity. cbv match.
    unfold process_put. erewrite M_bind_eq by reflexivity. rewrite X3, X1.
    change (c_process_id (taken w ch c)) with (c_process_id c). rewrite decide_False by tauto.
    unfold on_server. change (c_server (taken w ch c)) with (c_server c). rewrite Hsrv.
    cbn [srv_put_message tcp_server]. now rewrite E.
  - rewrite Hsent. unfold frame_bytes. cbn [snd]. now rewrite Hbd.
  - pose proof (decode_stream_frames (c_process_id c) [(generic_name x, b)] [hdr]) as Hdec.
    cbn [zip_with concat] in Hdec. rewrite app_nil_r in Hdec. unfold frame_bytes in Hdec. cbn [snd] in Hdec.
    rewrite Hbd in Hdec. rewrite Hdec; [|constructor; [exact Hput|constructor]|constructor; [now rewrite <-Hid|constructor]].
    unfold put_call, payload_buffer. cbn [snd]. now rewrite Hbd, firstn_all, <-(length_buffer_data b Hb), Hbd.
Qed.
(** ** The worker at the other end *)

(** [c] reads the queue that the controller writes for [w] *)
Definition reads_from (w : FunctionWorker) (c : RContext) : Prop :=
  ch_queue <$> iv_ipc_channel_read (cx_invoker c) = Some (ch_queue (fw_ipc_write w).1).

(** the worker's view once the queue is what the controller made of it *)
Definition sees (w : FunctionWorker) (c : RContext) : RContext :=
  set_cx_invoker (set_iv_read (set_ch_queue (ch_queue (fw_ipc_write w).1) <$> iv_ipc_channel_read (cx_invoker c))
    (cx_invoker c)) c.

(** what was queued for the worker is the next message it reads *)
Lemma worker_reads f w w' c :
  worker_idle [] (cx_invoker c) -> reads_from w c -> queued f w w' -> frame_ok f -> worker_idle [f] (cx_invoker (sees w' c)).
Proof.
  intros [(rx&Hrx&Hi) Htx] Hq (q&log&Hm&->) Hf. unfold reads_from in Hq. rewrite Hrx in Hq. injection Hq as Hq.
  unfold sees. rewrite Hrx. split; [|exact Htx]. eexists. split; [reflexivity|]. apply (idle_rx_extend [] f); auto.
  rewrite Hq. exact Hm.
Qed.

Lemma worker_hears f w w' c :
  worker_waits [] c -> reads_from w c -> busy_with f w w' -> frame_ok f -> worker_waits [f] (sees w' c).
Proof.
  intros (Hi&Hb&He&Hc) Hq (w1&Hw1&->) Hf. split_and!; auto; [exact (worker_reads f w w1 c Hi Hq Hw1 Hf)|].
  now apply (cx_ok_same c).
Qed.
End rounds.
