(* ===== verification/Service.v ===== *)
(** * Service: a process serves an invocation

    The controller and a worker of one process put together: the round that
    takes a request from outside hands it to an idle worker, the worker polls
    it, calls the function and answers, and the round that finds the answer
    sends the result to the caller - the control plane or another process.
    Between the steps other events may happen. *)

From S2P Require Import Prelude Memory Messages IpcMessages Buffers Channel Application Functions Mailbox WorkQueue.
From S2P Require Import Controller Remote Invoker Context Requests WorkerMain Rounds.

#[local] Existing Instance mq_ipc | 0.
#[local] Existing Instance tcp_server | 0.

Section service.
Context {al : Allocator} {mq : PosixMQ} {laws : PosixMQLaws mq} {er : EqualRange} {ka : KeysArchive} {dl : DynamicLoader}.
#[local] Existing Instance al | 0.
#[local] Existing Instance mq | 0.
#[local] Existing Instance er | 0.
Variable serialize_state_keys : list (string * Z) -> list byte.
Hypothesis mq_send_reliable : forall q m, exists q', mq_send q m = (true, q').
Hypothesis mq_receive_reliable : forall q q', mq_receive q <> (MqError, q').
Hypothesis never_empty : ~ ran_empty.

#[local] Abbreviation round now e := (poll_round serialize_state_keys now (EpollEvents [e])).

(** The worker number [v], which was [worker] and is [worker'] since it was
    handed the invocation [key] of [src], serves it: whatever library and
    context its process has, the function is called with the key, the name and
    the bytes of the request; when it returns a code and an output, the next
    round of the worker's loop answers, and the round of the controller that
    finds the answer sends the caller bytes of which [said] holds. *)
Definition serves_invocation (said : Z -> list byte -> list byte -> Prop) (src : InvocationSource)
    (fname key : string) (body : list byte) (v : nat) (worker worker' : FunctionWorker) : Prop :=
  forall fl func fuel cx, worker_waits [] cx -> reads_from worker cx -> library_function fl fname = Some func -> 0 < fuel ->
  exists inv cx1, rinv_key inv = key /\ rinv_function_name inv = fname /\
    mapM (view_bytes (cx_invoker cx1)) (rinv_args inv) = Some [body] /\
    worker_waits [] cx1 /\ cx_invoc_id cx1 = key /\ to_controller (cx_invoker cx1) = to_controller (cx_invoker cx) /\
    cx_heap cx1 = cx_heap cx /\ cx_output cx1 = set_hb_len 0 (cx_output cx) /\
    cx_output_buf_view cx1 = set_rb_len 0 (cx_output_buf_view cx) /\
  forall code cx2 out, func inv cx1 = (Ret code, cx2) -> worker_waits [] cx2 -> cx_invoc_id cx2 = key ->
    to_controller (cx_invoker cx2) = [] -> i32_range code -> view_shows cx2 (cx_output_buf_view cx2) out ->
    i32_range (Z.of_nat (length out)) ->
  exists cx3, serve_one fuel fl (sees worker' cx) = (Ret true, cx3) /\ worker_waits [] cx3 /\
  forall now t c q, awaits src v key t c -> mq_messages q = to_controller (cx_invoker cx3) ->
  exists c' s s' reply, round now (WorkerReady v) (arrived v q c) = (Ret true, c') /\
    c_server c = Some s /\ c_server c' = Some s' /\
    wq_active (c_work_queue c') = delete key (wq_active (c_work_queue c)) /\
    fw_busy <$> ws_workers (c_workers c') !! v = Some false /\
    sent_on t s' = sent_on t s ++ reply /\ said code out reply.

(** a round takes the request of [call], and a worker serves it *)
Definition takes_and_serves (said : Z -> list byte -> list byte -> Prop) (src : InvocationSource)
    (fname key : string) (body : list byte) (call : ctl_call) : Prop :=
  forall now c, takes fname key c -> exists v worker worker' c1,
    (run_call call ≫= fun _ => round now WakeUp) c = (Ret true, c1) /\
    ws_workers (c_workers c) !! v = Some worker /\ fw_busy worker = false /\
    ws_workers (c_workers c1) !! v = Some worker' /\ fw_busy worker' = true /\
    (forall t, connected_to src t c -> Forall drained (ws_workers (c_workers c)) -> awaits src v key t c1) /\
    serves_invocation said src fname key body v worker worker'.

Lemma serves_invocation_weaken (P Q : Z -> list byte -> list byte -> Prop) src fname key body v worker worker' :
  (forall code out reply, i32_range code -> (Z.of_nat (length out) < 2 ^ 31)%Z -> P code out reply -> Q code out reply) ->
  serves_invocation P src fname key body v worker worker' -> serves_invocation Q src fname key body v worker worker'.
Proof.
  intros HPQ H fl func fuel cx Hcx Hreads Hf Hfuel.
  destruct (H fl func fuel cx Hcx Hreads Hf Hfuel) as (inv&cx1&H1&H2&H3&H4&H5&H6&H7&H8&H9&Hans).
  exists inv, cx1. do 9 (split; [assumption|]).
  intros code cx2 out Ef Hw Hid Ht Hc Hout Hr. destruct (Hans code cx2 out Ef Hw Hid Ht Hc Hout Hr) as (cx3&E&Hw3&Hret).
  exists cx3. split; [exact E|]. split; [exact Hw3|]. intros now t c q Ha Hq.
  destruct (Hret now t c q Ha Hq) as (c'&s&s'&reply&Q1&Q2&Q3&Q4&Q5&Q6&Q7). exists c', s, s', reply.
  do 6 (split; [assumption|]). apply HPQ; [exact Hc| |exact Q7]. unfold i32_range in Hr. lia.
Qed.

(** Every request of a remote caller that a process takes is served. *)
Lemma process_serves call em m src fname key body :
  external_of call = Some em -> external_source em = src -> is_remote src = true ->
  length (em_msg em) = BUF_SIZE -> parse (em_msg em) = Ret (VInvocationRequest m) ->
  sv_str (function_name m) = fname -> sv_str (invocation_id m) = key ->
  buffer_ok (em_payload em) -> buffer_data (em_payload em) = body -> (Z.of_nat (length body) < 2 ^ 31)%Z ->
  takes_and_serves (result_bytes key) src fname key body call.
Proof.
  intros Hcall Hsrc Hrem Hlen Hm Hfn Hid Hbok Hbd Hb now c Htk.
  pose proof (parsed_request_fits _ _ Hlen Hm) as [_ Hkey]. rewrite Hid in Hkey.
  destruct (round_starts serialize_state_keys mq_send_reliable now call em m fname key c Hcall Hlen Hm Hfn Hid Hbok)
    as (v&f&c1&E1&Hfo&Hfr&Hover); auto.
  { rewrite <-(length_buffer_data _ Hbok), Hbd. unfold i32_range. lia. }
  rewrite Hbd in Hfr. rewrite Hsrc in Hover. pose proof Hover as (worker&worker'&_&_&Hw&Hbusy&Hbw&Hws&_).
  exists v, worker, worker', c1. split; [exact E1|]. split; [exact Hw|]. split; [exact Hbusy|].
  split; [rewrite Hws; apply list_lookup_insert_eq; eapply lookup_lt_Some; eauto|].
  split; [now destruct Hbw as (?&_&->)|].
  split; [intros t Hto Hidle; eapply (handed_over_awaits src); eauto; exact (proj1 (tk_quiet _ _ _ Htk))|].
  intros fl func fuel cx Hcx Hreads Hfunc Hfuel.
  pose proof (worker_hears f worker worker' cx Hcx Hreads Hbw Hfo) as Hsees.
  pose proof (serve_one_answers mq_send_reliable mq_receive_reliable never_empty fl [] [] key fname "" [body] f [] fuel
    (sees worker' cx) Hsees (Forall2_nil _) Hkey Hfr Hfuel) as Ha.
  rewrite Hfunc in Ha. destruct Ha as (inv&cx1&Hk&Hn&Hv&Hw1&Hinv&_&Hto&Hh&Ho&Hvw&Hans).
  exists inv, cx1. split_and!; auto.
  intros code cx2 out Ef Hw2 Hid2 Hempty Hcode Hout Hr.
  destruct (Hans code cx2 [] out Ef Hw2 Hid2 Hcode Hout Hr) as (r&cx3&E3&(Hrok&Hsent&_)&Hrs&_&Hw3).
  exists cx3. split; [exact E3|]. split; [exact Hw3|].
  intros now' t c2 q Haw Hq. rewrite Hsent, Hempty in Hq. unfold frames_wire in Hq. cbn in Hq. rewrite app_nil_r in Hq.
  apply List.Forall_cons_iff in Hrok as [Hrok _].
  destruct (round_answers serialize_state_keys mq_receive_reliable never_empty now' src v key t code out r q c2 Hrem Haw Hrok Hrs Hq)
    as (c3&E4&(s&s'&Hsv&Hsv'&reply&Hrep&Hres)&Hdel&Hfree&_).
  exists c3, s, s', reply. split_and!; auto.
Qed.
End service.
