(* ===== verification/RoundTrip.v ===== *)
(** * RoundTrip: one invocation, from the client and back

    The parts put together: the control plane sends an invocation over the
    connection of a process, the controller of the process starts it in one
    round of its loop, a worker polls it and answers, the next round sends the
    result back, and the control plane answers the client.  Between the steps
    other events may happen; what a step needs of the state it starts in is a
    predicate ([takes], [awaits], [expects]), and the step before
    establishes it. *)

From S2P Require Import Prelude CpProcess CpApplication CpServer CpInvariant CpProtocol.
From S2P Require Import Memory Messages IpcMessages Buffers Channel Application Functions Mailbox WorkQueue.
From S2P Require Import Controller Remote Invoker Context Requests WorkerMain Rounds Service.

#[local] Existing Instance mq_ipc | 0.
#[local] Existing Instance tcp_server | 0.

(** ** The control plane at both ends *)
Section client_side.
Context {uu : UuidGenerator} {st : StdStod} {cf : CpConfig}.

(** the client [k] waits for the result of [id], which its process sends over [t] *)
Definition expects (t k : nat) (fname id : string) (w : World) : Prop :=
  exists d x j inv, w_contexts w !! t = Some d /\ cd_bytes_to_read d = 0%Z /\ w_heap w !! cd_process d = Some x /\
    list_find (fun obj => String.substring 0 16 (pi_invocation_id obj) = id) (pr_invocations x) = Some (j, inv) /\
    pi_callback inv = k /\ pi_function_name inv = fname.

(** the bytes [reply] answer it, whatever happened in between *)
Definition answers_client (t k : nat) (fname id : string) (code : Z) (out reply : list byte) : Prop :=
  forall now w, expects t k fname id w -> exists w', cp_receive t now (w, reply) = (Ret tt, (w', [])) /\
    w_responses w' = w_responses w ++ [(k, RespResult fname id code out)].

Lemma result_answers t k fname id code out reply :
  result_bytes id code out reply -> (Z.of_nat (length out) < 2 ^ 31)%Z -> answers_client t k fname id code out reply.
Proof.
  intros (hdr&m&->&Hlen&Hm&<-&<-&Htl) Hr now w (d&x&j&inv&Hd&Hz&Hx&Hf&<-&<-).
  destruct (receive_result_run t d x hdr m out now w) as (w'&E&_&Hw'); auto.
  exists w'. split; [exact E|]. rewrite Hf in Hw'. exact (proj1 Hw').
Qed.

(** an invocation is sent, and the client waits *)
Lemma invocation_leaves p body k fname t d x w :
  let id := String.substring 0 16 (uuid_text (w_uuids w)) in
  w_heap w !! p = Some x -> pr_connection x = Some t -> pr_status x = ALLOCATED ->
  w_contexts w !! t = Some d -> cd_process d = p -> cd_bytes_to_read d = 0%Z ->
  fits NAME_LENGTH fname -> fits ID_LENGTH id -> (Z.of_nat (length body) < 2 ^ 31)%Z ->
  Forall (fun j => String.substring 0 16 (pi_invocation_id j) <> id) (pr_invocations x) ->
  exists hdr m w1, add_invocation p body k fname w = (Ret tt, w1) /\ expects t k fname id w1 /\
    sent_to t w1 = sent_to t w ++ hdr ++ body /\
    length hdr = BUF_SIZE /\ parse hdr = Ret (VInvocationRequest m) /\
    sv_str (function_name m) = fname /\ sv_str (invocation_id m) = id /\
    decode_stream CONTROL_PLANE None (hdr ++ body) =
      ([CallControlplane hdr (payload_buffer (length body) body)], [], Ret tt).
Proof.
  intros id Hx Ht Hst Hd Hp Hz Hf Hid Hb Hnew.
  set (i := {| pi_body := body; pi_callback := k; pi_function_name := fname;
               pi_invocation_id := uuid_text (w_uuids w); pi_submitted := false |}).
  assert (invocation_ok i) as Hok by now split_and!.
  destruct (add_invocation_run p w x t i k fname body eq_refl Hx Ht Hst Hok)
    as (hdr&w1&Hfr&E&Hp1&Hs&Hctx).
  pose proof Hfr as (Hlen&m&Hm&Hfn&Hmid&_).
  exists hdr, m, w1. split_and!; auto.
  - eexists d, _, (length (pr_invocations x)), (set_submitted i). rewrite Hctx, Hp. split_and!; eauto.
    cbn [pr_invocations set_pr_invocations]. apply list_find_app_Some. right.
    split; [|split].
    + lia.
    + apply list_find_None. done.
    + cbn. rewrite Nat.sub_diag. now rewrite decide_True.
  - pose proof (decode_invocation i hdr [] Hok Hfr) as Hdec. rewrite app_nil_r in Hdec.
    cbn [pi_body i] in Hdec. rewrite Hdec. unfold invocation_call, payload_buffer. cbn [pi_body i].
    now rewrite firstn_all.
Qed.
End client_side.

(** ** The whole way *)
Section round_trip.
Context {al : Allocator} {mq : PosixMQ} {laws : PosixMQLaws mq} {er : EqualRange} {ka : KeysArchive} {dl : DynamicLoader}.
Context {uu : UuidGenerator} {st : StdStod} {cf : CpConfig}.
#[local] Existing Instance al | 0.
#[local] Existing Instance mq | 0.
#[local] Existing Instance er | 0.
Variable serialize_state_keys : list (string * Z) -> list byte.
Hypothesis mq_send_reliable : forall q m, exists q', mq_send q m = (true, q').
Hypothesis mq_receive_reliable : forall q q', mq_receive q <> (MqError, q').
Hypothesis never_empty : ~ ran_empty.

(** The whole way of an invocation, through the three programs.  The control
    plane sends it to an allocated process, and the client waits; the bytes say
    one request, which the process takes and serves: the round of the controller
    that finds it hands it to an idle worker; the worker calls the function with
    the id, the name and exactly the body of the client; when the function
    returns a code and an output, the round that finds the answer of the worker
    removes the invocation, frees the worker and sends a reply to the control
    plane, which answers this client with the function, the id, the code and
    exactly these bytes. *)
Lemma invocation_round_trip p body k fname t d x w :
  let id := String.substring 0 16 (uuid_text (w_uuids w)) in
  w_heap w !! p = Some x -> pr_connection x = Some t -> pr_status x = ALLOCATED ->
  w_contexts w !! t = Some d -> cd_process d = p -> cd_bytes_to_read d = 0%Z ->
  fits NAME_LENGTH fname -> fits ID_LENGTH id -> (Z.of_nat (length body) < 2 ^ 31)%Z ->
  Forall (fun j => String.substring 0 16 (pi_invocation_id j) <> id) (pr_invocations x) ->
  exists request call w1, add_invocation p body k fname w = (Ret tt, w1) /\ expects t k fname id w1 /\
    sent_to t w1 = sent_to t w ++ request /\ decode_stream CONTROL_PLANE None request = ([call], [], Ret tt) /\
    takes_and_serves serialize_state_keys (answers_client t k fname id) from_controlplane fname id body call.
Proof.
  intros id Hx Ht Hst Hd Hp Hz Hf Hid Hb Hnew.
  destruct (invocation_leaves p body k fname t d x w Hx Ht Hst Hd Hp Hz Hf Hid Hb Hnew)
    as (hdr&m&w1&E&Hexp&Hs&Hlen&Hm&Hfn&Hmid&Hdec). fold id in Hmid.
  set (b := payload_buffer (length body) body) in *.
  assert (buffer_data b = body) as Hbd by (unfold b, buffer_data, payload_buffer; cbn; now rewrite !firstn_all).
  assert (buffer_ok b) as Hbok by (unfold b, buffer_ok, payload_buffer; cbn; rewrite firstn_all; auto).
  eexists (hdr ++ body), _, w1. split; [exact E|]. split; [exact Hexp|]. split; [exact Hs|]. split; [exact Hdec|].
  intros now c Htk.
  destruct (process_serves serialize_state_keys mq_send_reliable mq_receive_reliable never_empty (CallControlplane hdr b) _ m
    from_controlplane fname id body eq_refl eq_refl eq_refl Hlen Hm Hfn Hmid Hbok Hbd Hb now c Htk)
    as (v&worker&worker'&c1&H1&H2&H3&H4&H5&H6&Hserve).
  exists v, worker, worker', c1. do 6 (split; [assumption|]).
  revert Hserve. apply serves_invocation_weaken. intros code out reply _ Hr Hres. now apply result_answers.
Qed.
End round_trip.
