(* ===== verification/MessageTrip.v ===== *)
(** * MessageTrip: a message, from one process to another

    The parts of two processes put together: a function of the process A puts a
    message for the process B, the controller of A sends it over the connection
    of B, and a function of B asks for it.  The message may come before the
    request or after it.  Between the steps other events may happen; what a step
    needs of the state it starts in is a predicate ([leaves], [keeps], [asking],
    [waiting]), and the step before establishes what the next one needs of the
    message. *)

From S2P Require Import Prelude Memory Messages IpcMessages Buffers Channel Application Functions Mailbox WorkQueue.
From S2P Require Import Controller Remote Invoker Context Requests WorkerMain Rounds.

#[local] Existing Instance mq_ipc | 0.
#[local] Existing Instance tcp_server | 0.

Section message_trip.
Context {al : Allocator} {mq : PosixMQ} {laws : PosixMQLaws mq} {er : EqualRange} {ka : KeysArchive}.
#[local] Existing Instance al | 0.
#[local] Existing Instance mq | 0.
#[local] Existing Instance er | 0.
Variable serialize_state_keys : list (string * Z) -> list byte.

(** A blocking [mq_send] returns 0, a blocking [mq_receive] a message; and what
    was sent arrives in order. *)
Hypothesis mq_send_reliable : forall q m, exists q', mq_send q m = (true, q').
Hypothesis mq_receive_reliable : forall q q', mq_receive q <> (MqError, q').
Hypothesis never_empty : ~ ran_empty.

#[local] Abbreviation round now e := (poll_round serialize_state_keys now (EpollEvents [e])).

(** the controller of the sender, where the worker [w] put a message: it can
    name itself in a header, and knows the process [dest] over the connection [t] *)
Record leaves (dest : string) (w : nat) (t : tcp) (c : Controller) : Prop := {
  lv_running : c_ending c = false;
  lv_settled : settled c;
  lv_worker : exists worker, ws_workers (c_workers c) !! w = Some worker /\ drained worker;
  lv_other : dest <> SELF_PROCESS /\ dest <> c_process_id c;
  lv_peer : peer_on dest t c;
  lv_name : fits NAME_LENGTH (c_process_id c);
}.

(** nobody waits for the message [key] of [source] *)
Definition unclaimed (key source : string) (c : Controller) : Prop :=
  Forall (fun x => ~ answers source x) (equal_range key (c_pending_msgs c)).

(** the controller has nothing to do, and no message [key] yet *)
Record keeps (key source : string) (c : Controller) : Prop := {
  kp_quiet : quiet c;
  kp_settled : settled c;
  kp_unclaimed : unclaimed key source c;
  kp_new : st_msgs (c_mailbox c) !! key = None;
}.

(** the function of the context [cx] runs on the worker [w] of [c], and both
    queues between them are empty *)
Record linked (w : nat) (cx : RContext) (c : Controller) : Prop := {
  lk_worker : exists worker, ws_workers (c_workers c) !! w = Some worker /\ wide worker /\ drained worker /\
    reads_from worker cx;
  lk_idle : worker_idle [] (cx_invoker cx);
  lk_settled : settled c;
}.

(** it asks for a message: its request is on the queue [q] *)
Record asking (source key : string) (w : nat) (cx : RContext) (q : mqd) (c : Controller) : Prop := {
  ak_linked : linked w cx c;
  ak_running : c_ending c = false;
  ak_request : mq_messages q = frame_wire (get_frame source key (cx_invoker cx));
}.

(** it waits for a message of [source], and is the one to get it *)
Record waiting (source key : string) (w : nat) (cx : RContext) (c : Controller) : Prop := {
  wt_linked : linked w cx c;
  wt_quiet : quiet c;
  wt_first : (find_get key source (c_pending_msgs c)).1 = Some w;
}.

(** the function that asked [source] for [key] goes on with the bytes [bs] *)
Definition continues (source key : string) (bs : list byte) (w : nat) (cx : RContext) (c : Controller) : Prop :=
  exists worker v cx', ws_workers (c_workers c) !! w = Some worker /\
    context_get (sv_of_string source) (sv_of_string key) (sees worker cx) = (Ret v, cx') /\ user_sees cx' v bs /\
    worker_idle [] (cx_invoker cx') /\
    sent_more [get_frame source key (cx_invoker cx)] (cx_invoker cx) (cx_invoker cx').

(** the reply that the controller queued is what [get] returns *)
Lemma reply_continues source p key n bs f w cx c c' :
  linked w cx c -> worker_gets f w c c' -> frame_ok f -> frame_says f (IGet p key false n) bs ->
  source = ANY \/ source = p -> ipc_fits IPC_NAME_LENGTH source -> ipc_fits IPC_NAME_LENGTH key ->
  continues source key bs w cx c'.
Proof.
  intros [(worker0&Hw0&_&_&Hreads) Hi _] (worker&worker'&Hw&Hq&->) Hf Hs Hsrc Hfs Hfk.
  rewrite Hw in Hw0. injection Hw0 as <-.
  pose proof (worker_reads f worker worker' cx Hi Hreads Hq Hf) as Hi'.
  destruct (context_get_answered mq_send_reliable mq_receive_reliable never_empty source key p key false n bs f []
    (sees worker' cx) Hi' Hfs Hfk Hs ltac:(tauto) eq_refl) as (v&cx'&E&Hv&Hsm&Hi2).
  exists worker', v, cx'. split_and!; auto. cbn. apply list_lookup_insert_eq. eapply lookup_lt_Some; eauto.
Qed.

Lemma linked_serves w cx c : linked w cx c -> serves w c.
Proof. intros [(worker&Hw&Hwd&Hd&_) _ _]. now exists worker. Qed.

(** the worker's message was taken: the two are still linked *)
Lemma linked_taken w cx ch c c' :
  linked w cx c -> idle_rx [] ch -> c_workers c' = c_workers (taken w ch c) -> c_work_queue c' = c_work_queue c ->
  linked w cx c'.
Proof.
  intros [(worker&Hw&Hwd&Hd&Hr) Hi Hs] Hch Hws Hq. split; [|done|].
  - exists (read_end ch worker). rewrite Hws. cbn. rewrite list_lookup_alter_eq, Hw. auto.
  - unfold settled in *. now rewrite Hq, Hws.
Qed.

(** ** The message is there first *)
Lemma kept_is_got now source asks key b w cx q c :
  asking asks key w cx q c -> st_msgs (c_mailbox c) !! key = Some {| sm_source := source; sm_data := b |} ->
  asks = ANY \/ asks = source -> asks <> SELF_PROCESS ->
  ipc_fits IPC_NAME_LENGTH asks -> ipc_fits IPC_NAME_LENGTH key -> buffer_ok b -> i32_range (Z.of_nat (buf_len b)) ->
  exists c', round now (WorkerReady w) (arrived w q c) = (Ret true, c') /\ st_msgs (c_mailbox c') !! key = None /\
    continues asks key (buffer_data b) w cx c'.
Proof.
  intros [Hl He Hq] Hm Hsrc Hself Hfa Hfk Hb Hr.
  destruct (get_frame_says mq_send_reliable asks key [] (cx_invoker cx) (lk_idle _ _ _ Hl) Hfa Hfk) as [Hfo Hfs].
  set (s' := {| st_msgs := delete key (st_msgs (c_mailbox c)); st_state_keys := st_state_keys (c_mailbox c) |}).
  assert (try_get key (asked asks c) (c_mailbox c) = (Some b, s')) as Hget.
  { unfold try_get, asked. rewrite Hm, (decide_False _ _ Hself). cbn [sm_source sm_data]. rewrite move_buffer_fst.
    rewrite decide_False; [done|]. change ANY_PROCESS with ANY. intros [? ?]. destruct Hsrc; congruence. }
  destruct (round_get_answers serialize_state_keys mq_send_reliable mq_receive_reliable never_empty now w _ q asks key 0 b s' c
    He (lk_settled _ _ _ Hl) (linked_serves _ _ _ Hl) Hfo Hfs Hq Hget Hb Hr) as (f&c'&ch&E&Hfo'&Hf&Hch&Hg).
  exists c'. split; [exact E|]. split; [|].
  - destruct Hg as (?&?&_&_&->). cbn. apply lookup_delete_eq.
  - eapply (reply_continues asks asks key 0 _ f w cx (set_c_mailbox s' (taken w ch c))); eauto.
    eapply (linked_taken w cx ch c); eauto.
Qed.

(** ** The request is there first *)
Lemma request_waits now source asks key w cx q c :
  asking asks key w cx q c -> unclaimed key source c -> (try_get key asks (c_mailbox c)).1 = None ->
  asks = ANY \/ asks = source -> asks <> SELF_PROCESS ->
  ipc_fits IPC_NAME_LENGTH asks -> ipc_fits IPC_NAME_LENGTH key ->
  exists c', round now (WorkerReady w) (arrived w q c) = (Ret true, c') /\ (quiet c -> waiting source key w cx c').
Proof.
  intros [Hl He Hq] Hun Hnone Hsrc Hself Hfa Hfk.
  destruct (get_frame_says mq_send_reliable asks key [] (cx_invoker cx) (lk_idle _ _ _ Hl) Hfa Hfk) as [Hfo Hfs].
  assert (asked asks c = asks) as Ha by (unfold asked; now rewrite decide_False).
  destruct (round_get_waits serialize_state_keys mq_receive_reliable never_empty now w _ q asks key 0 c
    He (lk_settled _ _ _ Hl) (linked_serves _ _ _ Hl) Hfo Hfs Hq ltac:(now rewrite Ha)) as (ch&Hch&E).
  eexists. split; [exact E|]. intros Hqu. split; [eapply (linked_taken w cx ch c); eauto|exact Hqu|]. rewrite Ha. cbn [c_pending_msgs set_c_pending_msgs].
  destruct (find_get_spec key source (insert_get key asks w (c_pending_msgs c))) as [(m&rest&Hm&Hp&Hf&_)|[Hno _]].
  - rewrite Hf. cbn. unfold insert_get, emplace_pending in Hp.
    assert (m ∈ range_insert {| pm_type := PENDING_GET; pm_source := asks; pm_worker := w |} (equal_range key (c_pending_msgs c))) as Hin.
    { revert Hp. unfold equal_range at 1. rewrite lookup_insert_eq. cbn. intros ->. now left. }
    rewrite range_insert_perm in Hin. apply elem_of_cons in Hin as [->|Hin]; [done|].
    unfold unclaimed in Hun. rewrite list.Forall_forall in Hun. now destruct (Hun m Hin).
  - exfalso. revert Hno. unfold insert_get, emplace_pending, equal_range at 1. rewrite lookup_insert_eq. cbn.
    rewrite range_insert_perm. rewrite list.Forall_cons. intros [Hno _]. apply Hno. unfold answers. cbn.
    change ANY_PROCESS with ANY. tauto.
Qed.

Lemma awaited_is_got now source asks key call em m w cx c :
  external_of call = Some em -> length (em_msg em) = BUF_SIZE -> parse (em_msg em) = Ret (VPutMessage m) ->
  sv_str (put_name m) = key -> sv_str (put_process_id m) = source ->
  waiting source key w cx c -> asks = ANY \/ asks = source ->
  ipc_fits IPC_NAME_LENGTH asks -> ipc_fits IPC_NAME_LENGTH key -> buffer_ok (em_payload em) ->
  i32_range (Z.of_nat (buf_len (em_payload em))) ->
  exists c', (run_call call ≫= fun _ => round now WakeUp) c = (Ret true, c') /\ c_mailbox c' = c_mailbox c /\
    continues asks key (buffer_data (em_payload em)) w cx c'.
Proof.
  intros Hcall Hlen Hp <- <- [Hl Hqu Hf] Hsrc Hfa Hfk Hb Hr.
  destruct (find_get _ _ (c_pending_msgs c)) as [o p'] eqn:Ef. cbn in Hf. subst o.
  destruct (round_put_answers serialize_state_keys mq_send_reliable now call em m w p' c Hcall Hlen Hp Hqu
    (lk_settled _ _ _ Hl) (linked_serves _ _ _ Hl) Hb Hr Ef) as (f&c'&E&Hfo&Hfs&Hg).
  exists c'. split; [exact E|]. split; [now destruct Hg as (?&?&_&_&->)|].
  eapply (reply_continues asks _ _ 0 _ f w cx (set_c_pending_msgs p' (woken c))); eauto.
  destruct Hl as [Hw Hi Hs]. split; [exact Hw|done|exact Hs].
Qed.

(** ** The whole way *)

(** C3: a message between functions of two processes.  The function of the first
    puts one of its buffers; the round of its controller that finds the request
    sends bytes over the connection of the destination that say one call; and
    the function of the other process that asks for the message - naming the
    sender or [ANY] - returns from [get] with exactly the bytes of the buffer.
    If the message is there first, it is kept, the request takes it out of the
    mailbox and is answered; if the request is there first, it waits, and the
    message goes straight to the worker that waits, past the mailbox. *)
Theorem message_trip dest key buf bs fs ca :
  worker_idle fs (cx_invoker ca) -> to_controller (cx_invoker ca) = [] ->
  ipc_fits IPC_NAME_LENGTH dest -> ipc_fits IPC_NAME_LENGTH key -> view_shows ca buf bs -> i32_range (Z.of_nat (length bs)) ->
  Exists (fun b => hb_data b = rb_ptr buf) (cx_user_buffers ca) ->
  exists ca', context_put (sv_of_string dest) (sv_of_string key) buf ca = (Ret tt, ca') /\ worker_idle fs (cx_invoker ca') /\
  forall now w q t cA, leaves dest w t cA -> mq_messages q = to_controller (cx_invoker ca') ->
  exists cA' s s' bytes call, round now (WorkerReady w) (arrived w q cA) = (Ret true, cA') /\
    c_server cA = Some s /\ c_server cA' = Some s' /\ sent_on t s' = sent_on t s ++ bytes /\
    let source := c_process_id cA in
    decode_stream PROCESS (Some source) bytes = ([call], [], Ret tt) /\
  forall asks, asks = ANY \/ asks = source -> asks <> SELF_PROCESS -> ipc_fits IPC_NAME_LENGTH asks ->
    (forall now' cB, keeps key source cB ->
     exists cB1, (run_call call ≫= fun _ => round now' WakeUp) cB = (Ret true, cB1) /\
       is_Some (st_msgs (c_mailbox cB1) !! key) /\
       forall now'' v cx q' cB2, asking asks key v cx q' cB2 ->
         st_msgs (c_mailbox cB2) !! key = st_msgs (c_mailbox cB1) !! key ->
       exists cB3, round now'' (WorkerReady v) (arrived v q' cB2) = (Ret true, cB3) /\
         st_msgs (c_mailbox cB3) !! key = None /\ continues asks key bs v cx cB3) /\
    (forall now' v cx q' cB, asking asks key v cx q' cB -> unclaimed key source cB ->
       (try_get key asks (c_mailbox cB)).1 = None ->
     exists cB1, round now' (WorkerReady v) (arrived v q' cB) = (Ret true, cB1) /\ (quiet cB -> waiting source key v cx cB1) /\
       forall now'' cB2, waiting source key v cx cB2 ->
       exists cB3, (run_call call ≫= fun _ => round now'' WakeUp) cB2 = (Ret true, cB3) /\
         c_mailbox cB3 = c_mailbox cB2 /\ continues asks key bs v cx cB3).
Proof.
  intros Hi Hempty Hfd Hfk Hv Hr Hex.
  pose proof (context_put_sent mq_send_reliable dest key buf bs fs ca Hi Hfd Hfk Hv Hr) as Hput.
  rewrite decide_True in Hput by done. destruct Hput as (f&ca'&E&Hi'&(Hfo&Hto&_)&Hf&_).
  exists ca'. split; [exact E|]. split; [exact Hi'|]. rewrite Hempty in Hto. apply List.Forall_cons_iff in Hfo as [Hfo _].
  intros now w q t cA [He Hs (worker&Hw&Hd) [Hself Hown] Hpeer Hname] Hq. rewrite Hto in Hq. unfold frames_wire in Hq.
  cbn in Hq. rewrite app_nil_r in Hq.
  destruct (round_put_leaves serialize_state_keys mq_receive_reliable never_empty now w worker f q dest key _ bs t cA
    He Hs Hw Hd Hfo Hf Hq Hself Hown Hpeer Hname) as (cA'&s&s'&hdr&m&EA&Hsv&Hsv'&Hsent&Hlen&Hm&Hmk&Hms&Hdec).
  set (b := payload_buffer (length bs) bs) in *.
  assert (buffer_data b = bs /\ buffer_ok b) as [Hbd Hbok].
  { split; unfold b, buffer_data, buffer_ok, payload_buffer; cbn; rewrite firstn_all; auto. now rewrite firstn_all. }
  assert (i32_range (Z.of_nat (buf_len b))) as Hbr by exact Hr.
  exists cA', s, s', (hdr ++ bs), (CallRemote hdr b (c_process_id cA)). do 4 (split; [assumption|]). split; [exact Hdec|].
  intros asks Ha Hself' Hfa. split.
  - intros now' cB [Hqu Hst Hun Hnew]. rewrite <-Hmk, <-Hms in Hun. rewrite <-Hmk in Hnew.
    eexists. split; [exact (round_keeps_put serialize_state_keys now' (CallRemote hdr b (c_process_id cA)) _ m cB eq_refl Hm Hqu Hst Hun Hnew)|]. cbn [c_mailbox with_message st_msgs set_c_mailbox].
    rewrite Hmk, Hms, lookup_insert_eq. split; [eexists; reflexivity|].
    intros now'' v cx q' cB2 Hask Hmsg. cbn [em_payload] in Hmsg. rewrite <-Hbd.
    exact (kept_is_got now'' (c_process_id cA) asks key b v cx q' cB2 Hask Hmsg Ha Hself' Hfa Hfk Hbok Hbr).
  - intros now' v cx q' cB Hask Hun Hnone.
    destruct (request_waits now' (c_process_id cA) asks key v cx q' cB Hask Hun Hnone Ha Hself' Hfa Hfk) as (cB1&EB&Hwait).
    exists cB1. split; [exact EB|]. split; [exact Hwait|]. intros now'' cB2 Hw2.
    destruct (awaited_is_got now'' (c_process_id cA) asks key (CallRemote hdr b (c_process_id cA)) _ m v cx cB2 eq_refl Hlen Hm Hmk Hms Hw2 Ha Hfa Hfk Hbok Hbr)
      as (cB3&EB3&Hmb&Hc). exists cB3. cbn [em_payload] in Hc. rewrite Hbd in Hc. auto.
Qed.
End message_trip.

(** ** Two processes with a worker each *)
Section concrete.
#[local] Existing Instance plain_mq | 0.
#[local] Existing Instance plain_laws | 0.

(** the server of the process "A", connected to "peer" *)
Definition sender_server : TCPServer :=
  set_ts_connection_data {["peer" := 0]} (set_ts_heap {[0 := Connection_make CONNECTED PROCESS (Some "peer") (Some 3)]}
    (TCPServer_ctor "A")).
Definition sender : @Controller mq_ipc tcp_server :=
  set_c_server (Some sender_server : option (@server tcp_server)) (Controller_ctor "A" sample_functions plain_workers).
Definition receiver : @Controller mq_ipc tcp_server := Controller_ctor "peer" sample_functions plain_workers.

Lemma plain_settled pid : settled (Controller_ctor pid sample_functions plain_workers : @Controller mq_ipc tcp_server).
Proof. now left. Qed.

Lemma sender_leaves : leaves "peer" 0 3 sender.
Proof.
  split; [done|exact (plain_settled "A")| |now split| |].
  - eexists. split; [reflexivity|]. apply (plain_idle [] (List.Forall_nil _)).
  - eexists _, 0, _. split_and!; reflexivity.
  - split; [apply (bool_decide_eq_true_1 _); vm_compute; reflexivity|apply Nat.leb_le; reflexivity].
Qed.

Lemma receiver_linked (c : @Controller mq_ipc tcp_server) :
  c_workers c = c_workers receiver -> c_work_queue c = c_work_queue receiver -> linked 0 (plain_context []) c.
Proof.
  intros Hw Hq. split.
  - eexists. rewrite Hw. split; [reflexivity|]. split_and!; [unfold wide, IPC_BUF_SIZE; cbn; lia| |reflexivity].
    apply (plain_idle [] (List.Forall_nil _)).
  - apply plain_worker_idle. constructor.
  - left. now rewrite Hq.
Qed.

Lemma message_trip_witness :
  let asks := "ANY" in
  let q := frame_wire (get_frame asks "key" (cx_invoker (plain_context []))) in
  exists ca' qa cA' call cB1 cB3,
    context_put (sv_of_string "peer") (sv_of_string "key") (view_of plain_buffer) (plain_context []) = (Ret tt, ca') /\
    poll_round no_keys 0 (EpollEvents [WorkerReady 0]) (arrived 0 qa sender) = (Ret true, cA') /\
    poll_round no_keys 1 (EpollEvents [WorkerReady 0]) (arrived 0 q receiver) = (Ret true, cB1) /\
    (run_call call ≫= fun _ => poll_round no_keys 2 (EpollEvents [WakeUp])) cB1 = (Ret true, cB3) /\
    continues asks "key" [x01; x02; x03] 0 (plain_context []) cB3.
Proof.
  intros asks q. destruct fits_names as (Hp&Hk&_).
  destruct (message_trip no_keys plain_send_reliable plain_receive_reliable plain_never_empty "peer" "key" (view_of plain_buffer)
    [x01; x02; x03] [] (plain_context []) (plain_worker_idle [] (List.Forall_nil _)) eq_refl Hp Hk (plain_shows []) three_bytes
    ltac:(left; reflexivity)) as (ca'&E&_&HA).
  destruct (HA 0%Z 0 (to_controller (cx_invoker ca')) 3 sender sender_leaves eq_refl)
    as (cA'&s&s'&bytes&call&EA&_&_&_&_&HB).
  assert (ipc_fits IPC_NAME_LENGTH asks) as Hfa by (unfold ipc_fits; split; apply (bool_decide_unpack _); vm_compute; exact I).
  destruct (HB asks ltac:(now left) ltac:(discriminate) Hfa) as [_ Hget].
  destruct (Hget 1%Z 0 (plain_context []) q receiver) as (cB1&E1&Hwait&Hput).
  - split; [now apply receiver_linked|reflexivity|reflexivity].
  - apply List.Forall_nil.
  - reflexivity.
  - destruct (Hput 2%Z cB1 (Hwait ltac:(split_and!; reflexivity))) as (cB3&E3&_&Hc).
    exists ca', (to_controller (cx_invoker ca')), cA', call, cB1, cB3. auto.
Defined.
End concrete.
