(* ===== verification/StateTrip.v ===== *)
(** * StateTrip: the state of a process, from one function to another

    A function writes an object into one of its buffers and puts the buffer under
    a key of the state; the controller keeps the bytes; a function that asks for
    the key - now or later, on any worker - reads the object back
    ([state_trip]), and may ask what keys there are ([state_keys_trip]).
    Between the steps other events may happen; what a step needs is a predicate,
    as in MessageTrip.v. *)

From S2P Require Import Prelude Memory Messages IpcMessages Buffers Channel Application Functions Mailbox WorkQueue.
From S2P Require Import Controller Remote Invoker Context Requests Objects WorkerMain Rounds MessageTrip.

#[local] Existing Instance mq_ipc | 0.
#[local] Existing Instance tcp_server | 0.

(** ** The messages *)

Lemma no_name_fits : ipc_fits IPC_NAME_LENGTH "".
Proof. unfold ipc_fits. split; apply (bool_decide_unpack _); vm_compute; exact I. Qed.

(** a request about the state names no process *)
Lemma unnamed t : t = IPC_GET_REQUEST \/ t = IPC_PUT_REQUEST ->
  set_generic_process_id (sv_of_string "") (GenericRequest_ctor t) = Ret (GenericRequest_ctor t).
Proof. intros [-> | ->]; vm_compute; reflexivity. Qed.

Lemma name_of_state_request b x :
  length (gr_msg x) = IPC_BUF_SIZE -> gr_name_len x <= IPC_NAME_LENGTH ->
  sv_str (generic_name (set_generic_state b x)) = sv_str (generic_name x) /\
  data_len (set_generic_state b x) = data_len x /\ length (gr_msg (set_generic_state b x)) = IPC_BUF_SIZE.
Proof.
  intros Hl Hn. unfold set_generic_state, generic_name, data_len. cbn [gr_msg gr_id_len gr_name_len].
  change IPC_HEADER_OFFSET with 6. change IPC_NAME_LENGTH with 32 in *. change IPC_BUF_SIZE with 128 in *.
  change (6 + 32 * 2 + 4) with 74. change (6 + 32 + 4) with 42. unfold read_i32.
  rewrite sv_str_write_disj, bytes_at_write_at_disj, length_write_at; cbn [length]; auto; lia.
Qed.

Lemma state_get_request key :
  ipc_fits IPC_NAME_LENGTH key ->
  exists x, set_generic_name (sv_of_string key) GetRequest = Ret x /\
    let y := set_generic_state true x in
    sv_str (generic_name y) = key /\ length (gr_msg y) = IPC_BUF_SIZE /\ data_len y = 0%Z /\
    ipc_decode (gr_msg y) = Ret (IGet "" key true 0).
Proof.
  intros Hk. destruct (generic_request_decodes IPC_GET_REQUEST "" key) as (x&Hx&_&P2&P3&P4&P5&_&P7); auto using no_name_fits.
  rewrite unnamed in Hx by auto. cbn [mbind outcome_bind] in Hx. exists x. split; [exact Hx|]. intros y.
  assert (gr_name_len x <= IPC_NAME_LENGTH) as Hl.
  { unfold set_generic_name in Hx. apply bind_ret_inv in Hx as (d&_&Hd). injection Hd as <-. exact (proj2 Hk). }
  destruct (name_of_state_request true x P3 Hl) as (N1&N2&N3). split_and!; [exact (eq_trans N1 P2)|exact N3|exact (eq_trans N2 P4)|].
  specialize (P7 true 0%Z). rewrite P5 in P7. apply P7. unfold i32_range. lia.
Qed.

Lemma state_put_request key len :
  ipc_fits IPC_NAME_LENGTH key -> i32_range len ->
  exists x, set_generic_name (sv_of_string key) PutRequest = Ret x /\
    let msg := gr_msg (set_generic_state true (set_data_len len x)) in
    length msg = IPC_BUF_SIZE /\ ipc_decode msg = Ret (IPut "" key true len).
Proof.
  intros Hk Hl. destruct (set_put_names "" key len no_name_fits Hk Hl) as (x&y&Hy&Hx&Hm).
  unfold PutRequest in Hy. rewrite unnamed in Hy by auto. injection Hy as <-. exists x. split; [exact Hx|]. exact (Hm true).
Qed.

(** the reply of the controller *)
Lemma make_state_reply_says name :
  cview IPC_NAME_LENGTH name ->
  exists r, make_state_reply name = Ret r /\ length (gr_msg r) = IPC_BUF_SIZE /\
    ipc_decode (gr_msg r) = Ret (IGet "" (sv_str name) true 0).
Proof.
  intros Hn. destruct (state_get_request (sv_str name)) as (x&Hx&_&Hl&_&Hd); [now apply cview_ipc_fits|].
  unfold set_generic_name in Hx. rewrite set_field_text, (proj1 (sv_text name _ Hn)) in Hx by done.
  eexists. unfold make_state_reply, set_generic_name. rewrite Hx. split; [reflexivity|]. auto.
Qed.

Lemma ipc_decode_keys_request m :
  ipc_decode m = Ret IStateKeysRequest -> exists x, parse_message m = Ret (VStateKeysRequestParsed x).
Proof.
  unfold ipc_decode. destruct (parse_message m) as [[]| |]; cbn; try discriminate; eauto.
  destruct (read_lengths _ _ _); cbn; discriminate.
Qed.
Lemma ipc_decode_keys_result m len :
  ipc_decode m = Ret (IStateKeysResult len) -> exists x, parse_message m = Ret (VStateKeysResultParsed x).
Proof.
  unfold ipc_decode. destruct (parse_message m) as [[]| |]; cbn; try discriminate; eauto.
  destruct (read_lengths _ _ _); cbn; discriminate.
Qed.

Section state_trip.
Context {al : Allocator} {mq : PosixMQ} {laws : PosixMQLaws mq} {er : EqualRange}.
Context {Obj : Type} {C : Cereal Obj} {cl : CerealLaws C} {K : Cereal (list (string * Z))} {kl : CerealLaws K}.
#[local] Existing Instance al | 0.
#[local] Existing Instance mq | 0.
#[local] Existing Instance er | 0.
#[local] Existing Instance C | 0.
#[local] Existing Instance K | 0.
#[local] Existing Instance cereal_keys | 0.

(** A blocking [mq_send] returns 0, a blocking [mq_receive] a message; and what
    was sent arrives in order. *)
Hypothesis mq_send_reliable : forall q m, exists q', mq_send q m = (true, q').
Hypothesis mq_receive_reliable : forall q q', mq_receive q <> (MqError, q').
Hypothesis never_empty : ~ ran_empty.

#[local] Abbreviation round now e := (poll_round StateKeys_serialize now (EpollEvents [e])).

(** ** The functions *)

(** the request for the state [key] *)
Definition state_message (key : string) : mem :=
  match set_generic_name (sv_of_string key) GetRequest with Ret x => gr_msg (set_generic_state true x) | _ => [] end.
Definition state_frame (key : string) (s : Invoker) : frame := sent_frame (state_message key) [] s.
(** the request for the keys *)
Definition keys_frame (s : Invoker) : frame := sent_frame StateKeysRequest [] s.

Lemma state_frame_says key fs s :
  worker_idle fs s -> ipc_fits IPC_NAME_LENGTH key ->
  frame_ok (state_frame key s) /\ frame_says (state_frame key s) (IGet "" key true 0) [].
Proof.
  intros Hi Hk. destruct (state_get_request key Hk) as (x&Hx&_&Hl&_&Hd).
  destruct (put_nothing mq_send_reliable _ _ fs s Hi Hl Hd) as (q&s'&_&_&(Hok&_)&Hq&_&Hqf).
  unfold state_frame, state_message. rewrite Hx, <-Hqf. apply List.Forall_cons_iff in Hok as [Hok _]. auto.
Qed.
Lemma keys_frame_says fs s :
  worker_idle fs s -> frame_ok (keys_frame s) /\ frame_says (keys_frame s) IStateKeysRequest [].
Proof.
  intros Hi. destruct (put_nothing mq_send_reliable StateKeysRequest IStateKeysRequest fs s Hi eq_refl eq_refl)
    as (q&s'&_&_&(Hok&_)&Hq&_&Hqf).
  unfold keys_frame. rewrite <-Hqf. apply List.Forall_cons_iff in Hok as [Hok _]. auto.
Qed.

(** what [state] returns for the bytes [bs] of a reply: memory that begins with them *)
Definition obtains (bs : list byte) (v : RBuffer) (c : RContext) : Prop :=
  match bs with
  | [] => v = RBuffer_null
  | _ => user_sees c v bs /\ exists rest, view_holds c v (bs ++ rest)
  end.

Lemma state_get_answered key p st n payload f fs c :
  worker_idle (f :: fs) (cx_invoker c) -> ipc_fits IPC_NAME_LENGTH key -> frame_says f (IGet p key st n) payload ->
  exists v c', context_state_get (sv_of_string key) c = (Ret v, c') /\ obtains payload v c' /\
    sent_more [state_frame key (cx_invoker c)] (cx_invoker c) (cx_invoker c') /\ worker_idle fs (cx_invoker c').
Proof.
  intros Hi Hk [Hd Hpay]. destruct (state_get_request key Hk) as (x&Hx&N&Hl&Hz&Hdx). set (y := set_generic_state true x) in *.
  destruct (on_invoker_get mq_send_reliable mq_receive_reliable never_empty (gr_msg y) _ f fs c Hi Hl Hdx)
    as (q&b&s'&Hqf&Hq&Hs&Hi'&Hok&Hb&E).
  assert (q = state_frame key (cx_invoker c)) as -> by (unfold state_frame, state_message; now rewrite Hx).
  apply ipc_decode_get in Hd as (reply&Hr&_&R2). rewrite Hr in E. cbn [mbind outcome_bind get_if_get] in E.
  destruct (generic_fields_total_length 0 y Hl) as (_&F2&F3).
  assert (context_state_get (sv_of_string key) c =
    (if buf_len b =? 0 then mret RBuffer_null else b ← adopt b; push_user b) (set_cx_invoker s' c)) as Ec.
  { unfold context_state_get. rewrite Hx, (M_bind_eq (lift (Ret x)) _ c x c eq_refl). fold y.
    rewrite (M_bind_eq _ _ _ _ _ E), F3, Hz, F2, N, R2. cbn [Z.ltb Z.compare].
    now rewrite (bool_decide_eq_false_2 (key <> key)) by tauto. }
  rewrite Ec, <-Hpay, <-Hb. pose proof (length_buffer_data b Hok) as Hlen. destruct (Nat.eqb_spec (buf_len b) 0) as [H0|H0].
  - assert (buffer_data b = []) as -> by (apply nil_length_inv; lia). eexists _, _. split; [reflexivity|]. split_and!; [reflexivity|exact Hs|exact Hi'].
  - assert (buffer_data b <> []) as Hne by (intros Hn; rewrite Hn in Hlen; cbn in Hlen; lia).
    destruct (adopt_push_holds b (set_cx_invoker s' c) Hok Hne) as (v&c'&rest&Ea&Hu&Hh&Hc).
    exists v, c'. rewrite Hc. split; [exact Ea|]. split; [|auto]. unfold obtains. destruct (buffer_data b); [done|eauto].
Qed.

Lemma state_keys_answered keys len f fs c :
  worker_idle (f :: fs) (cx_invoker c) -> frame_says f (IStateKeysResult len) (StateKeys_serialize keys) ->
  exists c', context_state_keys c = (Ret keys, c') /\
    sent_more [keys_frame (cx_invoker c)] (cx_invoker c) (cx_invoker c') /\ worker_idle fs (cx_invoker c').
Proof.
  intros Hi [Hd Hpay]. apply ipc_decode_keys_result in Hd as (x&Hx).
  destruct (put_bytes mq_send_reliable StateKeysRequest IStateKeysRequest _ [] _ c Hi eq_refl eq_refl shows_nothing
    ltac:(unfold i32_range; cbn; lia)) as (q&m&s1&E1&Hi1&Hs1&_&Hqf&_).
  destruct (invoker_receive_spec mq_receive_reliable never_empty get_if_state_keys f fs s1 Hi1) as (b&s2&Hok&Hb&Hi2&Hs2&E2).
  exists (set_cx_invoker s2 c). split; [|split; [|exact Hi2]].
  - unfold context_state_keys. rewrite (M_bind_eq _ _ _ _ _ E1).
    assert (on_invoker (invoker_receive get_if_state_keys) (set_cx_invoker s1 c) = (Ret (x, b), set_cx_invoker s2 c)) as E3.
    { unfold on_invoker, zoom. cbn [cx_invoker set_cx_invoker]. rewrite E2, Hx. reflexivity. }
    rewrite (M_bind_eq _ _ _ _ _ E3). cbn [deserialize_keys cereal_keys]. unfold StateKeys_deserialize.
    rewrite Hb, Hpay. unfold StateKeys_serialize. rewrite <-(app_nil_r (archived keys)), archive_read_write. reflexivity.
  - cbn. unfold keys_frame. rewrite <-Hqf. exact (sent_more_trans [q] [] _ _ _ Hs1 Hs2).
Qed.

(** [state(key, buf)]: the request is out with the bytes of the view *)
Lemma state_put_sent key buf bs fs c :
  worker_idle fs (cx_invoker c) -> ipc_fits IPC_NAME_LENGTH key -> view_shows c buf bs -> i32_range (Z.of_nat (length bs)) ->
  Exists (fun b => hb_data b = rb_ptr buf) (cx_user_buffers c) ->
  exists q c', context_state_put (sv_of_string key) buf c = (Ret tt, c') /\ worker_idle fs (cx_invoker c') /\
    sent_more [q] (cx_invoker c) (cx_invoker c') /\ frame_says q (IPut "" key true (Z.of_nat (length bs))) bs.
Proof.
  intros Hi Hk Hv Hr Hex. destruct (state_put_request key _ Hk Hr) as (x&Hx&Hl&Hd).
  unfold context_state_put. rewrite Hx, (M_bind_eq (lift (Ret x)) _ c x c eq_refl), (proj1 Hv), wrap_i32_id by done.
  pose proof (put_user_buffer_spec mq_send_reliable _ _ buf bs fs c Hi Hl Hd Hv Hr) as Hput.
  rewrite decide_True in Hput by done. destruct Hput as (q&c'&?&?&?&?&_). eauto 10.
Qed.

(** ** The controller *)

(** a state may be stored under [key]: no other message is *)
Definition storable (key : string) (c : Controller) : Prop :=
  is_Some (try_state key (c_mailbox c)) -> key ∈ (fst <$> state_keys (c_mailbox c)).
(** [key] has the value [bs] *)
Definition holds_state (key : string) (bs : list byte) (c : Controller) : Prop :=
  exists b, try_state key (c_mailbox c) = Some b /\ buffer_ok b /\ buffer_data b = bs.

Lemma store_state_stores key b now s :
  (is_Some (try_state key s) -> key ∈ (fst <$> state_keys s)) ->
  exists s', store_state key b now s = (Ret true, s') /\ try_state key s' = Some b /\ key ∈ (fst <$> state_keys s') /\
    forall k, k <> key -> try_state k s' = try_state k s.
Proof.
  intros Hk. destruct (state_defined_unless_put key b now s) as [Hu Hs].
  destruct (store_state key b now s) as [r s'] eqn:E. assert (r = Ret true) as ->.
  { unfold store_state in E. destruct (move_buffer b). destruct (st_msgs s !! key) eqn:Em; [|now injection E as <-].
    destruct (touch_key _ _ _) eqn:Et; injection E as <- _; [done|]. exfalso. apply touch_key_none in Et. apply Et, Hk.
    unfold try_state. rewrite Em. eauto. }
  exists s'. split; [done|]. exact (Hs s' eq_refl).
Qed.

(** one message of a worker, one round *)
Lemma round_message now w r q worker c :
  c_ending c = false -> ws_workers (c_workers c) !! w = Some worker -> drained worker -> frame_ok r ->
  mq_messages q = frame_wire r ->
  exists b ch, buffer_ok b /\ buffer_data b = f_payload r /\ idle_rx [] ch /\
    forall c1, process_internal_message StateKeys_serialize now w (f_header r) b (taken w ch c) = (Ret tt, c1) -> settled c1 ->
      round now (WorkerReady w) (arrived w q c) = (Ret true, c1).
Proof.
  intros He Hw Hd Hr Hq. destruct (worker_message StateKeys_serialize mq_receive_reliable never_empty now r w q worker c Hw Hd Hr Hq)
    as (b&ch&Hb&Hbd&Hch&Eh). exists b, ch. split_and!; auto. intros c1 E Hs.
  rewrite (round_event StateKeys_serialize now _ (arrived w q c) c1 He); [now apply try_schedule_settled|]. now rewrite Eh.
Qed.

(** A state that a worker puts is stored. *)
Lemma round_stores now w worker r q p key n bs c :
  c_ending c = false -> settled c -> ws_workers (c_workers c) !! w = Some worker -> drained worker ->
  frame_ok r -> frame_says r (IPut p key true n) bs -> mq_messages q = frame_wire r -> storable key c ->
  exists c', round now (WorkerReady w) (arrived w q c) = (Ret true, c') /\ holds_state key bs c' /\
    key ∈ (fst <$> state_keys (c_mailbox c')) /\ forall k, k <> key -> try_state k (c_mailbox c') = try_state k (c_mailbox c).
Proof.
  intros He Hs Hw Hdr Hr [Hd Hpay] Hq Hk.
  destruct (round_message now w r q worker c He Hw Hdr Hr Hq) as (b&ch&Hb&Hbd&_&Hround).
  apply ipc_decode_put_fields in Hd as (x&Hx&_&X2&X3).
  destruct (store_state_stores key b now (c_mailbox c) Hk) as (s'&E&Ht&Hin&Ho).
  exists (set_c_mailbox s' (taken w ch c)). split; [|split_and!; [|exact Hin|exact Ho]].
  - apply Hround; [|exact Hs]. unfold process_internal_message. rewrite Hx. erewrite M_bind_eq by reflexivity. cbv match.
    unfold process_put. erewrite M_bind_eq by reflexivity. rewrite X3, X2.
    assert (on_mailbox (store_state key b now) (taken w ch c) = (Ret true, set_c_mailbox s' (taken w ch c))) as Em.
    { unfold on_mailbox, zoom. change (c_mailbox (taken w ch c)) with (c_mailbox c). now rewrite E. }
    now rewrite (M_bind_eq _ _ _ _ _ Em).
  - exists b. split_and!; [exact Ht|exact Hb|congruence].
Qed.

(** what the controller sends for the state [key]: the bytes of the value, or none *)
Definition replied (key : string) (c : Controller) : list byte :=
  match try_state key (c_mailbox c) with Some b => buffer_data b | None => [] end.

(** A worker that asks for a state is answered, at once. *)
Lemma round_state_answers now w r q p key n c :
  c_ending c = false -> settled c -> serves w c -> frame_ok r -> frame_says r (IGet p key true n) [] ->
  mq_messages q = frame_wire r ->
  (forall b, try_state key (c_mailbox c) = Some b -> buffer_ok b /\ i32_range (Z.of_nat (buf_len b))) ->
  exists f c' ch, round now (WorkerReady w) (arrived w q c) = (Ret true, c') /\
    frame_ok f /\ frame_says f (IGet "" key true 0) (replied key c) /\ idle_rx [] ch /\ worker_gets f w (taken w ch c) c'.
Proof.
  intros He Hs (worker&Hw&Hwide&Hdr) Hr [Hd _] Hq Hst.
  destruct (round_message now w r q worker c He Hw Hdr Hr Hq) as (b0&ch&_&_&Hch&Hround).
  pose proof Hr as (Hl&_). apply ipc_decode_get_fields in Hd as (x&Hx&_&X2&X3).
  destruct (parsed_generic_views _ x Hl ltac:(now left)) as [_ Hv].
  destruct (make_state_reply_says (generic_name x) Hv) as (m&Hm&Hml&Hmd). rewrite X2 in Hmd.
  set (data := match try_state key (c_mailbox c) with Some b => [b] | None => [] end).
  destruct (send_to_gets mq_send_reliable w (read_end ch worker) (gr_msg m) (IGet "" key true 0) data (taken w ch c)) as (f&c'&E&Hfo&Hf&Hg); auto.
  { cbn. now rewrite list_lookup_alter_eq, Hw. }
  { unfold data. destruct (try_state _ _) eqn:Et; [|constructor]. constructor; [|constructor]. now apply (Hst _ eq_refl). }
  { unfold data. destruct (try_state _ _) as [b|] eqn:Et; cbn; [|unfold i32_range; lia]. rewrite Nat.add_0_r. now apply (Hst _ eq_refl). }
  exists f, c', ch. split_and!; auto.
  - apply Hround; [|exact (worker_gets_settled _ _ _ _ Hg Hs)].
    unfold process_internal_message. rewrite Hx. erewrite M_bind_eq by reflexivity. cbv match. unfold process_get.
    erewrite M_bind_eq by reflexivity. rewrite X3, X2. erewrite M_bind_eq by reflexivity.
    rewrite Hm. erewrite M_bind_eq by reflexivity. change (c_mailbox (taken w ch c)) with (c_mailbox c).
    unfold data in E. destruct (try_state key (c_mailbox c)); exact E.
  - unfold replied, data in *. destruct (try_state key (c_mailbox c)); [|exact Hf]. cbn in Hf. now rewrite app_nil_r in Hf.
Qed.

(** A worker that asks for the keys gets them all. *)
Lemma round_keys_answers now w r q c :
  c_ending c = false -> settled c -> serves w c -> frame_ok r -> frame_says r IStateKeysRequest [] -> mq_messages q = frame_wire r ->
  let keys := state_keys (c_mailbox c) in i32_range (Z.of_nat (length (StateKeys_serialize keys))) ->
  exists f c' ch len, round now (WorkerReady w) (arrived w q c) = (Ret true, c') /\
    frame_ok f /\ frame_says f (IStateKeysResult len) (StateKeys_serialize keys) /\ idle_rx [] ch /\ worker_gets f w (taken w ch c) c'.
Proof.
  intros He Hs (worker&Hw&Hwide&Hdr) Hr [Hd _] Hq keys Hlen.
  destruct (round_message now w r q worker c He Hw Hdr Hr Hq) as (b0&ch&_&_&Hch&Hround).
  apply ipc_decode_keys_request in Hd as (x&Hx). set (str := StateKeys_serialize keys) in *.
  set (len := Z.of_nat (length str)).
  destruct (ipc_wire_decodes (IStateKeysResult len) Hlen) as (d&Hd0&Hml&Hmd). injection Hd0 as <-.
  destruct (send_to_gets mq_send_reliable w (read_end ch worker) (set_state_keys_buffer_length len StateKeysResult) (IStateKeysResult len)
    [{| buf_ptr := Some str; buf_size := length str; buf_len := length str |}] (taken w ch c)) as (f&c'&E&Hfo&Hf&Hg); auto.
  { cbn. now rewrite list_lookup_alter_eq, Hw. }
  { constructor; [|constructor]. split; reflexivity. }
  { cbn. now rewrite Nat.add_0_r. }
  exists f, c', ch, len. split_and!; auto.
  - apply Hround; [|exact (worker_gets_settled _ _ _ _ Hg Hs)].
    unfold process_internal_message. rewrite Hx. erewrite M_bind_eq by reflexivity. cbv match. unfold process_state_keys.
    erewrite M_bind_eq by reflexivity. change (c_mailbox (taken w ch c)) with (c_mailbox c). fold keys str.
    rewrite wrap_i32_id by exact Hlen. exact E.
  - cbn in Hf. unfold buffer_data in Hf. cbn in Hf. now rewrite firstn_all, app_nil_r in Hf.
Qed.

(** ** The whole way *)

(** the function of [cx], which runs on the worker [w] of [c], asked by the message [f] on the queue [q] *)
Record requests (f : frame) (w : nat) (cx : RContext) (q : mqd) (c : Controller) : Prop := {
  rq_linked : linked w cx c;
  rq_running : c_ending c = false;
  rq_message : mq_messages q = frame_wire f;
}.

(** the worker and its reply *)
Lemma reply_reaches w cx ch f c c' :
  linked w cx c -> idle_rx [] ch -> worker_gets f w (taken w ch c) c' -> frame_ok f ->
  exists worker, ws_workers (c_workers c') !! w = Some worker /\ worker_idle [f] (cx_invoker (sees worker cx)).
Proof.
  intros Hl Hch (worker&worker'&Hw&Hq&->) Hf.
  destruct (linked_taken w cx ch c (taken w ch c) Hl Hch eq_refl eq_refl) as [(worker0&Hw0&_&_&Hr) Hi _].
  rewrite Hw in Hw0. injection Hw0 as <-. exists worker'. split.
  - cbn. apply list_lookup_insert_eq. eapply lookup_lt_Some; eauto.
  - exact (worker_reads f worker worker' cx Hi Hr Hq Hf).
Qed.

(** A function that asks for a state gets its value, however often and on whatever worker. *)
Lemma state_is_got now key bs w cx q c :
  holds_state key bs c -> i32_range (Z.of_nat (length bs)) -> ipc_fits IPC_NAME_LENGTH key ->
  requests (state_frame key (cx_invoker cx)) w cx q c ->
  exists c' worker v cx', round now (WorkerReady w) (arrived w q c) = (Ret true, c') /\ c_mailbox c' = c_mailbox c /\
    ws_workers (c_workers c') !! w = Some worker /\
    context_state_get (sv_of_string key) (sees worker cx) = (Ret v, cx') /\ obtains bs v cx'.
Proof.
  intros (b&Hb&Hok&Hbd) Hr Hk [Hl He Hq]. destruct (state_frame_says key [] (cx_invoker cx) (lk_idle _ _ _ Hl) Hk) as [Hfo Hfs].
  destruct (round_state_answers now w _ q "" key 0 c He (lk_settled _ _ _ Hl) (linked_serves _ _ _ Hl) Hfo Hfs Hq)
    as (f&c'&ch&E&Hfo'&Hf&Hch&Hg).
  { intros b' Hb'. rewrite Hb in Hb'. injection Hb' as <-. split; [exact Hok|]. now rewrite <-(length_buffer_data b Hok), Hbd. }
  destruct (reply_reaches w cx ch f c c' Hl Hch Hg Hfo') as (worker&Hw&Hi).
  unfold replied in Hf. rewrite Hb, Hbd in Hf.
  destruct (state_get_answered key _ _ _ bs f [] (sees worker cx) Hi Hk Hf) as (v&cx'&Ev&Hv&_).
  exists c', worker, v, cx'. split; [exact E|]. split; [now destruct Hg as (?&?&_&_&->)|]. auto.
Qed.

(** C4: the state of a process, from function to function.  A function writes an
    object into one of its buffers - which takes it, [serialize] says so - and
    puts the buffer as the state [key]; the round of the controller that finds
    the request keeps the bytes under the key, lists the key, and touches no
    other.  A function on any worker that asks for the key, in whatever later
    state in which nobody has stored another value, is answered in the same
    round, gets the object back, and the state stays for the next one. *)
Theorem state_trip key (o : Obj) buf fs ca :
  worker_idle fs (cx_invoker ca) -> to_controller (cx_invoker ca) = [] -> ipc_fits IPC_NAME_LENGTH key ->
  view_live ca buf -> Exists (fun b => hb_data b = rb_ptr buf) (cx_user_buffers ca) ->
  (Z.of_nat (length (archived o)) <= rb_size buf)%Z -> i32_range (Z.of_nat (length (archived o))) -> archived o <> [] ->
  exists v ca1 ca2, serialize o buf ca = (Ret (Z.of_nat (length (archived o)), v), ca1) /\
    context_state_put (sv_of_string key) v ca1 = (Ret tt, ca2) /\ worker_idle fs (cx_invoker ca2) /\
  forall now w worker q c, c_ending c = false -> settled c -> ws_workers (c_workers c) !! w = Some worker -> drained worker ->
    storable key c -> mq_messages q = to_controller (cx_invoker ca2) ->
  exists c1, round now (WorkerReady w) (arrived w q c) = (Ret true, c1) /\ holds_state key (archived o) c1 /\
    key ∈ (fst <$> state_keys (c_mailbox c1)) /\ (forall k, k <> key -> try_state k (c_mailbox c1) = try_state k (c_mailbox c)) /\
  forall now' u cx q' c2, holds_state key (archived o) c2 -> requests (state_frame key (cx_invoker cx)) u cx q' c2 ->
  exists c3 worker' view cx', round now' (WorkerReady u) (arrived u q' c2) = (Ret true, c3) /\ c_mailbox c3 = c_mailbox c2 /\
    ws_workers (c_workers c3) !! u = Some worker' /\
    context_state_get (sv_of_string key) (sees worker' cx) = (Ret view, cx') /\ deserialize view cx' = (Ret o, cx').
Proof.
  intros Hi Hempty Hk Hlive Hex Hfit Hr Hne.
  destruct (object_roundtrip o buf ca Hlive Hfit) as (ca1&Es&(_&Hub&_&_&Hrd&Hwr)&Hshow&_&_&_). set (v := set_rb_len _ buf) in *.
  assert (worker_idle fs (cx_invoker ca1) /\ to_controller (cx_invoker ca1) = []) as [Hi1 He1].
  { unfold worker_idle, to_controller in *. rewrite Hrd, Hwr. auto. }
  destruct (state_put_sent key v _ fs ca1 Hi1 Hk Hshow Hr) as (f&ca2&Ep&Hi2&(Hfo&Hto&_)&Hf); [now rewrite Hub|].
  exists v, ca1, ca2. split; [exact Es|]. split; [exact Ep|]. split; [exact Hi2|].
  rewrite He1 in Hto. apply List.Forall_cons_iff in Hfo as [Hfo _]. unfold frames_wire in Hto. cbn in Hto. rewrite app_nil_r in Hto.
  intros now w worker q c He Hs Hw Hd Hst Hq. rewrite Hto in Hq.
  destruct (round_stores now w worker f q "" key _ _ c He Hs Hw Hd Hfo Hf Hq Hst) as (c1&E1&Hh&Hin&Ho).
  exists c1. do 4 (split; [assumption|]). intros now' u cx q' c2 Hh2 Hreq.
  destruct (state_is_got now' key _ u cx q' c2 Hh2 Hr Hk Hreq) as (c3&worker'&view&cx'&E3&Hm&Hw3&Eg&Hg).
  exists c3, worker', view, cx'. do 4 (split; [assumption|]).
  unfold obtains in Hg. destruct (archived o) as [|x xs] eqn:Eo; [done|]. destruct Hg as [_ (rest&Hh3)].
  rewrite <-Eo in Hh3. exact (deserialize_front o view cx' rest Hh3).
Qed.

(** A function that asks for the keys of the state gets them all, with their times. *)
Theorem state_keys_trip now w cx q c :
  requests (keys_frame (cx_invoker cx)) w cx q c ->
  let keys := state_keys (c_mailbox c) in i32_range (Z.of_nat (length (StateKeys_serialize keys))) ->
  exists c' worker cx', round now (WorkerReady w) (arrived w q c) = (Ret true, c') /\ c_mailbox c' = c_mailbox c /\
    ws_workers (c_workers c') !! w = Some worker /\ context_state_keys (sees worker cx) = (Ret keys, cx').
Proof.
  intros [Hl He Hq] keys Hr. destruct (keys_frame_says [] (cx_invoker cx) (lk_idle _ _ _ Hl)) as [Hfo Hfs].
  destruct (round_keys_answers now w _ q c He (lk_settled _ _ _ Hl) (linked_serves _ _ _ Hl) Hfo Hfs Hq Hr)
    as (f&c'&ch&len&E&Hfo'&Hf&Hch&Hg).
  destruct (reply_reaches w cx ch f c c' Hl Hch Hg Hfo') as (worker&Hw&Hi).
  destruct (state_keys_answered keys len f [] (sees worker cx) Hi Hf) as (cx'&Ek&_).
  exists c', worker, cx'. split; [exact E|]. split; [now destruct Hg as (?&?&_&_&->)|]. auto.
Qed.

(** A key that nobody stored a state under gives the null view, and so does an empty state. *)
Theorem absent_state now key w cx q c :
  replied key c = [] -> (forall b, try_state key (c_mailbox c) = Some b -> buffer_ok b) -> ipc_fits IPC_NAME_LENGTH key ->
  requests (state_frame key (cx_invoker cx)) w cx q c ->
  exists c' worker cx', round now (WorkerReady w) (arrived w q c) = (Ret true, c') /\ c_mailbox c' = c_mailbox c /\
    ws_workers (c_workers c') !! w = Some worker /\
    context_state_get (sv_of_string key) (sees worker cx) = (Ret RBuffer_null, cx').
Proof.
  intros Hnone Hb Hk [Hl He Hq]. destruct (state_frame_says key [] (cx_invoker cx) (lk_idle _ _ _ Hl) Hk) as [Hfo Hfs].
  destruct (round_state_answers now w _ q "" key 0 c He (lk_settled _ _ _ Hl) (linked_serves _ _ _ Hl) Hfo Hfs Hq)
    as (f&c'&ch&E&Hfo'&Hf&Hch&Hg).
  { intros b Hb'. split; [exact (Hb b Hb')|]. unfold replied in Hnone. rewrite Hb' in Hnone.
    rewrite <-(length_buffer_data b (Hb b Hb')), Hnone. unfold i32_range. cbn. lia. }
  destruct (reply_reaches w cx ch f c c' Hl Hch Hg Hfo') as (worker&Hw&Hi). rewrite Hnone in Hf.
  destruct (state_get_answered key _ _ _ [] f [] (sees worker cx) Hi Hk Hf) as (v&cx'&Ev&Hv&_). cbn in Hv. subst v.
  exists c', worker, cx'. split; [exact E|]. split; [now destruct Hg as (?&?&_&_&->)|]. auto.
Qed.
End state_trip.

(** ** One process, whose worker puts the number 3 and gets it *)
Section concrete.
#[local] Existing Instance plain_mq | 0.
#[local] Existing Instance plain_laws | 0.

Definition plain_keys : Cereal (list (string * Z)) := plain_cereal.

#[local] Abbreviation turn now e := (poll_round (StateKeys_serialize (C := plain_keys)) now (EpollEvents [e])).

(** [receiver] with the messages of [c] *)
Definition later (c : @Controller mq_ipc tcp_server) : @Controller mq_ipc tcp_server := set_c_mailbox (c_mailbox c) receiver.
Lemma later_requests f c : requests f 0 (plain_context []) (frame_wire f) (later c).
Proof. split; [now apply receiver_linked|reflexivity|reflexivity]. Qed.

Lemma state_trip_witness :
  exists v ca1 ca2 c1 c3 worker view cx',
    serialize 3 (view_of plain_buffer) (plain_context []) = (Ret (3%Z, v), ca1) /\
    context_state_put (sv_of_string "key") v ca1 = (Ret tt, ca2) /\
    turn 0 (WorkerReady 0) (arrived 0 (to_controller (cx_invoker ca2)) receiver) = (Ret true, c1) /\
    turn 1 (WorkerReady 0) (arrived 0 (frame_wire (state_frame "key" (cx_invoker (plain_context [])))) (later c1)) = (Ret true, c3) /\
    context_state_get (sv_of_string "key") (sees worker (plain_context [])) = (Ret view, cx') /\
    deserialize view cx' = (Ret 3, cx').
Proof.
  destruct fits_names as (_&Hk&_).
  destruct (state_trip (Obj := nat) (K := plain_keys) plain_send_reliable plain_receive_reliable plain_never_empty "key" 3 (view_of plain_buffer) []
    (plain_context []) (plain_worker_idle [] (List.Forall_nil _)) eq_refl Hk plain_live ltac:(left; reflexivity)
    ltac:(apply (bool_decide_unpack _); vm_compute; exact I) ltac:(apply (bool_decide_unpack _); vm_compute; exact I) ltac:(discriminate))
    as (v&ca1&ca2&Es&Ep&_&HA).
  destruct (HA 0%Z 0 _ (to_controller (cx_invoker ca2)) receiver eq_refl (plain_settled "peer") eq_refl) as (c1&E1&Hh&_&_&HB).
  { apply (plain_idle [] (List.Forall_nil _)). } { intros [? Hx]. discriminate Hx. } { reflexivity. }
  destruct (HB 1%Z 0 (plain_context []) _ (later c1) Hh (later_requests _ c1)) as (c3&worker&view&cx'&E3&_&_&Eg&Ed).
  exists v, ca1, ca2, c1, c3, worker, view, cx'. split_and!; assumption.
Defined.

Definition with_state : @Controller mq_ipc tcp_server :=
  set_c_mailbox (store_state "key" (payload_buffer 1 [x01]) 5 MessageStore_empty).2 receiver.

Lemma state_keys_trip_witness :
  exists c' worker cx',
    turn 1 (WorkerReady 0) (arrived 0 (frame_wire (keys_frame (cx_invoker (plain_context [])))) (later with_state)) = (Ret true, c') /\
    @context_state_keys _ _ (cereal_keys (C := plain_keys)) (sees worker (plain_context [])) = (Ret [("key", 5%Z)], cx').
Proof.
  destruct (state_keys_trip (K := plain_keys) (kl := plain_cereal_laws) plain_send_reliable plain_receive_reliable plain_never_empty 1 0 (plain_context []) _ (later with_state)
    (later_requests _ with_state) ltac:(apply (bool_decide_unpack _); vm_compute; exact I)) as (c'&worker&cx'&E&_&_&Ek).
  exists c', worker, cx'. split; [exact E|exact Ek].
Defined.

Lemma absent_state_witness :
  exists c' worker cx',
    turn 1 (WorkerReady 0) (arrived 0 (frame_wire (state_frame "f" (cx_invoker (plain_context [])))) (later with_state)) = (Ret true, c') /\
    context_state_get (sv_of_string "f") (sees worker (plain_context [])) = (Ret RBuffer_null, cx').
Proof.
  destruct fits_names as (_&_&Hf&_).
  destruct (absent_state (K := plain_keys) plain_send_reliable plain_receive_reliable plain_never_empty 1 "f" 0 (plain_context []) _ (later with_state)
    eq_refl ltac:(intros b Hb; discriminate Hb) Hf (later_requests _ with_state)) as (c'&worker&cx'&E&_&_&Eg).
  exists c', worker, cx'. split; [exact E|exact Eg].
Defined.
End concrete.
