(* ===== verification/CallTrip.v ===== *)
(** * CallTrip: an invocation, from a function of one process to another process

    The parts of two processes put together: a function of the process A invokes
    a function of the process B; the controller of A remembers who waits and
    sends the request over the connection of B; B serves it (Service.v) and
    sends the result back; the controller of A gives it to the worker that
    waits.  Between the steps other events may happen; what a step needs of the
    state it starts in is a predicate, and the step before establishes what the
    next one needs of the invocation. *)

From S2P Require Import Prelude Memory Messages IpcMessages Buffers Channel Application Functions Mailbox WorkQueue.
From S2P Require Import Controller Remote Invoker Context Requests WorkerMain Rounds Service MessageTrip.

#[local] Existing Instance mq_ipc | 0.
#[local] Existing Instance tcp_server | 0.

Lemma ipc_decode_call m id f p lens :
  ipc_decode m = Ret (IInvocation id f p lens) -> exists x, parse_message m = Ret (VInvocationRequestParsed x) /\
    sv_str (ipc_invocation_id x) = id /\ sv_str (ipc_function_name x) = f /\ sv_str (ipc_process_id x) = p.
Proof.
  unfold ipc_decode. destruct (parse_message m) as [[]| |]; cbn; try discriminate.
  destruct (read_lengths _ _ _) as [ls| |] eqn:E; cbn; try discriminate. intros [= <- <- <- <-]. eauto.
Qed.

Lemma parsed_call_views d x :
  length d = IPC_BUF_SIZE -> parse_message d = Ret (VInvocationRequestParsed x) ->
  cview IPC_NAME_LENGTH (ipc_function_name x) /\ cview IPC_ID_LENGTH (ipc_invocation_id x).
Proof.
  intros Hlen Hx. unfold parse_message in Hx. destruct (_ || _)%bool; [done|]. destruct (IpcType_of_Z _); try done.
  injection Hx as <-. unfold IPC_BUF_SIZE in Hlen. split.
  - apply (cview_sv_at (IPC_HEADER_OFFSET + IPC_ID_LENGTH) IPC_NAME_LENGTH d). rewrite Hlen.
    unfold IPC_HEADER_OFFSET, IPC_ID_LENGTH, IPC_NAME_LENGTH. lia.
  - apply (cview_sv_at IPC_HEADER_OFFSET IPC_ID_LENGTH d). rewrite Hlen. unfold IPC_HEADER_OFFSET, IPC_ID_LENGTH. lia.
Qed.

Lemma parsed_result_views d x :
  length d = BUF_SIZE -> parse d = Ret (VInvocationResult x) ->
  cview IPC_ID_LENGTH (result_invocation_id x) /\ i32_range (return_code x).
Proof.
  intros Hlen Hx. unfold parse in Hx. destruct (_ || _)%bool; [done|]. destruct (MessageType_of_Z _); try done.
  injection Hx as <-. split.
  - apply (cview_sv_at (HEADER_OFFSET + 4) IPC_ID_LENGTH d). rewrite Hlen. unfold HEADER_OFFSET, IPC_ID_LENGTH, BUF_SIZE. lia.
  - apply read_i32_range. cbn. rewrite Hlen. unfold HEADER_OFFSET, BUF_SIZE. lia.
Qed.

(** the last message of another process *)
Lemma decode_last type hdr v request body p :
  length hdr = BUF_SIZE -> parse hdr = Ret v -> announced v = Some (request, Z.of_nat (length body)) -> type = PROCESS ->
  decode_stream type (Some p) (hdr ++ body) = ([CallRemote hdr (payload_buffer (length body) body) p], [], Ret tt).
Proof.
  intros Hlen Hv Ha ->. rewrite <-(app_nil_r body) at 1.
  rewrite (decode_message PROCESS (Some p) hdr v request body [] (CallRemote hdr (payload_buffer (length body) body) p) Hlen Hv Ha)
    by (destruct request; reflexivity). reflexivity.
Qed.

Section call_trip.
Context {al : Allocator} {mq : PosixMQ} {laws : PosixMQLaws mq} {er : EqualRange} {ka : KeysArchive} {dl : DynamicLoader}.
#[local] Existing Instance al | 0.
#[local] Existing Instance mq | 0.
#[local] Existing Instance er | 0.
Variable serialize_state_keys : list (string * Z) -> list byte.

(** A blocking [mq_send] returns 0, a blocking [mq_receive] a message; and what
    was sent arrives in order. *)
Hypothesis mq_send_reliable : forall q m, exists q', mq_send q m = (true, q').
Hypothesis mq_receive_reliable : forall q q', mq_receive q <> (MqError, q').
Hypothesis never_empty : ~ ran_empty.

#[local] Abbreviation round now e := (poll_round serialize_state_keys now (EpollEvents [e])).

(** ** The request leaves *)

(** the request over a connection *)
Lemma tcp_request_sent peer fname id b l t c s :
  cview NAME_LENGTH fname -> cview ID_LENGTH id -> buffer_ok b -> (Z.of_nat (buf_len b) < 2 ^ 31)%Z ->
  ts_connection_data s !! sv_str peer = Some l -> ts_heap s !! l = Some c -> cn_conn c = Some t ->
  exists hdr s' m, tcp_invocation_request peer fname id b s = (Ret tt, s') /\
    sent_on t s' = sent_on t s ++ hdr ++ buffer_data b /\ length hdr = BUF_SIZE /\
    parse hdr = Ret (VInvocationRequest m) /\ sv_str (function_name m) = sv_str fname /\
    sv_str (invocation_id m) = sv_str id /\ payload_size m = Z.of_nat (buf_len b).
Proof.
  intros Hf Hid Hb Hlt Hl Hc Hn. assert (i32_range (Z.of_nat (buf_len b))) as Hr by (unfold i32_range; lia).
  destruct (InvocationRequest_parse fname id (Z.of_nat (buf_len b)) _ Hf Hid (Nat2Z.is_nonneg _) Hr Hr) as (r&Er&_&Hlen&m&Hm&M1&M2&M3&_).
  apply bind_ret_inv in Er as (r1 & E1 & E). apply bind_ret_inv in E as (r2 & E2 & E3).
  set (hdr := bytes (set_total_length (Z.of_nat (buf_len b)) r)) in *.
  exists hdr, (tcp_send t (buffer_data b) (tcp_send t hdr s).2).2, m. split_and!; auto.
  - unfold tcp_invocation_request. erewrite M_bind_eq by reflexivity. rewrite Hl, wrap_i32_id by done.
    rewrite E1. erewrite M_bind_eq by reflexivity. rewrite E2. erewrite M_bind_eq by reflexivity.
    rewrite E3. erewrite M_bind_eq by reflexivity. fold hdr.
    unfold send_or_store. rewrite (M_bind_eq _ _ _ _ _ (deref_at l _ _ Hc)). rewrite Hn.
    assert (forall data s0, ts_heap s0 = ts_heap s -> conn_send l data s0 = (Ret tt, (tcp_send t data s0).2)) as Hsend.
    { intros data s0 Hs0. unfold conn_send. rewrite (M_bind_eq _ _ _ _ _ (deref_at l c s0 ltac:(congruence))). now rewrite Hn. }
    unfold mbind, M_bind. rewrite Hsend by done. now rewrite Hsend.
  - now rewrite !sent_on_send, app_assoc.
Qed.

(** the function asks for [dest] to run [fname], and nobody else waits for [id] *)
Record calling (dest fname id : string) (bs : list byte) (w : nat) (t : tcp) (cx : RContext) (q : mqd) (c : Controller) : Prop := {
  cl_linked : linked w cx c;
  cl_running : c_ending c = false;
  cl_request : mq_messages q = frame_wire (invoke_frame dest fname id bs (cx_invoker cx));
  cl_other : dest <> SELF_PROCESS /\ dest <> c_process_id c;
  cl_peer : peer_on dest t c;
  cl_first : equal_range id (c_pending_msgs c) = [];
}.

(** it waits for the result, and nobody else does *)
Record awaiting (id : string) (w : nat) (cx : RContext) (c : Controller) : Prop := {
  aw_linked : linked w cx c;
  aw_alone : equal_range id (c_pending_msgs c) = [{| pm_type := PENDING_INVOCATION; pm_source := ""; pm_worker := w |}];
}.

(** An invocation of another process leaves over its connection. *)
Lemma round_call_leaves now dest fname id bs w t cx q c :
  calling dest fname id bs w t cx q c ->
  ipc_fits IPC_ID_LENGTH dest -> ipc_fits IPC_NAME_LENGTH fname -> ipc_fits IPC_ID_LENGTH id ->
  i32_range (Z.of_nat (length bs)) ->
  exists c' s s' hdr m, round now (WorkerReady w) (arrived w q c) = (Ret true, c') /\ awaiting id w cx c' /\
    (quiet c -> quiet c') /\ c_server c = Some s /\ c_server c' = Some s' /\
    sent_on t s' = sent_on t s ++ hdr ++ bs /\ length hdr = BUF_SIZE /\
    parse hdr = Ret (VInvocationRequest m) /\ sv_str (function_name m) = fname /\ sv_str (invocation_id m) = id /\
    decode_stream PROCESS (Some (c_process_id c)) (hdr ++ bs) =
      ([CallRemote hdr (payload_buffer (length bs) bs) (c_process_id c)], [], Ret tt).
Proof.
  intros [Hl He Hq [Hself Hown] (srv&l&cn&Hsrv&_&Hpl&Hcn&Ht) Hnone] Hd Hf Hid Hr.
  destruct (invoke_frame_says mq_send_reliable dest fname id bs [] (cx_invoker cx) (lk_idle _ _ _ Hl) Hd Hf Hid Hr) as [Hfo [Hdec Hpay]].
  pose proof Hl as [(worker&Hw&_&Hdr&_) _ Hs].
  destruct (worker_message serialize_state_keys mq_receive_reliable never_empty now _ w q worker c Hw Hdr Hfo Hq)
    as (b&ch&Hb&Hbd&Hch&Eh). rewrite Hpay in Hbd.
  apply ipc_decode_call in Hdec as (x&Hx&X1&X2&X3).
  destruct (parsed_call_views _ x (proj1 Hfo) Hx) as [Hv1 Hv2].
  assert ((Z.of_nat (buf_len b) < 2 ^ 31)%Z) as Hlt by (rewrite <-(length_buffer_data b Hb), Hbd; unfold i32_range in Hr; lia).
  destruct (tcp_request_sent (ipc_process_id x) (ipc_function_name x) (ipc_invocation_id x) b l t cn srv Hv1 Hv2 Hb Hlt)
    as (hdr&srv'&m&E&Hsent&Hlen&Hm&M1&M2&M3); auto.
  { now rewrite X3. }
  rewrite Hbd in Hsent. rewrite <-(length_buffer_data b Hb), Hbd in M3. rewrite X2 in M1. rewrite X1 in M2.
  set (c1 := set_c_server (Some srv' : option (@server tcp_server))
               (set_c_pending_msgs (insert_invocation id w (c_pending_msgs c)) (taken w ch c))).
  exists c1, srv, srv', hdr, m. split; [|split_and!; auto].
  - rewrite (round_event serialize_state_keys now _ (arrived w q c) c1 He); [apply try_schedule_settled; exact Hs|].
    rewrite Eh. unfold process_internal_message. rewrite Hx. erewrite M_bind_eq by reflexivity. cbv match.
    unfold process_invocation, add_pending_invocation. erewrite M_bind_eq by reflexivity. erewrite M_bind_eq by reflexivity.
    rewrite X1, X3. cbn [c_process_id set_c_pending_msgs]. change (c_process_id (taken w ch c)) with (c_process_id c).
    rewrite decide_False by tauto. unfold on_server. cbn [c_server set_c_pending_msgs].
    change (c_server (taken w ch c)) with (c_server c). change (c_pending_msgs (taken w ch c)) with (c_pending_msgs c).
    rewrite Hsrv. cbn [srv_invocation_request tcp_server]. now rewrite E.
  - split; [eapply (linked_taken w cx ch c); eauto|].
    change (c_pending_msgs c1) with (insert_invocation id w (c_pending_msgs c)). unfold insert_invocation, emplace_pending.
    rewrite equal_range_insert, decide_True by done. rewrite Hnone. apply Permutation_singleton_r. apply range_insert_perm.
  - apply (decode_last _ hdr (VInvocationRequest m) true bs (c_process_id c) Hlen Hm); [|reflexivity].
    cbn. rewrite M3, wrap_u64_id; [done|unfold u64_range, i32_range in *; lia].
Qed.

(** ** The result arrives *)

(** the function that waits goes on with the code and the bytes [out] *)
Definition resumes (dest fname id : string) (input : RBuffer) (bs : list byte) (w : nat) (cx : RContext) (c : Controller)
    (code : Z) (out : list byte) : Prop :=
  exists worker v cx', ws_workers (c_workers c) !! w = Some worker /\
    context_invoke (sv_of_string dest) (sv_of_string fname) (sv_of_string id) input (sees worker cx) =
      (Ret {| rres_key := id; rres_function_name := fname; rres_return_code := code; rres_payload := v |}, cx') /\
    user_sees cx' v out /\ worker_idle [] (cx_invoker cx') /\
    sent_more [invoke_frame dest fname id bs (cx_invoker cx)] (cx_invoker cx) (cx_invoker cx').

Lemma result_resumes dest fname id input bs f w cx c c' len code out :
  linked w cx c -> worker_gets f w c c' -> frame_ok f -> frame_says f (IResult id len code) out ->
  ipc_fits IPC_ID_LENGTH dest -> ipc_fits IPC_NAME_LENGTH fname -> ipc_fits IPC_ID_LENGTH id ->
  view_shows cx input bs -> i32_range (Z.of_nat (length bs)) -> length (buffers_at (rb_ptr input) cx) = 1 ->
  resumes dest fname id input bs w cx c' code out.
Proof.
  intros [(worker0&Hw0&_&_&Hreads) Hi _] (worker&worker'&Hw&Hq&->) Hf Hs Hd Hfn Hid Hv Hr Hone.
  rewrite Hw in Hw0. injection Hw0 as <-.
  pose proof (worker_reads f worker worker' cx Hi Hreads Hq Hf) as Hi'.
  destruct (context_invoke_answered mq_send_reliable mq_receive_reliable never_empty dest fname id input bs len code out f []
    (sees worker' cx) Hi' Hd Hfn Hid) as (frames&v&cx'&E&Hvs&Hi2&Hsm&Hlen&Hall); auto.
  { change (buffers_at (rb_ptr input) (sees worker' cx)) with (buffers_at (rb_ptr input) cx). lia. }
  change (buffers_at (rb_ptr input) (sees worker' cx)) with (buffers_at (rb_ptr input) cx) in Hlen. rewrite Hone in Hlen.
  destruct frames as [|q [|]]; try discriminate Hlen. apply list.Forall_cons in Hall as [[_ ->] _].
  exists worker', v, cx'. split_and!; auto. cbn. apply list_lookup_insert_eq. eapply lookup_lt_Some; eauto.
Qed.

(** A result goes to the worker that waits for it. *)
Lemma round_result_arrives now call em id code out w cx c :
  external_of call = Some em -> result_bytes id code out (em_msg em ++ out) -> length (em_msg em) = BUF_SIZE ->
  buffer_ok (em_payload em) -> buffer_data (em_payload em) = out -> (Z.of_nat (length out) < 2 ^ 31)%Z ->
  quiet c -> awaiting id w cx c ->
  exists f c', (run_call call ≫= fun _ => round now WakeUp) c = (Ret true, c') /\
    equal_range id (c_pending_msgs c') = [] /\ frame_ok f /\ frame_says f (IResult id (Z.of_nat (length out)) code) out /\
    worker_gets f w (set_c_pending_msgs (delete id (c_pending_msgs c)) (woken c)) c'.
Proof.
  intros Hcall (hdr&m&Hb&Hl&Hm&Hid&Hcode&_) Hlen Hok Hbd Hlt Hq [Hlk Halone].
  apply app_inj_1 in Hb as [<- _]; [|congruence].
  destruct (parsed_result_views _ m Hlen Hm) as [Hv Hc]. rewrite Hcode in Hc.
  assert (i32_range (Z.of_nat (length out))) as Hr by (unfold i32_range; lia).
  destruct (make_result_says (result_invocation_id m) code (length out) Hv Hc Hr) as (r&Hmr&Hml&Hmd). rewrite Hid in Hmd.
  set (c1 := set_c_pending_msgs (delete id (c_pending_msgs c)) (woken c)).
  destruct (linked_serves _ _ _ Hlk) as (worker&Hw&Hwide&_).
  assert (buf_len (em_payload em) = length out) as Hbl by (rewrite <-(length_buffer_data _ Hok); now rewrite Hbd).
  destruct (send_to_gets mq_send_reliable w worker (irs_msg r) _ [em_payload em] c1 Hw Hwide Hml Hmd) as (f&c'&E&Hfo&Hf&Hg); auto.
  { cbn. rewrite Nat.add_0_r, Hbl. exact Hr. }
  cbn [fmap list_fmap concat] in Hf. rewrite app_nil_r, Hbd in Hf.
  exists f, c'. split; [|split_and!; auto].
  2: { destruct Hg as (?&?&_&_&->). cbn. unfold equal_range. now rewrite lookup_delete_eq. }
  assert (c_app_updates c' = []) as Hu by (destruct Hg as (?&?&_&_&->); exact (proj2 (proj2 Hq))).
  rewrite (round_external serialize_state_keys now call em c c' Hcall Hq); [|  |exact Hu].
  { apply try_schedule_settled. exact (worker_gets_settled _ _ _ _ Hg (lk_settled _ _ _ Hlk)). }
  unfold process_external_message. rewrite Hm. erewrite M_bind_eq by reflexivity. cbv match. rewrite Hid, Hcode.
  assert (take_invocation id (woken c) = (Ret [w], c1)) as Et
    by (unfold take_invocation, find_invocation; cbn [c_pending_msgs woken set_c_external_queue set_c_event_fd]; now rewrite Halone).
  rewrite (M_bind_eq _ _ _ _ _ Et), Hbl, Hmr. erewrite M_bind_eq by reflexivity. cbn [for_each].
  now rewrite (M_bind_eq _ _ _ _ _ E).
Qed.

(** the bytes [reply] of the process [dest] are the result that the function waits for *)
Definition resumes_on (dest fname id : string) (input : RBuffer) (bs : list byte) (w : nat) (cx : RContext)
    (code : Z) (out reply : list byte) : Prop :=
  exists call, decode_stream PROCESS (Some dest) reply = ([call], [], Ret tt) /\
  forall now c, quiet c -> awaiting id w cx c ->
  exists c', (run_call call ≫= fun _ => round now WakeUp) c = (Ret true, c') /\
    equal_range id (c_pending_msgs c') = [] /\ resumes dest fname id input bs w cx c' code out.

Lemma result_bytes_resume dest fname id input bs w cx code out reply :
  result_bytes id code out reply -> (Z.of_nat (length out) < 2 ^ 31)%Z ->
  ipc_fits IPC_ID_LENGTH dest -> ipc_fits IPC_NAME_LENGTH fname -> ipc_fits IPC_ID_LENGTH id ->
  view_shows cx input bs -> i32_range (Z.of_nat (length bs)) -> length (buffers_at (rb_ptr input) cx) = 1 ->
  resumes_on dest fname id input bs w cx code out reply.
Proof.
  intros Hres Hlt Hd Hf Hid Hv Hr Hone. pose proof Hres as (hdr&m&->&Hlen&Hm&_&_&Ht).
  exists (CallRemote hdr (payload_buffer (length out) out) dest). split.
  - apply (decode_last _ hdr (VInvocationResult m) false out dest Hlen Hm); [|reflexivity].
    cbn. rewrite Ht, wrap_u64_id; [done|unfold u64_range; lia].
  - intros now c Hq Ha.
    destruct (round_result_arrives now (CallRemote hdr (payload_buffer (length out) out) dest) _ id code out w cx c
      eq_refl Hres Hlen) as (f&c'&E&Hp&Hfo&Hfs&Hg); auto.
    { unfold buffer_ok, payload_buffer. cbn. now rewrite firstn_all. }
    { unfold buffer_data, payload_buffer. cbn. now rewrite !firstn_all. }
    exists c'. split; [exact E|]. split; [exact Hp|].
    eapply (result_resumes dest fname id input bs f w cx _ c'); eauto.
    destruct Ha as [[Hw Hi Hs] _]. split; [exact Hw|done|exact Hs].
Qed.

(** ** The whole way *)

(** C2: an invocation of a function of another process.  The function of the first
    process invokes it with one of its buffers; the round of its controller that
    finds the request remembers the worker and sends bytes over the connection of
    the other process, which say one request.  The other process takes it and
    serves it, with the id, the name and exactly these bytes, and sends back
    bytes that say one result; the round that finds it forgets the worker again,
    and the [invoke] that waits returns the code and exactly the bytes of the
    output of the function that ran. *)
Theorem call_trip dest fname id input bs w t cx q c now :
  calling dest fname id bs w t cx q c -> quiet c ->
  ipc_fits IPC_ID_LENGTH dest -> ipc_fits IPC_NAME_LENGTH fname -> ipc_fits IPC_ID_LENGTH id ->
  view_shows cx input bs -> i32_range (Z.of_nat (length bs)) -> length (buffers_at (rb_ptr input) cx) = 1 ->
  exists c' s s' request call, round now (WorkerReady w) (arrived w q c) = (Ret true, c') /\
    awaiting id w cx c' /\ quiet c' /\ c_server c = Some s /\ c_server c' = Some s' /\ sent_on t s' = sent_on t s ++ request /\
    let source := c_process_id c in
    decode_stream PROCESS (Some source) request = ([call], [], Ret tt) /\
    takes_and_serves serialize_state_keys (resumes_on dest fname id input bs w cx) (from_process source) fname id bs call.
Proof.
  intros Hc Hq Hd Hf Hid Hv Hr Hone.
  destruct (round_call_leaves now dest fname id bs w t cx q c Hc Hd Hf Hid Hr)
    as (c'&s&s'&hdr&m&E&Ha&Hq'&Hs&Hs'&Hsent&Hlen&Hm&Hfn&Hmid&Hdec).
  exists c', s, s', (hdr ++ bs), (CallRemote hdr (payload_buffer (length bs) bs) (c_process_id c)).
  split; [exact E|]. split; [exact Ha|]. split; [exact (Hq' Hq)|]. do 3 (split; [assumption|]). split; [exact Hdec|].
  intros now' cB Htk.
  destruct (process_serves serialize_state_keys mq_send_reliable mq_receive_reliable never_empty
    (CallRemote hdr (payload_buffer (length bs) bs) (c_process_id c)) _ m (from_process (c_process_id c)) fname id bs
    eq_refl eq_refl eq_refl Hlen Hm Hfn Hmid) with (now := now') (c := cB)
    as (v&worker&worker'&c1&H1&H2&H3&H4&H5&H6&Hserve); auto.
  { unfold buffer_ok, payload_buffer. cbn. now rewrite firstn_all. }
  { unfold buffer_data, payload_buffer. cbn. now rewrite !firstn_all. }
  { unfold i32_range in Hr. lia. }
  exists v, worker, worker', c1. do 6 (split; [assumption|]).
  revert Hserve. apply serves_invocation_weaken. intros code out reply _ Hlt Hres. now apply result_bytes_resume.
Qed.
End call_trip.

(** ** Two processes with a worker each *)
Section concrete.
#[local] Existing Instance plain_mq | 0.
#[local] Existing Instance plain_laws | 0.
#[local] Existing Instance one_library | 0.

(** the process "peer", connected to "A" *)
Definition callee_server : TCPServer :=
  set_ts_connection_data {["A" := 0]} (set_ts_heap {[0 := Connection_make CONNECTED PROCESS (Some "A") (Some 4)]}
    (TCPServer_ctor "peer")).
Definition callee : @Controller mq_ipc tcp_server :=
  set_c_server (Some callee_server : option (@server tcp_server)) receiver.

Lemma callee_takes : takes "f" "id" callee.
Proof.
  split; try reflexivity; [split_and!; reflexivity|eexists; vm_compute; reflexivity|].
  repeat constructor. unfold wide, IPC_BUF_SIZE. cbn. lia.
Qed.

Lemma sender_calls :
  calling "peer" "f" "id" [x01; x02; x03] 0 3 (plain_context [])
    (frame_wire (invoke_frame "peer" "f" "id" [x01; x02; x03] (cx_invoker (plain_context [])))) sender.
Proof.
  split; [now apply receiver_linked|reflexivity|reflexivity|now split| |reflexivity].
  eexists _, 0, _. split_and!; reflexivity.
Qed.

Lemma call_trip_witness :
  let cx := plain_context [] in
  let request := frame_wire (invoke_frame "peer" "f" "id" [x01; x02; x03] (cx_invoker cx)) in
  exists cA call cB worker' cx3 cB' call' cA',
    poll_round no_keys 0 (EpollEvents [WorkerReady 0]) (arrived 0 request sender) = (Ret true, cA) /\
    (run_call call ≫= fun _ => poll_round no_keys 1 (EpollEvents [WakeUp])) callee = (Ret true, cB) /\
    serve_one 1 plain_library (sees worker' cx) = (Ret true, cx3) /\
    poll_round no_keys 2 (EpollEvents [WorkerReady 0]) (arrived 0 (to_controller (cx_invoker cx3)) cB) = (Ret true, cB') /\
    (run_call call' ≫= fun _ => poll_round no_keys 3 (EpollEvents [WakeUp])) cA = (Ret true, cA') /\
    resumes "peer" "f" "id" (view_of plain_buffer) [x01; x02; x03] 0 cx cA' 0 [x07].
Proof.
  intros cx request. destruct fits_names as (_&_&Hf&Hp&Hid).
  destruct (call_trip no_keys plain_send_reliable plain_receive_reliable plain_never_empty "peer" "f" "id" (view_of plain_buffer)
    [x01; x02; x03] 0 3 cx request sender 0 sender_calls ltac:(split_and!; reflexivity) Hp Hf Hid (plain_shows []) three_bytes eq_refl)
    as (cA&s&s'&bytes&call&EA&Haw&Hq&_&_&_&_&HB).
  destruct (HB 1%Z callee callee_takes) as (v&worker&worker'&cB&EB&Hv&_&_&_&Hto&Hserve).
  destruct v as [|v]; [|destruct v; discriminate Hv]. injection Hv as <-.
  assert (library_function plain_library "f" = Some (fun _ => write_output [x07] 0 ≫= fun _ => mret 0%Z)) as Hl
    by (vm_compute; reflexivity).
  destruct (Hserve plain_library _ 1 cx (plain_waits [] (List.Forall_nil _)) eq_refl Hl ltac:(lia))
    as (inv&cx1&_&_&_&Hw1&Hk1&Htc&Hh&Ho&Hvw&Hans).
  destruct (write_one [] cx1 (proj2 (proj2 (proj2 Hw1))) Hh Ho Hvw) as (cx2&E2&Hi2&Hk2&Hok2&Hs2).
  destruct (Hans 0%Z cx2 [x07]) as (cx3&E3&_&Hret).
  - now rewrite (M_bind_eq _ _ _ _ _ E2).
  - unfold worker_waits. rewrite Hi2. destruct Hw1 as (?&?&?&_). auto.
  - congruence.
  - rewrite Hi2, Htc. reflexivity.
  - unfold i32_range. lia.
  - exact Hs2.
  - unfold i32_range. cbn. lia.
  - assert (awaits (from_process "A") 0 "id" 4 cB) as Ha.
    { apply Hto; [eexists _, 0, _; split_and!; reflexivity|]. constructor; [|constructor]. apply (plain_idle [] (List.Forall_nil _)). }
    destruct (Hret 2%Z 4 cB (to_controller (cx_invoker cx3)) Ha eq_refl) as (cB'&s1&s2&reply&E4&_&_&_&_&_&call'&_&Hres).
    destruct (Hres 3%Z cA Hq Haw) as (cA'&E5&_&Hdone).
    exists cA, call, cB, worker', cx3, cB', call', cA'. auto 10.
Defined.
End concrete.
