(* ===== verification/Gateway.v ===== *)
(** * Gateway: the HTTP interface of the control plane, and its client

    The requests of [sdk::PraaS] ([sdk/src/praas.cpp]), the routes of the control
    plane ([METHOD_LIST] in [control-plane/http.hpp]) and the replies of its
    handlers ([http.cpp], [worker.cpp], [process.cpp]) put together: what a
    client asks for is the event that the control plane handles, and what the
    handler answers is what the client reads.  The HTTP library (drogon) and
    the text of a JSON value are class [Drogon], with the documented behaviour
    the two sides rely on. *)

From S2P Require Import Prelude Http Memory Messages CpProcess CpApplication CpServer CpInvariant CpProtocol.
From S2P Require Import IpcMessages Buffers Channel Application Functions Mailbox WorkQueue.
From S2P Require Import Controller Remote Invoker Context Requests WorkerMain Rounds Service RoundTrip Serving Sdk.
From stdpp Require Import pretty.

#[local] Existing Instance mq_ipc | 0.
#[local] Existing Instance tcp_server | 0.

(** ** Requests and routes *)
Inductive http_method : Type := Put | Post | Get.
#[export] Instance http_method_eq_dec : EqDecision http_method.
Proof. solve_decision. Defined.

(** [drogon::HttpRequest], as far as it matters *)
Record HttpRequest : Type := MkRequest {
  rq_method : http_method; rq_path : string; rq_params : list (string * string); rq_body : list byte;
}.

(** [getParameter]: empty if there is none *)
Definition getParameter (name : string) (r : HttpRequest) : string :=
  default EmptyString ((list_to_map (rq_params r) : gmap string string) !! name).

(** a pattern of a route: texts and placeholders between slashes *)
Inductive segment : Type := Lit (s : string) | Arg.
#[export] Instance segment_eq_dec : EqDecision segment.
Proof. solve_decision. Defined.

(** the path of a pattern whose placeholders are these texts *)
Fixpoint fill (p : list segment) (args : list string) : string :=
  match p, args with
  | Lit s :: p', _ => "/" +:+ s +:+ fill p' args
  | Arg :: p', a :: args' => "/" +:+ a +:+ fill p' args'
  | Arg :: p', [] => "/" +:+ fill p' []
  | [], _ => EmptyString
  end.

Definition placeholders (p : list segment) : nat := length (filter (fun s => s = Arg) p).

(** a text that is one segment of a path, and needs no escape *)
Definition segment_char (c : Ascii.ascii) : bool :=
  let n := Ascii.N_of_ascii c in
  ((48 <=? n) && (n <=? 57) || (65 <=? n) && (n <=? 90) || (97 <=? n) && (n <=? 122))%N
  || (n =? 45)%N || (n =? 46)%N || (n =? 95)%N.
Fixpoint all_chars (f : Ascii.ascii -> bool) (s : string) : bool :=
  match s with EmptyString => true | String c s' => f c && all_chars f s' end.
Definition segment_ok (s : string) : Prop := s <> EmptyString /\ all_chars segment_char s = true.

Definition pattern_ok (p : list segment) : Prop := Forall (fun s => match s with Lit s => segment_ok s | Arg => True end) p.

(** two patterns that no path has in common *)
Fixpoint disjoint_patterns (p q : list segment) : bool :=
  match p, q with
  | [], [] => false
  | Lit s :: p', Lit t :: q' => negb (String.eqb s t) || disjoint_patterns p' q'
  | _ :: p', _ :: q' => disjoint_patterns p' q'
  | _, _ => true
  end.

Inductive endpoint : Type := create_app | create_process_ | delete_process_ | swap_process_ | invoke_ | list_processes_.

(** [METHOD_LIST_BEGIN ... METHOD_LIST_END] *)
Definition method_list : list (http_method * list segment * endpoint) :=
  [ (Put, [Lit "apps"; Arg], create_app);
    (Put, [Lit "apps"; Arg; Lit "processes"; Arg], create_process_);
    (Post, [Lit "apps"; Arg; Lit "processes"; Arg; Lit "delete"], delete_process_);
    (Post, [Lit "apps"; Arg; Lit "processes"; Arg; Lit "swap"], swap_process_);
    (Post, [Lit "apps"; Arg; Lit "invoke"; Arg], invoke_);
    (Get, [Lit "apps"; Arg; Lit "processes"], list_processes_) ].

(** the handler called for the client [k], with the texts of the placeholders *)
Definition dispatch (k : nat) (request : HttpRequest) (e : endpoint) (args : list string) : option cp_event :=
  match e, args with
  | create_app, [app_name] => Some (EvCreateApp k app_name (getParameter "cloud_resource_name" request))
  | create_process_, [app_name; process_name] =>
      Some (EvCreateProcess k app_name process_name (getParameter "vcpus" request) (getParameter "memory" request))
  | delete_process_, [app_name; process_name] => Some (EvDeleteProcess k app_name process_name)
  | swap_process_, [app_name; process_name] => Some (EvSwapProcess k app_name process_name)
  | invoke_, [app_name; function_name] => Some (EvInvoke (rq_body request) k app_name function_name)
  | list_processes_, [app_name] => Some (EvListProcesses k app_name)
  | _, _ => None
  end.

(** ** The library *)

(** the texts and numbers that JSON carries unchanged *)
Definition ascii_text (s : string) : Prop := all_chars (fun c => (Ascii.N_of_ascii c <? 128)%N) s = true.
Inductive clean `{JsonCpp} : jvalue -> Prop :=
  | clean_null : clean jnull
  | clean_string s : ascii_text s -> clean (jstring s)
  | clean_int z : i32_range z -> clean (jint z)
  | clean_object l : NoDup l.*1 -> Forall ascii_text l.*1 -> Forall clean l.*2 -> clean (jobject l)
  | clean_array l : Forall clean l -> clean (jarray l).

(** [route]: the entry of a table that serves a method and a path, with the texts
    of its placeholders.  [carried]: the value the peer parses out of the text of
    a value, if it can. *)
Class Drogon `{JsonCpp} : Type := {
  route {E} : list (http_method * list segment * E) -> http_method -> string -> option (E * list string);
  carried : jvalue -> option jvalue;
}.
Class DrogonLaws `(Drogon) : Prop := {
  route_fill E (table : list (http_method * list segment * E)) i m p e args : Forall (fun '(_, p, _) => pattern_ok p) table -> table !! i = Some (m, p, e) ->
    (forall j p' e', table !! j = Some (m, p', e') -> j <> i -> disjoint_patterns p p' = true) ->
    length args = placeholders p -> Forall segment_ok args -> route table m (fill p args) = Some (e, args);
  carried_clean v : clean v -> carried v = Some v;
}.

Section gateway.
Context `{Drogon}.

(** the event of a request *)
Definition http_event (k : nat) (request : HttpRequest) : option cp_event :=
  '(e, args) ← route method_list (rq_method request) (rq_path request); dispatch k request e args.

(** ** The replies of the control plane *)

(** [HttpServer::correct_response] and [failed_response] *)
Definition http_correct_response (reason : string) : HttpResponse :=
  setStatusCode 200 (newHttpJsonResponse (jobject [("message", jstring reason)])).
Definition http_failed_response (reason : string) (status_code : Z) : HttpResponse :=
  setStatusCode status_code (newHttpJsonResponse (jobject [("reason", jstring reason)])).

(** the reply to [create_process], to [list_processes] and to an invocation *)
Definition process_description (name ip : string) (port : Z) : HttpResponse :=
  correct_response_value (jobject [("name", jstring name);
    ("connection", jobject [("type", jstring "direct"); ("ip-address", jstring ip); ("port", jint port)])]).
Definition process_list (app_name : string) (active swapped : list string) : HttpResponse :=
  let names key l := match l with [] => [] | _ => [(key, jarray (jstring <$> l))] end in
  setStatusCode 200 (newHttpJsonResponse
    (jobject ([("application", jstring app_name)] ++ names "active" active ++ names "swapped" swapped))).
Definition invocation_response (function_name invocation_id : string) (return_code : Z) (buf : list byte) : HttpResponse :=
  setStatusCode 200 (newHttpJsonResponse (jobject [("function", jstring function_name);
    ("invocation_id", jstring invocation_id); ("return_code", jint return_code);
    ("result", jstring (String.string_of_list_byte buf))])).

Definition http_reply (r : http_response) : HttpResponse :=
  match r with
  | RespProcess name ip port => process_description name ip port
  | RespResult function_name invocation_id return_code result =>
      invocation_response function_name invocation_id return_code result
  | RespCorrect message => http_correct_response message
  | RespFailed reason status => http_failed_response reason status
  | RespList app active swapped => process_list app active swapped
  end.

(** the reply as the client has it *)
Definition delivered (r : HttpResponse) : HttpResponse :=
  {| hr_status := hr_status r; hr_body := hr_body r; hr_json := hr_json r ≫= carried |}.

(** ** The requests of the client *)
Definition create_application_request (application cloud_resource_name : string) : HttpRequest :=
  {| rq_method := Put; rq_path := "/apps/" +:+ application;
     rq_params := [("cloud_resource_name", cloud_resource_name)]; rq_body := [] |}.
Definition create_process_request (application process_name : string) (vcpus memory : Z) : HttpRequest :=
  {| rq_method := Put; rq_path := "/apps/" +:+ application +:+ "/processes/" +:+ process_name;
     rq_params := [("vcpus", pretty vcpus); ("memory", pretty memory)]; rq_body := [] |}.
Definition invoke_request (app_name function_name : string) (invocation_data : list byte) : HttpRequest :=
  {| rq_method := Post; rq_path := "/apps/" +:+ app_name +:+ "/invoke/" +:+ function_name;
     rq_params := []; rq_body := invocation_data |}.
End gateway.

Lemma ascii_text_app s t : ascii_text s -> ascii_text t -> ascii_text (s +:+ t).
Proof.
  unfold ascii_text. induction s as [|c s IH]; [done|]. change (String c s +:+ t) with (String c (s +:+ t)). cbn [all_chars].
  intros [Hc Hs]%andb_prop Ht. rewrite Hc. now apply IH.
Qed.

Lemma string_app_nil_r s : s +:+ "" = s.
Proof. induction s as [|c s IH]; [done|]. change (String c (s +:+ "") = String c s). now rewrite IH. Qed.

(** ** What a request is, and what its reply says *)
Section gateway.
Context `{HD : DrogonLaws} {jl : JsonCppLaws H} {uu : UuidGenerator} {st : StdStod} {cf : CpConfig}.

Lemma method_list_ok : Forall (fun '(_, p, _) => pattern_ok p) method_list.
Proof. repeat (apply List.Forall_cons; [unfold pattern_ok; repeat (apply List.Forall_cons; [now split|]); apply List.Forall_nil|]). apply List.Forall_nil. Qed.

(** the entry of the table that serves a path *)
Lemma routed i m p e args k r :
  method_list !! i = Some (m, p, e) -> rq_method r = m -> rq_path r = fill p args ->
  length args = placeholders p -> Forall segment_ok args -> http_event k r = dispatch k r e args.
Proof.
  intros Hi Hm Hp Hl Hs. unfold http_event. rewrite Hm, Hp.
  rewrite (route_fill _ method_list i m p e args method_list_ok Hi); auto.
  intros j p' e' Hj Hne. pose proof (lookup_lt_Some _ _ _ Hi). pose proof (lookup_lt_Some _ _ _ Hj). cbn in *.
  do 6 (destruct i as [|i]; [injection Hi as <- <- <-;
    do 6 (destruct j as [|j]; [first [done | (injection Hj as <- <-; reflexivity) | discriminate Hj]|]); lia|]). lia.
Qed.

Lemma create_application_event k app res :
  segment_ok app -> http_event k (create_application_request app res) = Some (EvCreateApp k app res).
Proof.
  intros Ha. etrans; [apply (routed 0 Put [Lit "apps"; Arg] create_app [app]); auto|done].
  cbn [fill rq_path create_application_request]. now rewrite string_app_nil_r.
Qed.

Lemma create_process_event k app name cpus mem :
  segment_ok app -> segment_ok name ->
  http_event k (create_process_request app name cpus mem) = Some (EvCreateProcess k app name (pretty cpus) (pretty mem)).
Proof.
  intros Ha Hn. etrans; [apply (routed 1 Put [Lit "apps"; Arg; Lit "processes"; Arg] create_process_ [app; name]); auto|done].
  cbn [fill rq_path create_process_request]. now rewrite string_app_nil_r.
Qed.

Lemma invoke_event k app fname data :
  segment_ok app -> segment_ok fname -> http_event k (invoke_request app fname data) = Some (EvInvoke data k app fname).
Proof.
  intros Ha Hn. etrans; [apply (routed 4 Post [Lit "apps"; Arg; Lit "invoke"; Arg] invoke_ [app; fname]); auto|done].
  cbn [fill rq_path invoke_request]. now rewrite string_app_nil_r.
Qed.

(** *** Values that are carried as they are *)
Lemma clean_members l : NoDup l.*1 -> Forall ascii_text l.*1 -> Forall clean l.*2 -> carried (jobject l) = Some (jobject l).
Proof. intros. apply carried_clean. now apply clean_object. Qed.

Lemma delivered_json v code : carried v = Some v ->
  delivered (setStatusCode code (newHttpJsonResponse v)) = setStatusCode code (newHttpJsonResponse v).
Proof. intros Hv. unfold delivered. cbn. now rewrite Hv. Qed.

Lemma member_of l k v : (list_to_map l : gmap string jvalue) !! k = Some v -> member k (jobject l) = Ret v.
Proof. intros Hl. unfold member. now rewrite jget_object, Hl. Qed.

(** what the client makes of the reply to an invocation *)
Lemma invocation_response_read fname id code out :
  ascii_text fname -> ascii_text id -> i32_range code -> ascii_text (String.string_of_list_byte out) ->
  praas_invoke ReqOk (Some (delivered (invocation_response fname id code out))) =
    Ret (if (code <? 0)%Z
         then {| cr_invocation_id := id; cr_return_code := code; cr_response := EmptyString;
                 cr_error_message := String.string_of_list_byte out |}
         else {| cr_invocation_id := id; cr_return_code := code; cr_response := String.string_of_list_byte out;
                 cr_error_message := EmptyString |}).
Proof.
  intros Hf Hid Hc Ho. unfold invocation_response. rewrite delivered_json.
  2:{ apply clean_members; cbn [fmap list_fmap fst snd].
      - apply (bool_decide_unpack _). vm_compute. exact I.
      - repeat (apply List.Forall_cons; [reflexivity|]). apply List.Forall_nil.
      - repeat (apply List.Forall_cons; [auto using clean_string, clean_int|]). apply List.Forall_nil. }
  unfold praas_invoke. cbn [hr_status setStatusCode]. rewrite bool_decide_eq_false_2 by tauto. cbn [orb negb].
  change (200 =? 200)%Z with true. cbn [negb]. cbn [json_object setStatusCode newHttpJsonResponse hr_json mbind outcome_bind].
  rewrite (member_of _ "invocation_id" (jstring id)) by reflexivity. unfold text. cbn [mbind outcome_bind].
  rewrite (member_of _ "return_code" (jint code)) by reflexivity. cbn [mbind outcome_bind].
  rewrite (member_of _ "result" (jstring (String.string_of_list_byte out))) by reflexivity. cbn [mbind outcome_bind].
  rewrite !as_string_string, as_int_int by done. reflexivity.
Qed.

(** what the client makes of the replies to the creation of a process: the
    address and the port, but a refusal looks like a process without an address *)
Lemma process_description_read name ip port :
  ascii_text name -> ascii_text ip -> i32_range port ->
  praas_create_process ReqOk (Some (delivered (process_description name ip port))) = Ret (Some (ip, port)).
Proof.
  intros Hn Hip Hp. unfold process_description, correct_response_value.
  set (c := [("type", jstring "direct"); ("ip-address", jstring ip); ("port", jint port)]).
  assert (clean (jobject c)) as Hc.
  { apply clean_object; cbn [c fmap list_fmap fst snd].
    - apply (bool_decide_unpack _). vm_compute. exact I.
    - repeat (apply List.Forall_cons; [reflexivity|]). apply List.Forall_nil.
    - repeat (apply List.Forall_cons; [auto using clean_string, clean_int|]); [|apply List.Forall_nil]. now apply clean_string. }
  rewrite delivered_json.
  2:{ apply clean_members; cbn [fmap list_fmap fst snd].
      - apply (bool_decide_unpack _). vm_compute. exact I.
      - repeat (apply List.Forall_cons; [reflexivity|]). apply List.Forall_nil.
      - repeat (apply List.Forall_cons; [auto using clean_string|]). apply List.Forall_nil. }
  unfold praas_create_process. rewrite decide_True by done.
  cbn [json_object setStatusCode newHttpJsonResponse hr_json mbind outcome_bind].
  rewrite !(member_of _ "connection" (jobject c)) by reflexivity. cbn [mbind outcome_bind].
  rewrite (member_of c "ip-address" (jstring ip)) by reflexivity. unfold text. cbn [mbind outcome_bind].
  rewrite (member_of c "port" (jint port)) by reflexivity. cbn [mbind outcome_bind].
  now rewrite as_string_string, as_int_int.
Qed.

Lemma refused_process_read reason code :
  ascii_text reason -> praas_create_process ReqOk (Some (delivered (http_failed_response reason code))) = Ret (Some (EmptyString, 0%Z)).
Proof.
  intros Hr. unfold http_failed_response. rewrite delivered_json.
  2:{ apply clean_members; cbn [fmap list_fmap fst snd].
      - apply (bool_decide_unpack _). vm_compute. exact I.
      - repeat (apply List.Forall_cons; [reflexivity|]). apply List.Forall_nil.
      - repeat (apply List.Forall_cons; [auto using clean_string|]). apply List.Forall_nil. }
  unfold praas_create_process. rewrite decide_True by done.
  cbn [json_object setStatusCode newHttpJsonResponse hr_json mbind outcome_bind].
  assert (member "connection" (jobject [("reason", jstring reason)]) = Ret jnull) as -> by (unfold member; now rewrite jget_object).
  cbn [mbind outcome_bind]. unfold member, text. rewrite !jget_null. cbn [json_lift mbind outcome_bind].
  now rewrite as_string_null, as_int_null.
Qed.

(** a request to create a process of an unknown application is never answered:
    the result of [Workers::create_process] is dropped, and the callback with it *)
Lemma unknown_application_unanswered k app name cpus mem w :
  w_apps w !! app = None -> cpus <> EmptyString -> mem <> EmptyString ->
  handle (EvCreateProcess k app name cpus mem) w = (Ret tt, w).
Proof.
  intros Ha Hc Hm. cbn [handle]. unfold http_create_process.
  assert (forall s, s <> EmptyString -> (String.length s =? 0) = false) as Hl by (intros []; done).
  rewrite !Hl by done. cbn [orb]. erewrite M_bind_eq by reflexivity.
  unfold CpApplication.create_process. unfold mbind at 1, M_bind. unfold gets, mbind, M_bind. cbn. now rewrite Ha.
Qed.

(** ** Creating an application *)

(** the state with the application registered *)
Definition with_application (app resource : string) (w : World) : World :=
  set_w_apps (<[app := {| ca_name := app; ca_code_resource_name := resource; ca_active_processes := ∅;
                          ca_swapped_processes := ∅; ca_controlplane_processes := [] |}]> (w_apps w)) w.

(** C35: the client creates an application: its request reaches the handler with the
    name and the resource; an application of a new name is registered, and the
    client is told [true]; a name that is taken changes nothing, and the client
    is told [false].  Exactly one reply is sent. *)
Theorem sdk_creates_application k app resource w :
  segment_ok app -> resource <> EmptyString ->
  exists e w' r, http_event k (create_application_request app resource) = Some e /\ handle e w = (Ret tt, w') /\
    w_responses w' = w_responses w ++ [(k, r)] /\
    praas_create_application ReqOk (Some (delivered (http_reply r))) = Ret (bool_decide (w_apps w !! app = None)) /\
    w_apps w' = w_apps (if decide (w_apps w !! app = None) then with_application app resource w else w).
Proof.
  intros Ha Hr. exists (EvCreateApp k app resource).
  assert (forall s, s <> EmptyString -> (String.length s =? 0) = false) as Hl by (intros []; done).
  assert (handle (EvCreateApp k app resource) w =
    respond k (if decide (w_apps w !! app = None) then RespCorrect "Created" else RespFailed "Failed to create" 500)
      (if decide (w_apps w !! app = None) then with_application app resource w else w)) as E.
  { cbn [handle]. unfold http_create_app, create_application, add_application. rewrite !Hl by (done || apply Ha).
    unfold mbind, M_bind, catching, gets, modify. cbn. destruct (w_apps w !! app) as [a|] eqn:E; cbn.
    - rewrite decide_False by done. reflexivity.
    - rewrite decide_True by done. reflexivity. }
  eexists _, (if decide (w_apps w !! app = None) then RespCorrect "Created" else RespFailed "Failed to create" 500).
  split; [now apply create_application_event|]. split; [rewrite E; reflexivity|].
  destruct (decide (w_apps w !! app = None)) as [Hn|Hn]; (split; [reflexivity|split; [|reflexivity]]).
  - rewrite bool_decide_eq_true_2 by done. reflexivity.
  - rewrite bool_decide_eq_false_2 by done. reflexivity.
Qed.
End gateway.

(** ** The whole way of an invocation *)
Section round_trip.
Context {al : Allocator} {mq : PosixMQ} {laws : PosixMQLaws mq} {er : EqualRange} {ka : KeysArchive} {dl : DynamicLoader}.
Context `{HD : DrogonLaws} {jl : JsonCppLaws H} {uu : UuidGenerator} {st : StdStod} {cf : CpConfig}.
#[local] Existing Instance al | 0.
#[local] Existing Instance mq | 0.
#[local] Existing Instance er | 0.
Variable serialize_state_keys : list (string * Z) -> list byte.

(** A blocking [mq_send] returns 0, a blocking [mq_receive] a message; and what
    was sent arrives in order. *)
Hypothesis mq_send_reliable : forall q m, exists q', mq_send q m = (true, q').
Hypothesis mq_receive_reliable : forall q q', mq_receive q <> (MqError, q').
Hypothesis never_empty : ~ ran_empty.

(** what [PraaS::invoke] returns for a result *)
Definition told (id : string) (code : Z) (out : list byte) : CpInvocationResult :=
  let text := String.string_of_list_byte out in
  if (code <? 0)%Z
  then {| cr_invocation_id := id; cr_return_code := code; cr_response := EmptyString; cr_error_message := text |}
  else {| cr_invocation_id := id; cr_return_code := code; cr_response := text; cr_error_message := EmptyString |}.

(** the bytes [reply] of the process answer the client, whatever happened in
    between, with one reply, out of which it reads the result *)
Definition client_told (t k : nat) (fname id : string) (code : Z) (out reply : list byte) : Prop :=
  forall now w, expects t k fname id w -> exists w' r, cp_receive t now (w, reply) = (Ret tt, (w', [])) /\
    w_responses w' = w_responses w ++ [(k, r)] /\
    (ascii_text (String.string_of_list_byte out) ->
     praas_invoke ReqOk (Some (delivered (http_reply r))) = Ret (told id code out)).

Lemma segment_ascii s : all_chars segment_char s = true -> ascii_text s.
Proof.
  unfold ascii_text. induction s as [|c s IH]; [done|]. cbn [all_chars]. intros [Hc Hs]%andb_prop.
  rewrite IH by done. rewrite andb_true_r. revert Hc. unfold segment_char. set (n := Ascii.N_of_ascii c).
  intros Hc. apply N.ltb_lt. revert Hc. rewrite !orb_true_iff, !andb_true_iff, !N.leb_le, !N.eqb_eq. lia.
Qed.

(** the handler finds a process with spare capacity *)
Lemma invoke_handled body k app fname a p w :
  w_apps w !! app = Some a -> first_spare w (ca_controlplane_processes a) = Ret (Some p) ->
  handle (EvInvoke body k app fname) w = add_invocation p body k fname w.
Proof.
  intros Ha Hs. cbn [handle]. unfold workers_handle_invocation. erewrite M_bind_eq by reflexivity. rewrite Ha.
  unfold get_controlplane_process.
  assert (get_app app w = (Ret a, w)) as E by (unfold get_app; now rewrite Ha). rewrite (M_bind_eq _ _ _ _ _ E).
  erewrite M_bind_eq by reflexivity. rewrite Hs. now erewrite M_bind_eq by reflexivity.
Qed.

(** C1: the whole way of an invocation, from the client library to the function and
    back, through the four programs.  The request of [PraaS::invoke] reaches the
    control plane, which sends it to a process of the application with spare
    capacity; the bytes say one request, which the process takes and serves: the
    round of the controller that finds it hands it to an idle worker; the worker
    calls the function with the id, the name and exactly the body of the client;
    when the function returns a code and an output, the round that finds the
    answer of the worker removes the invocation, frees the worker and sends a
    reply to the control plane; and the reply to the client says the id, the code
    and, if it is text that JSON carries, exactly the bytes of the output. *)
Theorem client_invocation_round_trip app fname body k a p x t d w :
  let id := String.substring 0 16 (uuid_text (w_uuids w)) in
  segment_ok app -> segment_ok fname -> ascii_text id ->
  w_apps w !! app = Some a -> first_spare w (ca_controlplane_processes a) = Ret (Some p) ->
  w_heap w !! p = Some x -> pr_connection x = Some t -> pr_status x = ALLOCATED ->
  w_contexts w !! t = Some d -> cd_process d = p -> cd_bytes_to_read d = 0%Z ->
  fits NAME_LENGTH fname -> fits ID_LENGTH id -> (Z.of_nat (length body) < 2 ^ 31)%Z ->
  Forall (fun j => String.substring 0 16 (pi_invocation_id j) <> id) (pr_invocations x) ->
  exists e w1 request call, http_event k (invoke_request app fname body) = Some e /\ handle e w = (Ret tt, w1) /\
    expects t k fname id w1 /\ sent_to t w1 = sent_to t w ++ request /\
    decode_stream CONTROL_PLANE None request = ([call], [], Ret tt) /\
    takes_and_serves serialize_state_keys (client_told t k fname id) from_controlplane fname id body call.
Proof.
  intros id Happ Hfn Hid Ha Hsp Hx Ht Hst Hd Hp Hz Hf Hfid Hb Hnew.
  destruct (invocation_round_trip serialize_state_keys mq_send_reliable mq_receive_reliable never_empty
    p body k fname t d x w Hx Ht Hst Hd Hp Hz Hf Hfid Hb Hnew) as (request&call&w1&E&Hexp&Hs&Hdec&Hserve). fold id in Hexp, Hserve.
  exists (EvInvoke body k app fname), w1, request, call.
  split; [now apply invoke_event|]. split; [now rewrite (invoke_handled body k app fname a p w Ha Hsp)|].
  do 3 (split; [assumption|]). intros now c Htk.
  destruct (Hserve now c Htk) as (v&worker&worker'&c1&H1&H2&H3&H4&H5&H6&Hv).
  exists v, worker, worker', c1. do 6 (split; [assumption|]).
  revert Hv. apply serves_invocation_weaken. intros code out reply Hc _ Hans now' w2 Hexp2.
  destruct (Hans now' w2 Hexp2) as (w3&E3&Hr). exists w3, (RespResult fname id code out). split; [exact E3|]. split; [exact Hr|].
  intros Hout. unfold told. apply invocation_response_read; auto. apply segment_ascii, Hfn.
Qed.
End round_trip.

(** ** A plain library *)

(** the texts between the slashes of a path *)
Fixpoint path_segments (cur : string) (s : string) : list string :=
  match s with
  | EmptyString => [cur]
  | String c s' => if decide (c = Ascii.ascii_of_nat 47) then cur :: path_segments EmptyString s' else path_segments (cur +:+ String c "") s'
  end.

Fixpoint match_segments (p : list segment) (l : list string) : option (list string) :=
  match p, l with
  | [], [] => Some []
  | Lit s :: p', t :: l' => if decide (s = t) then match_segments p' l' else None
  | Arg :: p', t :: l' => (cons t) <$> match_segments p' l'
  | _, _ => None
  end.

Fixpoint first_route {E} (table : list (http_method * list segment * E)) (m : http_method) (l : list string) :
    option (E * list string) :=
  match table with
  | [] => None
  | (m', p, e) :: table' =>
      match (if decide (m = m') then match_segments p l else None) with
      | Some args => Some (e, args)
      | None => first_route table' m l
      end
  end.

(** the segments of a pattern whose placeholders are these texts *)
Fixpoint filled (p : list segment) (args : list string) : list string :=
  match p, args with
  | Lit s :: p', _ => s :: filled p' args
  | Arg :: p', a :: args' => a :: filled p' args'
  | Arg :: p', [] => EmptyString :: filled p' []
  | [], _ => []
  end.

Lemma string_app_assoc s t u : (s +:+ t) +:+ u = s +:+ t +:+ u.
Proof. induction s as [|c s IH]; [done|]. change (String c ((s +:+ t) +:+ u) = String c (s +:+ t +:+ u)). now rewrite IH. Qed.

Lemma path_segments_text t : forall cur rest, all_chars segment_char t = true ->
  path_segments cur (t +:+ rest) = path_segments (cur +:+ t) rest.
Proof.
  induction t as [|c t IH]; intros cur rest Ht; [now rewrite string_app_nil_r|].
  cbn [all_chars] in Ht. apply andb_prop in Ht as [Hc Ht].
  change (String c t +:+ rest) with (String c (t +:+ rest)). cbn [path_segments]. rewrite decide_False.
  - rewrite IH by done. now rewrite string_app_assoc.
  - intros ->. discriminate Hc.
Qed.

Lemma path_segments_fill p : forall args cur, pattern_ok p -> Forall segment_ok args -> length args = placeholders p ->
  path_segments cur (fill p args) = cur :: filled p args.
Proof.
  induction p as [|s p IH]; intros args cur Hp Ha Hl; [done|].
  apply List.Forall_cons_iff in Hp as [Hs Hp]. unfold placeholders in Hl. rewrite filter_cons in Hl.
  assert (forall t args', all_chars segment_char t = true -> Forall segment_ok args' -> length args' = placeholders p ->
    path_segments cur ("/" +:+ t +:+ fill p args') = cur :: t :: filled p args') as Hstep.
  { intros t args' Ht Ha' Hl'. change ("/" +:+ t +:+ fill p args') with (String (Ascii.ascii_of_nat 47) (t +:+ fill p args')).
    cbn [path_segments]. rewrite decide_True by done. rewrite path_segments_text by done. now rewrite IH. }
  destruct s as [s|].
  - rewrite decide_False in Hl by done. cbn [fill filled]. apply Hstep; auto. apply Hs.
  - rewrite decide_True in Hl by done. destruct args as [|a args]; [discriminate Hl|].
    apply List.Forall_cons_iff in Ha as [[_ Ha1] Ha]. cbn [fill filled]. injection Hl as Hl. now apply Hstep.
Qed.

Lemma match_filled p : forall args, length args = placeholders p -> match_segments p (filled p args) = Some args.
Proof.
  unfold placeholders. induction p as [|[s|] p IH]; intros args Hl; rewrite ?filter_cons in Hl.
  - destruct args; [done|discriminate Hl].
  - rewrite decide_False in Hl by done. cbn [filled match_segments]. rewrite decide_True by done. now apply IH.
  - rewrite decide_True in Hl by done. destruct args as [|a args]; [discriminate Hl|]. injection Hl as Hl.
    cbn [filled match_segments]. now rewrite IH.
Qed.

Lemma match_disjoint p : forall q args, disjoint_patterns p q = true -> match_segments q (filled p args) = None.
Proof.
  induction p as [|s p IH]; intros [|t q] args Hd; cbn in Hd; try discriminate Hd; try (destruct s; discriminate Hd).
  - now destruct t.
  - destruct s, args; reflexivity.
  - destruct s as [s|], t as [t|]; cbn [filled match_segments].
    + apply orb_true_iff in Hd as [Hd|Hd].
      * apply negb_true_iff, String.eqb_neq in Hd. rewrite decide_False by congruence. done.
      * destruct (decide _); [now apply IH|done].
    + now rewrite IH.
    + destruct args as [|a args]; cbn [match_segments]; (destruct (decide _); [now apply IH|done]).
    + destruct args as [|a args]; cbn [match_segments]; now rewrite IH.
Qed.

#[export] Instance plain_drogon : @Drogon plain_json | 10 :=
  {| route _ table m path := first_route table m (drop 1 (path_segments "" path)); carried v := Some v |}.
#[export] Instance plain_drogon_laws : DrogonLaws plain_drogon.
Proof.
  split; [|done]. intros E table i m p e args Hok Hi Hdis Hl Ha. cbn [route plain_drogon].
  rewrite path_segments_fill; auto.
  2:{ pose proof (proj1 (list.Forall_lookup _ _) Hok i _ Hi) as Hp. exact Hp. }
  change (drop 1 ("" :: filled p args)) with (filled p args). clear Hok. revert table Hi Hdis. induction i as [|i IH]; intros [|[[m' p'] e'] table] Hi Hdis; try discriminate Hi.
  - injection Hi as -> -> ->. cbn [first_route]. rewrite decide_True, match_filled by done. done.
  - cbn [first_route].
    assert ((if decide (m = m') then match_segments p' (filled p args) else None) = None) as ->.
    { destruct (decide (m = m')) as [->|]; [|done]. apply match_disjoint. now apply (Hdis 0 p' e'). }
    apply IH; [done|]. intros j q f Hj Hne. apply (Hdis (S j) q f Hj). lia.
Qed.

(** ** A client, a control plane and a process with one worker *)
Section concrete.
#[local] Existing Instance plain_mq | 0.
#[local] Existing Instance plain_laws | 0.
#[local] Existing Instance one_library | 0.
#[local] Existing Instance demo_uuid | 0.
#[local] Existing Instance demo_stod | 0.
#[local] Existing Instance demo_config | 0.

Definition demo_ready : Process :=
  set_status ALLOCATED (set_pr_connection (Some 7) (set_pr_invocations 0 [] demo_starting)).
Definition plane_server : TCPServer :=
  set_ts_control_plane (Some 0) (set_ts_heap {[0 := Connection_make CONNECTED CONTROL_PLANE None (Some 3)]}
    (TCPServer_ctor "P")).
Definition demo_controller : @Controller mq_ipc tcp_server :=
  set_c_server (Some plane_server : option (@server tcp_server)) (Controller_ctor "P" sample_functions plain_workers).
Definition demo_serving_app : CpApplication := set_ca_controlplane [0] demo_app.

Lemma demo_takes id : takes "f" id demo_controller.
Proof.
  split; try reflexivity; [split_and!; reflexivity|eexists; vm_compute; reflexivity|].
  repeat constructor. unfold wide, IPC_BUF_SIZE. cbn. lia.
Qed.

Lemma sdk_creates_application_witness :
  let w := demo_world demo_ready demo_app in
  exists e w' r, http_event 4 (create_application_request "fresh" "image") = Some e /\ handle e w = (Ret tt, w') /\
    w_responses w' = w_responses w ++ [(4, r)] /\
    praas_create_application ReqOk (Some (delivered (http_reply r))) = Ret true.
Proof.
  intros w. destruct (sdk_creates_application 4 "fresh" "image" w ltac:(now split) ltac:(done)) as (e&w'&r&E1&E2&E3&E4&_).
  exists e, w', r. auto.
Defined.

Lemma client_invocation_round_trip_witness :
  let w := demo_world demo_ready demo_serving_app in
  exists e w1 call c1 worker' cx3 q c3 reply w3 r,
    http_event 5 (invoke_request "app" "f" [x01; x02; x03]) = Some e /\ handle e w = (Ret tt, w1) /\
    (run_call call ≫= fun _ => poll_round no_keys 0 (EpollEvents [WakeUp])) demo_controller = (Ret true, c1) /\
    serve_one 1 plain_library (sees worker' (plain_context [])) = (Ret true, cx3) /\
    poll_round no_keys 1 (EpollEvents [WorkerReady 0]) (arrived 0 q c1) = (Ret true, c3) /\
    (exists s s', c_server c1 = Some s /\ c_server c3 = Some s' /\ sent_on 3 s' = sent_on 3 s ++ reply) /\
    cp_receive 7 2 (w1, reply) = (Ret tt, (w3, [])) /\ w_responses w3 = w_responses w1 ++ [(5, r)] /\
    praas_invoke ReqOk (Some (delivered (http_reply r))) = Ret (told "01234567-89ab-cd" 0 [x07]).
Proof.
  intros w.
  assert (fits NAME_LENGTH "f" /\ fits ID_LENGTH (String.substring 0 16 (uuid_text (w_uuids w)))) as [Hf Hid].
  { split; (split; [apply (bool_decide_eq_true_1 _); vm_compute; reflexivity|apply Nat.leb_le; reflexivity]). }
  destruct (client_invocation_round_trip no_keys plain_send_reliable plain_receive_reliable plain_never_empty
    "app" "f" [x01; x02; x03] 5 demo_serving_app 0 demo_ready 7 demo_context w ltac:(now split) ltac:(now split) eq_refl
    eq_refl eq_refl eq_refl eq_refl eq_refl eq_refl eq_refl eq_refl Hf Hid
    ltac:(cbn; lia) (List.Forall_nil _)) as (e&w1&request&call&Ee&E&Hexp&_&_&Hproc).
  destruct (Hproc 0%Z demo_controller (demo_takes _)) as (v&worker&worker'&c1&E1&Hv&_&_&_&Haw&Hwork).
  destruct v as [|v]; [|destruct v; discriminate Hv]. injection Hv as <-.
  set (cx := plain_context []).
  assert (library_function plain_library "f" = Some (fun _ => write_output [x07] 0 ≫= fun _ => mret 0%Z)) as Hl
    by (vm_compute; reflexivity).
  destruct (Hwork plain_library _ 1 cx (plain_waits [] (List.Forall_nil _)) eq_refl Hl ltac:(lia))
    as (inv&cx1&_&_&_&Hw1&Hk1&Hto&Hh&Ho&Hvw&Hans).
  destruct (write_one [] cx1 (proj2 (proj2 (proj2 Hw1))) Hh Ho Hvw) as (cx2&E2&Hi2&Hk2&Hok2&Hs2).
  destruct (Hans 0%Z cx2 [x07]) as (cx3&E3&_&Hret).
  - now rewrite (M_bind_eq _ _ _ _ _ E2).
  - unfold worker_waits. rewrite Hi2. destruct Hw1 as (?&?&?&_). auto.
  - congruence.
  - rewrite Hi2, Hto. reflexivity.
  - unfold i32_range. lia.
  - exact Hs2.
  - unfold i32_range. cbn. lia.
  - assert (awaits from_controlplane 0 (String.substring 0 16 (uuid_text (w_uuids w))) 3 c1) as Ha.
    { apply Haw; [eexists _, 0, _; split_and!; reflexivity|]. constructor; [|constructor]. apply (plain_idle [] (List.Forall_nil _)). }
    destruct (Hret 1%Z 3 c1 (to_controller (cx_invoker cx3)) Ha eq_refl) as (c3&s&s'&reply&E4&Hs&Hs'&_&_&Hsent&Hrep).
    destruct (Hrep 2%Z w1 Hexp) as (w3&r&E5&Hr&Htold).
    exists e, w1, call, c1, worker', cx3, (to_controller (cx_invoker cx3)), c3, reply, w3, r.
    split_and!; auto; [exists s, s'; auto|apply Htold; vm_compute; reflexivity].
Defined.
End concrete.
