(* ===== verification/Creation.v ===== *)
(** * Creation: a process, from the request of the client to its address

    The creation of a process through the client library ([sdk/src/praas.cpp]),
    the control plane ([http.cpp], [worker.cpp], [application.cpp],
    [process.cpp], [tcpserver.cpp], [backend.cpp]) and the local serving
    ([serving/src/server.cpp]).  The reply of the serving and the registration of
    the process come over two connections, in either order. *)

From S2P Require Import Prelude Http Memory Messages CpProcess CpApplication CpServer CpInvariant CpProtocol.
From S2P Require Import Serving Sdk Backend Startup Gateway.
From stdpp Require Import pretty.

(** ** A process that is being created for the client [k]

    [h]: the instance, once the back end has replied; [c]: the connection, once
    the process has registered. *)
Definition creating (k : nat) (name : string) (h : option ProcessInstance) (c : option nat) (x : Process) : Prop :=
  pr_name x = name /\ pr_creation_callback x = Some (CbCreate k) /\ pr_wait_for_allocation x = true /\
  pr_handle x = h /\ pr_connection x = c /\ pr_status x = match c with Some _ => ALLOCATED | None => ALLOCATING end /\
  pr_invocations x = [] /\ pr_active_invocations x = 0%Z.

(** a process that runs *)
Definition running (p : nat) (name : string) (i : ProcessInstance) (t : nat) (w : World) : Prop :=
  exists x, w_heap w !! p = Some x /\ pr_name x = name /\ pr_status x = ALLOCATED /\ pr_handle x = Some i /\
    pr_connection x = Some t /\ pr_creation_callback x = None.

Section creation.
Context `{HD : DrogonLaws} {jl : JsonCppLaws H} {uu : UuidGenerator} {st : StdStod} {cf : CpConfig}.

(** ** The request *)

(** the amounts the control plane accepts *)
Definition acceptable (cpus mem : string) : Prop :=
  exists c m, stod cpus = Some c /\ stod mem = Some m /\
    double_le m 0 = false /\ double_gt m max_memory = false /\ double_le c 0 = false /\ double_gt c max_vcpus = false.

(** the request to the back end *)
Definition allocation (p : nat) (a : CpApplication) : alloc_request :=
  {| al_process := p; al_controlplane := false; al_container := ca_code_resource_name a; al_address := cfg_tcp_address |}.

Lemma http_create_process_run k app name cpus mem a w :
  w_apps w !! app = Some a -> ca_active_processes a !! name = None -> name <> EmptyString ->
  cpus <> EmptyString -> mem <> EmptyString -> acceptable cpus mem ->
  exists p x w', http_create_process k app name cpus mem w = (Ret tt, w') /\
    w_heap w !! p = None /\ w_heap w' = <[p := x]> (w_heap w) /\ creating k name None None x /\ pr_application x = app /\
    w_apps w' = <[app := set_ca_active (<[name := p]> (ca_active_processes a)) a]> (w_apps w) /\
    w_posts w' = w_posts w ++ [allocation p a] /\ w_loop w' = w_loop w ++ [p] /\
    w_responses w' = w_responses w /\ w_pending_processes w' = w_pending_processes w /\ w_contexts w' = w_contexts w.
Proof.
  intros Ha Hact Hn Hc Hm (c&m&Ec&Em&M1&M2&C1&C2).
  assert (forall s, s <> EmptyString -> (String.length s =? 0) = false) as Hl by (intros []; done).
  set (x0 := Process_ctor name app {| vcpus := cpus; memory := mem; sandbox_id := EmptyString |}).
  set (p := base.fresh (dom (w_heap w) : gset nat)).
  assert (w_heap w !! p = None) as Hp by (apply not_elem_of_dom, is_fresh).
  set (a' := set_ca_active (<[name := p]> (ca_active_processes a)) a).
  assert (add_process app name {| vcpus := cpus; memory := mem; sandbox_id := EmptyString |} (CbCreate k) true w =
    (Ret tt, set_w_posts (w_posts w ++ [allocation p a]) (set_w_heap (<[p := set_pr_callback (Some (CbCreate k)) true x0]> (w_heap w))
      (set_w_loop (w_loop w ++ [p]) (set_w_apps (<[app := a']> (w_apps w)) w))))) as E.
  { unfold add_process. rewrite Hl by done. cbn [memory vcpus]. unfold lift_stod. rewrite Em.
    erewrite M_bind_eq by reflexivity. rewrite M1, M2. cbn [orb]. rewrite Ec. erewrite M_bind_eq by reflexivity. rewrite C1, C2. cbn [orb].
    rewrite (M_bind_eq (new_process x0) _ w p (set_w_heap (<[p := x0]> (w_heap w)) w) eq_refl).
    set (w1 := set_w_heap (<[p := x0]> (w_heap w)) w).
    rewrite (M_bind_eq _ _ _ _ _ (get_app_some w1 app a Ha)). rewrite Hact.
    unfold update_app. erewrite M_bind_eq by reflexivity. erewrite M_bind_eq by reflexivity.
    match goal with |- context [(update_process p _ ≫= _) ?w0] => set (w2 := w0) end.
    assert (w_heap w2 !! p = Some x0) as Hx by (cbn; apply lookup_insert_eq).
    rewrite (M_bind_eq _ _ _ _ _ (update_process_at w2 p x0 _ Hx)).
    match goal with |- context [allocate_process p false ?w0] => set (w3 := w0) end.
    unfold allocate_process.
    assert (w_heap w3 !! p = Some (set_pr_callback (Some (CbCreate k)) true x0)) as Hx3 by (cbn; apply lookup_insert_eq).
    rewrite (M_bind_eq _ _ _ _ _ (deref_some _ _ _ Hx3)).
    assert (alter (set_ca_active (<[name := p]> (ca_active_processes a))) app (w_apps w) = <[app := a']> (w_apps w)) as Hap.
    { apply map_eq. intros b. destruct (decide (b = app)) as [->|].
      - now rewrite lookup_alter_eq, lookup_insert_eq, Ha.
      - now rewrite lookup_alter_ne, lookup_insert_ne. }
    assert (w_apps w3 !! app = Some a') as Ha3 by (cbn; rewrite Hap; apply lookup_insert_eq).
    rewrite (M_bind_eq _ _ _ _ _ (get_app_some w3 app a' Ha3)). unfold modify, w3, w2, w1. cbn -[p x0]. now rewrite Hap, insert_insert_eq. }
  eexists p, _, _. split; [|split; [exact Hp|]].
  { unfold http_create_process. rewrite !Hl by done. cbn [orb]. erewrite M_bind_eq by reflexivity.
    unfold CpApplication.create_process. erewrite M_bind_eq; [reflexivity|]. erewrite M_bind_eq by reflexivity. rewrite Ha.
    rewrite (M_bind_eq _ _ _ _ _ E). reflexivity. }
  cbn. split_and!; try reflexivity. split_and!; reflexivity.
Qed.

(** the event loop gets to the new process *)
Lemma loop_task_adds p x rest w :
  w_loop w = p :: rest -> w_heap w !! p = Some x -> w_pending_processes w !! pr_name x = None ->
  loop_task w = (Ret tt, set_w_pending_processes (<[pr_name x := p]> (w_pending_processes w)) (set_w_loop rest w)).
Proof.
  intros Hl Hx Hp. unfold loop_task. erewrite M_bind_eq by reflexivity. rewrite Hl. erewrite M_bind_eq by reflexivity.
  erewrite M_bind_eq by (apply deref_some; exact Hx). erewrite M_bind_eq by reflexivity. cbn. now rewrite Hp.
Qed.

(** ** The reply of the back end, and the registration *)

(** the callback of a process with an instance *)
Lemma created_run k (p : nat) name i c x w :
  w_heap w !! p = Some x -> creating k name (Some i) c x ->
  match c with
  | None => created_callback p None w = (Ret tt, w)
  | Some t => exists w', created_callback p None w = (Ret tt, w') /\ running p name i t w' /\
      w_responses w' = w_responses w ++ [(k, RespProcess name (in_ip_address i) (in_port i))] /\ w_apps w' = w_apps w
  end.
Proof.
  intros Hx (Hn&Hcb&Hw&Hh&Hc&Hs&Hi&Ha). unfold created_callback.
  destruct c as [t|].
  - eexists. split; [|split; [|split]].
    + rewrite (M_bind_eq _ _ _ _ _ (deref_some _ _ _ Hx)), Hcb, Hh, Hw, Hs. cbn [bool_decide decide negb andb].
      rewrite bool_decide_eq_true_2 by done. cbn [negb andb].
      erewrite M_bind_eq; [|unfold run_callback; rewrite (M_bind_eq _ _ _ _ _ (deref_some _ _ _ Hx)), Hh, Hn; reflexivity].
      unfold clear_callback. rewrite (update_process_at _ p x); [reflexivity|exact Hx].
    + eexists. cbn. rewrite lookup_insert_eq. split; [reflexivity|]. now cbn.
    + reflexivity.
    + reflexivity.
  - rewrite (M_bind_eq _ _ _ _ _ (deref_some _ _ _ Hx)), Hcb, Hh, Hw, Hs. now rewrite bool_decide_eq_false_2.
Qed.

Definition instance_of (id ip : string) (port : Z) : ProcessInstance :=
  {| in_ip_address := ip; in_port := port; in_container_id := id |}.

Lemma post_completed_creating k p name id ip port c x a j w :
  w_heap w !! p = Some x -> creating k name None c x -> w_posts w !! j = Some (allocation p a) ->
  exists w', post_completed j (ReplyCreated id ip port) w = (Ret tt, w') /\ w_apps w' = w_apps w /\
    match c with
    | None => exists x', w_heap w' !! p = Some x' /\ creating k name (Some (instance_of id ip port)) None x' /\
        w_responses w' = w_responses w /\ w_pending_processes w' = w_pending_processes w /\ w_contexts w' = w_contexts w
    | Some t => running p name (instance_of id ip port) t w' /\
        w_responses w' = w_responses w ++ [(k, RespProcess name ip port)]
    end.
Proof.
  intros Hx Hc Hj. unfold post_completed. erewrite M_bind_eq by reflexivity. rewrite Hj. erewrite M_bind_eq by reflexivity.
  set (w1 := set_w_posts _ w). unfold post_callback. cbn [allocation al_process al_controlplane].
  assert (w_heap w1 !! p = Some x) as Hx1 by exact Hx.
  rewrite (M_bind_eq _ _ _ _ _ (deref_some _ _ _ Hx1)). cbn [docker_result].
  rewrite (M_bind_eq _ _ _ _ _ (update_process_at w1 p x _ Hx1)). set (w2 := set_w_heap _ w1).
  set (x2 := set_pr_handle (Some (instance_of id ip port)) x).
  assert (w_heap w2 !! p = Some x2) as Hx2 by (cbn; apply lookup_insert_eq).
  assert (creating k name (Some (instance_of id ip port)) c x2) as Hc2.
  { destruct Hc as (?&?&?&?&?&?&?&?). now split_and!. }
  pose proof (created_run k p name _ c x2 w2 Hx2 Hc2) as Hr. destruct c as [t|].
  - destruct Hr as (w3&E&Hrun&Hresp&Happs). exists w3. rewrite (M_bind_eq _ _ _ _ _ E). split; [reflexivity|].
    split; [exact Happs|]. split; [exact Hrun|exact Hresp].
  - exists w2. rewrite (M_bind_eq _ _ _ _ _ Hr). split; [reflexivity|]. split; [reflexivity|]. now exists x2.
Qed.

Lemma registration_creating k p name i x t m now reg w :
  w_heap w !! p = Some x -> creating k name i None x -> w_pending_processes w !! name = Some p -> w_contexts w !! t = None ->
  length reg = BUF_SIZE -> parse reg = Ret (VProcessConnection m) -> sv_str (process_name m) = name ->
  exists w', cp_receive t now (w, reg) = (Ret tt, (w', [])) /\ w_apps w' = w_apps w /\
    match i with
    | None => exists x', w_heap w' !! p = Some x' /\ creating k name None (Some t) x' /\
        w_responses w' = w_responses w /\ w_posts w' = w_posts w
    | Some i => running p name i t w' /\
        w_responses w' = w_responses w ++ [(k, RespProcess name (in_ip_address i) (in_port i))]
    end.
Proof.
  intros Hx Hc Hp Ht Hl Hm Hn.
  set (x1 := set_status ALLOCATED (set_pr_connection (Some t) x)).
  assert (creating k name i (Some t) x1) as Hc1 by (destruct Hc as (?&?&?&?&?&?&?&?); now split_and!).
  set (w1 := set_w_processes (insert_node name t (w_processes w)) (set_w_contexts (<[t := {| cd_process := p;
    cd_cur_msg := MessageData; cd_bytes_to_read := 0 |}]> (w_contexts w))
    (set_w_pending_processes (delete name (w_pending_processes w)) w))).
  set (w2 := set_w_heap (<[p := x1]> (w_heap w1)) w1).
  assert (w_heap w2 !! p = Some x1) as Hx2 by (cbn; apply lookup_insert_eq).
  assert (forall w3, created_callback p None w2 = (Ret tt, w3) ->
    cp_receive t now (w, reg) = (Ret tt, (set_w_counters (w_num_connected w3) (w_num_registered w3 + 1) w3, []))) as Hrun.
  { intros w3 E. apply (cp_receive_registration t now w reg m); auto. unfold cp_handle_connection.
    erewrite M_bind_eq by reflexivity. rewrite Hn, Hp. erewrite M_bind_eq by reflexivity. erewrite M_bind_eq by reflexivity.
    erewrite M_bind_eq by (apply deref_some; exact Hx). destruct Hc as (->&_&_&_&_&Hs&_).
    erewrite M_bind_eq by reflexivity. fold w1. unfold process_connect.
    assert (w_heap w1 !! p = Some x) as Hx1 by exact Hx.
    erewrite M_bind_eq; [reflexivity|]. rewrite (M_bind_eq _ _ _ _ _ (deref_some _ _ _ Hx1)), decide_True by done.
    rewrite (M_bind_eq _ _ _ _ _ (update_process_at w1 p x _ Hx1)). fold x1 w2.
    erewrite M_bind_eq; [exact E|]. unfold send_invocations. rewrite (M_bind_eq _ _ _ _ _ (deref_some _ _ _ Hx2)).
    destruct Hc1 as (_&_&_&_&_&_&->&_). reflexivity. }
  destruct i as [i|].
  - destruct (created_run k p name i (Some t) x1 w2 Hx2 Hc1) as (w3&E&Hr&Hresp&Happs).
    eexists. split; [apply Hrun; exact E|]. split; [exact Happs|]. split; [exact Hr|exact Hresp].
  - eexists. split; [apply (Hrun w2)|].
    + unfold created_callback. rewrite (M_bind_eq _ _ _ _ _ (deref_some _ _ _ Hx2)).
      destruct Hc1 as (_&Hcb&_&Hh&_). now rewrite Hcb, Hh.
    + split; [reflexivity|]. now exists x1.
Qed.
End creation.

(** ** Numbers in a request *)
Lemma pretty_N_go_length x s : String.length s <= String.length (pretty_N_go x s).
Proof.
  revert s. induction (N.lt_wf_0 x) as [x _ IH]; intros s.
  assert (x = 0 \/ 0 < x)%N as [->|Hx] by lia; [done|]. rewrite pretty_N_go_step by done.
  etrans; [|apply IH, N.div_lt; lia]. cbn. lia.
Qed.

Lemma pretty_not_empty (z : Z) : pretty z <> EmptyString.
Proof.
  destruct z as [|x|x]; [done| |done]. unfold pretty, pretty_Z, pretty, pretty_positive, pretty, pretty_N.
  rewrite decide_False by done. rewrite pretty_N_go_step by done. intros E. apply (f_equal String.length) in E.
  pose proof (pretty_N_go_length (N.pos x `div` 10) (String (pretty_N_char (N.pos x `mod` 10)) "")) as Hl. rewrite E in Hl. cbn in Hl. lia.
Qed.

Section round_trip.
Context `{HD : DrogonLaws} {jl : JsonCppLaws H} {uu : UuidGenerator} {st : StdStod} {cf : CpConfig}.

(** what the serving answers is what the back end reads *)
Lemma answer_delivered o name id port :
  ascii_text name -> ascii_text id -> ascii_text (so_server_ip o) -> (0 <= port < 2 ^ 31)%Z ->
  docker_read_reply ReqOk (Some (delivered (created_answer o name id port))) = Ret (ReplyCreated id (so_server_ip o) port).
Proof.
  intros Hn Hi Hs Hp. unfold created_answer, correct_response_value. rewrite delivered_json.
  - now apply (docker_reads_answer o name id port).
  - apply clean_members; cbn [fmap list_fmap fst snd].
    + apply (bool_decide_unpack _). vm_compute. exact I.
    + repeat (apply List.Forall_cons; [reflexivity|]). apply List.Forall_nil.
    + repeat (apply List.Forall_cons; [first [apply clean_int; unfold i32_range; lia|apply clean_string; repeat first [assumption|reflexivity|apply ascii_text_app]]|]).
      apply List.Forall_nil.
Qed.

(** the client has been told where its process is, and only it *)
Definition client_has (k p : nat) (app name ip : string) (port : Z) (t : nat) (id : string) (w w' : World) : Prop :=
  running p name (instance_of id ip port) t w' /\
  (exists a, w_apps w' !! app = Some a /\ ca_active_processes a !! name = Some p) /\
  exists r, w_responses w' = w_responses w ++ [(k, r)] /\
    praas_create_process ReqOk (Some (delivered (http_reply r))) = Ret (Some (ip, port)).

(** the request of the client, and the task of the event loop *)
Lemma creation_asked k app name (cpus mem : Z) a w :
  segment_ok name -> acceptable (pretty cpus) (pretty mem) ->
  w_apps w !! app = Some a -> ca_active_processes a !! name = None -> w_loop w = [] -> w_pending_processes w !! name = None ->
  exists p x w2,
    (handle (EvCreateProcess k app name (pretty cpus) (pretty mem)) ≫= fun _ => handle EvLoopTask) w = (Ret tt, w2) /\
    w_heap w2 !! p = Some x /\ creating k name None None x /\ w_posts w2 = w_posts w ++ [allocation p a] /\
    w_pending_processes w2 !! name = Some p /\ w_responses w2 = w_responses w /\ w_contexts w2 = w_contexts w /\
    exists a', w_apps w2 !! app = Some a' /\ ca_active_processes a' !! name = Some p.
Proof.
  intros Hname Hacc Ha Hact Hl0 Hpend.
  destruct (http_create_process_run k app name (pretty cpus) (pretty mem) a w Ha Hact (proj1 Hname)
    (pretty_not_empty _) (pretty_not_empty _) Hacc) as (p&x&w1&E1&Hp&Hh1&Hc1&Hxa&Happs1&Hpo1&Hl1&Hr1&Hpe1&Hct1).
  rewrite Hl0 in Hl1. rewrite app_nil_l in Hl1. assert (w_heap w1 !! p = Some x) as Hx1 by (rewrite Hh1; apply lookup_insert_eq).
  assert (pr_name x = name) as Hxn by apply Hc1.
  pose proof (loop_task_adds p x [] w1 Hl1 Hx1 ltac:(now rewrite Hxn, Hpe1)) as E2. rewrite Hxn in E2.
  eexists p, x, _. split; [cbn [handle]; rewrite (M_bind_eq _ _ _ _ _ E1); exact E2|]. split; [exact Hx1|]. split; [exact Hc1|].
  split; [exact Hpo1|]. split; [cbn; apply lookup_insert_eq|]. split; [exact Hr1|]. split; [exact Hct1|].
  eexists. cbn. rewrite Happs1, lookup_insert_eq. split; [reflexivity|]. cbn. apply lookup_insert_eq.
Qed.

(** C5: the creation of a process.  The request of [PraaS::create_process] reaches
    the control plane, which registers the process as active, asks its back end
    for a container with the image of the application and its own address, and
    waits for the process to connect; nobody is answered yet.  The serving has the
    container created, started and inspected and answers once, and the back end
    reads the id, the address and the port.  The reply of the serving and the
    registration of the process may come in either order: after the first of them
    nobody is answered, and after the second the client is, once, and what it reads
    is the address of the serving and the port the daemon chose, of a process that
    is then connected and can be invoked. *)
Theorem process_creation_round_trip k app name cpus mem a w kk sv r1 r2 r3 id port t m reg now :
  segment_ok app -> segment_ok name -> acceptable (pretty cpus) (pretty mem) ->
  w_apps w !! app = Some a -> ca_active_processes a !! name = None -> w_loop w = [] ->
  w_pending_processes w !! name = None -> w_contexts w !! t = None ->
  sv_processes sv !! name = None -> (Z.of_N port < 2 ^ 31)%Z -> ascii_text id -> ascii_text (so_server_ip (sv_opts sv)) ->
  hr_status r1 = 201%Z -> hr_json r1 = Some (jobject [("Id", jstring id)]) -> hr_status r2 = 204%Z ->
  hr_status r3 = 200%Z -> hr_json r3 = Some (inspection (sv_opts sv) (pretty port)) ->
  length reg = BUF_SIZE -> parse reg = Ret (VProcessConnection m) -> sv_str (process_name m) = name ->
  exists e p w2 answer sv2,
    http_event k (create_process_request app name cpus mem) = Some e /\
    (handle e ≫= fun _ => handle EvLoopTask) w = (Ret tt, w2) /\
    w_posts w2 = w_posts w ++ [allocation p a] /\ w_responses w2 = w_responses w /\
    (create name (Some (create_body (al_container (allocation p a)) (al_address (allocation p a)))) kk ≫= fun _ =>
      for_each (docker_replied (length (sv_pending sv))) [Some r1; Some r2; Some r3]) sv = (Ret tt, sv2) /\
    sv_responses sv2 = sv_responses sv ++ [(kk, answer)] /\
    exists reply, docker_read_reply ReqOk (Some (delivered answer)) = Ret reply /\
      let has := client_has k p app name (so_server_ip (sv_opts sv)) (Z.of_N port) t id w in
      (exists w3 w4, handle (EvPostCompleted (length (w_posts w)) reply) w2 = (Ret tt, w3) /\ w_responses w3 = w_responses w /\
        cp_receive t now (w3, reg) = (Ret tt, (w4, [])) /\ has w4) /\
      (exists w3 w4, cp_receive t now (w2, reg) = (Ret tt, (w3, [])) /\ w_responses w3 = w_responses w /\
        handle (EvPostCompleted (length (w_posts w)) reply) w3 = (Ret tt, w4) /\ has w4).
Proof.
  intros Happ Hname Hacc Ha Hact Hl0 Hpend Ht Hsv Hport Hid Hip S1 J1 S2 S3 J3 Hreg Hm Hn.
  destruct (creation_asked k app name cpus mem a w Hname Hacc Ha Hact Hl0 Hpend)
    as (p&x&w2&E2&Hx2&Hc1&Hpo2&Hpe2&Hr2&Hct2&Hactive).
  assert (w_posts w2 !! length (w_posts w) = Some (allocation p a)) as Hj
    by (rewrite Hpo2, lookup_app_r, Nat.sub_diag by lia; reflexivity).
  exists (EvCreateProcess k app name (pretty cpus) (pretty mem)), p, w2,
    (created_answer (sv_opts sv) name id (Z.of_N port)). eexists.
  split; [now apply create_process_event|]. split; [exact E2|]. split; [exact Hpo2|]. split; [exact Hr2|].
  split; [apply (create_container_flow name _ _ kk id port r1 r2 r3 sv); [apply Hname|assumption..]|]. split; [reflexivity|].
  exists (ReplyCreated id (so_server_ip (sv_opts sv)) (Z.of_N port)).
  split; [apply answer_delivered; auto using segment_ascii; [apply segment_ascii, Hname|lia]|].
  assert (ascii_text name) as Hna by apply segment_ascii, Hname.
  assert (forall w4 r, w_apps w4 = w_apps w2 -> w_responses w4 = w_responses w ++ [(k, r)] ->
    r = RespProcess name (so_server_ip (sv_opts sv)) (Z.of_N port) ->
    running p name (instance_of id (so_server_ip (sv_opts sv)) (Z.of_N port)) t w4 ->
    client_has k p app name (so_server_ip (sv_opts sv)) (Z.of_N port) t id w w4) as Hhas.
  { intros w4 r H4 Hr -> Hrun. split; [exact Hrun|]. split; [now rewrite H4|]. eexists. split; [exact Hr|].
    apply process_description_read; auto. unfold i32_range; lia. }
  split.
  - destruct (post_completed_creating k p name id (so_server_ip (sv_opts sv)) (Z.of_N port) None x a _ w2 Hx2 Hc1 Hj)
      as (w3&E3&H3&x3&Hx3&Hc3&Hr3&Hp3&Hct3).
    destruct (registration_creating k p name _ x3 t m now reg w3 Hx3 Hc3) as (w4&E4&H4&Hrun&Hr4); auto.
    { now rewrite Hp3. }
    { now rewrite Hct3, Hct2. }
    exists w3, w4. split; [exact E3|]. split; [now rewrite Hr3, Hr2|]. split; [exact E4|].
    eapply Hhas; [now rewrite H4, H3|rewrite Hr4, Hr3, Hr2; reflexivity|reflexivity|exact Hrun].
  - destruct (registration_creating k p name None x t m now reg w2 Hx2 Hc1) as (w3&E3&H3&x3&Hx3&Hc3&Hr3&Hp3); auto.
    { now rewrite Hct2. }
    destruct (post_completed_creating k p name id (so_server_ip (sv_opts sv)) (Z.of_N port) (Some t) x3 a (length (w_posts w)) w3 Hx3 Hc3)
      as (w4&E4&H4&Hrun&Hr4); [now rewrite Hp3|].
    exists w3, w4. split; [exact E3|]. split; [now rewrite Hr3, Hr2|]. split; [exact E4|].
    eapply Hhas; [now rewrite H4, H3|rewrite Hr4, Hr3, Hr2; reflexivity|reflexivity|exact Hrun].
Qed.
End round_trip.

(** ** Witness: an empty application, one vCPU and 512 MB *)
Section concrete.
#[local] Existing Instance demo_uuid | 0.
#[local] Existing Instance demo_stod | 0.
#[local] Existing Instance demo_config | 0.

Definition empty_plane : World :=
  set_w_apps {["app" := demo_app]} World_init.

Lemma process_creation_round_trip_witness :
  let sv := Serving_ctor plain_options in
  exists e p w2 answer sv2 reply reg w3 w4 r, http_event 4 (create_process_request "app" "proc" 1 512) = Some e /\
    (handle e ≫= fun _ => handle EvLoopTask) empty_plane = (Ret tt, w2) /\ w_responses w2 = [] /\
    sv_responses sv2 = [(9, answer)] /\ docker_read_reply ReqOk (Some (delivered answer)) = Ret reply /\
    cp_receive 7 0 (w2, reg) = (Ret tt, (w3, [])) /\ w_responses w3 = [] /\
    handle (EvPostCompleted 0 reply) w3 = (Ret tt, w4) /\ running p "proc" (instance_of "c1" "10.0.0.1" 32768) 7 w4 /\
    w_responses w4 = [(4, r)] /\ praas_create_process ReqOk (Some (delivered (http_reply r))) = Ret (Some ("10.0.0.1", 32768%Z)).
Proof.
  intros sv.
  destruct (ProcessConnection_parse (sv_of_string "proc")) as (reg & Er & Hl & m & Hm & Hn).
  { apply cview_fits. split; [apply (bool_decide_unpack _); vm_compute; exact I|apply Nat.leb_le; reflexivity]. }
  rewrite sv_str_of_string in Hn.
  destruct (process_creation_round_trip 4 "app" "proc" 1 512 demo_app empty_plane 9 sv
    (setStatusCode 201 (newHttpJsonResponse (jobject [("Id", jstring "c1")]))) (setStatusCode 204 (newHttpJsonResponse jnull))
    (newHttpJsonResponse (inspection plain_options (pretty 32768%N))) "c1" 32768 7 m (bytes reg) 0)
    as (e&p&w2&answer&sv2&E1&E2&_&R2&_&Rs&reply&Hd&_&w3&w4&E3&R3&E4&Hrun&_&r&R4&Htold); try done.
  - eexists _, _. split_and!; vm_compute; reflexivity.
  - exists e, p, w2, answer, sv2, reply, (bytes reg), w3, w4, r. split_and!; auto.
Defined.
End concrete.
