(* ===== verification/LegacyServing.v ===== *)
(** * LegacyServing: the two servers of serving/docker

    [serving/docker/local-worker/server.cpp] and
    [serving/docker/praas-serving/server.cpp] with [subprocess.cpp]: servers over
    plain sockets that allocate processes into a fixed number of slots.  The
    build does not compile them.  The request ([ProcessRequest]) and the process
    ([praas::process::Process]) are declared in headers that the repository does
    not have: the length and the accessors of a request are a class, and whether
    [Process::create] fills its slot is part of the event. *)

From S2P Require Import Prelude Startup Launch Lifecycle.
From stdpp Require Import pretty.
From Stdlib Require Import Init.Byte.

(** [praas::common::ProcessRequest] *)
Class ProcessRequests : Type := {
  EXPECTED_LENGTH : Z;
  req_process_id : list byte -> string; req_ip_address : list byte -> string;
  req_port : list byte -> Z; req_max_sessions : list byte -> Z;
}.

Section local_worker.
Context `{ProcessRequests}.
Variable lprocess : Type.

(** a connection: its number, what [read] returned and read, and what
    [Process::create] leaves in the slot *)
Record LocalConn : Type := MkLocalConn { lc_conn : nat; lc_n : Z; lc_data : list byte; lc_created : option lprocess }.

(** [_threads[i]]: null, a thread, or one that was joined *)
Inductive local_thread : Type := NoThread | Started | JoinedThread.
#[local] Instance local_thread_eq_dec : EqDecision local_thread.
Proof. solve_decision. Defined.

(** [Server]; [ls_replies]: the code written to a connection; [ls_told]: the slots
    whose process was told to end *)
Record LocalServer : Type := MkLocalServer {
  ls_processes : list (option lprocess); ls_threads : list local_thread; ls_ending : bool;
  ls_replies : list (nat * Z); ls_closed : list nat; ls_told : list nat;
}.
Definition LocalServer_ctor (processes : nat) : LocalServer :=
  {| ls_processes := replicate processes None; ls_threads := replicate processes NoThread; ls_ending := false;
     ls_replies := []; ls_closed := []; ls_told := [] |}.
Definition set_ls_slots (ps : list (option lprocess)) (ts : list local_thread) (s : LocalServer) : LocalServer :=
  {| ls_processes := ps; ls_threads := ts; ls_ending := ls_ending s; ls_replies := ls_replies s;
     ls_closed := ls_closed s; ls_told := ls_told s |}.

Definition conn_write (c : nat) (ret : Z) : M LocalServer unit :=
  modify (fun s => {| ls_processes := ls_processes s; ls_threads := ls_threads s; ls_ending := ls_ending s;
    ls_replies := ls_replies s ++ [(c, ret)]; ls_closed := ls_closed s; ls_told := ls_told s |}).
Definition conn_close (c : nat) : M LocalServer unit :=
  modify (fun s => {| ls_processes := ls_processes s; ls_threads := ls_threads s; ls_ending := ls_ending s;
    ls_replies := ls_replies s; ls_closed := ls_closed s ++ [c]; ls_told := ls_told s |}).

(** the first slot without a process *)
Fixpoint free_process (ps : list (option lprocess)) : option nat := match ps with
  | [] => None
  | None :: _ => Some 0
  | Some _ :: ps' => S <$> free_process ps'
  end.

(** [Process::create( *free_process, ...)], and the start of its thread *)
Definition local_create (pos : nat) (created : option lprocess) : M LocalServer unit :=
  modify (fun s => set_ls_slots (<[pos := created]> (ls_processes s)) (ls_threads s) s).
Definition local_start_thread (pos : nat) : M LocalServer unit :=
  modify (fun s => set_ls_slots (ls_processes s) (<[pos := Started]> (ls_threads s)) s).

(** the body of the loop of [start()] after [accept] *)
Definition local_serve (c : LocalConn) : M LocalServer unit :=
  if (lc_n c =? 0)%Z then conn_close (lc_conn c)
  else if negb (lc_n c =? EXPECTED_LENGTH)%Z then conn_write (lc_conn c) 2 ≫= fun _ => conn_close (lc_conn c)
  else
    ps ← gets ls_processes;
    ret ← match free_process ps with
      | None => mret 1%Z
      | Some pos =>
          local_create pos (lc_created c) ≫= fun _ =>
          match lc_created c with
          | Some _ => local_start_thread pos ≫= fun _ => mret 0%Z
          | None => mret 2%Z
          end
      end;
    conn_write (lc_conn c) ret ≫= fun _ => conn_close (lc_conn c).

(** [start()] for the connections it accepts; [shutdown] makes the next [accept]
    its last *)
Fixpoint local_start (conns : list LocalConn) : M LocalServer unit :=
  match conns with
  | [] => mret tt
  | c :: conns' =>
      ending ← gets ls_ending;
      if (ending : bool) then mret tt else local_serve c ≫= fun _ => local_start conns'
  end.

(** one slot in [shutdown()]: [_processes[i]->shutdown()], [_threads[i]->join()] *)
Definition local_stop (i : nat) : M LocalServer unit := fun s =>
  match ls_processes s !! i, ls_threads s !! i with
  | Some (Some _), Some Started =>
      (Ret tt, {| ls_processes := ls_processes s; ls_threads := <[i := JoinedThread]> (ls_threads s); ls_ending := ls_ending s;
                  ls_replies := ls_replies s; ls_closed := ls_closed s; ls_told := ls_told s ++ [i] |})
  | Some (Some _), Some JoinedThread => (Throw (StdException "std::system_error"), s)
  | Some (Some _), _ => (Undef, s)
  | _, _ => (Ret tt, s)
  end.
Definition local_shutdown : M LocalServer unit :=
  modify (fun s => {| ls_processes := ls_processes s; ls_threads := ls_threads s; ls_ending := true;
    ls_replies := ls_replies s; ls_closed := ls_closed s; ls_told := ls_told s |}) ≫= fun _ =>
  ps ← gets ls_processes;
  for_each local_stop (seq 0 (length ps)).

(** [~Server]: deleting a thread that was not joined ends the program *)
Definition local_dtor : M LocalServer unit :=
  ts ← gets ls_threads;
  if bool_decide (Started ∈ ts) then throw abort_failure else mret tt.
End local_worker.

(** ** The slots *)
Section slots.
Context `{ProcessRequests}.
Variable lprocess : Type.
Abbreviation LocalServer := (LocalServer lprocess).
Abbreviation LocalConn := (LocalConn lprocess).

(** the codes a server with [free] slots writes *)
Fixpoint local_replies (free : nat) (conns : list LocalConn) : list (nat * Z) :=
  match conns with
  | [] => []
  | c :: cs =>
      if (lc_n _ c =? 0)%Z then local_replies free cs
      else if negb (lc_n _ c =? EXPECTED_LENGTH)%Z then (lc_conn _ c, 2%Z) :: local_replies free cs
      else match free, lc_created _ c with
      | O, _ => (lc_conn _ c, 1%Z) :: local_replies free cs
      | S free', Some _ => (lc_conn _ c, 0%Z) :: local_replies free' cs
      | S _, None => (lc_conn _ c, 2%Z) :: local_replies free cs
      end
  end.
(** the processes it starts, in order *)
Fixpoint local_started (free : nat) (conns : list LocalConn) : list lprocess :=
  match conns with
  | [] => []
  | c :: cs =>
      if (lc_n _ c =? EXPECTED_LENGTH)%Z && negb (lc_n _ c =? 0)%Z then
        match free, lc_created _ c with
        | S free', Some p => p :: local_started free' cs
        | _, _ => local_started free cs
        end
      else local_started free cs
  end.

(** a server with [free] slots left *)
Definition slots (ps : list lprocess) (free : nat) (ts : local_thread) (ending : bool) (replies : list (nat * Z))
    (closed told : list nat) : LocalServer :=
  {| ls_processes := (Some <$> ps) ++ replicate free None; ls_threads := replicate (length ps) ts ++ replicate free NoThread;
     ls_ending := ending; ls_replies := replies; ls_closed := closed; ls_told := told |}.

Lemma free_process_slots (ps : list lprocess) free :
  free_process lprocess ((Some <$> ps) ++ replicate free None) = match free with O => None | S _ => Some (length ps) end.
Proof. induction ps as [|p ps IH]; cbn; [now destruct free|]. rewrite IH. now destruct free. Qed.

Lemma insert_slot {A} (l : list A) x y r : <[length l := x]> (l ++ y :: r) = (l ++ [x]) ++ r.
Proof. rewrite insert_app_r_alt, Nat.sub_diag by lia. cbn. now rewrite <-app_assoc. Qed.

Lemma local_start_run conns : forall ps free replies closed,
  local_start lprocess conns (slots ps free Started false replies closed []) =
    (Ret tt, slots (ps ++ local_started free conns) (free - length (local_started free conns)) Started false
      (replies ++ local_replies free conns) (closed ++ (lc_conn _ <$> conns)) []).
Proof.
  induction conns as [|c cs IH]; intros ps free replies closed.
  { cbn. now rewrite !app_nil_r, Nat.sub_0_r. }
  cbn [local_start local_started local_replies fmap list_fmap]. erewrite M_bind_eq by reflexivity. cbn [ls_ending slots].
  unfold local_serve. destruct (lc_n lprocess c =? 0)%Z eqn:E0.
  { rewrite andb_false_r. erewrite M_bind_eq by reflexivity. etrans; [apply IH|]. cbn. now rewrite <-!app_assoc. }
  destruct (lc_n lprocess c =? EXPECTED_LENGTH)%Z eqn:E1; cbn [negb andb].
  2:{ erewrite M_bind_eq by reflexivity. etrans; [apply IH|]. cbn. now rewrite <-!app_assoc. }
  destruct free as [|free].
  { erewrite M_bind_eq. 2:{ erewrite M_bind_eq by reflexivity. cbn [slots ls_processes]. rewrite free_process_slots. reflexivity. }
    etrans; [apply IH|]. cbn. now rewrite <-!app_assoc. }
  destruct (lc_created lprocess c) as [p|] eqn:Ec.
  - erewrite M_bind_eq. 2:{ erewrite M_bind_eq by reflexivity. cbn [slots ls_processes]. rewrite free_process_slots. reflexivity. }
    etrans; [|etrans; [apply (IH (ps ++ [p]) free (replies ++ [(lc_conn _ c, 0%Z)]) (closed ++ [lc_conn _ c]))|]].
    + f_equal. unfold slots. cbn. f_equal.
      * rewrite <-(length_fmap Some ps), insert_slot, fmap_app. done.
      * rewrite length_app, replicate_add. rewrite <-(length_replicate (length ps) Started) at 1. apply insert_slot.
    + cbn [length]. now rewrite <-!app_assoc.
  - erewrite M_bind_eq. 2:{ erewrite M_bind_eq by reflexivity. cbn [slots ls_processes]. rewrite free_process_slots. reflexivity. }
    etrans; [|etrans; [apply (IH ps (S free) (replies ++ [(lc_conn _ c, 2%Z)]) (closed ++ [lc_conn _ c]))|]].
    + f_equal. unfold slots. cbn. f_equal. rewrite <-(length_fmap Some ps), insert_slot. cbn. now rewrite <-app_assoc.
    + cbn. now rewrite <-!app_assoc.
Qed.

(** a server whose first processes were told to end and joined *)
Definition stopping (gone rest : list lprocess) (free : nat) (replies : list (nat * Z)) (closed : list nat) : LocalServer :=
  {| ls_processes := (Some <$> gone ++ rest) ++ replicate free None;
     ls_threads := replicate (length gone) JoinedThread ++ replicate (length rest) Started ++ replicate free NoThread;
     ls_ending := true; ls_replies := replies; ls_closed := closed; ls_told := seq 0 (length gone) |}.

Lemma free_slots_stop free : forall k s,
  (forall i, k <= i -> ls_processes _ s !! i = None \/ ls_processes _ s !! i = Some None) ->
  for_each (local_stop lprocess) (seq k free) s = (Ret tt, s).
Proof.
  induction free as [|free IH]; intros k s Hs; [done|]. cbn [seq for_each].
  assert (local_stop lprocess k s = (Ret tt, s)) as E by (unfold local_stop; now destruct (Hs k) as [-> | ->]).
  rewrite (M_bind_eq _ _ _ _ _ E). apply IH. intros i Hi. apply Hs. lia.
Qed.

Lemma local_stops rest : forall gone free replies closed,
  for_each (local_stop lprocess) (seq (length gone) (length rest + free)) (stopping gone rest free replies closed) =
    (Ret tt, stopping (gone ++ rest) [] free replies closed).
Proof.
  induction rest as [|p rest IH]; intros gone free replies closed.
  - rewrite app_nil_r. apply free_slots_stop. intros i Hi. cbn. rewrite app_nil_r, lookup_app_r by (rewrite length_fmap; lia).
    destruct (decide (i - length (Some <$> gone) < free)).
    + right. now apply lookup_replicate_2.
    + left. apply lookup_ge_None. rewrite length_replicate. lia.
  - cbn [length Nat.add seq for_each].
    assert (local_stop lprocess (length gone) (stopping gone (p :: rest) free replies closed) =
      (Ret tt, stopping (gone ++ [p]) rest free replies closed)) as E.
    { unfold local_stop, stopping. cbn [ls_processes ls_threads].
      rewrite fmap_app, <-app_assoc, lookup_app_r, length_fmap, Nat.sub_diag by (rewrite length_fmap; lia). cbn [fmap list_fmap app lookup list_lookup].
      rewrite lookup_app_r, length_replicate, Nat.sub_diag by (rewrite length_replicate; lia). cbn [replicate app lookup list_lookup].
      f_equal. f_equal.
      - rewrite !fmap_app, <-!app_assoc. done.
      - rewrite <-(length_replicate (length gone) JoinedThread) at 1. cbn [length replicate app]. rewrite insert_slot.
        now rewrite length_app, replicate_add.
      - rewrite length_app, seq_app. done. }
    rewrite (M_bind_eq _ _ _ _ _ E). replace (S (length gone)) with (length (gone ++ [p])) by (rewrite length_app; cbn; lia).
    rewrite IH. now rewrite <-app_assoc.
Qed.

Lemma local_started_length conns : forall n, length (local_started n conns) <= n.
Proof.
  induction conns as [|c cs IH]; intros n; cbn; [lia|]. destruct (_ && _); [|apply IH].
  destruct n as [|n]; [apply IH|]. destruct (lc_created _ c); [cbn; specialize (IH n); lia|apply IH].
Qed.

Lemma local_replies_zero conns : forall n,
  length (filter (fun r => r.2 = 0%Z) (local_replies n conns)) = length (local_started n conns).
Proof.
  induction conns as [|c cs IH]; intros n; cbn [local_replies local_started]; [done|].
  destruct (lc_n _ c =? 0)%Z; [rewrite andb_false_r; apply IH|]. destruct (lc_n _ c =? EXPECTED_LENGTH)%Z; cbn [andb negb].
  - destruct n as [|n]; [|destruct (lc_created _ c)]; rewrite filter_cons; case_decide; simplify_eq/=; auto.
  - rewrite filter_cons. case_decide; simplify_eq/=; auto.
Qed.

(** The slots of a local worker.  Whatever connections arrive, the server with
    [n] slots answers each that sent anything exactly once and closes every one:
    2 for a request of a wrong length and for a process that could not be created,
    1 when all slots are taken, and 0 when - and only when - a process was put into
    the first free slot and its thread was started; a slot never becomes free
    again.  When it is then told to end, every process is told to, in order, and
    its thread is joined, and its destructor finds no thread left running. *)
Theorem local_worker_slots n conns :
  let ps := local_started n conns in
  exists s s', local_start lprocess conns (LocalServer_ctor lprocess n) = (Ret tt, s) /\
    length ps <= n /\ ls_processes _ s = (Some <$> ps) ++ replicate (n - length ps) None /\
    ls_replies _ s = local_replies n conns /\ length (filter (fun r => r.2 = 0%Z) (ls_replies _ s)) = length ps /\
    ls_closed _ s = lc_conn _ <$> conns /\
    local_shutdown lprocess s = (Ret tt, s') /\ ls_told _ s' = seq 0 (length ps) /\ ls_ending _ s' = true /\
    local_dtor lprocess s' = (Ret tt, s').
Proof.
  intros ps.
  assert (length ps <= n) as Hlen by apply local_started_length.
  eexists _, _. split; [exact (local_start_run conns [] n [] [])|]. split; [exact Hlen|].
  split; [reflexivity|]. split; [reflexivity|]. split; [apply local_replies_zero|]. split; [reflexivity|].
  split.
  { unfold local_shutdown. erewrite M_bind_eq by reflexivity. erewrite M_bind_eq by reflexivity. cbn [ls_processes slots].
    rewrite length_app, length_fmap, length_replicate. cbn [app].
    exact (local_stops ps [] (n - length ps) (local_replies n conns) (lc_conn _ <$> conns)). }
  split; [reflexivity|]. split; [reflexivity|]. unfold local_dtor. erewrite M_bind_eq by reflexivity.
  rewrite bool_decide_eq_false_2; [done|]. cbn [stopping ls_threads app length replicate].
  rewrite elem_of_app, !elem_of_replicate. intros [[]|[]]; discriminate.
Qed.

(** Ending a local worker while it creates a process: if the request to end
    comes after the process was put into its slot and before its thread is
    started, it joins through a null pointer; if it comes before the process is
    created, the process is never told to end, and the destructor ends the program. *)
Theorem local_worker_interrupted ps free p replies closed :
  let s := slots ps (S free) Started false replies closed [] in
  ((local_create lprocess (length ps) (Some p) ≫= fun _ => local_stop lprocess (length ps)) s).1 = Undef /\
  exists s', (local_shutdown lprocess ≫= fun _ => local_create lprocess (length ps) (Some p) ≫= fun _ =>
      local_start_thread lprocess (length ps) ≫= fun _ => local_dtor lprocess) s = (Throw abort_failure, s') /\
    ls_processes _ s' !! length ps = Some (Some p) /\ length ps ∉ ls_told _ s'.
Proof.
  cbn zeta. split.
  - erewrite M_bind_eq by reflexivity. unfold local_stop. cbn [slots set_ls_slots ls_processes ls_threads].
    rewrite <-(length_fmap Some ps) at 1 2. cbn [replicate]. rewrite insert_slot, lookup_app_l, lookup_app_r, Nat.sub_diag
      by (rewrite ?length_app; cbn; lia). cbn [lookup list_lookup].
    rewrite lookup_app_r by (rewrite length_replicate; lia). now rewrite length_replicate, Nat.sub_diag.
  - pose proof (local_stops ps [] (S free) replies closed) as E. cbn [length app] in E.
    assert (local_shutdown lprocess (slots ps (S free) Started false replies closed []) =
      (Ret tt, stopping ps [] (S free) replies closed)) as E1.
    { unfold local_shutdown. erewrite M_bind_eq by reflexivity. erewrite M_bind_eq by reflexivity. cbn [ls_processes slots].
      rewrite length_app, length_fmap, length_replicate. exact E. }
    rewrite (M_bind_eq _ _ _ _ _ E1). erewrite M_bind_eq by reflexivity. erewrite M_bind_eq by reflexivity.
    eexists. split; [|split].
    + unfold local_dtor. erewrite M_bind_eq by reflexivity. cbn [stopping set_ls_slots ls_threads length replicate app].
      rewrite bool_decide_eq_true_2; [reflexivity|].
      rewrite insert_app_r_alt, length_replicate, Nat.sub_diag by (rewrite length_replicate; lia). cbn. rewrite elem_of_app. right. left.
    + cbn [stopping set_ls_slots ls_processes app replicate]. rewrite app_nil_r.
      apply list_lookup_insert_eq. rewrite length_app, length_fmap. cbn. lia.
    + cbn [stopping set_ls_slots ls_told]. rewrite elem_of_seq. lia.
Qed.
End slots.

(** ** praas-serving *)
Section praas_serving.
Context `{ProcessRequests}.

(** [Server]; a slot holds [SubprocessFork], which is its position until [vfork]
    has given the process id; [ps_forks]: the detached threads, that run [fork] *)
Record ForkServer : Type := MkForkServer {
  ps_processes : list (option nat); ps_forks : list (nat * list byte); ps_ending : bool;
  ps_replies : list (nat * Z); ps_closed : list nat;
}.
Definition ForkServer_ctor (processes : nat) : ForkServer :=
  {| ps_processes := replicate processes None; ps_forks := []; ps_ending := false; ps_replies := []; ps_closed := [] |}.

Definition fork_write (c : nat) (ret : Z) : M ForkServer unit :=
  modify (fun s => {| ps_processes := ps_processes s; ps_forks := ps_forks s; ps_ending := ps_ending s;
    ps_replies := ps_replies s ++ [(c, ret)]; ps_closed := ps_closed s |}).
Definition fork_close (c : nat) : M ForkServer unit :=
  modify (fun s => {| ps_processes := ps_processes s; ps_forks := ps_forks s; ps_ending := ps_ending s;
    ps_replies := ps_replies s; ps_closed := ps_closed s ++ [c] |}).
Definition fork_detach (pos : nat) (req : list byte) : M ForkServer unit :=
  modify (fun s => {| ps_processes := <[pos := Some pos]> (ps_processes s); ps_forks := ps_forks s ++ [(pos, req)];
    ps_ending := ps_ending s; ps_replies := ps_replies s; ps_closed := ps_closed s |}).

(** the body of the loop of [start()] after [accept]: connection, result of
    [read], bytes *)
Definition fork_serve (c : nat) (n : Z) (req : list byte) : M ForkServer unit :=
  if (n =? 0)%Z then fork_close c
  else if negb (n =? EXPECTED_LENGTH)%Z then fork_write c 2 ≫= fun _ => fork_close c
  else
    slots ← gets ps_processes;
    match free_process nat slots with
    | None => fork_write c 1 ≫= fun _ => fork_close c
    | Some pos => fork_detach pos req ≫= fun _ => fork_write c 0 ≫= fun _ => fork_close c
    end.

(** [shutdown()]: [SubprocessFork::shutdown] does nothing *)
Definition fork_shutdown : M ForkServer unit :=
  modify (fun s => {| ps_processes := ps_processes s; ps_forks := ps_forks s; ps_ending := true;
    ps_replies := ps_replies s; ps_closed := ps_closed s |}).

(** [char addr[40]] with [strcat]: a text that does not fit with its end is
    written past the array *)
Definition ADDR_SIZE : nat := 40.
Definition subprocess_address (req : list byte) : outcome string :=
  let addr := req_ip_address req +:+ ":" +:+ pretty (req_port req) in
  if String.length addr <? ADDR_SIZE then Ret addr else Undef.

(** the arguments of [execv] in [SubprocessFork::fork] *)
Definition subprocess_argv (req : list byte) (hole_puncher_address : string) (enable_swapping use_docker : bool)
    : outcome (list string) :=
  addr ← subprocess_address req;
  let args := ["/dev-praas/bin/process_exec"; "--process-id"; req_process_id req; "--control-plane-address"; addr;
    "--hole-puncher-address"; hole_puncher_address; "--max-sessions"; pretty (req_max_sessions req);
    "--enable-swapping"; (if enable_swapping then "1" else "0"); "-v"] in
  Ret (if use_docker then ["/usr/bin/docker"; "run"; "praas/runtime"] ++ args else args).

Lemma pretty_N_go_bound k : forall x s, (x < 10 ^ N.of_nat k)%N -> String.length (pretty_N_go x s) <= k + String.length s.
Proof.
  induction k as [|k IH]; intros x s Hx.
  - assert (x = 0%N) as -> by (cbn in Hx; lia). rewrite pretty_N_go_0. lia.
  - destruct (decide (x = 0%N)) as [->|Hne]; [rewrite pretty_N_go_0; lia|]. rewrite pretty_N_go_step by lia.
    etrans; [apply IH|cbn; lia]. rewrite Nat2N.inj_succ, N.pow_succ_r' in Hx. apply N.Div0.div_lt_upper_bound. lia.
Qed.

Lemma pretty_Z_bound k (z : Z) : (0 <= z < Z.of_N (10 ^ N.of_nat (S k)))%Z -> String.length (pretty z) <= S k.
Proof.
  intros Hz. destruct z as [|x|x]; [cbn; lia| |lia]. unfold pretty, pretty_Z, pretty, pretty_positive, pretty, pretty_N.
  rewrite decide_False by done. etrans; [apply (pretty_N_go_bound (S k)); lia|cbn; lia].
Qed.

(** The reply comes before the process: a request that gets a slot is answered 0
    whether or not its arguments can be built; they can for every IPv4 address
    and port, but not for an IPv6 address that is written out. *)
Theorem forked_before_started c req s pos :
  EXPECTED_LENGTH <> 0%Z -> free_process nat (ps_processes s) = Some pos ->
  exists s', fork_serve c EXPECTED_LENGTH req s = (Ret tt, s') /\
    ps_replies s' = ps_replies s ++ [(c, 0%Z)] /\ ps_forks s' = ps_forks s ++ [(pos, req)] /\
    ((String.length (req_ip_address req) <= 15)%nat -> (0 <= req_port req < 2 ^ 16)%Z ->
       forall hole swap docker, exists argv, subprocess_argv req hole swap docker = Ret argv) /\
    ((39 <= String.length (req_ip_address req))%nat -> forall hole swap docker, subprocess_argv req hole swap docker = Undef).
Proof.
  intros He Hf. eexists. split; [|split; [|split; [|split]]].
  - unfold fork_serve. rewrite (proj2 (Z.eqb_neq _ _) He), Z.eqb_refl. cbn [negb].
    erewrite M_bind_eq by reflexivity. rewrite Hf. reflexivity.
  - reflexivity.
  - reflexivity.
  - intros Hip Hp hole swap docker. unfold subprocess_argv, subprocess_address.
    assert (String.length (pretty (req_port req)) <= 5) as Hl by (apply pretty_Z_bound with (k := 4); cbn; lia).
    assert ((String.length (req_ip_address req +:+ ":" +:+ pretty (req_port req)) <? ADDR_SIZE) = true) as ->; [|cbn; eauto].
    apply Nat.ltb_lt. unfold ADDR_SIZE. rewrite !length_append. cbn [String.length]. lia.
  - intros Hip hole swap docker. unfold subprocess_argv, subprocess_address.
    assert ((String.length (req_ip_address req +:+ ":" +:+ pretty (req_port req)) <? ADDR_SIZE) = false) as ->; [|done].
    apply Nat.ltb_ge. unfold ADDR_SIZE. rewrite !length_append. cbn. lia.
Qed.
End praas_serving.
