(* ===== verification/Servers.v ===== *)
(** * Servers: how the server programs start and end

    The command lines ([opts.cpp] of the servers, [deserialize] of the two
    configurations), the HTTP client that they share ([common/http.cpp]), and
    the [main] functions of the control plane and of the serving with the
    thread that serves HTTP.  cxxopts is a class, as in Launch.v; the values it
    makes of texts are a second one. *)

From S2P Require Import Prelude Http Serving Config Startup Launch Gateway LegacyServing.
From stdpp Require Import pretty.

(** ** Command lines *)

(** the value of an option as a number or a truth value *)
Class CxxoptsValues : Type := { cx_int : string -> option Z; cx_bool : string -> option bool }.
Class CxxoptsValuesLaws `(CxxoptsValues) : Prop := {
  cx_int_pretty z : (0 <= z < 2 ^ 31)%Z -> cx_int (pretty z) = Some z;
  cx_bool_true : cx_bool "true" = Some true;
  cx_bool_false : cx_bool "false" = Some false;
}.

(** a declared option: one that takes a value, which may have a default, or a flag *)
Inductive option_kind : Type := TakesValue (default : option string) | Flag (default : string).
Definition is_flag (k : option_kind) : bool := match k with Flag _ => true | TakesValue _ => false end.
Abbreviation declarations := (list (string * option_kind)) (only parsing).
Definition values_of (declared : declarations) : list string :=
  (filter (fun d => is_flag d.2 = false) declared).*1.
Definition flags_of (declared : declarations) : list string :=
  (filter (fun d => is_flag d.2 = true) declared).*1.
Definition default_of (declared : declarations) (name : string) : option string :=
  match (list_to_map declared : gmap string option_kind) !! name with
  | Some (TakesValue d) => d
  | Some (Flag d) => Some d
  | None => None
  end.

Section options.
Context `{Cxxopts} `{CxxoptsValues}.

(** [parsed_options[name].as<std::string>()], [as<int>()] and [as<bool>()] *)
Definition as_text (declared : declarations) (argv : list string) (name : string) : outcome string :=
  match cx_parse (values_of declared) (flags_of declared) argv name with
  | Some v => Ret v
  | None =>
      match default_of declared name with
      | Some d => Ret d
      | None => Throw (StdException "cxxopts::exceptions::option_has_no_value")
      end
  end.
Definition as_number (declared : declarations) (argv : list string) (name : string) : outcome Z :=
  v ← as_text declared argv name;
  match cx_int v with Some z => Ret z | None => Throw (StdException "cxxopts::exceptions::incorrect_argument_type") end.
Definition as_flag (declared : declarations) (argv : list string) (name : string) : outcome bool :=
  v ← as_text declared argv name;
  match cx_bool v with Some b => Ret b | None => Throw (StdException "cxxopts::exceptions::incorrect_argument_type") end.

(** the local worker's and the older serving's [opts] *)
Record LocalOptions : Type := MkLocalOptions {
  lo_hole_puncher_address : string; lo_processes : Z; lo_port : Z; lo_verbose : bool; lo_enable_swapping : bool;
}.
Definition local_declared : declarations :=
  [("hole-puncher-addr", TakesValue None); ("port", TakesValue (Some "8080")); ("processes", TakesValue (Some "1"));
   ("verbose", Flag "false"); ("enable-session-swapping", Flag "true")].
Definition local_opts (argv : list string) : outcome LocalOptions :=
  port ← as_number local_declared argv "port";
  processes ← as_number local_declared argv "processes";
  verbose ← as_flag local_declared argv "verbose";
  enable_swapping ← as_flag local_declared argv "enable-session-swapping";
  hole_puncher_address ← as_text local_declared argv "hole-puncher-addr";
  Ret {| lo_hole_puncher_address := hole_puncher_address; lo_processes := processes; lo_port := port;
         lo_verbose := verbose; lo_enable_swapping := enable_swapping |}.

Record ForkOptions : Type := MkForkOptions { fo_local : LocalOptions; fo_use_docker : bool }.
Definition fork_declared : declarations := local_declared ++ [("use-docker", Flag "true")].
Definition fork_opts (argv : list string) : outcome ForkOptions :=
  port ← as_number fork_declared argv "port";
  processes ← as_number fork_declared argv "processes";
  verbose ← as_flag fork_declared argv "verbose";
  enable_swapping ← as_flag fork_declared argv "enable-session-swapping";
  use_docker ← as_flag fork_declared argv "use-docker";
  hole_puncher_address ← as_text fork_declared argv "hole-puncher-addr";
  Ret {| fo_local := {| lo_hole_puncher_address := hole_puncher_address; lo_processes := processes; lo_port := port;
                        lo_verbose := verbose; lo_enable_swapping := enable_swapping |};
         fo_use_docker := use_docker |}.

(** [new T[n]()] of a negative size *)
Definition slots_of (n : Z) : outcome nat :=
  if (n <? 0)%Z then Throw (StdException "std::bad_array_new_length") else Ret (Z.to_nat n).

(** [main] of the local worker and of the older serving, up to [start()] *)
Definition local_main (lprocess : Type) (argv : list string) : outcome (LocalOptions * LocalServer lprocess) :=
  o ← local_opts argv;
  n ← slots_of (lo_processes o);
  Ret (o, LocalServer_ctor lprocess n).
Definition fork_main (argv : list string) : outcome (ForkOptions * ForkServer) :=
  o ← fork_opts argv;
  n ← slots_of (lo_processes (fo_local o));
  Ret (o, ForkServer_ctor n).
End options.

Section files.
Context `{Cxxopts} `{JSONInputArchive}.

(** [open]: the JSON of a file that can be opened *)
Variable open : string -> option archive.

(** [Options::serialize] and [opts] of the serving; the rest of the options is
    value-initialised *)
Record ServingOptions : Type := MkServingOptions {
  vo_max_processes : Z; vo_http_port : Z; vo_server_ip : string; vo_docker_port : Z; vo_process_port : Z;
  vo_threads : Z; vo_verbose : bool;
}.
Definition ServingOptions_serialize (a : archive) : outcome ServingOptions :=
  server_ip ← load_string a "server-address";
  http_port ← load_int a "http-port";
  docker_port ← load_int a "docker-port";
  process_port ← load_int a "process-port";
  threads ← load_int a "threads";
  max_processes ← load_int a "max-processes";
  Ret {| vo_max_processes := max_processes; vo_http_port := http_port; vo_server_ip := server_ip;
         vo_docker_port := docker_port; vo_process_port := process_port; vo_threads := threads; vo_verbose := false |}.

Definition serving_declared : declarations := [("config", TakesValue None); ("verbose", Flag "false")].
Definition serving_opts (argv : list string) : outcome (option ServingOptions) :=
  config_file ← as_text serving_declared argv "config";
  match open config_file with
  | None => Ret None
  | Some a => result ← ServingOptions_serialize a; Ret (Some result)
  end.
(** what the handlers of Serving.v use *)
Definition handler_options (o : ServingOptions) : SOptions :=
  {| so_server_ip := vo_server_ip o; so_docker_port := vo_docker_port o; so_process_port := vo_process_port o |}.

(** [Config::deserialize] and [Controller::deserialize] of a command line *)
Definition config_declared : declarations := [("config", TakesValue None)].
Definition Config_from_args (argv : list string) : outcome Config :=
  config_file ← as_text config_declared argv "config";
  if 0 <? String.length config_file then
    match open config_file with None => Throw exit_failure | Some a => Config_load Config_ctor a end
  else Ret (Config_set_defaults Config_ctor).

Definition controller_declared : declarations := [("config", TakesValue (Some EmptyString))].
Definition Controller_from_args (argv : list string) : outcome ControllerCfg :=
  config_file ← as_text controller_declared argv "config";
  if 0 <? String.length config_file then
    match open config_file with None => Throw exit_failure | Some a => Controller_load ControllerCfg_ctor a end
  else Ret (Controller_set_defaults ControllerCfg_ctor).

(** the configuration in [main] of the controller *)
Definition controller_config (argv : list string) (getenv : string -> option string) : outcome ControllerCfg :=
  config ← if 1 <? length argv then Controller_from_args argv else Ret (Controller_set_defaults ControllerCfg_ctor);
  Ret (Controller_load_env getenv config).
End files.

(** ** The HTTP client: [HTTPClientFactory] and [HTTPClient] *)

(** the loop a client uses: [_default_loop] is not reset when the pool is destroyed *)
Inductive loop_ptr : Type := LoopNull | LoopAlive | LoopGone.
Record HTTPClientFactory : Type := MkFactory { hf_pool : option Z; hf_default_loop : loop_ptr }.
Definition HTTPClientFactory_init : HTTPClientFactory := {| hf_pool := None; hf_default_loop := LoopNull |}.

Definition factory_initialize (thread_num : Z) : M HTTPClientFactory unit :=
  put {| hf_pool := Some thread_num; hf_default_loop := LoopAlive |}.
Definition factory_shutdown : M HTTPClientFactory unit := modify (fun f =>
  {| hf_pool := None; hf_default_loop := match hf_default_loop f with LoopNull => LoopNull | _ => LoopGone end |}).

(** [HTTPClient]: null without an address *)
Record HTTPClient : Type := MkClient { hc_address : option string; hc_loop : loop_ptr }.
Definition HTTPClient_null : HTTPClient := {| hc_address := None; hc_loop := LoopNull |}.

Definition factory_create_client (address : string) (port : Z) : M HTTPClientFactory HTTPClient :=
  f ← get;
  a ← lift (create_client (bool_decide (is_Some (hf_pool f))) address port);
  mret {| hc_address := Some a; hc_loop := LoopAlive |}.
Definition factory_create_client_shared (address : string) (port : Z) : M HTTPClientFactory HTTPClient :=
  f ← get;
  a ← lift (create_client (match hf_default_loop f with LoopNull => false | _ => true end) address port);
  mret {| hc_address := Some a; hc_loop := hf_default_loop f |}.

Section client.
Context `{JsonCpp}.

(** a request: its parameters are those [request] sets one after the other *)
Record ClientRequest : Type := MkClientRequest {
  cr_method : http_method; cr_path : string; cr_params : gmap string string; cr_body : option jvalue;
}.
(** [HTTPClient::request]: what is sent, and to whom *)
Definition client_request (c : HTTPClient) (r : ClientRequest) (params : list (string * string)) : outcome (string * ClientRequest) :=
  match hc_address c, hc_loop c with
  | Some a, LoopAlive =>
      Ret (a, {| cr_method := cr_method r; cr_path := cr_path r;
                 cr_params := foldl (fun m kv => <[kv.1 := kv.2]> m) (cr_params r) params; cr_body := cr_body r |})
  | _, _ => Undef
  end.
Definition client_put (c : HTTPClient) (path : string) (params : list (string * string)) : outcome (string * ClientRequest) :=
  client_request c {| cr_method := Put; cr_path := path; cr_params := ∅; cr_body := None |} params.
Definition client_post (c : HTTPClient) (path : string) (params : list (string * string)) : outcome (string * ClientRequest) :=
  client_request c {| cr_method := Post; cr_path := path; cr_params := ∅; cr_body := None |} params.
Definition client_post_json (c : HTTPClient) (path : string) (params : list (string * string)) (body : jvalue)
    : outcome (string * ClientRequest) :=
  client_request c {| cr_method := Post; cr_path := path; cr_params := ∅; cr_body := Some body |} params.
Definition client_get (c : HTTPClient) (path : string) (params : list (string * string)) : outcome (string * ClientRequest) :=
  client_request c {| cr_method := Get; cr_path := path; cr_params := ∅; cr_body := None |} params.
End client.

(** ** The ends of the control plane and of the serving *)

(** what the programs ask of the libraries, in order *)
Inductive server_call : Type :=
  | AddListener (port : Z) | QueueQuit | JoinThread | StopTcp | QuitLoop | WaitLoop.
(** [_server_thread] and whether the TCP server runs *)
Record ServerEnd : Type := MkServerEnd { se_joinable : bool; se_tcp_running : bool; se_calls : list server_call }.
Definition se_call (c : server_call) : M ServerEnd unit :=
  modify (fun s => {| se_joinable := se_joinable s; se_tcp_running := se_tcp_running s; se_calls := se_calls s ++ [c] |}).
Definition set_joinable (b : bool) : M ServerEnd unit :=
  modify (fun s => {| se_joinable := b; se_tcp_running := se_tcp_running s; se_calls := se_calls s |}).

(** [HttpServer::run] and [start]: a new thread serves HTTP *)
Definition http_run (port : Z) : M ServerEnd unit := se_call (AddListener port) ≫= fun _ => set_joinable true.
(** [std::thread::join]: an exception for a thread that was joined *)
Definition thread_join : M ServerEnd unit :=
  joinable ← gets se_joinable;
  if (joinable : bool) then se_call JoinThread ≫= fun _ => set_joinable false
  else throw (StdException "std::system_error: invalid_argument").
Definition http_wait : M ServerEnd unit := thread_join.
(** [HttpServer::shutdown]; [running]: [drogon::app().isRunning()] *)
Definition http_shutdown (running : bool) : M ServerEnd unit :=
  (if running then se_call QueueQuit else mret tt) ≫= fun _ =>
  joinable ← gets se_joinable;
  if (joinable : bool) then thread_join else mret tt.

(** [TCPServer::shutdown] and [~TCPServer] of the control plane *)
Definition cp_tcp_shutdown : M ServerEnd unit :=
  modify (fun s => {| se_joinable := se_joinable s; se_tcp_running := false; se_calls := se_calls s |}) ≫= fun _ =>
  se_call StopTcp ≫= fun _ => se_call QuitLoop ≫= fun _ => se_call WaitLoop.
Definition cp_tcp_dtor : M ServerEnd unit :=
  running ← gets se_tcp_running; if (running : bool) then cp_tcp_shutdown else mret tt.
(** [Server::shutdown] *)
Definition cp_shutdown (running : bool) : M ServerEnd unit := http_shutdown running ≫= fun _ => cp_tcp_shutdown.

(** [main] of the control plane from [run()] on; [wait] returns when drogon has
    ended its loop *)
Definition cp_main (port : Z) : M ServerEnd unit :=
  http_run port ≫= fun _ => http_wait ≫= fun _ => cp_shutdown false ≫= fun _ => cp_tcp_dtor.

(** the end of the serving: [HttpServer::shutdown] *)
Definition serving_shutdown `{JsonCpp} (running : bool) : M (ServerEnd * Serving) unit :=
  zoom fst (fun e s => (e, s.2)) (http_shutdown running) ≫= fun _ =>
  zoom snd (fun v s => (s.1, v)) kill_all.
(** the latch that [_kill_all] waits for: the requests that were not answered *)
Definition latch `{JsonCpp} (s : Serving) : nat :=
  length (filter (fun x => match x.2 with PKill => true | _ => false end = true) (sv_pending s)).
(** [main] of the serving from [start()] on, up to the wait for the latch *)
Definition serving_main `{JsonCpp} (port : Z) : M (ServerEnd * Serving) unit :=
  zoom fst (fun e s => (e, s.2)) (http_run port ≫= fun _ => http_wait) ≫= fun _ => serving_shutdown false.

(** ** What holds of the command lines *)

(** a number that is printed is a value *)
Lemma pretty_value z : (0 <= z)%Z -> option_value (pretty z).
Proof.
  intros Hz. destruct z as [|q|q]; [split; [discriminate|reflexivity]| |lia].
  unfold pretty, pretty_Z, pretty, pretty_positive, pretty, pretty_N. rewrite decide_False by done.
  destruct (pretty_N_go_digit (N.pos q) EmptyString eq_refl) as (d&t&Hd&->). split; [discriminate|].
  destruct d as [|d]; [reflexivity|]. do 4 (destruct d as [d|d|]; try reflexivity; try lia).
Qed.

Section command_lines.
Context `{HX : CxxoptsLaws} `{HV : CxxoptsValuesLaws}.

(** options on a command line: the given ones have their values, the others the defaults *)
Definition given (declared : declarations) (l : list (string * string)) : Prop :=
  NoDup l.*1 /\ Forall (fun kv : string * string => kv.1 ∈ values_of declared /\ option_value kv.2) l.

Lemma as_text_given declared exe l k v :
  given declared l -> (k, v) ∈ l -> as_text declared (exe :: option_args l) k = Ret v.
Proof. intros [Hn Hf] Hin. unfold as_text. now rewrite (cx_parse_options _ _ _ _ k v Hn Hf Hin). Qed.
Lemma as_text_default declared exe l k d :
  given declared l -> k ∉ l.*1 -> default_of declared k = Some d ->
  as_text declared (exe :: option_args l) k = Ret d.
Proof. intros [Hn Hf] Hk Hd. unfold as_text. now rewrite (cx_parse_absent _ _ _ _ k Hn Hf Hk), Hd. Qed.
Lemma as_text_missing declared exe l k :
  given declared l -> k ∉ l.*1 -> default_of declared k = None ->
  as_text declared (exe :: option_args l) k = Throw (StdException "cxxopts::exceptions::option_has_no_value").
Proof. intros [Hn Hf] Hk Hd. unfold as_text. now rewrite (cx_parse_absent _ _ _ _ k Hn Hf Hk), Hd. Qed.

Lemma as_number_given declared exe l k z :
  given declared l -> (k, pretty z) ∈ l -> (0 <= z < 2 ^ 31)%Z -> as_number declared (exe :: option_args l) k = Ret z.
Proof. intros Hg Hin Hz. unfold as_number. rewrite (as_text_given _ _ _ _ _ Hg Hin). cbn. now rewrite cx_int_pretty. Qed.
Lemma as_flag_default declared exe l k (b : bool) :
  given declared l -> k ∉ l.*1 ->
  default_of declared k = Some (if b then "true" else "false") ->
  as_flag declared (exe :: option_args l) k = Ret b.
Proof.
  intros Hg Hk Hd. unfold as_flag. rewrite (as_text_default _ _ _ _ _ Hg Hk Hd). cbn.
  destruct b; [now rewrite cx_bool_true|now rewrite cx_bool_false].
Qed.

(** an option is not among those that are given *)
Ltac not_given := apply (bool_decide_unpack _); vm_compute; exact I.

(** the options of a server *)
Definition server_args (address : string) (port processes : Z) : list (string * string) :=
  [("hole-puncher-addr", address); ("port", pretty port); ("processes", pretty processes)].

Lemma server_args_given declared address port processes :
  {["hole-puncher-addr"; "port"; "processes"]} ⊆ (list_to_set (values_of declared) : gset string) ->
  option_value address -> (0 <= port)%Z -> (0 <= processes)%Z ->
  given declared (server_args address port processes).
Proof.
  intros Hd Ha Hp Hn. split; [apply (bool_decide_unpack _); vm_compute; exact I|].
  repeat (apply List.Forall_cons || apply List.Forall_nil); cbn; (split; [|auto using pretty_value]); set_solver.
Qed.

(** The servers of [serving/docker] start with what their command line says: the
    address, the port, as many free slots as processes, and the defaults of what
    it does not say; without the address, which has no default, they do not
    start. *)
Theorem servers_take_options lprocess exe address port processes :
  option_value address -> (0 <= port < 2 ^ 31)%Z -> (0 <= processes < 2 ^ 31)%Z ->
  let o := {| lo_hole_puncher_address := address; lo_processes := processes; lo_port := port; lo_verbose := false;
              lo_enable_swapping := true |} in
  let argv := exe :: option_args (server_args address port processes) in
  local_main lprocess argv = Ret (o, LocalServer_ctor lprocess (Z.to_nat processes)) /\
  fork_main argv = Ret ({| fo_local := o; fo_use_docker := true |}, ForkServer_ctor (Z.to_nat processes)) /\
  (exists e, local_main lprocess (exe :: option_args [("port", pretty port)]) = Throw e).
Proof.
  intros Ha Hp Hn o argv.
  assert (given local_declared (server_args address port processes)) as Hg by (apply server_args_given; [not_given|done|lia..]).
  assert (given fork_declared (server_args address port processes)) as Hf by (apply server_args_given; [not_given|done|lia..]).
  assert (forall declared, given declared (server_args address port processes) ->
    as_number declared argv "port" = Ret port /\ as_number declared argv "processes" = Ret processes /\
    as_text declared argv "hole-puncher-addr" = Ret address) as Hgiven.
  { intros declared Hd. split_and!;
      [apply as_number_given; [exact Hd| |lia]|apply as_number_given; [exact Hd| |lia]|apply as_text_given; [exact Hd|]];
      [by (do 1 right; left)|by (do 2 right; left)|by left]. }
  assert (slots_of processes = Ret (Z.to_nat processes)) as Hs by (unfold slots_of; now rewrite (proj2 (Z.ltb_ge _ _)) by lia).
  assert (forall declared k (b : bool), given declared (server_args address port processes) ->
    bool_decide (k ∉ ["hole-puncher-addr"; "port"; "processes"]) = true ->
    default_of declared k = Some (if b then "true" else "false") ->
    as_flag declared argv k = Ret b) as Hflag.
  { intros declared k b Hd Hk. apply as_flag_default; [exact Hd|]. exact (bool_decide_eq_true_1 _ Hk). }
  split_and!.
  - unfold local_main, local_opts. destruct (Hgiven _ Hg) as (->&->&->).
    rewrite (Hflag _ "verbose" false Hg) by reflexivity. rewrite (Hflag _ "enable-session-swapping" true Hg) by reflexivity.
    cbn. rewrite Hs. reflexivity.
  - unfold fork_main, fork_opts. destruct (Hgiven _ Hf) as (->&->&->).
    rewrite (Hflag _ "verbose" false Hf) by reflexivity. rewrite (Hflag _ "enable-session-swapping" true Hf) by reflexivity.
    rewrite (Hflag _ "use-docker" true Hf) by reflexivity. cbn. rewrite Hs. reflexivity.
  - assert (given local_declared [("port", pretty port)]) as Hg1.
    { split; [apply (bool_decide_unpack _); vm_compute; exact I|]. constructor; [|constructor].
      split; [not_given|apply pretty_value; lia]. }
    assert (as_number local_declared (exe :: option_args [("port", pretty port)]) "processes" = Ret 1%Z) as E1.
    { unfold as_number. rewrite (as_text_default _ _ _ _ "1" Hg1) by (reflexivity || not_given). cbn.
      now rewrite (cx_int_pretty 1) by lia. }
    eexists. unfold local_main, local_opts. rewrite (as_number_given _ _ _ "port" port Hg1) by first [by left|lia].
    rewrite E1. rewrite (as_flag_default _ _ _ "verbose" false Hg1) by (reflexivity || not_given).
    rewrite (as_flag_default _ _ _ "enable-session-swapping" true Hg1) by (reflexivity || not_given).
    rewrite (as_text_missing _ _ _ _ Hg1) by (reflexivity || not_given). reflexivity.
Qed.
End command_lines.

Section config_files.
Context `{HX : CxxoptsLaws} `{JSONInputArchive}.
Variable open : string -> option archive.

Lemma config_given declared file : "config" ∈ values_of declared -> option_value file -> given declared [("config", file)].
Proof.
  intros Hd Hf. split; [apply list.NoDup_singleton|]. constructor; [auto|constructor].
Qed.

(** The configuration files on the command lines: the controller reads the file it
    is given, or takes its defaults, before the environment, as [main_config] of
    Startup.v; the control plane reads the file it is given, and raises an
    exception without one, since the option has no default value; the serving
    returns nothing for a file that it cannot open, and its verbose flag is never
    set. *)
Theorem configurations_are_read exe file a getenv :
  option_value file -> open file = Some a ->
  controller_config open (exe :: option_args [("config", file)]) getenv = main_config (Some a) getenv /\
  controller_config open [exe] getenv = main_config None getenv /\
  Config_from_args open (exe :: option_args [("config", file)]) = Config_deserialize a /\
  (exists e, Config_from_args open [exe] = Throw e) /\
  (forall argv o, serving_opts open argv = Ret (Some o) -> vo_verbose o = false).
Proof.
  intros Hf Ho. assert (0 < String.length file) as Hl by (destruct Hf as [Hf _]; destruct file; [done|cbn; lia]).
  assert (forall declared, "config" ∈ values_of declared -> as_text declared (exe :: option_args [("config", file)]) "config" = Ret file) as Ht.
  { intros declared Hd. apply as_text_given; [now apply config_given|now left]. }
  split_and!.
  - unfold controller_config, Controller_from_args. rewrite Ht by (now left). cbn [length option_args].
    cbn. rewrite (proj2 (Nat.ltb_lt _ _) Hl), Ho. reflexivity.
  - reflexivity.
  - unfold Config_from_args. rewrite Ht by (now left). cbn. rewrite (proj2 (Nat.ltb_lt _ _) Hl), Ho. reflexivity.
  - unfold Config_from_args. rewrite (as_text_missing config_declared exe [] "config") by
      (try split; try constructor; try reflexivity; intros H'; inversion H'). eexists. reflexivity.
  - intros argv o. unfold serving_opts. destruct (as_text serving_declared argv "config") as [f| |]; [|done..]. cbn.
    destruct (open f) as [b|]; [|done]. intros (result&Hr&E)%bind_ret_inv. injection E as <-.
    unfold ServingOptions_serialize in Hr. do 6 (apply bind_ret_inv in Hr as (?&_&Hr)). now injection Hr as <-.
Qed.
End config_files.

(** ** What holds of the ends *)

(** Clients are made between [initialize] and [shutdown] only; a shared client that
    is made after [shutdown] uses the loop of the pool that is gone, and so does
    every request on it. *)
Theorem clients_need_the_pool address threads `{JsonCpp} :
  (factory_create_client address (-1) HTTPClientFactory_init).1 = Throw (PraaSException "Uninitialized HTTPClientFactory!") /\
  (factory_initialize threads ≫= fun _ => factory_create_client address (-1)) HTTPClientFactory_init =
    (Ret (MkClient (Some address) LoopAlive), MkFactory (Some threads) LoopAlive) /\
  ((factory_initialize threads ≫= fun _ => factory_shutdown ≫= fun _ => factory_create_client address (-1)) HTTPClientFactory_init).1 =
    Throw (PraaSException "Uninitialized HTTPClientFactory!") /\
  exists c, ((factory_initialize threads ≫= fun _ => factory_shutdown ≫= fun _ => factory_create_client_shared address (-1))
               HTTPClientFactory_init).1 = Ret c /\
    forall path params, client_get c path params = Undef.
Proof. split_and!; try reflexivity. eexists. split; reflexivity. Qed.

(** the requests that stop the containers *)
Definition stop_request `{JsonCpp} (p : SProcess) : DockerRequest * pending :=
  ({| dr_path := "/containers/" +:+ sp_container_id p +:+ "/stop"; dr_params := [("signal", "SIGINT")]; dr_body := None |}, PKill).

Lemma stop_all `{JsonCpp} l : forall s,
  for_each (fun p => docker_post ("/containers/" +:+ sp_container_id p +:+ "/stop") [("signal", "SIGINT")] None PKill) l s =
  (Ret tt, set_sv_pending (sv_pending s ++ (stop_request <$> l)) s).
Proof.
  induction l as [|p l IH]; intros s; cbn [for_each fmap list_fmap].
  - rewrite app_nil_r. now destruct s.
  - erewrite M_bind_eq by reflexivity. rewrite IH. cbn. now rewrite <-app_assoc.
Qed.

(** each reply, also of a request that failed, counts the latch down *)
Lemma kill_replies `{JsonCpp} rs : forall l s, sv_pending s = stop_request <$> l -> length rs <= length l ->
  exists s', for_each (docker_replied 0) rs s = (Ret tt, s') /\ latch s' = length l - length rs.
Proof.
  induction rs as [|r rs IH]; intros l s Hs Hl.
  - exists s. split; [done|]. unfold latch. rewrite Hs. clear. cbn [length]. rewrite Nat.sub_0_r.
    induction l as [|p l IH]; [done|]. cbn [fmap list_fmap]. rewrite filter_cons_True by done. cbn [length]. f_equal. exact IH.
  - destruct l as [|p l]; cbn in Hl; [lia|].
    destruct (IH l (set_sv_pending (stop_request <$> l) s) eq_refl ltac:(lia)) as (s'&E&Hw). exists s'. split; [|exact Hw].
    cbn [for_each]. rewrite (M_bind_eq _ _ _ tt (set_sv_pending (stop_request <$> l) s)); [exact E|]. unfold docker_replied. erewrite M_bind_eq by reflexivity. rewrite Hs. reflexivity.
Qed.

(** The control plane ends with drogon's loop: the thread is joined once, and the
    TCP server is stopped once; but [wait] after a [shutdown] - of a signal handler,
    say - raises an exception.  The serving joins its thread and asks the Docker
    daemon to stop every container in its table; it waits until each of these
    requests has been answered, whatever the answer. *)
Theorem servers_end port calls `{JsonCpp} s :
  cp_main port (MkServerEnd false true calls) =
    (Ret tt, MkServerEnd false false (calls ++ [AddListener port; JoinThread; StopTcp; QuitLoop; WaitLoop])) /\
  (exists e s', (http_run port ≫= fun _ => cp_shutdown true ≫= fun _ => http_wait) (MkServerEnd false true calls) = (Throw e, s')) /\
  exists s', serving_main port (MkServerEnd false true calls, s) =
      (Ret tt, (MkServerEnd false true (calls ++ [AddListener port; JoinThread]), s')) /\
    sv_pending s' = sv_pending s ++ (stop_request <$> (map_to_list (sv_processes s)).*2) /\
    forall rs, sv_pending s = [] -> length rs <= size (sv_processes s) ->
      exists s'', for_each (docker_replied 0) rs s' = (Ret tt, s'') /\ latch s'' = size (sv_processes s) - length rs.
Proof.
  split; [|split].
  - unfold cp_main, cp_shutdown, cp_tcp_dtor, cp_tcp_shutdown, http_shutdown, http_wait, thread_join, http_run, mbind, M_bind.
    cbn. rewrite <-!app_assoc. reflexivity.
  - do 2 eexists. reflexivity.
  - eexists. split.
    + unfold serving_main, serving_shutdown, kill_all, zoom. erewrite M_bind_eq by reflexivity.
      erewrite M_bind_eq by reflexivity. cbn [snd fst]. erewrite M_bind_eq by reflexivity. cbn [processes_get_all].
      erewrite M_bind_eq by reflexivity. rewrite stop_all. cbn. rewrite <-!app_assoc. reflexivity.
    + split; [reflexivity|]. intros rs Hs Hl. rewrite <-length_map_to_list, <-(length_fmap snd) in Hl |- *.
      apply kill_replies; [|exact Hl]. cbn. now rewrite Hs.
Qed.

(** ** Witnesses: the options of Launch.v, with decimal numbers *)
#[export] Instance plain_values : CxxoptsValues | 10 := {|
  cx_int v := match stoi v with Ret z => Some z | _ => None end;
  cx_bool v := if decide (v = "true") then Some true else if decide (v = "false") then Some false else None;
|}.
#[export] Instance plain_values_laws : CxxoptsValuesLaws plain_values | 10.
Proof.
  split; [|reflexivity..]. intros z Hz. cbn. replace (pretty z) with (pretty (Z.to_N z)).
  - rewrite stoi_pretty by lia. f_equal. lia.
  - destruct z as [|q|q]; [reflexivity..|lia].
Qed.

Definition example_args : list string := "serving" :: option_args (server_args "10.0.0.1" 9000 4).
Lemma servers_take_options_witness :
  local_main unit example_args =
    Ret ({| lo_hole_puncher_address := "10.0.0.1"; lo_processes := 4; lo_port := 9000; lo_verbose := false;
            lo_enable_swapping := true |}, LocalServer_ctor unit 4) /\
  option_args (server_args "10.0.0.1" 9000 4) =
    ["--hole-puncher-addr"; "10.0.0.1"; "--port"; "9000"; "--processes"; "4"].
Proof.
  split; [|reflexivity].
  destruct (servers_take_options (HX := plain_cxxopts_laws) (HV := plain_values_laws) unit "serving" "10.0.0.1" 9000 4
    ltac:(split; [discriminate|reflexivity]) ltac:(lia) ltac:(lia)) as [E _]. exact E.
Defined.

Definition example_files (name : string) : option (@archive plain_archive) :=
  if decide (name = "config.json") then Some (minimal_config [("http", JObject [("threads", JInt 4); ("port", JInt 80)])])
  else None.
Lemma configurations_are_read_witness :
  Config_from_args example_files ["controlplane"; "--config"; "config.json"] =
    Config_deserialize (minimal_config [("http", JObject [("threads", JInt 4); ("port", JInt 80)])]) /\
  exists e, Config_from_args example_files ["controlplane"] = Throw e.
Proof.
  destruct (configurations_are_read (HX := plain_cxxopts_laws) example_files "controlplane" "config.json"
    (minimal_config [("http", JObject [("threads", JInt 4); ("port", JInt 80)])]) (fun _ => None)
    ltac:(split; [discriminate|reflexivity]) eq_refl) as (_&_&E&Hn&_). split; [exact E|exact Hn].
Defined.
