(* ===== verification/Assembly.v ===== *)
(** * Assembly: the servers put together

    The constructor of the controller with its epoll set
    ([process/controller/src/controller.cpp]), that of the control plane's
    [Server] with its parts ([control-plane/src/server.cpp], [backend.cpp],
    [deployment.cpp], [tcpserver.cpp], [http.cpp]), and the start and the routes of
    the serving ([serving/src/cli.cpp], [server.cpp], [METHOD_LIST] in
    [serving/docker/server.hpp]).  [epoll(7)] is a class. *)

From S2P Require Import Prelude Http Messages Functions Controller Serving Backend Config Startup Launch Gateway CpApplication Servers.
From stdpp Require Import pretty.

(** ** epoll *)

(** [epoll_event]: the pointer is the controller or one of its workers *)
Inductive epoll_data : Type := ThisController | ThisWorker (i : nat).
Record epoll_event : Type := MkEpollEvent { ev_events : Z; ev_data : epoll_data }.
Inductive epoll_op : Type := EPOLL_CTL_ADD | EPOLL_CTL_MOD.
Definition EPOLLIN : Z := 1.
Definition EPOLLPRI : Z := 2.
Definition EPOLLET : Z := 2 ^ 31.
Definition MAX_EPOLL_EVENTS : nat := 32.

Class Epoll : Type := {
  epoll_set : Type;
  epoll_create : option epoll_set;
  epoll_ctl : epoll_op -> Z -> epoll_event -> epoll_set -> bool * epoll_set;
  (** at most so many reports of the descriptors that have something to report *)
  epoll_wait : nat -> (Z -> bool) -> epoll_set -> list epoll_event;
}.
(** a kernel that does not refuse *)
Class EpollLaws `(Epoll) : Type := {
  epoll_interest : epoll_set -> gmap Z epoll_event;
  epoll_create_empty s : epoll_create = Some s -> epoll_interest s = ∅;
  epoll_add_free fd e s : epoll_interest s !! fd = None ->
    exists s', epoll_ctl EPOLL_CTL_ADD fd e s = (true, s') /\ epoll_interest s' = <[fd := e]> (epoll_interest s);
  epoll_add_taken fd e s : is_Some (epoll_interest s !! fd) -> epoll_ctl EPOLL_CTL_ADD fd e s = (false, s);
  epoll_wait_reports n ready s e : e ∈ epoll_wait n ready s ->
    exists fd e', epoll_interest s !! fd = Some e' /\ ready fd = true /\ ev_data e = ev_data e';
  epoll_wait_complete n ready s fds fd e :
    (forall fd, is_Some (epoll_interest s !! fd) -> ready fd = true -> fd ∈ fds) -> length fds <= n ->
    epoll_interest s !! fd = Some e -> ready fd = true -> exists e', e' ∈ epoll_wait n ready s /\ ev_data e' = ev_data e;
}.

Section controller.
Context `{RapidJson} `{Epoll}.

Definition epoll_apply (fd : Z) (data : epoll_data) (events : Z) (flags : epoll_op) : M epoll_set bool := fun s =>
  let '(ok, s') := epoll_ctl flags fd {| ev_events := events; ev_data := data |} s in (Ret ok, s').
Definition epoll_add (fd : Z) (data : epoll_data) (events : Z) : M epoll_set bool :=
  epoll_apply fd data events EPOLL_CTL_ADD.

(** [assert_true]: the program ends *)
Definition assert_true (m : M epoll_set bool) : M epoll_set unit :=
  ok ← m; if (ok : bool) then mret tt else throw exit_failure.

(** the loop over the workers; [ipc_read()] of a worker without a channel is the
    dereference of a null pointer *)
Fixpoint watch_workers (i : nat) (fds : list (option Z)) : M epoll_set unit :=
  match fds with
  | [] => mret tt
  | None :: _ => undef
  | Some fd :: fds' => assert_true (epoll_add fd (ThisWorker i) (Z.lor EPOLLIN EPOLLPRI)) ≫= fun _ => watch_workers (S i) fds'
  end.
Definition watch (event_fd : Z) (fds : list (option Z)) : M epoll_set unit :=
  assert_true (epoll_add event_fd ThisController (Z.lor (Z.lor EPOLLIN EPOLLET) EPOLLPRI)) ≫= fun _ => watch_workers 0 fds.

(** [std::filesystem::path::operator/] *)
Definition path_join (p q : string) : string := if String.prefix "/" q then q else path_append p q.

(** [Controller::Controller]: the table of functions and the epoll set.  [open]:
    the JSON of a file that can be opened; [event_fd]: what [eventfd] gives;
    [fds]: the descriptors the workers' queues are read from. *)
Definition Controller_setup (open : string -> option value) (event_fd : option Z) (fds : list (option Z)) (cfg : ControllerCfg) :
    outcome (Functions * epoll_set) :=
  match open (path_join (cc_location (pc_code cfg)) (cc_config_location (pc_code cfg))), cc_language (pc_code cfg) with
  | None, _ => Throw (PraaSException "Could not find file {}")
  | Some _, None => Undef
  | Some doc, Some language =>
      let '(r, functions) := initialize doc language ∅ in
      _ ← r;
      match epoll_create, event_fd with
      | None, _ => Throw (PraaSException "Incorrect epoll initialization! {}")
      | Some _, None => Throw exit_failure
      | Some s, Some fd => let '(r, s') := watch fd fds s in _ ← r; Ret (functions, s')
      end
  end.

(** how [poll] reads an event: the pointer is [this] or that of a worker *)
Definition poll_event_of (e : epoll_event) : poll_event :=
  match ev_data e with ThisController => WakeUp | ThisWorker i => WorkerReady i end.
(** what a round of [poll] handles *)
Definition polled (ready : Z -> bool) (s : epoll_set) : list poll_event := poll_event_of <$> epoll_wait MAX_EPOLL_EVENTS ready s.

Context `{!EpollLaws _}.

(** the descriptors and what they stand for *)
Fixpoint watched_workers (i : nat) (fds : list Z) : list (Z * epoll_event) :=
  match fds with
  | [] => []
  | fd :: fds' => (fd, MkEpollEvent (Z.lor EPOLLIN EPOLLPRI) (ThisWorker i)) :: watched_workers (S i) fds'
  end.

Lemma watched_workers_fds fds : forall i, (watched_workers i fds).*1 = fds.
Proof. induction fds as [|fd fds IH]; intros i; cbn; [done|]. f_equal. apply IH. Qed.

Lemma watched_workers_elem fds fd e : forall i,
  (fd, e) ∈ watched_workers i fds <-> exists j, fds !! j = Some fd /\ e = MkEpollEvent (Z.lor EPOLLIN EPOLLPRI) (ThisWorker (i + j)).
Proof.
  induction fds as [|x fds IH]; intros i; cbn.
  - split; [intros []%elem_of_nil|]. intros (j&Hj&_). now rewrite lookup_nil in Hj.
  - rewrite elem_of_cons, IH. split.
    + intros [[= -> ->]|(j&Hj&->)]; [exists 0; now rewrite Nat.add_0_r|]. exists (S j). split; [done|]. do 2 f_equal. lia.
    + intros ([|j]&Hj&->); cbn in Hj; [left; injection Hj as ->; now rewrite Nat.add_0_r|]. right. exists j. split; [done|].
      do 2 f_equal. lia.
Qed.

Lemma assert_added fd data events s : epoll_interest s !! fd = None ->
  exists s', assert_true (epoll_add fd data events) s = (Ret tt, s') /\
    epoll_interest s' = <[fd := MkEpollEvent events data]> (epoll_interest s).
Proof.
  intros Hf. destruct (epoll_add_free fd (MkEpollEvent events data) s Hf) as (s'&E&Hi). exists s'. split; [|exact Hi].
  unfold assert_true, epoll_add, epoll_apply, mbind, M_bind. now rewrite E.
Qed.

Lemma workers_watched fds : forall i s, NoDup fds -> (forall fd, fd ∈ fds -> epoll_interest s !! fd = None) ->
  exists s', watch_workers i (Some <$> fds) s = (Ret tt, s') /\
    epoll_interest s' = list_to_map (watched_workers i fds) ∪ epoll_interest s.
Proof.
  induction fds as [|fd fds IH]; intros i s Hn Hf; [exists s; split; [done|]; cbn; now rewrite map_empty_union|].
  apply NoDup_cons in Hn as [Hfd Hn]. cbn [watch_workers fmap list_fmap].
  destruct (assert_added fd (ThisWorker i) (Z.lor EPOLLIN EPOLLPRI) s) as (s1&E1&H1); [apply Hf; left|].
  destruct (IH (S i) s1 Hn) as (s2&E2&H2).
  { intros fd' Hin. rewrite H1, lookup_insert_ne by (intros <-; now apply Hfd). apply Hf. now right. }
  exists s2. split; [now rewrite (M_bind_eq _ _ _ _ _ E1)|]. rewrite H2, H1. cbn [watched_workers list_to_map foldr].
  rewrite <-insert_union_l. symmetry. apply insert_union_r, not_elem_of_list_to_map. now rewrite watched_workers_fds.
Qed.

Lemma watch_workers_app l1 l2 : forall i s,
  watch_workers i (l1 ++ l2) s = (watch_workers i l1 ≫= fun _ => watch_workers (i + length l1) l2) s.
Proof.
  induction l1 as [|[fd|] l1 IH]; intros i s; cbn [watch_workers app length]; [now rewrite Nat.add_0_r| |done].
  rewrite M_bind_assoc. apply M_bind_ext. intros [] s'. rewrite IH. now replace (i + S (length l1)) with (S i + length l1) by lia.
Qed.

Lemma watch_app event_fd l1 l2 s :
  watch event_fd (l1 ++ l2) s = (watch event_fd l1 ≫= fun _ => watch_workers (length l1) l2) s.
Proof. unfold watch. rewrite M_bind_assoc. apply M_bind_ext. intros [] s'. apply watch_workers_app. Qed.

Lemma watched_all event_fd fds s : NoDup (event_fd :: fds) -> epoll_interest s = ∅ ->
  exists s', watch event_fd (Some <$> fds) s = (Ret tt, s') /\
    epoll_interest s' = list_to_map (watched_workers 0 fds ++
      [(event_fd, MkEpollEvent (Z.lor (Z.lor EPOLLIN EPOLLET) EPOLLPRI) ThisController)]).
Proof.
  intros [He Hn]%NoDup_cons Hs. unfold watch.
  destruct (assert_added event_fd ThisController (Z.lor (Z.lor EPOLLIN EPOLLET) EPOLLPRI) s) as (s1&E1&H1); [now rewrite Hs|].
  destruct (workers_watched fds 0 s1 Hn) as (s2&E2&H2).
  { intros fd Hin. rewrite H1, Hs, lookup_insert_ne; [done|]. now intros <-. }
  exists s2. split; [now rewrite (M_bind_eq _ _ _ _ _ E1)|]. rewrite H2, H1, Hs, list_to_map_app. reflexivity.
Qed.

(** The events that the loop of the controller handles are those of Controller.v:
    the constructor registers the event descriptor and the queue of every worker,
    each under a pointer of its own, so that a report is the wake-up signal or a
    message of the worker with that index, and a worker there is; and whatever has
    something to say is reported, as long as not more than [MAX_EPOLL_EVENTS] have.
    Without the file of the functions the constructor raises an exception, and a
    worker without a queue is a null pointer. *)
Theorem controller_watches open event_fd fds cfg doc language functions :
  open (path_join (cc_location (pc_code cfg)) (cc_config_location (pc_code cfg))) = Some doc ->
  cc_language (pc_code cfg) = Some language -> initialize doc language ∅ = (Ret tt, functions) ->
  is_Some epoll_create -> NoDup (event_fd :: fds) ->
  (exists s, Controller_setup open (Some event_fd) (Some <$> fds) cfg = Ret (functions, s) /\
    forall ready,
      (forall e, e ∈ polled ready s -> (e = WakeUp /\ ready event_fd = true) \/
         exists i fd, e = WorkerReady i /\ fds !! i = Some fd /\ ready fd = true) /\
      (length (filter (fun fd => ready fd = true) (event_fd :: fds)) <= MAX_EPOLL_EVENTS ->
         (ready event_fd = true -> WakeUp ∈ polled ready s) /\
         (forall i fd, fds !! i = Some fd -> ready fd = true -> WorkerReady i ∈ polled ready s))) /\
  Controller_setup open (Some event_fd) ((Some <$> fds) ++ [None]) cfg = Undef /\
  Controller_setup (fun _ => None) (Some event_fd) (Some <$> fds) cfg = Throw (PraaSException "Could not find file {}").
Proof.
  intros Ho Hl Hi [s0 Hs0] Hn.
  destruct (watched_all event_fd fds s0 Hn (epoll_create_empty _ Hs0)) as (s&E&Hs).
  assert (forall ready fd e, epoll_interest s !! fd = Some e -> ready fd = true ->
    (poll_event_of e = WakeUp /\ fd = event_fd) \/ exists i, poll_event_of e = WorkerReady i /\ fds !! i = Some fd) as Hint.
  { intros ready fd e He _. rewrite Hs in He. apply elem_of_list_to_map_2 in He. apply elem_of_app in He as [He|He].
    - right. apply watched_workers_elem in He as (i&Hi'&->). now exists i.
    - apply list_elem_of_singleton in He. injection He as -> ->. now left. }
  assert (forall fd e, (fd = event_fd /\ e = MkEpollEvent (Z.lor (Z.lor EPOLLIN EPOLLET) EPOLLPRI) ThisController) \/
    (exists i, fds !! i = Some fd /\ e = MkEpollEvent (Z.lor EPOLLIN EPOLLPRI) (ThisWorker i)) -> epoll_interest s !! fd = Some e) as Hreg.
  { intros fd e Hfd. rewrite Hs. apply elem_of_list_to_map_1.
    - rewrite fmap_app, watched_workers_fds. cbn. rewrite Permutation_app_comm. exact Hn.
    - apply elem_of_app. destruct Hfd as [[-> ->]|(i&Hfd&->)]; [right; now left|left]. apply watched_workers_elem. now exists i. }
  assert (forall ready e, e ∈ polled ready s <-> exists e', e' ∈ epoll_wait MAX_EPOLL_EVENTS ready s /\ e = poll_event_of e') as Hp.
  { intros ready e. unfold polled. rewrite list_elem_of_fmap. split; intros (e'&?&?); eauto. }
  assert (forall e e', ev_data e = ev_data e' -> poll_event_of e = poll_event_of e') as Hd by (intros e e' Hd; unfold poll_event_of; now rewrite Hd).
  split; [|split].
  - exists s. split.
    { unfold Controller_setup. rewrite Ho, Hl, Hi. cbn. now rewrite Hs0, E. }
    intros ready. split.
    + intros e (e'&Hw&->)%Hp. apply epoll_wait_reports in Hw as (fd&e&He&Hr&Hd'). rewrite (Hd _ _ Hd').
      destruct (Hint ready fd e He Hr) as [[-> ->]|(i&->&Hfd)]; [now left|]. right. eauto.
    + intros Hlen. 
      assert (forall fd e, epoll_interest s !! fd = Some e -> ready fd = true -> poll_event_of e ∈ polled ready s) as Hc.
      { intros fd e He Hr. destruct (epoll_wait_complete MAX_EPOLL_EVENTS ready s (filter (fun fd => ready fd = true) (event_fd :: fds)) fd e) as (e'&Hw&He'); auto.
        - intros fd' [e' He''] Hr'. apply list_elem_of_filter. split; [done|].
          destruct (Hint ready fd' e' He'' Hr') as [[_ ->]|(i&_&Hfd)]; [left|right]. now apply list_elem_of_lookup_2 in Hfd.
        - apply Hp. exists e'. split; [exact Hw|]. symmetry. now apply Hd. }
      split.
      * intros Hr. exact (Hc _ _ (Hreg event_fd _ (or_introl (conj eq_refl eq_refl))) Hr).
      * intros i fd Hfd Hr. exact (Hc _ _ (Hreg fd _ (or_intror (ex_intro _ i (conj Hfd eq_refl)))) Hr).
  - unfold Controller_setup. rewrite Ho, Hl, Hi. cbn. rewrite Hs0, watch_app. unfold mbind at 1, M_bind. now rewrite E.
  - reflexivity.
Qed.
End controller.

(** ** The control plane *)

(** [Deployment::construct]: [memory] is what [deployment_type], which no code
    assigns, happens to hold, as a number; a [Local] has an empty path *)
Definition deployment_number (t : DeploymentType) : Z := match t with DLOCAL => 0 | DAWS => 1 end.
Definition Deployment_construct (memory : Z) (cfg : Config) : option string :=
  if (default memory (deployment_number <$> cf_deployment_type cfg) =? 0)%Z then Some EmptyString else None.
(** [Local::get_location], [DiskSwapLocation::root_path] and [path] *)
Definition get_location (local_path process_name : string) : string := local_path.
Definition root_path (location : string) : string := location.
Definition disk_path (location process_name : string) : string := path_join (path_join location "swaps") process_name.

Section control_plane.
Context `{JsonCpp}.

(** [DockerBackend], [FargateBackend] and what [Backend] adds to them *)
Inductive backend_kind : Type := DockerBackend (client : HTTPClient) | FargateBackend (fargate_config : jvalue).
Record CpBackend : Type := MkCpBackend { bd_kind : backend_kind; bd_tcp_ip : string; bd_tcp_port : option Z }.

Definition DockerBackend_ctor (address : string) (port : option Z) : M HTTPClientFactory CpBackend :=
  match port with
  | None => undef
  | Some port =>
      client ← factory_create_client ("http://" +:+ address) port;
      mret {| bd_kind := DockerBackend client; bd_tcp_ip := EmptyString; bd_tcp_port := None |}
  end.
(** [open]: the JSON of a file that can be opened *)
Definition FargateBackend_ctor (open : string -> option (outcome jvalue)) (fargate_config : string) : outcome CpBackend :=
  config ← match open fargate_config with Some r => r | None => Ret jnull end;
  Ret {| bd_kind := FargateBackend config; bd_tcp_ip := EmptyString; bd_tcp_port := None |}.
Definition configure_tcpserver (ip : string) (port : Z) (b : CpBackend) : CpBackend :=
  {| bd_kind := bd_kind b; bd_tcp_ip := ip; bd_tcp_port := Some port |}.

(** [TCPServer::TCPServer], [port]: [bound] is the port the socket is bound to when
    one is asked for *)
Record TcpServer : Type := MkTcpServer { ts_port : Z; ts_io_threads : Z; ts_is_running : bool }.
Definition CpTCPServer_ctor (bound : Z -> Z) (options : TCPServerCfg) : TcpServer :=
  {| ts_port := bound (tc_port options); ts_io_threads := tc_io_threads options; ts_is_running := true |}.
(** [HttpServer::HttpServer] *)
Record HttpServer : Type := MkHttpServer { hp_port : Z; hp_threads : Z; hp_max_body_size : Z }.
Definition HttpServer_ctor (cfg : HTTPServerCfg) : HttpServer :=
  {| hp_port := hs_port cfg; hp_threads := hs_threads cfg; hp_max_body_size := hs_max_payload_size cfg |}.

(** [Server]: the thread pool of [Workers] and its pointer to the TCP server *)
Record ControlPlane : Type := MkControlPlane {
  se_backend : CpBackend; se_local_path : string; se_pool : Z; se_attached : bool; se_tcp_server : TcpServer;
  se_http_server : HttpServer;
}.

(** [Server::Server], from the back end [Backend::construct] gives; a reference to
    what a null pointer points to is undefined *)
Definition Backend_construct (fargate : bool) (open : string -> option (outcome jvalue)) (cfg : Config) :
    M HTTPClientFactory (option CpBackend) :=
  match construct fargate cfg with
  | Some (BackendDocker address port) => b ← DockerBackend_ctor address port; mret (Some b)
  | Some (BackendFargate file) => b ← lift (FargateBackend_ctor open file); mret (Some b)
  | None => mret None
  end.
Definition Server_ctor (fargate : bool) (memory : Z) (bound : Z -> Z) (open : string -> option (outcome jvalue)) (cfg : Config) :
    M HTTPClientFactory ControlPlane :=
  backend ← Backend_construct fargate open cfg;
  match backend, Deployment_construct memory cfg, cf_workers cfg with
  | Some b, Some path, Some workers =>
      let tcp := CpTCPServer_ctor bound (cf_tcpserver cfg) in
      mret {| se_backend := configure_tcpserver (cf_public_ip_address cfg) (ts_port tcp) b; se_local_path := path;
              se_pool := wk_threads workers; se_attached := true; se_tcp_server := tcp;
              se_http_server := HttpServer_ctor (cf_http cfg) |}
  | _, _, _ => undef
  end.

Definition http_port (s : ControlPlane) : Z := hp_port (se_http_server s).
Definition tcp_port (s : ControlPlane) : Z := ts_port (se_tcp_server s).

(** [main] of the control plane, up to [run()] *)
Definition cp_start `{Cxxopts} `{JSONInputArchive} (files : string -> option archive) (fargate : bool) (memory : Z) (bound : Z -> Z)
    (open : string -> option (outcome jvalue)) (argv : list string) : M HTTPClientFactory ControlPlane :=
  cfg ← lift (Config_from_args files argv);
  match cf_http_client_io_threads cfg with
  | None => undef
  | Some n => factory_initialize n ≫= fun _ => Server_ctor fargate memory bound open cfg
  end.

(** what the processes of an assembled server are told: the parameter of CpApplication.v *)
Definition cp_config (s : ControlPlane) : CpConfig := {|
  cfg_swap_root := root_path (get_location (se_local_path s) EmptyString);
  cfg_tcp_address := bd_tcp_ip (se_backend s) +:+ ":" +:+ pretty (tcp_port s);
|}.

(** the request of [DockerBackend::allocate_process] *)
Definition allocate_request (s : ControlPlane) (container process : string) : outcome (string * ClientRequest) :=
  match bd_kind (se_backend s), bd_tcp_port (se_backend s) with
  | DockerBackend client, Some port =>
      client_post_json client "/create" [("process", process)] (allocation_body container (bd_tcp_ip (se_backend s)) port)
  | _, _ => Undef
  end.

(** *** The serving *)

(** [main], up to [wait()]: nothing is started without a configuration *)
Definition serving_start `{Cxxopts} `{JSONInputArchive} (files : string -> option archive) (argv : list string) :
    M HTTPClientFactory (option (ServingOptions * HTTPClient * Serving)) :=
  factory_initialize 1 ≫= fun _ =>
  opts ← lift (serving_opts files argv);
  match opts with
  | None => mret None
  | Some o =>
      client ← factory_create_client "http://127.0.0.1" (vo_docker_port o);
      mret (Some (o, client, Serving_ctor (handler_options o)))
  end.
End control_plane.

Inductive serving_endpoint : Type := create_ | kill_ | cache_image_.
(** [METHOD_LIST_BEGIN ... METHOD_LIST_END]: the names after the question mark *)
Definition serving_method_list : list (http_method * list segment * (serving_endpoint * string)) :=
  [ (Post, [Lit "create"], (create_, "process")); (Post, [Lit "kill"], (kill_, "process"));
    (Post, [Lit "cache"], (cache_image_, "image")) ].
(** the handler a request leads to *)
Definition serving_event `{Drogon} (k : nat) (r : ClientRequest) : option sv_event :=
  '((e, name), _) ← route serving_method_list (cr_method r) (cr_path r);
  let arg := default EmptyString (cr_params r !! name) in
  Some match e with
  | create_ => EvHttpCreate k arg (cr_body r ≫= carried)
  | kill_ => EvHttpKill k arg
  | cache_image_ => EvHttpCache k arg
  end.

(** ** What holds of the servers *)

(** what a configuration that is read has *)
Lemma configuration_read `{JSONInputArchive} a c : Config_deserialize a = Ret c ->
  is_Some (cf_workers c) /\ is_Some (cf_http_client_io_threads c) /\ cf_deployment_type c = None.
Proof.
  unfold Config_deserialize, Config_load. intros E. do 9 (apply bind_ret_inv in E as (?&_&E)). injection E as <-. cbn. eauto.
Qed.

Section control_plane_starts.
Context `{JsonCpp} `{HX : CxxoptsLaws} `{JSONInputArchive}.

(** The control plane that a configuration file asks for, with the Docker back
    end: it listens where the file says, processes are told its public address and
    the port its TCP server is bound to, and a request for a process goes to the
    serving of the file with the name of the container and that address.  It is
    also required that the memory of [deployment_type], which nothing
    initialises, holds the number of [LOCAL]: otherwise there is no deployment, and
    a null pointer is dereferenced. *)
Theorem control_plane_starts files exe file a c fargate memory bound open address port :
  option_value file -> files file = Some a -> Config_deserialize a = Ret c ->
  construct fargate c = Some (BackendDocker address (Some port)) ->
  let start := cp_start files fargate memory bound open (exe :: option_args [("config", file)]) HTTPClientFactory_init in
  let tcp := bound (tc_port (cf_tcpserver c)) in
  (memory <> 0%Z -> start.1 = Undef) /\
  (memory = 0%Z -> exists s, start.1 = Ret s /\ http_port s = hs_port (cf_http c) /\ tcp_port s = tcp /\ se_attached s = true /\
     cp_config s = {| cfg_swap_root := EmptyString; cfg_tcp_address := cf_public_ip_address c +:+ ":" +:+ pretty tcp |} /\
     forall container process, allocate_request s container process = Ret
       (if (port =? -1)%Z then "http://" +:+ address else ("http://" +:+ address) +:+ ":" +:+ pretty port,
        {| cr_method := Post; cr_path := "/create"; cr_params := {["process" := process]};
           cr_body := Some (allocation_body container (cf_public_ip_address c) tcp) |})).
Proof.
  intros Hf Ho Hc Hb start tcp. destruct (configuration_read _ _ Hc) as ([wk Hw]&[n Hn]&Hd).
  assert (start = Server_ctor fargate memory bound open c {| hf_pool := Some n; hf_default_loop := LoopAlive |}) as ->.
  { unfold start, cp_start. rewrite (proj1 (proj2 (proj2 (configurations_are_read files exe file a (fun _ => None) Hf Ho)))), Hc.
    unfold lift at 1, mbind at 1, M_bind. rewrite Hn. reflexivity. }
  unfold Server_ctor, Backend_construct. rewrite Hb, Hw. unfold Deployment_construct. rewrite Hd. cbn.
  unfold factory_create_client, create_client. cbn. split.
  - intros Hm. now rewrite (proj2 (Z.eqb_neq _ _) Hm).
  - intros ->. eexists. split; [reflexivity|]. do 4 (split; [reflexivity|]). intros container process. reflexivity.
Qed.

End control_plane_starts.

Lemma pretty_N_char_ascii d : (d < 10)%N -> (Ascii.N_of_ascii (pretty_N_char d) <? 128)%N = true.
Proof. intros Hd. destruct d as [|d]; [reflexivity|]. do 4 (destruct d as [d|d|]; try reflexivity; try lia). Qed.
Lemma ascii_pretty_N x : forall s, ascii_text s -> ascii_text (pretty_N_go x s).
Proof.
  induction x as [x IH] using (well_founded_induction N.lt_wf_0). intros s Hs.
  assert (x = 0 \/ 0 < x)%N as [->|Hx] by lia; [now rewrite pretty_N_go_0|]. rewrite pretty_N_go_step by done.
  apply IH; [apply N.div_lt; lia|]. unfold ascii_text. cbn [all_chars]. rewrite pretty_N_char_ascii by (apply N.mod_lt; done). exact Hs.
Qed.
Lemma ascii_pretty (z : Z) : ascii_text (pretty z).
Proof.
  destruct z as [|x|x]; [reflexivity| |]; unfold pretty, pretty_Z, pretty, pretty_positive, pretty, pretty_N;
    rewrite decide_False by done; [now apply ascii_pretty_N|]. apply ascii_text_app; [reflexivity|]. now apply ascii_pretty_N.
Qed.

Section serving.
Context `{HD : DrogonLaws}.

Lemma allocation_carried container ip port : ascii_text container -> ascii_text ip ->
  carried (allocation_body container ip port) = Some (allocation_body container ip port).
Proof.
  intros Hc Hi. apply clean_members; cbn [fmap list_fmap fst snd].
  - apply (bool_decide_unpack _). vm_compute. exact I.
  - repeat (apply List.Forall_cons; [reflexivity|]). apply List.Forall_nil.
  - apply List.Forall_cons; [now apply clean_string|]. apply List.Forall_cons; [|apply List.Forall_nil].
    apply clean_string, ascii_text_app; [done|]. apply ascii_text_app; [reflexivity|apply ascii_pretty].
Qed.

Lemma serving_routed i m l e : serving_method_list !! i = Some (m, [Lit l], e) ->
  route serving_method_list m ("/" +:+ l) = Some (e, []).
Proof.
  intros Hi. replace ("/" +:+ l) with (fill [Lit l] []) by (cbn [fill]; now rewrite string_app_nil_r).
  apply (route_fill _ serving_method_list i m [Lit l] e []); [|done| |done|apply List.Forall_nil].
  - repeat (apply List.Forall_cons; [apply List.Forall_cons; [now split|apply List.Forall_nil]|]). apply List.Forall_nil.
  - intros j p' e' Hj Hne. pose proof (lookup_lt_Some _ _ _ Hi). pose proof (lookup_lt_Some _ _ _ Hj). cbn in *.
    do 3 (destruct i as [|i]; [injection Hi as <- <- <-;
      do 3 (destruct j as [|j]; [first [done | (injection Hj as <- <-; reflexivity) | discriminate Hj]|]); lia|]). lia.
Qed.

(** What the control plane asks for is the event that the serving handles: the
    creation of a container of the name it gives, under the name of the process,
    with its own address. *)
Theorem requests_reach_serving s container process to r k :
  allocate_request s container process = Ret (to, r) -> ascii_text container -> ascii_text (bd_tcp_ip (se_backend s)) ->
  exists port, bd_tcp_port (se_backend s) = Some port /\
    serving_event k r = Some (EvHttpCreate k process (Some (allocation_body container (bd_tcp_ip (se_backend s)) port))).
Proof.
  intros Ha Hc Hi. unfold allocate_request in Ha. destruct (bd_kind _) as [client|]; [|done].
  destruct (bd_tcp_port _) as [port|]; [|done]. exists port. split; [done|].
  unfold client_post_json, client_request in Ha. destruct (hc_address client) as [a|]; [|done].
  destruct (hc_loop client); try done. injection Ha as <- <-. unfold serving_event. cbn [cr_method cr_path cr_params cr_body foldl fst snd].
  change "/create" with ("/" +:+ "create"). rewrite (serving_routed 0 Post "create" (create_, "process") eq_refl). cbn. rewrite lookup_insert_eq. cbn.
  now rewrite allocation_carried.
Qed.

End serving.

Section serving_starts.
Context `{JsonCpp} `{HX : CxxoptsLaws} `{JSONInputArchive}.

(** The serving that a configuration file asks for sends its requests to the Docker
    daemon of the file and answers with the addresses of the file; without a file
    that it can open it does not start. *)
Theorem serving_starts files exe file a o :
  option_value file -> ServingOptions_serialize a = Ret o ->
  let argv := exe :: option_args [("config", file)] in
  (files file = Some a -> exists client,
     serving_start files argv HTTPClientFactory_init =
       (Ret (Some (o, client, Serving_ctor (handler_options o))), MkFactory (Some 1%Z) LoopAlive) /\
     hc_loop client = LoopAlive /\
     (vo_docker_port o <> (-1)%Z -> hc_address client = Some ("http://127.0.0.1:" +:+ pretty (vo_docker_port o)))) /\
  (files file = None -> (serving_start files argv HTTPClientFactory_init).1 = Ret None).
Proof.
  intros Hf Ho argv. unfold serving_start, serving_opts.
  assert (as_text serving_declared argv "config" = Ret file) as ->.
  { apply as_text_given; [|now left]. apply config_given; [now left|done]. }
  split; intros E.
  - cbn. rewrite E. cbn. rewrite Ho. cbn. eexists. split; [reflexivity|]. split; [reflexivity|].
    intros Hp. now rewrite (proj2 (Z.eqb_neq _ _) Hp).
  - cbn. now rewrite E.
Qed.
End serving_starts.

(** ** Witnesses: a kernel with a table, and the files of a deployment *)
#[export] Instance plain_epoll : Epoll | 10 := {|
  epoll_set := gmap Z epoll_event;
  epoll_create := Some ∅;
  epoll_ctl op fd e s :=
    match op, s !! fd with
    | EPOLL_CTL_ADD, None | EPOLL_CTL_MOD, Some _ => (true, <[fd := e]> s)
    | _, _ => (false, s)
    end;
  epoll_wait n ready s := take n (filter (fun x : Z * epoll_event => ready x.1 = true) (map_to_list s)).*2;
|}.
#[export] Instance plain_epoll_laws : EpollLaws plain_epoll | 10.
Proof.
  refine {| epoll_interest := fun s : @epoll_set plain_epoll => s |}.
  - now intros s [= <-].
  - intros fd e s E. cbn. rewrite E. eauto.
  - intros fd e s [x E]. cbn. now rewrite E.
  - intros n ready s e [i Hi]%list_elem_of_lookup_1. cbn in Hi. apply lookup_take_Some in Hi as [Hi _].
    apply list_elem_of_lookup_2, list_elem_of_fmap in Hi as ([fd e']&->&Hin). apply list_elem_of_filter in Hin as [Hr Hin].
    apply elem_of_map_to_list in Hin. exists fd, e'. auto.
  - intros n ready s fds fd e Hfds Hn He Hr. exists e. split; [|done]. cbn. rewrite take_ge.
    + apply list_elem_of_fmap. exists (fd, e). split; [done|]. apply list_elem_of_filter. split; [done|]. now apply elem_of_map_to_list.
    + etrans; [|exact Hn]. rewrite length_fmap, <-(length_fmap fst). apply submseteq_length, NoDup_submseteq.
      * apply (sublist_NoDup _ (map_to_list (s : gmap Z epoll_event)).*1); [apply NoDup_fst_map_to_list|].
        apply fmap_sublist, sublist_filter.
      * intros fd' ([fd'' e']&->&Hin)%list_elem_of_fmap. apply list_elem_of_filter in Hin as [Hr' Hin]. cbn in *.
        apply elem_of_map_to_list in Hin. apply Hfds; eauto.
Defined.

Definition python_config : ControllerCfg :=
  {| pc_port := Some 8080%Z; pc_function_workers := Some 2%Z; pc_verbose := Some false; pc_ipc_mode := Some POSIX_MQ;
     pc_ipc_message_size := Some 8192%Z; pc_process_id := "p"; pc_deployment_location := EmptyString;
     pc_ipc_name_prefix := EmptyString; pc_control_plane_addr := None;
     pc_code := {| cc_location := "/code"; cc_config_location := "config.json"; cc_language := Some PYTHON;
                   cc_language_runtime_path := EmptyString |} |}.
Definition code_files (path : string) : option (@value json_rapid) :=
  if decide (path = "/code/config.json") then Some sample_config else None.

Lemma controller_watches_witness : exists functions s,
  Controller_setup code_files (Some 5%Z) (Some <$> [7; 9]%Z) python_config = Ret (functions, s) /\
  WorkerReady 1 ∈ polled (fun fd => fd =? 9)%Z s /\ WakeUp ∉ polled (fun fd => fd =? 9)%Z s.
Proof.
  destruct (initialize_table sample_config _ _ PYTHON eq_refl eq_refl eq_refl) as (fs&Hr&_); [repeat constructor|].
  destruct (controller_watches (EpollLaws0 := plain_epoll_laws) code_files 5 [7; 9]%Z python_config sample_config PYTHON fs
    eq_refl eq_refl Hr ltac:(now eexists) ltac:(apply (bool_decide_unpack _); vm_compute; exact I)) as [(s&E&Hp) _].
  exists fs, s. split; [exact E|]. destruct (Hp (fun fd => fd =? 9)%Z) as [Hs Hc]. split.
  - apply (proj2 (Hc ltac:(vm_compute; lia)) 1 9%Z eq_refl eq_refl).
  - intros [[_ H']|(i&fd&H'&_)]%Hs; discriminate H'.
Defined.

Definition cp_files (name : string) : option (@archive plain_archive) :=
  if decide (name = "config.json") then Some (minimal_config []) else None.

Lemma control_plane_starts_witness : exists s,
  (cp_start (H := plain_json) cp_files false 0 (fun _ => 6000%Z) (fun _ => None) ["cp"; "--config"; "config.json"] HTTPClientFactory_init).1 = Ret s /\
  cfg_tcp_address (CpConfig := cp_config s) = "1.2.3.4:6000".
Proof.
  destruct (control_plane_starts (H := plain_json) (HX := plain_cxxopts_laws) cp_files "cp" "config.json" (minimal_config [])
    _ false 0 (fun _ => 6000%Z) (fun _ => None) "127.0.0.1" 8080 ltac:(split; [discriminate|reflexivity]) eq_refl eq_refl eq_refl)
    as [_ Hs]. destruct (Hs eq_refl) as (s&E&_&_&_&Hc&_). exists s. split; [exact E|]. now rewrite Hc.
Defined.

(** the request of that control plane, and the serving that answers it *)
Definition demo_plane : @ControlPlane plain_json := {|
  se_backend := {| bd_kind := DockerBackend {| hc_address := Some "http://127.0.0.1:8080"; hc_loop := LoopAlive |};
                   bd_tcp_ip := "1.2.3.4"; bd_tcp_port := Some 6000%Z |};
  se_local_path := EmptyString; se_pool := 1; se_attached := true; se_tcp_server := MkTcpServer 6000 1 true;
  se_http_server := MkHttpServer 8080 1 1048576;
|}.
Lemma requests_reach_serving_witness : exists to r,
  allocate_request demo_plane "image" "p" = Ret (to, r) /\
  serving_event 1 r = Some (EvHttpCreate 1 "p" (Some (allocation_body "image" "1.2.3.4" 6000))).
Proof.
  destruct (allocate_request demo_plane "image" "p") as [[to r]| |] eqn:E; try discriminate E. exists to, r. split; [done|].
  destruct (requests_reach_serving (HD := plain_drogon_laws) demo_plane "image" "p" to r 1 E eq_refl eq_refl) as (port&Hp&Hs).
  injection Hp as <-. exact Hs.
Defined.

Definition serving_json : @archive plain_archive :=
  Http.JObject [("server-address", Http.JString "127.0.0.1"); ("http-port", JInt 8080); ("docker-port", JInt 2375);
                ("process-port", JInt 8000); ("threads", JInt 1); ("max-processes", JInt 4)].
Definition serving_files (name : string) : option (@archive plain_archive) :=
  if decide (name = "serving.json") then Some serving_json else None.
Lemma serving_starts_witness : exists started,
  (serving_start (H := plain_json) serving_files ["serving"; "--config"; "serving.json"] HTTPClientFactory_init).1 = Ret (Some started) /\
  hc_address started.1.2 = Some "http://127.0.0.1:2375".
Proof.
  destruct (serving_starts (H := plain_json) (HX := plain_cxxopts_laws) serving_files "serving" "serving.json" serving_json
    (MkServingOptions 4 8080 "127.0.0.1" 2375 8000 1 false) ltac:(split; [discriminate|reflexivity]) eq_refl) as [Hs _].
  destruct (Hs eq_refl) as (client&E&_&Ha). eexists. split; [exact (f_equal fst E)|]. apply Ha. discriminate.
Defined.
